(* ===== verification/_CoqProject ===== *)
-Q . S2P
Prelude.v
GoTime.v
Utf8.v
Json.v
Hex.v
Sha256.v
JsonText.v
Durations.v
Markdown.v
Mime.v
DotWriter.v
Domain.v
World.v
Smtp.v
SampleEnv.v
Net.v
Repository.v
Integrity.v
Tasks.v
Provider.v
Samples.v
RepositoryProps.v
Emitter.v
Dispatcher.v
DispatcherFacts.v
Lifecycle.v
LifecycleProps.v
EventDelivery.v
Vectors.v
ChatProviders.v
Email.v
ProviderFacts.v
SampleMail.v
ProvidersProps.v
EmailFacts.v
EmailProps.v
TasksProps.v
Http.v
Recorder.v
Quota.v
QuotaProps.v
Maintenance.v
Ssrf.v
SsrfProps.v
HttpClient.v
Services.v
ServicesFacts.v
Application.v
ApplicationProps.v
Transactions.v
TransactionProps.v
Auth.v
SampleJwt.v
Handlers.v
Router.v
SdkTypes.v
Sdk.v
BotFormat.v
Bot.v
BotHtml.v
ApiFacts.v
ApiProps.v
SdkProps.v
SdkServer.v
BotFacts.v
BotProps.v
System.v
SystemFacts.v
SystemSteps.v
SystemEvents.v
SampleRun.v
Killed.v
SystemProps.v
