(* ===== verification/Prelude.v ===== *)
(** * notifyd: a verification development

    notifyd is a multi-tenant notification service written in Go.  Tenants
    authenticate with API keys, configure channels (Discord, Telegram, WhatsApp,
    email, Slack, webhook) and post messages over HTTP; the API stores a
    notification in PostgreSQL and enqueues a task in Redis (asynq); a worker
    delivers the task through the channel's provider, retries it, records every
    attempt and, at the end, sends a signed status event to the tenant's webhook
    endpoints.  Plans limit messages per period (a counter in Redis), channels,
    keys and retention.

    ** How the program is represented

    Go functions are Rocq functions of the same name, methods are written
    [Type_Method].  Code that touches the outside is a computation in the state
    monad [M] over [World] (World.v): the database tables, Redis, the tasks
    enqueued, the HTTP requests made, what is said to SMTP servers, the log, and
    a tick that numbers every interaction.  [result] is Go's [(value, error)]; an [error] is its text and
    the sentinels [errors.Is] finds.  Integers are [Z] with the wrap-around
    written where the code can overflow ([wrap64], [in_int4]); times and
    durations are nanoseconds.

    Everything outside the repository is a field of the class [Env]: the clock,
    random numbers and UUIDs, hashes, URL parsing, the queue's and peers'
    answers, the order in which PostgreSQL delivers rows and Go ranges over a
    map, and [env_fault], which for each round trip says whether it works, is
    lost, or takes effect without an acknowledgement.  Mail addresses, the
    Markdown renderer and the local time zone are the class [Mail], the answers
    of the Telegram API the class [Telegram].  What the
    theorems need of them are named classes and records: [UuidLaws], [RandLaws],
    [PgLaws], [RedisLaws], [MapLaws], [JwtLaws], [MailLaws], [ProviderLaws], and
    [services_up] where nothing fails.  SampleEnv.v, SampleJwt.v and SampleMail.v
    give concrete instances of all of them, on which the theorems are run.

    ** The files, and the sources they model

    - Prelude: errors, the state monad and its frame lemmas, machine integers,
      strings; the sentinels of domain/errors.go.
    - GoTime, Json, Hex, Net: what the program uses of time, encoding/json,
      encoding/hex and net; Sha256: crypto/sha256 and crypto/hmac, executable; Utf8, JsonText: the text of JSON documents, its
      parser and that it reads back what is written; Mime: quoted-printable and
      encoded words; DotWriter: a message inside SMTP's DATA; Smtp: the client of net/smtp, command by command; Durations:
      how time.Duration is printed and parsed.
    - Domain: internal/domain.
    - World, SampleEnv, Samples: the environment, a concrete one, small data.
    - Repository: internal/repository, each SQL statement as a function on
      tables with its constraints; Integrity: the contract [db_ok] of the tables
      and that every method preserves it; RepositoryProps.
    - Tasks (worker/tasks.go, webhook_event_task.go,
      webhook_event_retry_delay.go, the delay of cmd/worker), TasksProps.
    - Provider: the interface and registry of internal/provider.
    - Markdown: the conversion of provider/slack.go; ChatProviders: discord.go,
      slack.go, telegram.go, whatsapp.go and webhook.go; Email: email.go and the
      registry cmd/worker builds; ProviderFacts: the laws of all six backends;
      EmailFacts: a small logic for runs of an SMTP session; ProvidersProps,
      EmailProps.
    - Emitter: worker/webhook_event_emitter.go and webhook_event_enqueuer.go,
      and the class [TerminalEventEmitter] the worker is proved against.
    - Dispatcher: worker/dispatcher.go and error_handler.go; DispatcherFacts:
      the refinement of one attempt; Lifecycle: the retry loop [process] and the
      lifecycle by induction on the retries left; LifecycleProps.
    - EventDelivery: worker/webhook_event_delivery.go, provider/hmac_signing.go
      and the verification function of sdks/go/signature.go; Vectors: the
      generator sdks/testdata/gen of the signatures the SDKs are tested with.
    - Http: requests, whose bodies are readers that can be limited, drained and
      put back, responses, claims and JSON forms (pkg/response, auth/claims.go).
    - Recorder: the status recorder of quota/middleware.go and what pkg/response
      does with a ResponseWriter.
    - Quota: internal/quota, with the interleavings of concurrent requests as
      the step relation [qstep]; QuotaProps.
    - Maintenance: worker/retention.go.
    - Ssrf: provider/ssrf_guard.go and url_validation.go; SsrfProps;
      HttpClient: NewGuardedHTTPClient of provider/hmac_signing.go, with what
      net/http does about redirects.
    - Services: internal/service; ServicesFacts: every outcome of [Send].
    - Application: the invariant [app_ok] of the whole service and that every
      operation preserves it; ApplicationProps.
    - Transactions: the statements of the two CreateWithinLimit methods of
      internal/repository in concurrent sessions, with PostgreSQL's row lock;
      TransactionProps.
    - Auth: internal/auth and handler/auth_handler.go; Handlers: internal/handler;
      Router: the routes of internal/router with their middleware and the limit
      on bodies; ApiFacts: what a tenant's request can touch; ApiProps.
    - SdkTypes: sdks/go/types.go with its wire form; Sdk: client.go and the
      methods of channels.go, keys.go, notifications.go and webhooks.go, and the
      interleavings of goroutines that share a client ([tstep]); SdkProps;
      SdkServer: the client's [Send] against the routed server.
    - BotFormat: bot/format.go and redact.go; Bot: bot/bot.go and handlers.go;
      BotHtml: Telegram's reading of HTML messages; BotFacts: what an update can
      make the bot do; BotProps.
    - System: internal/config and the main functions of cmd/api, cmd/worker and
      cmd/admin-bot, and the processes together: the state is the world and
      the queue with the retries of each task, a step [sstep] serves a request,
      runs a task ([work]), enqueues a scheduled task or answers an update of
      the bot.  SystemFacts: what each of them can change ([evolves],
      [delivers]); SystemSteps: the invariants [sound], which no failure breaks,
      and [covered], that no notification is lost; SystemEvents: that the events in
      the queue are those of finished notifications ([announced]); SampleRun: a run of the
      system from an empty installation to a delivered message; Killed: a worker that
      dies in the middle of a task; SystemProps.

    ** What the theorems show

    - The system: whatever the three processes do in whatever order, every
      unfinished notification has its task in a queue the worker serves and every
      finished one has none ([no_notification_lost]); the worker, left alone,
      comes to an end with every notification delivered or failed
      ([worker_drains_queue]); at most one outcome event is ever
      enqueued for a notification and an endpoint ([one_outcome_announced]);
      tables and queue stay well formed whatever fails ([system_invariant]); the scheduled jobs are never run, because no served
      queue holds them ([scheduled_tasks_never_run]).
    - Delivery: an accepted notification is processed to delivered or failed
      within its retries, with one event per subscribed endpoint
      ([accepted_notification_reaches_end], [notification_lifecycle]), by
      refinement of an abstract attempt ([dispatch_refines_attempt]); processing
      touches nothing else ([delivery_isolated]); attempts and events are
      recorded and identified exactly; events reach the receiver with a signature
      it accepts for nothing else ([emitted_event_delivered]), and the published
      test signatures are what the code computes ([signature_vectors_published]).
      A worker killed anywhere in a delivery, and the task run again, still
      brings the notification to its end ([killed_worker_recovers]).
    - Backends: the request each chat backend makes and how its answer is
      classified ([chat_messages_delivered]); webhook requests are signed and
      their headers cannot be forged ([webhook_request_protected]); the Slack
      conversion renders documents ([slack_markdown_rendered]); email says
      nothing confidential in the clear ([email_secrets_encrypted]), reports
      success exactly when the server took the message, fails for good only on a
      5xx reply, and its message arrives whole inside SMTP's DATA with the headers
      and the body it should have ([email_body_read_back]).
    - Data: the tables' contract and the application's invariant hold after any
      history with any failures ([repository_integrity],
      [application_invariant]); round trips and caps of the repositories; keys and
      endpoints created at once under a limit are created as if one after the
      other, and never deadlock ([concurrent_creates_linearizable],
      [concurrent_creates_return]).
    - API: tenants only write and read their own rows
      ([tenant_requests_confined], [reads_reveal_own_rows]); routes require
      credentials; tokens and service signatures are accepted exactly when they
      should be; [Send] accepts exactly what it should.
    - Quota: exact counting, also under concurrency; the size charged.
    - SDK: with the server's own code on the other side, a token the client
      reuses is one the server accepts ([cached_token_accepted]) and messages,
      answers and errors mean the same at both ends
      ([sdk_send_agrees_with_api], [sdk_reads_api_errors]); goroutines share one
      exchange ([concurrent_callers_share_token]); a call is repeated at most
      once ([sdk_retries_once]); a message sent through the SDK is the one the
      server stores and enqueues ([sdk_send_stored]).
    - Admin bot: strangers change nothing ([bot_ignores_strangers]); a tenant is
      deleted only by a confirmation in the admin chat
      ([bot_deletes_only_confirmed], [delete_dialogue_deletes]); rows are shown
      as they are ([bot_shows_rows]) and the token stays out of the log.
    - Outbound connections: the blocked ranges are exact, and the client for URLs
      chosen by tenants never dials a blocked address nor follows a redirect
      ([guarded_client_safe]).
    - Jobs: retention and reconciliation do exactly what the plans say.
    - Defects are theorems too: the overflow of the retry delay, notifications
      stranded by a transient error, attempts lost on non-JSON answers, requests
      undercharged, tenants left without a key, a MIME boundary and a Message-ID
      taken from text that is not checked, bot messages Telegram refuses, jobs
      scheduled into a queue nobody serves, a message sent a second time after a
      worker was killed.

    ** Bounds and fuel

    [process] recurses on the retries left, so it needs no fuel; runs of the worker
    are sequences of steps, and [worker_drains_queue] shows that they end by a
    measure of the retries left.  The page loop
    of the jobs (500 tenants a page) has a fuel of pages; its theorems state that
    fuel for more than the number of tenants makes it return, and [purge_total]
    and [reconcile_total] that the fuel the worker's mux gives it is enough.  The scanners
    ([all_space], number and address parsers) recurse on the text or take its
    length as fuel: the passes of the Slack conversion take one more step than the
    text has bytes, which [markdown_passes_terminate] shows to be enough; the
    parser of JSON text takes twice the length and is shown to read every document
    [Marshal] writes; [ParseDuration] takes the length of its text, of which every
    component uses two bytes or more; a 64-bit number has at most 16 hex digits.
    Retry counts are bounded by the int4 column where a theorem counts them.

    ** What is not modelled

    What a shutdown does to requests and tasks in flight, the servers' timeouts, long polling of the bot, generated
    mocks and SQL migrations (their constraints are in Repository).  In [sstep] a
    handler call is one step, and a task that waits for its retry may be run at any
    time; workers that die inside a handler are modelled for delivery tasks (Killed),
    apart from [sstep].  Of the libraries: the position in a
    base64 error text, printable runes outside ASCII in [%q].  In the
    router, path matching and the library middleware around all routes.  A [Send]
    of [SendMulti] is one step of its interleaving; the statements of two
    concurrent requests are not interleaved further, except for the quota counter and the
    two CreateWithinLimit transactions.
    Context deadlines and cancellation are the [Lost] and [Unacked] faults.  *)
From stdpp Require Export base gmap strings list pretty sorting.
#[export] Set Default Goal Selector "!".

(** ** Go errors

    A Go error value is its rendered text and what [errors.Is] and [errors.As]
    find along its [%w] chain: sentinel values, and the error types the program
    asks for (an SMTP reply with its code, a permanent email error). *)

Inductive sentinel :=
| ErrNotFound
| ErrValidationFailed
| ErrUnsupportedChannel
| ErrMetricsNotSupported
| ErrChannelNotInPlan
| ErrKeyLimitReached
| ErrWebhookLimitReached
| ErrPeriodExpired
| errBlockedAddress
| SkipRetry
| textproto_Error (code : Z)
| permanentEmailError.

#[export] Instance sentinel_eq_dec : EqDecision sentinel.
Proof. solve_decision. Defined.

Definition sentinel_Error (s : sentinel) : string :=
  match s with
  | ErrNotFound => "not found"
  | ErrValidationFailed => "validation failed"
  | ErrUnsupportedChannel => "unsupported channel"
  | ErrMetricsNotSupported => "metrics not supported"
  | ErrChannelNotInPlan => "channel not in plan"
  | ErrKeyLimitReached => "api key limit reached"
  | ErrWebhookLimitReached => "webhook endpoint limit reached"
  | ErrPeriodExpired => "subscription period expired"
  | errBlockedAddress => "refusing to connect to a private/internal address"
  | SkipRetry => "skip retry for the task"
  | textproto_Error code => pretty code
  | permanentEmailError => "permanent email error"
  end.

Record error := mkError { err_Error : string; err_chain : list sentinel }.

(** The two-valued results [(T, error)] of Go; [result unit] is a lone [error]
    with [Ok tt] for [nil]. *)
Inductive result (A : Type) : Type :=
| Ok (a : A)
| Err (e : error).
Arguments Ok {A} a.
Arguments Err {A} e.

Definition is_Ok {A} (r : result A) : bool :=
  match r with Ok _ => true | Err _ => false end.

Definition errors_Is (e : error) (s : sentinel) : bool := bool_decide (s ∈ err_chain e).

(** [errors.New], or [fmt.Errorf] without a [%w] verb. *)
Definition errors_New (msg : string) : error := mkError msg [].
(** A sentinel variable used as an error. *)
Definition sentinel_error (s : sentinel) : error := mkError (sentinel_Error s) [s].
(** [fmt.Errorf("%w: msg", s)]. *)
Definition errorf_s (s : sentinel) (msg : string) : error :=
  mkError (sentinel_Error s +:+ ": " +:+ msg) [s].
(** [fmt.Errorf("msg: %w", e)]. *)
Definition errorf_w (msg : string) (e : error) : error :=
  mkError (msg +:+ ": " +:+ err_Error e) (err_chain e).
(** [fmt.Errorf("%w: %w", s, e)]. *)
Definition errorf_sw (s : sentinel) (e : error) : error :=
  mkError (sentinel_Error s +:+ ": " +:+ err_Error e) (s :: err_chain e).
(** [fmt.Errorf("%w: msg: %w", s, e)]. *)
Definition errorf_smw (s : sentinel) (msg : string) (e : error) : error :=
  mkError (sentinel_Error s +:+ ": " +:+ msg +:+ ": " +:+ err_Error e) (s :: err_chain e).
(** [fmt.Errorf("msg: %w: %w", e, s)]. *)
Definition errorf_ws (msg : string) (e : error) (s : sentinel) : error :=
  mkError (msg +:+ ": " +:+ err_Error e +:+ ": " +:+ sentinel_Error s) (err_chain e ++ [s]).
(** [fmt.Errorf("msg: %w", s)]. *)
Definition errorf_m (msg : string) (s : sentinel) : error :=
  mkError (msg +:+ ": " +:+ sentinel_Error s) [s].

Definition map_err {A} (f : error → error) (r : result A) : result A :=
  match r with Ok a => Ok a | Err e => Err (f e) end.

(** ** The state monad of the handlers *)

Definition ST (W A : Type) : Type := W → A * W.

#[export] Instance ST_ret W : MRet (ST W) := λ A a w, (a, w).
#[export] Instance ST_bind W : MBind (ST W) := λ A B f m w, let '(a, w') := m w in f a w'.
#[export] Instance ST_fmap W : FMap (ST W) := λ A B f m w, let '(a, w') := m w in (f a, w').

Lemma ST_bind_run {W A B} (m : ST W A) (f : A → ST W B) w : (m ≫= f) w = f (m w).1 (m w).2.
Proof. unfold mbind, ST_bind. by destruct (m w). Qed.

(** [x ←? m; k] is Go's [x, err := m; if err != nil { return ..., err }]. *)
Definition try_bind {W A B} (m : ST W (result A)) (k : A → ST W (result B)) : ST W (result B) :=
  r ← m; match r with Ok a => k a | Err e => mret (Err e) end.

Lemma try_bind_run {W A B} (m : ST W (result A)) (k : A → ST W (result B)) w :
  try_bind m k w = match (m w).1 with Ok a => k a (m w).2 | Err e => (Err e, (m w).2) end.
Proof. unfold try_bind. rewrite ST_bind_run. by destruct (m w) as [[]]. Qed.

Declare Scope go_scope.
Delimit Scope go_scope with go.
Notation "x ←? y ; z" := (try_bind y (λ x, z))
  (at level 20, y at level 100, z at level 200, only parsing) : go_scope.
Open Scope go_scope.

(** [m ⟪f⟫] wraps the error of [m] the way [fmt.Errorf] does. *)
Definition on_err {W A} (f : error → error) (m : ST W (result A)) : ST W (result A) :=
  map_err f <$> m.

Lemma on_err_run {W A} (f : error → error) (m : ST W (result A)) w : on_err f m w = (map_err f (m w).1, (m w).2).
Proof. unfold on_err, fmap, ST_fmap. by destruct (m w). Qed.

(** ** Reasoning about the monad: preorders kept by a computation *)

(** [keeps R m]: every run of [m] moves the world along [R]. *)
Definition keeps {W A} (R : relation W) (m : ST W A) : Prop := ∀ w, R w (m w).2.

Create HintDb keeps.

Section keeps.
Context {W : Type} (R : relation W) `{!PreOrder R}.

Lemma keeps_ret {A} (a : A) : keeps R (mret a : ST W A).
Proof. intros w. simpl. reflexivity. Qed.

Lemma keeps_bind {A B} (m : ST W A) (f : A → ST W B) :
  keeps R m → (∀ a, keeps R (f a)) → keeps R (m ≫= f).
Proof.
  intros Hm Hf w. unfold mbind, ST_bind. specialize (Hm w).
  destruct (m w) as [a w1]; simpl in *. specialize (Hf a w1). by etrans.
Qed.

Lemma keeps_try {A B} (m : ST W (result A)) (k : A → ST W (result B)) :
  keeps R m → (∀ a, keeps R (k a)) → keeps R (try_bind m k).
Proof. intros Hm Hk. apply keeps_bind; [done|]. intros []; auto using keeps_ret. Qed.

Lemma keeps_fmap {A B} (g : A → B) (m : ST W A) : keeps R m → keeps R (g <$> m).
Proof. intros Hm w. specialize (Hm w). unfold fmap, ST_fmap. by destruct (m w). Qed.

Lemma keeps_on_err {A} (f : error → error) (m : ST W (result A)) :
  keeps R m → keeps R (on_err f m).
Proof. apply keeps_fmap. Qed.

(** A loop [for _, x := range l] whose body moves along [R]. *)
Lemma keeps_foldM {A B} (f : B → A → ST W B) (l : list A) (b : B) :
  (∀ b x, keeps R (f b x)) →
  keeps R (foldl (λ m x, b ← m; f b x) (mret b) l).
Proof.
  intros Hf. assert (keeps R (mret b : ST W B)) as Hm by apply keeps_ret.
  revert Hm. generalize (mret b : ST W B). induction l as [|x l IH]; intros m Hm; simpl; [done|].
  apply IH. by apply keeps_bind.
Qed.
End keeps.

#[export] Hint Resolve keeps_ret keeps_bind keeps_try keeps_fmap keeps_on_err keeps_foldM : keeps.

(** Splits a computation into its primitive steps, casing on every test. *)
Ltac keeps_step :=
  match goal with
  | |- keeps _ (match ?x with _ => _ end) => destruct x
  | |- keeps _ (let '(_, _) := ?x in _) => destruct x
  | |- keeps _ (mret _) => apply keeps_ret; apply _
  | |- keeps _ (try_bind _ _) => apply keeps_try; [apply _| |intros ?]
  | |- keeps _ (mbind _ _) => apply keeps_bind; [apply _| |intros ?]
  | |- keeps _ (fmap _ _) => apply keeps_fmap
  | |- keeps _ (on_err _ _) => apply keeps_on_err
  end.
Ltac keeps_auto := repeat first [ solve [eauto 3 with keeps typeclass_instances] | keeps_step ].

(** ** Machine integers *)

Definition int64_min : Z := - 2 ^ 63.
Definition int64_max : Z := 2 ^ 63 - 1.
Definition in_int64 (z : Z) : Prop := (int64_min ≤ z ≤ int64_max)%Z.
Definition wrap64 (z : Z) : Z := ((z + 2 ^ 63) mod 2 ^ 64 - 2 ^ 63)%Z.

Lemma wrap64_id z : in_int64 z → wrap64 z = z.
Proof.
  unfold in_int64, wrap64, int64_min, int64_max. intros H.
  rewrite Z.mod_small; lia.
Qed.

Lemma wrap64_range z : in_int64 (wrap64 z).
Proof.
  unfold in_int64, wrap64, int64_min, int64_max.
  pose proof (Z.mod_pos_bound (z + 2 ^ 63) (2 ^ 64)). lia.
Qed.

(** Go's [/] on integers truncates toward zero. *)
Notation "x /t y" := (Z.quot x y) (at level 40, left associativity) : go_scope.

(** ** Strings *)

Definition HasPrefix (s p : string) : bool := String.prefix p s.

Fixpoint string_drop (n : nat) (s : string) : string :=
  match n, s with
  | O, _ => s
  | S n', String _ s' => string_drop n' s'
  | S _, EmptyString => EmptyString
  end.

Definition TrimPrefix (s p : string) : string :=
  if HasPrefix s p then string_drop (String.length p) s else s.

Definition HasSuffix (s p : string) : bool :=
  (String.length p <=? String.length s)%nat &&
  bool_decide (string_drop (String.length s - String.length p) s = p).

Definition ascii_lower (c : Ascii.ascii) : Ascii.ascii :=
  let n := Ascii.N_of_ascii c in
  if ((65 <=? n) && (n <=? 90))%N then Ascii.ascii_of_N (n + 32) else c.

Fixpoint ToLower (s : string) : string :=
  match s with
  | EmptyString => EmptyString
  | String c s' => String (ascii_lower c) (ToLower s')
  end.

(** [strings.EqualFold] on ASCII text. *)
Definition EqualFold (s t : string) : bool := bool_decide (ToLower s = ToLower t).

Lemma string_app_cons c (s t : string) : String c s +:+ t = String c (s +:+ t).
Proof. done. Qed.

Lemma string_app_nil_r (s : string) : s +:+ "" = s.
Proof. induction s as [|c s IH]; [done|]. by rewrite string_app_cons, IH. Qed.

Lemma string_app_assoc (s t u : string) : (s +:+ t) +:+ u = s +:+ (t +:+ u).
Proof. induction s as [|c s IH]; [done|]. by rewrite !string_app_cons, IH. Qed.

Lemma string_app_inj_r (s t u : string) : s +:+ t = s +:+ u → t = u.
Proof. induction s as [|c s IH]; [done|]. rewrite !string_app_cons. intros [= H]. auto. Qed.

Lemma string_length_app s t : String.length (s +:+ t) = (String.length s + String.length t)%nat.
Proof. induction s as [|c s IH]; [done|]. rewrite string_app_cons. simpl. by rewrite IH. Qed.

(** Splitting an append at a known length. *)
Lemma string_app_inj_len (s1 s2 t1 t2 : string) :
  String.length s1 = String.length s2 → s1 +:+ t1 = s2 +:+ t2 → s1 = s2 ∧ t1 = t2.
Proof.
  revert s2. induction s1 as [|c s1 IH]; intros [|d s2]; simpl; intros Hl He; try done.
  rewrite !string_app_cons in He. injection He as -> He. injection Hl as Hl. destruct (IH _ Hl He) as [-> ->]. done.
Qed.

Lemma HasPrefix_app (p s : string) : HasPrefix (p +:+ s) p = true.
Proof.
  unfold HasPrefix. induction p as [|c p IH]; [by destruct s|].
  rewrite string_app_cons; simpl. destruct (Ascii.ascii_dec c c); [done|congruence].
Qed.

Lemma HasPrefix_inv (s p : string) : HasPrefix s p = true → ∃ t, s = p +:+ t.
Proof.
  unfold HasPrefix. revert s. induction p as [|c p IH]; intros s; [by exists s|].
  destruct s as [|d s]; simpl; [done|]. destruct (Ascii.ascii_dec c d) as [->|]; [|done].
  intros H. destruct (IH _ H) as [t ->]. by exists t.
Qed.

Lemma string_drop_app (p s : string) : string_drop (String.length p) (p +:+ s) = s.
Proof. induction p as [|c p IH]; [done|]. exact IH. Qed.

Lemma TrimPrefix_app (p s : string) : TrimPrefix (p +:+ s) p = s.
Proof. unfold TrimPrefix. by rewrite HasPrefix_app, string_drop_app. Qed.

(** ** Lists and options *)

Lemma existsb_elem_of {A} `{EqDecision A} (x : A) (l : list A) :
  existsb (λ y, bool_decide (y = x)) l = true ↔ x ∈ l.
Proof.
  rewrite existsb_exists. setoid_rewrite bool_decide_eq_true.
  setoid_rewrite <- list_elem_of_In. naive_solver.
Qed.

Lemma foldl_snoc {A B} (f : B → A → B) (l : list A) b x : foldl f b (l ++ [x]) = f (foldl f b l) x.
Proof. by rewrite foldl_app. Qed.

(** Sum of a measure over a list of integers. *)
Definition sumZ {A} (f : A → Z) (l : list A) : Z := foldr (λ x s, (f x + s)%Z) 0%Z l.

Lemma sumZ_app {A} (f : A → Z) l k : sumZ f (l ++ k) = (sumZ f l + sumZ f k)%Z.
Proof. induction l as [|x l IH]; simpl; [done|]. rewrite IH. lia. Qed.

Lemma sumZ_nonneg {A} (f : A → Z) l : (∀ x, x ∈ l → (0 ≤ f x)%Z) → (0 ≤ sumZ f l)%Z.
Proof.
  induction l as [|x l IH]; intros H; simpl; [done|].
  pose proof (H x ltac:(set_solver)). enough (0 ≤ sumZ f l)%Z by lia. apply IH. set_solver.
Qed.
