(* ===== verification/GoTime.v ===== *)
(** * GoTime: the parts of Go's [time] package the program computes with

    An instant ([time.Time], read in UTC) is the number of nanoseconds since the
    Unix epoch; a [time.Duration] is a number of nanoseconds.  The proleptic
    Gregorian calendar behind [time.Date], [Time.Year], [Time.Month] and
    [Time.AddDate] is computed with 400-year eras of 146097 days, and RFC 3339
    with nanoseconds, the format of [Time.MarshalJSON], is printed and parsed. *)
From Stdlib Require Import Ascii.
From S2P Require Import Prelude.
Local Open Scope Z_scope.

Abbreviation Time := Z (only parsing).
Abbreviation Duration := Z (only parsing).

Definition Nanosecond : Duration := 1.
Definition Millisecond : Duration := 1000000.
Definition Second : Duration := 1000000000.
Definition Minute : Duration := 60 * Second.
Definition Hour : Duration := 60 * Minute.
Definition nsPerDay : Z := 24 * Hour.

(** ** Civil calendar *)

(** Day of the era on which its [y]-th year (from March) starts, and the year of
    the era a day belongs to. *)
Definition year_start (y : Z) : Z := 365 * y + y / 4 - y / 100.
Definition year_of_era (doe : Z) : Z :=
  (doe - doe / 1460 + doe / 36524 - doe / 146096) / 365.

Definition days_from_civil (y m d : Z) : Z :=
  let y' := if m <=? 2 then y - 1 else y in
  let era := y' / 400 in
  let yoe := y' mod 400 in
  let mp := if 2 <? m then m - 3 else m + 9 in
  let doy := (153 * mp + 2) / 5 + d - 1 in
  let doe := year_start yoe + doy in
  era * 146097 + doe - 719468.

Definition civil_from_days (z : Z) : Z * Z * Z :=
  let z' := z + 719468 in
  let era := z' / 146097 in
  let doe := z' mod 146097 in
  let yoe := year_of_era doe in
  let doy := doe - year_start yoe in
  let mp := (5 * doy + 2) / 153 in
  let d := doy - (153 * mp + 2) / 5 + 1 in
  let m := if mp <? 10 then mp + 3 else mp - 9 in
  (yoe + era * 400 + (if m <=? 2 then 1 else 0), m, d).

Lemma days_from_civil_era y m d k :
  days_from_civil (y + 400 * k) m d = days_from_civil y m d + 146097 * k.
Proof.
  unfold days_from_civil.
  assert ((if m <=? 2 then y + 400 * k - 1 else y + 400 * k)
          = (if m <=? 2 then y - 1 else y) + k * 400) as -> by (destruct (m <=? 2); lia).
  rewrite Z.div_add, Z.mod_add by lia. lia.
Qed.

Lemma civil_from_days_era z k y m d :
  civil_from_days z = (y, m, d) → civil_from_days (z + 146097 * k) = (y + 400 * k, m, d).
Proof.
  unfold civil_from_days.
  replace (z + 146097 * k + 719468) with (z + 719468 + k * 146097) by lia.
  rewrite Z.div_add, Z.mod_add by lia. intros [= <- <- <-]. do 2 f_equal. lia.
Qed.

(** The first day of month [m], months past December running into the next
    years the way [time.Date] normalises them. *)
Definition month_start (y m : Z) : Z :=
  days_from_civil (y + (m - 1) / 12) ((m - 1) mod 12 + 1) 1.

Lemma month_start_era y m k : month_start (y + 400 * k) m = month_start y m + 146097 * k.
Proof.
  unfold month_start. rewrite <- days_from_civil_era. f_equal. lia.
Qed.

(** *** Correctness of the calendar *)

Lemma year_of_era_mono a b :
  0 ≤ a → a ≤ b → b < 146097 → year_of_era a ≤ year_of_era b.
Proof.
  intros. unfold year_of_era. apply Z.div_le_mono; [lia|].
  assert (a - a / 1460 ≤ b - b / 1460) by (Z.to_euclidean_division_equations; lia).
  assert (b / 146096 = 0 ∨ b = 146096) as [Hb| ->]
    by (Z.to_euclidean_division_equations; lia).
  - assert (a / 146096 = 0) by (Z.to_euclidean_division_equations; lia).
    pose proof (Z.div_le_mono a b 36524). lia.
  - assert ((a / 146096 = 0 ∧ a / 36524 ≤ 3) ∨ a = 146096) as [[? ?]| ->]
      by (Z.to_euclidean_division_equations; lia); [|lia].
    change (146096 / 36524) with 4. change (146096 / 146096) with 1.
    change (146096 / 1460) with 100 in *. lia.
Qed.

Definition year_last (y : Z) : Z := if y =? 399 then 146096 else year_start (y + 1) - 1.

Lemma year_table :
  forallb (λ y, (year_of_era (year_start y) =? y) && (year_of_era (year_last y) =? y))
    (seqZ 0 400) = true.
Proof. vm_compute. reflexivity. Qed.

Lemma year_table_lookup y :
  0 ≤ y < 400 → year_of_era (year_start y) = y ∧ year_of_era (year_last y) = y.
Proof.
  intros Hy. pose proof year_table as H. rewrite forallb_forall in H. specialize (H y).
  rewrite <- list_elem_of_In, elem_of_seqZ, andb_true_iff, !Z.eqb_eq in H. apply H. lia.
Qed.

Lemma year_start_lt y y' : 0 ≤ y → y < y' → year_start y < year_start y'.
Proof. unfold year_start. intros. Z.to_euclidean_division_equations. lia. Qed.

Lemma year_of_era_spec doe :
  0 ≤ doe < 146097 →
  0 ≤ year_of_era doe < 400 ∧
  year_start (year_of_era doe) ≤ doe ≤ year_last (year_of_era doe).
Proof.
  intros Hd.
  pose proof (year_of_era_mono 0 doe ltac:(lia) ltac:(lia) ltac:(lia)) as H0.
  pose proof (year_of_era_mono doe 146096 ltac:(lia) ltac:(lia) ltac:(lia)) as H1.
  change (year_of_era 0) with 0 in H0. change (year_of_era 146096) with 399 in H1.
  set (y := year_of_era doe) in *. split; [lia|]. split.
  - destruct (decide (y = 0)) as [E|]; [rewrite E; change (year_start 0) with 0; lia|].
    destruct (decide (year_start y ≤ doe)) as [|Hlt]; [done|]. exfalso.
    destruct (year_table_lookup (y - 1) ltac:(lia)) as [_ Hl].
    unfold year_last in Hl. rewrite (proj2 (Z.eqb_neq _ _)), Z.sub_add in Hl by lia.
    pose proof (year_start_lt 0 y ltac:(lia) ltac:(lia)).
    pose proof (year_start_lt y 400 ltac:(lia) ltac:(lia)).
    change (year_start 0) with 0 in *. change (year_start 400) with 146096 in *.
    pose proof (year_of_era_mono doe (year_start y - 1) ltac:(lia) ltac:(lia) ltac:(lia)).
    lia.
  - unfold year_last. destruct (Z.eqb_spec y 399) as [|Hne]; [lia|].
    destruct (decide (doe ≤ year_start (y + 1) - 1)) as [|Hlt]; [done|]. exfalso.
    destruct (year_table_lookup (y + 1) ltac:(lia)) as [Hl _].
    pose proof (year_start_lt 0 (y + 1) ltac:(lia) ltac:(lia)).
    change (year_start 0) with 0 in *.
    pose proof (year_of_era_mono (year_start (y + 1)) doe ltac:(lia) ltac:(lia) ltac:(lia)).
    lia.
Qed.

Lemma month_of_year doy :
  0 ≤ doy ≤ 365 →
  let mp := (5 * doy + 2) / 153 in
  0 ≤ mp ≤ 11 ∧ (153 * mp + 2) / 5 ≤ doy < (153 * (mp + 1) + 2) / 5.
Proof. intros; subst mp; Z.to_euclidean_division_equations; lia. Qed.

(** The first day of the [mp]-th month (from March) of a year of an era. *)
Definition march_day (era yoe mp : Z) : Z :=
  era * 146097 + year_start yoe + (153 * mp + 2) / 5 - 719468.

Lemma days_from_civil_march era yoe mp y m d :
  0 ≤ yoe < 400 →
  (if m <=? 2 then y - 1 else y) = yoe + era * 400 →
  (if 2 <? m then m - 3 else m + 9) = mp →
  days_from_civil y m d = march_day era yoe mp + d - 1.
Proof.
  intros Hy He Hm. unfold days_from_civil, march_day. rewrite He, Hm.
  rewrite Z.div_add, Z.mod_add, Z.div_small, Z.mod_small by lia. lia.
Qed.

Definition month_of_march (mp : Z) : Z := if mp <? 10 then mp + 3 else mp - 9.
Definition year_of_march (era yoe mp : Z) : Z :=
  yoe + era * 400 + (if month_of_march mp <=? 2 then 1 else 0).

Ltac month_cases := unfold year_of_march, month_of_march in *; repeat case_match; lia.

Lemma month_start_march era yoe mp :
  0 ≤ yoe < 400 → 0 ≤ mp ≤ 11 →
  month_start (year_of_march era yoe mp) (month_of_march mp) = march_day era yoe mp.
Proof.
  intros Hy Hmp. unfold month_start.
  assert (1 ≤ month_of_march mp ≤ 12) by month_cases.
  rewrite Z.div_small, Z.mod_small by lia.
  rewrite (days_from_civil_march era yoe mp); [lia|done|month_cases..].
Qed.

Lemma month_start_march_next era yoe mp :
  0 ≤ yoe < 400 → 0 ≤ mp ≤ 11 →
  month_start (year_of_march era yoe mp) (month_of_march mp + 1) =
  if mp =? 11 then (if yoe =? 399 then march_day (era + 1) 0 0 else march_day era (yoe + 1) 0)
  else march_day era yoe (mp + 1).
Proof.
  intros Hy Hmp. unfold month_start. rewrite Z.add_simpl_r.
  assert (1 ≤ month_of_march mp ≤ 12) by month_cases.
  assert (month_of_march mp / 12 = (if month_of_march mp =? 12 then 1 else 0) ∧
          month_of_march mp mod 12 = (if month_of_march mp =? 12 then 0 else month_of_march mp))
    as [-> ->].
  { destruct (Z.eqb_spec (month_of_march mp) 12) as [->|]; [done|].
    rewrite Z.div_small, Z.mod_small by lia. done. }
  destruct (Z.eqb_spec mp 11) as [->|]; [destruct (Z.eqb_spec yoe 399) as [->|]|].
  - rewrite (days_from_civil_march (era + 1) 0 0); [lia|lia|month_cases..].
  - rewrite (days_from_civil_march era (yoe + 1) 0); [lia|lia|month_cases..].
  - rewrite (days_from_civil_march era yoe (mp + 1)); [lia|lia|month_cases..].
Qed.

(** What the calendar promises of the civil date of a day. *)
Lemma civil_from_days_spec z :
  let '(y, m, d) := civil_from_days z in
  1 ≤ m ≤ 12 ∧ 1 ≤ d ∧ days_from_civil y m d = z ∧
  month_start y m + (d - 1) = z ∧ z < month_start y (m + 1).
Proof.
  unfold civil_from_days. cbv zeta.
  pose proof (Z.mod_pos_bound (z + 719468) 146097 ltac:(lia)) as Hdoe.
  pose proof (Z.div_mod (z + 719468) 146097 ltac:(lia)) as Hz.
  generalize dependent ((z + 719468) / 146097). intros era Hz.
  generalize dependent ((z + 719468) mod 146097). intros doe Hdoe Hz.
  destruct (year_of_era_spec doe Hdoe) as [Hy [Hlo Hhi]].
  generalize dependent (year_of_era doe). intros yoe Hy Hlo Hhi.
  assert (0 ≤ doe - year_start yoe ≤ 365) as Hdoy.
  { clear Hz. unfold year_last in Hhi. destruct (Z.eqb_spec yoe 399) as [->|];
      [change (year_start 399) with 145731 in *; lia|].
    unfold year_start in *. Z.to_euclidean_division_equations. lia. }
  destruct (month_of_year _ Hdoy) as [Hmp Hm].
  generalize dependent ((5 * (doe - year_start yoe) + 2) / 153). intros mp Hmp Hm.
  fold (month_of_march mp). fold (year_of_march era yoe mp).
  pose proof (month_start_march era yoe mp Hy Hmp) as Hms.
  pose proof (month_start_march_next era yoe mp Hy Hmp) as Hmn.
  rewrite Hms, Hmn, (days_from_civil_march era yoe mp) by (done || month_cases).
  assert (1 ≤ month_of_march mp ≤ 12) by month_cases.
  unfold march_day, year_last in *. change (year_start 0) with 0. change ((153 * 0 + 2) / 5) with 0.
  split_and!; try lia. repeat case_match; lia.
Qed.

(** ** Instants *)

Definition time_day (t : Time) : Z := t / nsPerDay.
Definition time_clock (t : Time) : Z := t mod nsPerDay.
Definition time_Year (t : Time) : Z := (civil_from_days (time_day t)).1.1.
Definition time_Month (t : Time) : Z := (civil_from_days (time_day t)).1.2.
Definition time_Day (t : Time) : Z := (civil_from_days (time_day t)).2.
Definition time_Unix (t : Time) : Z := t / Second.

(** [time.Date(y, m, d, 0, 0, 0, 0, time.UTC)] with [m] and [d] out of range
    normalised. *)
Definition time_Date (y m d : Z) : Time := (month_start y m + (d - 1)) * nsPerDay.

Definition AddDate (t : Time) (years months days : Z) : Time :=
  time_Date (time_Year t + years) (time_Month t + months) (time_Day t + days) + time_clock t.

Lemma time_month_bounds t :
  time_Date (time_Year t) (time_Month t) 1 ≤ t < time_Date (time_Year t) (time_Month t + 1) 1.
Proof.
  unfold time_Date, time_Year, time_Month, time_day.
  pose proof (civil_from_days_spec (t / nsPerDay)) as H.
  destruct (civil_from_days (t / nsPerDay)) as [[y m] d]; simpl.
  pose proof (Z.div_mod t nsPerDay ltac:(done)).
  pose proof (Z.mod_pos_bound t nsPerDay ltac:(done)).
  assert (0 < nsPerDay) by done. nia.
Qed.

(** Instants of the form [time.Date(y, m, 1)] are their own first of the month,
    and adding a month to one goes to the next first of the month. *)
Lemma civil_from_days_month_start y m :
  1 ≤ m ≤ 12 → civil_from_days (month_start y m) = (y, m, 1).
Proof.
  intros Hm.
  assert (∃ y0 k, y = y0 + 400 * k ∧ 0 ≤ y0 < 400) as (y0 & k & -> & Hy0).
  { exists (y mod 400), (y / 400). pose proof (Z.div_mod y 400).
    pose proof (Z.mod_pos_bound y 400). lia. }
  rewrite month_start_era. apply civil_from_days_era.
  assert (forallb (λ n, forallb (λ m, bool_decide
      (civil_from_days (month_start n m) = (n, m, 1))) (seqZ 1 12))
      (seqZ 0 400) = true) as Hall by (vm_compute; reflexivity).
  rewrite forallb_forall in Hall. specialize (Hall y0).
  rewrite <- list_elem_of_In, elem_of_seqZ in Hall. specialize (Hall ltac:(lia)).
  rewrite forallb_forall in Hall. specialize (Hall m).
  rewrite <- list_elem_of_In, elem_of_seqZ in Hall.
  specialize (Hall ltac:(lia)). by apply bool_decide_eq_true in Hall.
Qed.

Lemma AddDate_month_first y m :
  1 ≤ m ≤ 12 → AddDate (time_Date y m 1) 0 1 0 = time_Date y (m + 1) 1.
Proof.
  intros Hm. unfold AddDate, time_Year, time_Month, time_Day, time_day, time_clock, time_Date.
  replace ((month_start y m + (1 - 1)) * nsPerDay) with (month_start y m * nsPerDay) by lia.
  rewrite Z.div_mul, Z.mod_mul by done.
  rewrite (civil_from_days_month_start _ _ Hm). simpl. unfold time_Date. rewrite !Z.add_0_r. lia.
Qed.

Lemma time_Month_range t : 1 ≤ time_Month t ≤ 12.
Proof.
  unfold time_Month. pose proof (civil_from_days_spec (time_day t)) as H.
  destruct (civil_from_days (time_day t)) as [[y m] d]; simpl. lia.
Qed.

Lemma AddDate_days t d : AddDate t 0 0 d = t + d * nsPerDay.
Proof.
  unfold AddDate, time_Date, time_Year, time_Month, time_Day, time_clock, time_day.
  pose proof (civil_from_days_spec (t / nsPerDay)) as H.
  destruct (civil_from_days (t / nsPerDay)) as [[y m] dd]; simpl.
  rewrite !Z.add_0_r.
  pose proof (Z.div_mod t nsPerDay ltac:(done)). nia.
Qed.

(** ** RFC 3339 with nanoseconds *)

Definition digit_char (d : Z) : Ascii.ascii := Ascii.ascii_of_N (48 + Z.to_N d).

Definition char_digit (c : Ascii.ascii) : option Z :=
  let n := Ascii.N_of_ascii c in
  if ((48 <=? n) && (n <=? 57))%N then Some (Z.of_N (n - 48)) else None.

(** The [w] low decimal digits of [n], most significant first. *)
Fixpoint pad (w : nat) (n : Z) : string :=
  match w with
  | O => ""
  | S w' => String (digit_char (n / 10 ^ Z.of_nat w')) (pad w' (n mod 10 ^ Z.of_nat w'))
  end.

Fixpoint read_digits (w : nat) (acc : Z) (s : string) : option (Z * string) :=
  match w with
  | O => Some (acc, s)
  | S w' =>
      match s with
      | EmptyString => None
      | String c s' => d ← char_digit c; read_digits w' (10 * acc + d) s'
      end
  end.

Fixpoint trim_zeros (s : string) : string :=
  match s with
  | EmptyString => EmptyString
  | String c s' =>
      match trim_zeros s' with
      | EmptyString => if bool_decide (c = "0"%char) then EmptyString else String c EmptyString
      | s'' => String c s''
      end
  end.

(** Digits of a fraction of a second, the first worth [scale] nanoseconds. *)
Fixpoint read_frac (scale acc : Z) (s : string) : Z * string :=
  match s with
  | EmptyString => (acc, EmptyString)
  | String c s' =>
      match char_digit c with
      | Some d => read_frac (scale / 10) (acc + d * scale) s'
      | None => (acc, s)
      end
  end.

Definition format_frac (ns : Z) : string :=
  if ns =? 0 then "" else "." +:+ trim_zeros (pad 9 ns).

Definition rfc3339nano (t : Time) : string :=
  let c := time_clock t in
  pad 4 (time_Year t) +:+ "-" +:+ pad 2 (time_Month t) +:+ "-" +:+ pad 2 (time_Day t) +:+
  "T" +:+ pad 2 (c / Hour) +:+ ":" +:+ pad 2 (c / Minute mod 60) +:+ ":" +:+
  pad 2 (c / Second mod 60) +:+ format_frac (c mod Second) +:+ "Z".

(** The date and time of [time.RFC3339] and [time.RFC1123Z]; the latter in a zone
    [offset] seconds east of UTC. *)
Definition clock_text (c : Z) : string :=
  pad 2 (c / Hour) +:+ ":" +:+ pad 2 (c / Minute mod 60) +:+ ":" +:+ pad 2 (c / Second mod 60).

Definition rfc3339 (t : Time) : string :=
  pad 4 (time_Year t) +:+ "-" +:+ pad 2 (time_Month t) +:+ "-" +:+ pad 2 (time_Day t) +:+
  "T" +:+ clock_text (time_clock t) +:+ "Z".

Definition weekday_names : list string := ["Sun"; "Mon"; "Tue"; "Wed"; "Thu"; "Fri"; "Sat"].
Definition month_names : list string :=
  ["Jan"; "Feb"; "Mar"; "Apr"; "May"; "Jun"; "Jul"; "Aug"; "Sep"; "Oct"; "Nov"; "Dec"].
Definition time_Weekday (t : Time) : Z := (time_day t + 4) mod 7.

Definition zone_text (offset : Z) : string :=
  let m := Z.abs (offset /t 60) in
  (if offset <? 0 then "-" else "+") +:+ pad 2 (m / 60) +:+ pad 2 (m mod 60).

Definition rfc1123z (offset : Z) (t : Time) : string :=
  let l := t + offset * Second in
  default "" (weekday_names !! Z.to_nat (time_Weekday l)) +:+ ", " +:+ pad 2 (time_Day l) +:+ " " +:+
  default "" (month_names !! Z.to_nat (time_Month l - 1)) +:+ " " +:+ pad 4 (time_Year l) +:+ " " +:+
  clock_text (time_clock l) +:+ " " +:+ zone_text offset.

Example rfc1123z_reference :
  rfc1123z (-7 * 3600) ((time_Date 2006 1 2) + 22 * Hour + 4 * Minute + 5 * Second) = "Mon, 02 Jan 2006 15:04:05 -0700".
Proof. vm_compute. reflexivity. Qed.

Definition read_char (c : Ascii.ascii) (s : string) : option string :=
  match s with
  | String c' s' => if bool_decide (c = c') then Some s' else None
  | EmptyString => None
  end.

(** [Z], or a numeric offset; in nanoseconds. *)
Definition read_zone (s : string) : option Duration :=
  match s with
  | String c s' =>
      if bool_decide (c = "Z"%char) then (guard (s' = "");; Some 0)
      else
        sign ← (if bool_decide (c = "+"%char) then Some 1
                else if bool_decide (c = "-"%char) then Some (-1) else None);
        '(h, s1) ← read_digits 2 0 s'; s2 ← read_char ":" s1;
        '(m, s3) ← read_digits 2 0 s2;
        guard (h < 24 ∧ m < 60 ∧ s3 = "");; Some (sign * (h * Hour + m * Minute))
  | EmptyString => None
  end.

Definition parse_rfc3339 (s : string) : option Time :=
  '(y, s) ← read_digits 4 0 s; s ← read_char "-" s;
  '(mo, s) ← read_digits 2 0 s; s ← read_char "-" s;
  '(d, s) ← read_digits 2 0 s; s ← read_char "T" s;
  '(h, s) ← read_digits 2 0 s; s ← read_char ":" s;
  '(mi, s) ← read_digits 2 0 s; s ← read_char ":" s;
  '(se, s) ← read_digits 2 0 s;
  let '(ns, s) := match read_char "." s with
                  | Some s' => read_frac 100000000 0 s'
                  | None => (0, s)
                  end in
  off ← read_zone s;
  guard (1 ≤ mo ≤ 12 ∧ 1 ≤ d ∧ month_start y mo + (d - 1) < month_start y (mo + 1)
         ∧ h < 24 ∧ mi < 60 ∧ se < 60);;
  Some (time_Date y mo d + h * Hour + mi * Minute + se * Second + ns - off).

(** *** [time.Parse] with the layouts RFC3339 and RFC3339Nano

    More lenient than the JSON decoder: an hour of one digit, a comma before the
    fraction, offsets of up to 24:60. *)

Definition read_hour (s : string) : option (Z * string) :=
  match read_digits 2 0 s with Some r => Some r | None => read_digits 1 0 s end.

(** A fraction is read when a digit follows the separator. *)
Definition read_fraction (s : string) : Z * string :=
  match s with
  | String c s' =>
      if bool_decide (c = "."%char ∨ c = ","%char) then
        match read_digits 1 0 s' with Some _ => read_frac 100000000 0 s' | None => (0, s) end
      else (0, s)
  | EmptyString => (0, s)
  end.

Definition read_offset (s : string) : option Duration :=
  match s with
  | String c s' =>
      if bool_decide (c = "Z"%char) then (guard (s' = "");; Some 0)
      else
        sign ← (if bool_decide (c = "+"%char) then Some 1
                else if bool_decide (c = "-"%char) then Some (-1) else None);
        '(h, s1) ← read_digits 2 0 s'; s2 ← read_char ":" s1;
        '(m, s3) ← read_digits 2 0 s2;
        guard (h ≤ 24 ∧ m ≤ 60 ∧ s3 = "");; Some (sign * (h * Hour + m * Minute))
  | EmptyString => None
  end.

Definition time_Parse (s : string) : option Time :=
  '(y, s) ← read_digits 4 0 s; s ← read_char "-" s;
  '(mo, s) ← read_digits 2 0 s; s ← read_char "-" s;
  '(d, s) ← read_digits 2 0 s; s ← read_char "T" s;
  '(h, s) ← read_hour s; s ← read_char ":" s;
  '(mi, s) ← read_digits 2 0 s; s ← read_char ":" s;
  '(se, s) ← read_digits 2 0 s;
  let '(ns, s) := read_fraction s in
  off ← read_offset s;
  guard (1 ≤ mo ≤ 12 ∧ 1 ≤ d ∧ month_start y mo + (d - 1) < month_start y (mo + 1)
         ∧ h < 24 ∧ mi < 60 ∧ se < 60);;
  Some (time_Date y mo d + h * Hour + mi * Minute + se * Second + ns - off).

(** *** Printing then parsing gives the instant back *)

Lemma char_digit_char d : 0 ≤ d < 10 → char_digit (digit_char d) = Some d.
Proof.
  intros Hd. assert (d ∈ seqZ 0 10) as Hin by (rewrite elem_of_seqZ; lia).
  assert (forallb (λ d, bool_decide (char_digit (digit_char d) = Some d)) (seqZ 0 10) = true)
    as H by (vm_compute; reflexivity).
  rewrite forallb_forall in H. eapply bool_decide_eq_true, H, list_elem_of_In, Hin.
Qed.

Lemma pow10_succ w : 10 ^ Z.of_nat (S w) = 10 * 10 ^ Z.of_nat w.
Proof. rewrite Nat2Z.inj_succ, Z.pow_succ_r; lia. Qed.

Lemma pad_cons w n : pad (S w) n = String (digit_char (n / 10 ^ Z.of_nat w)) (pad w (n mod 10 ^ Z.of_nat w)).
Proof. done. Qed.

Lemma pad_step w n :
  0 ≤ n < 10 ^ Z.of_nat (S w) →
  0 ≤ n / 10 ^ Z.of_nat w < 10 ∧ 0 ≤ n mod 10 ^ Z.of_nat w < 10 ^ Z.of_nat w
  ∧ n = n / 10 ^ Z.of_nat w * 10 ^ Z.of_nat w + n mod 10 ^ Z.of_nat w.
Proof.
  rewrite pow10_succ. intros Hn. assert (0 < 10 ^ Z.of_nat w) by (apply Z.pow_pos_nonneg; lia).
  split_and!.
  - apply Z.div_pos; lia.
  - apply Z.div_lt_upper_bound; lia.
  - apply Z.mod_pos_bound; lia.
  - apply Z.mod_pos_bound; lia.
  - pose proof (Z.div_mod n (10 ^ Z.of_nat w)). lia.
Qed.

Lemma read_digits_pad w n acc s :
  0 ≤ n < 10 ^ Z.of_nat w → read_digits w acc (pad w n +:+ s) = Some (acc * 10 ^ Z.of_nat w + n, s).
Proof.
  revert n acc. induction w as [|w IH]; intros n acc Hn.
  - change (10 ^ Z.of_nat 0) with 1 in *. simpl. do 2 f_equal. lia.
  - destruct (pad_step w n Hn) as (Hq & Hr & Hd).
    rewrite pad_cons, string_app_cons. cbn [read_digits].
    rewrite char_digit_char by done. simpl. rewrite IH by done.
    do 2 f_equal. rewrite pow10_succ. nia.
Qed.

Lemma digit_char_zero d : 0 ≤ d < 10 → digit_char d = "0"%char → d = 0.
Proof.
  intros Hd H. apply (f_equal char_digit) in H. rewrite char_digit_char in H by done.
  by injection H.
Qed.

Lemma read_frac_pad w n acc :
  0 ≤ n < 10 ^ Z.of_nat w →
  read_frac (10 ^ Z.of_nat w / 10) acc (trim_zeros (pad w n) +:+ "Z") = (acc + n, "Z").
Proof.
  revert n acc. induction w as [|w IH]; intros n acc Hn.
  - change (10 ^ Z.of_nat 0) with 1 in *. simpl. f_equal. lia.
  - destruct (pad_step w n Hn) as (Hq & Hr & Hd). rewrite pad_cons. simpl.
    rewrite pow10_succ, (Z.mul_comm 10), Z.div_mul by lia.
    specialize (IH (n mod 10 ^ Z.of_nat w)).
    destruct (trim_zeros (pad w (n mod 10 ^ Z.of_nat w))) as [|c s] eqn:E.
    + specialize (IH 0 Hr). change (read_frac (10 ^ Z.of_nat w / 10) 0 "Z") with (0, "Z") in IH.
      injection IH as IH. rewrite Z.add_0_l in IH. case_bool_decide as Hz.
      * apply digit_char_zero in Hz; [|done]. simpl. f_equal. nia.
      * simpl. rewrite char_digit_char by done. f_equal. nia.
    + rewrite string_app_cons. cbn [read_frac]. rewrite char_digit_char by done.
      rewrite IH by done. f_equal. nia.
Qed.

Lemma clock_split c :
  0 ≤ c < nsPerDay →
  0 ≤ c / Hour < 24 ∧ 0 ≤ c / Minute mod 60 < 60 ∧ 0 ≤ c / Second mod 60 < 60 ∧
  0 ≤ c mod Second < Second ∧
  c / Hour * Hour + c / Minute mod 60 * Minute + c / Second mod 60 * Second + c mod Second = c.
Proof.
  unfold nsPerDay, Hour, Minute, Second. intros Hc. Z.to_euclidean_division_equations. lia.
Qed.

Lemma format_frac_read ns :
  0 ≤ ns < Second →
  match read_char "." (format_frac ns +:+ "Z") with
  | Some s' => read_frac 100000000 0 s'
  | None => (0, format_frac ns +:+ "Z")
  end = (ns, "Z").
Proof.
  intros Hn. unfold format_frac. destruct (Z.eqb_spec ns 0) as [->|]; [done|].
  rewrite string_app_assoc. change ("." +:+ ?x) with (String "." x). cbn [read_char].
  rewrite bool_decide_eq_true_2 by done.
  apply (read_frac_pad 9 ns 0). done.
Qed.

Lemma read_char_app c s : read_char c (String c "" +:+ s) = Some s.
Proof. simpl. by rewrite bool_decide_eq_true_2. Qed.

Lemma read_pad w n s : 0 ≤ n < 10 ^ Z.of_nat w → read_digits w 0 (pad w n +:+ s) = Some (n, s).
Proof. intros. by rewrite read_digits_pad. Qed.

Lemma time_Day_range t : 1 ≤ time_Day t ≤ 31.
Proof.
  unfold time_Day. pose proof (civil_from_days_spec (time_day t)) as Hc.
  destruct (civil_from_days (time_day t)) as [[y m] d] eqn:E; simpl in *. split; [lia|].
  unfold civil_from_days in E. injection E as _ _ <-. Z.to_euclidean_division_equations. lia.
Qed.

Lemma parse_rfc3339_format t :
  0 ≤ time_Year t ≤ 9999 → parse_rfc3339 (rfc3339nano t) = Some t.
Proof.
  intros Hy. unfold parse_rfc3339, rfc3339nano.
  pose proof (civil_from_days_spec (time_day t)) as Hc.
  pose proof (Z.mod_pos_bound t nsPerDay ltac:(done)) as Hck. fold (time_clock t) in Hck.
  destruct (clock_split _ Hck) as (Hh & Hmi & Hse & Hns & Hsum).
  pose proof (time_Day_range t) as [_ Hd31].
  assert (1 ≤ time_Month t ≤ 12 ∧ 1 ≤ time_Day t ∧
          month_start (time_Year t) (time_Month t) + (time_Day t - 1) = time_day t ∧
          time_day t < month_start (time_Year t) (time_Month t + 1)) as (Hm & Hd & Hs & Hn).
  { unfold time_Day, time_Year, time_Month.
    destruct (civil_from_days (time_day t)) as [[y m] d]; simpl; lia. }
  repeat first
    [ rewrite read_pad by (simpl; lia); cbn [mbind option_bind]
    | rewrite read_char_app; cbn [mbind option_bind] ].
  pose proof (format_frac_read _ Hns) as ->.
  change (read_zone "Z") with (Some 0). cbn [mbind option_bind].
  case_guard as Hg; [|destruct Hg; rewrite Hs; split_and!; lia].
  simpl. f_equal. unfold time_Date. rewrite Hs. unfold time_day, time_clock in *.
  pose proof (Z.div_mod t nsPerDay ltac:(done)). lia.
Qed.
