(* ===== verification/Utf8.v ===== *)
(** * Utf8: unicode/utf8 on Go strings

    A Go string is a sequence of bytes; [utf8_len] is the size [DecodeRune]
    answers for a well-formed first character, 0 where it answers the
    replacement character for one stray byte. *)
From Stdlib Require Import Ascii.
From S2P Require Import Prelude.

Definition byte_of (c : ascii) : N := N_of_ascii c.

Definition byte_in (lo hi : N) (s : string) : bool :=
  match s with
  | String c _ => ((lo <=? byte_of c) && (byte_of c <=? hi))%N
  | EmptyString => false
  end.

Definition utf8_len (s : string) : nat :=
  match s with
  | EmptyString => 0
  | String c s1 =>
      let b := byte_of c in
      let tail2 lo hi := byte_in lo hi s1 && byte_in 128 191 (string_drop 1 s1) in
      if (b <? 128)%N then 1
      else if ((194 <=? b) && (b <=? 223))%N then if byte_in 128 191 s1 then 2 else 0
      else if ((224 <=? b) && (b <=? 239))%N then
        if tail2 (if b =? 224 then 160 else 128)%N (if b =? 237 then 159 else 191)%N then 3 else 0
      else if ((240 <=? b) && (b <=? 244))%N then
        if tail2 (if b =? 240 then 144 else 128)%N (if b =? 244 then 143 else 191)%N &&
           byte_in 128 191 (string_drop 2 s1) then 4 else 0
      else 0
  end.

(** [ValidString]: [k] bytes of the current character are still to come. *)
Fixpoint valid_from (k : nat) (s : string) : bool :=
  match s with
  | EmptyString => (k =? 0)%nat
  | String _ s' =>
      match k with
      | S k' => valid_from k' s'
      | O => match utf8_len s with O => false | S k' => valid_from k' s' end
      end
  end.

Definition ValidString (s : string) : bool := valid_from 0 s.

Definition byte (n : N) : ascii := ascii_of_N n.
Definition bytes (l : list N) : string := foldr (λ n s, String (byte n) s) "" l.

(** U+FFFD, what replaces a byte that is not UTF-8. *)
Definition RuneError : N := 65533.

(** [AppendRune]. *)
Definition encode_rune (r : N) : string :=
  (if r <? 128 then bytes [r]
   else if r <? 2048 then bytes [192 + r / 64; 128 + r mod 64]
   else if (55296 <=? r) && (r <=? 57343) || (1114111 <? r) then bytes [239; 191; 189]
   else if r <? 65536 then bytes [224 + r / 4096; 128 + r / 64 mod 64; 128 + r mod 64]
   else bytes [240 + r / 262144; 128 + r / 4096 mod 64; 128 + r / 64 mod 64; 128 + r mod 64])%N.

(** ** Lemmas *)

Fixpoint string_take (n : nat) (s : string) : string :=
  match n, s with
  | S n', String c s' => String c (string_take n' s')
  | _, _ => ""
  end.

Lemma string_take_drop n s : string_take n s +:+ string_drop n s = s.
Proof.
  revert s. induction n as [|n IH]; intros [|c s]; try done.
  cbn [string_take string_drop]. by rewrite string_app_cons, IH.
Qed.

Lemma utf8_len_ascii c s : (byte_of c < 128)%N → utf8_len (String c s) = 1.
Proof. intros Hc. unfold utf8_len. by rewrite (proj2 (N.ltb_lt _ _) Hc). Qed.

Lemma utf8_len_high c s : (128 ≤ byte_of c)%N → utf8_len (String c s) ≠ 1.
Proof.
  intros Hc. unfold utf8_len. rewrite (proj2 (N.ltb_ge _ _) Hc). by repeat case_match.
Qed.

(** The characters after the first do not matter. *)
Lemma utf8_len_take s t k :
  utf8_len s = S k → utf8_len (string_take (S k) s +:+ t) = S k.
Proof.
  destruct s as [|c s]; [done|]. cbn [string_take]. rewrite string_app_cons. unfold utf8_len.
  destruct (byte_of c <? 128)%N; [by intros [= <-]|].
  destruct (_ && _)%N.
  { destruct s as [|c1 s]; [done|]. simpl. destruct (_ && _)%N eqn:H1; [|done]. intros [= <-].
    cbn [string_take]. rewrite string_app_cons. simpl. by rewrite H1. }
  destruct (_ && _)%N.
  { destruct s as [|c1 [|c2 s]]; [done|cbn; by rewrite andb_false_r|]. cbn [byte_in string_drop].
    destruct (_ && _) eqn:H1; [|done]. intros [= <-].
    cbn [string_take]. rewrite !string_app_cons. cbn [byte_in string_drop]. by rewrite H1. }
  destruct (_ && _)%N; [|done].
  destruct s as [|c1 [|c2 [|c3 s]]]; cbn [byte_in string_drop]; rewrite ?andb_false_r; try done.
  destruct (_ && _) eqn:H1; [|done]. intros [= <-].
  cbn [string_take]. rewrite !string_app_cons. cbn [byte_in string_drop]. by rewrite H1.
Qed.

Lemma byte_of_byte n : (n < 256)%N → byte_of (byte n) = n.
Proof. apply N_ascii_embedding. Qed.

Lemma byte_byte_of c : byte (byte_of c) = c.
Proof. apply ascii_N_embedding. Qed.

Lemma byte_of_bounded c : (byte_of c < 256)%N.
Proof. apply N_ascii_bounded. Qed.
