(* ===== verification/Json.v ===== *)
(** * Json: JSON values and the parts of [encoding/json] the program relies on

    A document is modelled by its value: [json.Marshal] of a struct builds the
    object in field order, [json.Unmarshal] into a struct reads the members one
    after the other (a member matches a field up to letter case, a later member
    overwrites an earlier one, [null] leaves a scalar field as it is and clears a
    pointer or slice).  [json.RawMessage] is [option json], [None] for a nil
    slice.  Numbers that are not integer literals keep their text.  [Marshal]
    gives the bytes of a value, with Go's escaping of strings. *)
From Stdlib Require Import Ascii.
From S2P Require Import Prelude Utf8.

Inductive json :=
| JNull
| JBool (b : bool)
| JInt (z : Z)
| JFloat (lit : string)
| JStr (s : string)
| JArr (l : list json)
| JObj (kvs : list (string * json)).

Abbreviation RawMessage := (option json) (only parsing).

(** ** Bytes of a document *)

Definition hex_char (n : N) : ascii :=
  if (n <? 10)%N then ascii_of_N (48 + n) else ascii_of_N (87 + n).

Definition u00 (n : N) : string :=
  "\u00" +:+ String (hex_char (n / 16)) (String (hex_char (n mod 16)) "").

Definition escape_char (c : ascii) : string :=
  let n := N_of_ascii c in
  match n with
  | 34 => "\" +:+ String c ""        (* quotation mark *)
  | 92 => "\\"
  | 8 => "\b"
  | 9 => "\t"
  | 10 => "\n"
  | 12 => "\f"
  | 13 => "\r"
  | 38 | 60 | 62 => u00 n            (* & < > *)
  | _ => if (n <? 32)%N then u00 n else String c ""
  end%N.

(** U+2028 and U+2029, which JavaScript does not allow in strings. *)
Definition line_sep (s : string) : bool := HasPrefix s (bytes [226; 128; 168]%N) || HasPrefix s (bytes [226; 128; 169]%N).

(** The text of a string; [k] bytes of a character are still to be copied.  A
    byte that is not UTF-8 is written as U+FFFD. *)
Fixpoint escape_from (k : nat) (s : string) : string :=
  match s with
  | EmptyString => ""
  | String c s' =>
      match k with
      | S k' => String c (escape_from k' s')
      | O =>
          if (byte_of c <? 128)%N then escape_char c +:+ escape_from 0 s'
          else if line_sep s then
            match s' with
            | String _ (String d s'') => "\u202" +:+ (if (byte_of d =? 168)%N then "8" else "9") +:+ escape_from 0 s''
            | _ => ""
            end
          else match utf8_len s with
               | O => "\ufffd" +:+ escape_from 0 s'
               | S k' => String c (escape_from k' s')
               end
      end
  end.

Definition escape (s : string) : string := escape_from 0 s.

Definition quote_char : string := String (ascii_of_N 34) "".
Definition quote (s : string) : string := quote_char +:+ escape s +:+ quote_char.

Fixpoint Marshal (j : json) : string :=
  match j with
  | JNull => "null"
  | JBool b => if b then "true" else "false"
  | JInt z => pretty z
  | JFloat lit => lit
  | JStr s => quote s
  | JArr l => "[" +:+ String.concat "," (map Marshal l) +:+ "]"
  | JObj kvs =>
      "{" +:+ String.concat "," (map (λ '(k, v), quote k +:+ ":" +:+ Marshal v) kvs) +:+ "}"
  end.

(** ** Decoding into Go values *)

Definition type_error : error := errors_New "json: cannot unmarshal value into Go value".

(** The members read into a struct; [null] is a no-op. *)
Definition json_object (j : json) : result (list (string * json)) :=
  match j with
  | JObj kvs => Ok kvs
  | JNull => Ok []
  | _ => Err type_error
  end.

(** [json.Unmarshal] of a nil or empty [RawMessage] fails. *)
Definition raw_object (r : RawMessage) : result (list (string * json)) :=
  match r with
  | None => Err (errors_New "unexpected end of JSON input")
  | Some j => json_object j
  end.

Definition decoder (A : Type) : Type := A → json → result A.

Fixpoint field {A} (dec : decoder A) (name : string) (zero : A) (kvs : list (string * json)) : result A :=
  match kvs with
  | [] => Ok zero
  | (k, v) :: kvs' =>
      match (if EqualFold k name then dec zero v else Ok zero) with
      | Ok a => field dec name a kvs'
      | Err e => Err e
      end
  end.

Definition dec_string : decoder string := λ cur v,
  match v with JStr s => Ok s | JNull => Ok cur | _ => Err type_error end.

Definition dec_bool : decoder bool := λ cur v,
  match v with JBool b => Ok b | JNull => Ok cur | _ => Err type_error end.

Definition dec_int : decoder Z := λ cur v,
  match v with
  | JInt z => if bool_decide (int64_min ≤ z ≤ int64_max)%Z then Ok z else Err type_error
  | JNull => Ok cur
  | _ => Err type_error
  end.

Definition dec_raw : decoder RawMessage := λ _ v, Ok (Some v).

Definition dec_ptr {A} (dec : decoder A) (zero : A) : decoder (option A) := λ cur v,
  match v with
  | JNull => Ok None
  | _ => match dec (default zero cur) v with Ok a => Ok (Some a) | Err e => Err e end
  end.

(** The elements of an array, decoded over those the slice already has. *)
Fixpoint dec_elems {A} (dec : decoder A) (zero : A) (cur : list A) (l : list json) : result (list A) :=
  match l with
  | [] => Ok []
  | v :: l' =>
      match dec (default zero (head cur)) v, dec_elems dec zero (tail cur) l' with
      | Ok a, Ok r => Ok (a :: r)
      | Err e, _ => Err e
      | _, Err e => Err e
      end
  end.

(** A slice field; the nil slice is [[]] here. *)
Definition dec_slice {A} (dec : decoder A) (zero : A) : decoder (list A) := λ cur v,
  match v with
  | JNull => Ok []
  | JArr l => dec_elems dec zero cur l
  | _ => Err type_error
  end.

(** A [map[string]string] field, entries in document order, a later entry
    replacing an earlier one with the same key. *)
Definition dec_strmap : decoder (gmap string string) := λ cur v,
  match v with
  | JNull => Ok ∅
  | JObj kvs =>
      foldl (λ acc '(k, v),
        match acc, dec_string "" v with
        | Ok m, Ok s => Ok (<[k := s]> m)
        | Err e, _ => Err e
        | _, Err e => Err e
        end) (Ok cur) kvs
  | _ => Err type_error
  end.

(** Sequencing of decoders, first error first. *)
Definition rbind {A B} (r : result A) (k : A → result B) : result B :=
  match r with Ok a => k a | Err e => Err e end.
Notation "x <-? r ; k" := (rbind r (λ x, k))
  (at level 20, r at level 100, k at level 200, only parsing) : go_scope.

(** ** Lemmas *)

Lemma EqualFold_refl s : EqualFold s s = true.
Proof. by apply bool_decide_eq_true_2. Qed.

Lemma field_nil {A} (dec : decoder A) name zero : field dec name zero [] = Ok zero.
Proof. done. Qed.

(** Reading a field of an object literal whose keys are literals. *)
Ltac json_fields :=
  repeat (first
    [ rewrite EqualFold_refl
    | match goal with
      | |- context [EqualFold ?a ?b] =>
          let v := eval vm_compute in (EqualFold a b) in
          change (EqualFold a b) with v
      end ]; cbn [field rbind dec_string dec_bool dec_raw dec_ptr]).

(** Members with different names commute: decoding a struct does not depend on
    the order of an object whose keys differ beyond letter case. *)
Lemma field_perm {A} (dec : decoder A) name zero kvs kvs' :
  kvs ≡ₚ kvs' → NoDup (ToLower ∘ fst <$> kvs) →
  field dec name zero kvs = field dec name zero kvs'.
Proof.
  intros Hp. revert zero. induction Hp as [|[k v] l l' Hp IH|[k1 v1] [k2 v2] l|l1 l2 l3 H12 IH1 H23 IH2];
    intros zero Hnd; csimpl in *.
  - done.
  - apply NoDup_cons in Hnd as [_ Hnd]. simpl.
    destruct (if EqualFold k name then _ else _); [by apply IH|done].
  - apply NoDup_cons in Hnd as [Hne _]. simpl. unfold EqualFold. simpl in Hne.
    repeat case_bool_decide; try done; [|by destruct (dec _ _)..]. exfalso. apply Hne, elem_of_cons. left. congruence.
  - rewrite IH1 by done. apply IH2. by rewrite <- H12.
Qed.

(** What a decoder establishes holds of the decoded member. *)
Lemma field_inv {A} (P : A → Prop) (dec : decoder A) name zero kvs a :
  (∀ cur v b, P cur → dec cur v = Ok b → P b) → P zero → field dec name zero kvs = Ok a → P a.
Proof.
  intros Hd. revert zero. induction kvs as [|[k v] kvs IH]; intros zero Hz; simpl; [by intros [= <-]|].
  destruct (EqualFold k name); [|by apply IH].
  destruct (dec zero v) as [b|e] eqn:Hb; [|done]. apply IH. by eapply Hd.
Qed.
