(* ===== verification/Hex.v ===== *)
(** * Hex: encoding/hex *)
From Stdlib Require Import Ascii.
From S2P Require Import Prelude Json.

Fixpoint hex_EncodeToString (s : string) : string :=
  match s with
  | EmptyString => ""
  | String c s' =>
      let n := N_of_ascii c in
      String (hex_char (n / 16)) (String (hex_char (n mod 16)) (hex_EncodeToString s'))
  end.

Definition hex_digit (c : ascii) : option N :=
  let n := N_of_ascii c in
  if ((48 <=? n) && (n <=? 57))%N then Some (n - 48)%N
  else if ((97 <=? n) && (n <=? 102))%N then Some (n - 87)%N
  else if ((65 <=? n) && (n <=? 70))%N then Some (n - 55)%N
  else None.

Fixpoint hex_DecodeString (s : string) : option string :=
  match s with
  | EmptyString => Some ""
  | String a (String b s') =>
      h ← hex_digit a; l ← hex_digit b; rest ← hex_DecodeString s';
      Some (String (ascii_of_N (16 * h + l)) rest)
  | String _ EmptyString => None
  end.

Lemma hex_digit_char d : (d < 16)%N → hex_digit (hex_char d) = Some d.
Proof.
  intros Hd. destruct d as [|p]; [done|]. do 4 (try destruct p as [p|p|]); try lia; done.
Qed.

Lemma hex_roundtrip s : hex_DecodeString (hex_EncodeToString s) = Some s.
Proof.
  induction s as [|c s IH]; [done|]. cbn [hex_EncodeToString hex_DecodeString].
  pose proof (N_ascii_bounded c) as Hc.
  rewrite !hex_digit_char by (try apply N.mod_lt; try apply N.Div0.div_lt_upper_bound; lia).
  cbn [mbind option_bind]. rewrite IH. cbn [mbind option_bind]. do 2 f_equal.
  rewrite <- N.div_mod by done. apply ascii_N_embedding.
Qed.
