(* ===== verification/Sha256.v ===== *)
(** * Sha256: crypto/sha256 and crypto/hmac

    The hash function and the message authentication code the program uses, as
    executable functions on byte strings: FIPS 180-4 and RFC 2104.  The theorems
    about the program leave them as fields of [Env], because none depends on
    which function it is; here they are the ones the program runs with, so that
    the signatures it publishes can be recomputed. *)
From Stdlib Require Import Ascii.
From S2P Require Import Prelude Utf8.

Open Scope N_scope.

(** ** 32-bit words *)

Definition word (n : N) : N := N.land n (N.ones 32).
Definition add32 (x y : N) : N := word (x + y).
Definition rotr (k x : N) : N := N.lor (N.shiftr x k) (word (N.shiftl x (32 - k))).
Definition not32 (x : N) : N := N.lxor x (N.ones 32).
Definition xor3 (x y z : N) : N := N.lxor (N.lxor x y) z.

(** ** Constants

    The first 32 bits of the fractional parts of the square and cube roots of
    the first primes. *)

Definition primes : list N :=
  N.of_nat <$> filter (λ p, Forall (λ d, p mod d ≠ 0)%nat (seq 2 (p - 2))) (seq 2 310).

(** The largest [r] below [2 ^ n] above [acc] with [r * r * r ≤ m]. *)
Fixpoint cube_root (n : nat) (m acc : N) : N :=
  match n with
  | O => acc
  | S n => let r := acc + 2 ^ N.of_nat n in cube_root n m (if r * r * r <=? m then r else acc)
  end.

Definition init : list N := Eval vm_compute in (λ p, word (N.sqrt (p * 2 ^ 64))) <$> take 8 primes.
Definition K : list N := Eval vm_compute in (λ p, word (cube_root 40 (p * 2 ^ 96) 0)) <$> primes.

(** ** One block of sixteen words *)

(** The last sixteen words give the next one. *)
Definition next_word (win : list N) : N :=
  let at_ i := nth i win 0 in
  add32 (add32 (xor3 (rotr 17 (at_ 14%nat)) (rotr 19 (at_ 14%nat)) (N.shiftr (at_ 14%nat) 10)) (at_ 9%nat))
        (add32 (xor3 (rotr 7 (at_ 1%nat)) (rotr 18 (at_ 1%nat)) (N.shiftr (at_ 1%nat) 3)) (at_ 0%nat)).

Fixpoint schedule (n : nat) (win : list N) : list N :=
  match n with
  | O => []
  | S n => nth 0 win 0 :: schedule n (tail win ++ [next_word win])
  end.

Record digest := mkDigest { d_a : N; d_b : N; d_c : N; d_d : N; d_e : N; d_f : N; d_g : N; d_h : N }.

Definition round (s : digest) (kw : N * N) : digest :=
  let '(mkDigest a b c d e f g h) := s in
  let t1 := add32 (add32 h (xor3 (rotr 6 e) (rotr 11 e) (rotr 25 e)))
                  (add32 (N.lxor (N.land e f) (N.land (not32 e) g)) (add32 kw.1 kw.2)) in
  let t2 := add32 (xor3 (rotr 2 a) (rotr 13 a) (rotr 22 a)) (xor3 (N.land a b) (N.land a c) (N.land b c)) in
  mkDigest (add32 t1 t2) a b c (add32 d t1) e f g.

Definition block (s : digest) (ws : list N) : digest :=
  let r := foldl round s (zip K (schedule 64 ws)) in
  mkDigest (add32 (d_a s) (d_a r)) (add32 (d_b s) (d_b r)) (add32 (d_c s) (d_c r)) (add32 (d_d s) (d_d r))
           (add32 (d_e s) (d_e r)) (add32 (d_f s) (d_f r)) (add32 (d_g s) (d_g r)) (add32 (d_h s) (d_h r)).

(** ** Messages *)

(** [k] bytes of a number, the most significant first. *)
Fixpoint big_endian (k : nat) (n : N) : list N :=
  match k with O => [] | S k => N.land (N.shiftr n (8 * N.of_nat k)) 255 :: big_endian k n end.

Fixpoint words (l : list N) : list N :=
  match l with
  | a :: b :: c :: d :: l => 2 ^ 24 * a + 2 ^ 16 * b + 2 ^ 8 * c + d :: words l
  | _ => []
  end.

Definition padding (len : nat) : list N :=
  128 :: replicate ((119 - len mod 64) mod 64)%nat 0 ++ big_endian 8 (8 * N.of_nat len).

Fixpoint blocks (fuel : nat) (s : digest) (ws : list N) : digest :=
  match fuel, ws with
  | S fuel, _ :: _ => blocks fuel (block s (take 16 ws)) (drop 16 ws)
  | _, _ => s
  end.

Fixpoint to_bytes (s : string) : list N :=
  match s with EmptyString => [] | String c s => N_of_ascii c :: to_bytes s end.

Definition digest_bytes (s : digest) : list N :=
  [d_a s; d_b s; d_c s; d_d s; d_e s; d_f s; d_g s; d_h s] ≫= big_endian 4.

Definition digest_of (l : list N) : digest :=
  let at_ i := nth i l 0 in
  mkDigest (at_ 0%nat) (at_ 1%nat) (at_ 2%nat) (at_ 3%nat) (at_ 4%nat) (at_ 5%nat) (at_ 6%nat) (at_ 7%nat).

Definition sum256 (msg : list N) : list N :=
  let ws := words (msg ++ padding (length msg)) in
  digest_bytes (blocks (length ws) (digest_of init) ws).

(** ** crypto/hmac *)

Definition BlockSize : nat := 64.

Definition hmac_key (key : list N) : list N :=
  let key := if (BlockSize <? length key)%nat then sum256 key else key in
  key ++ replicate (BlockSize - length key) 0.

Definition hmac (key msg : list N) : list N :=
  let pad c := N.lxor c <$> hmac_key key in
  sum256 (pad 92 ++ sum256 (pad 54 ++ msg)).

Definition Sum256 (s : string) : string := bytes (sum256 (to_bytes s)).
Definition HMAC_SHA256 (key msg : string) : string := bytes (hmac (to_bytes key) (to_bytes msg)).

(** ** Shapes *)

Lemma big_endian_length k n : length (big_endian k n) = k.
Proof. induction k as [|k IH]; [done|]. simpl. by rewrite IH. Qed.

Lemma big_endian_bytes k n : Forall (λ b, b < 256) (big_endian k n).
Proof.
  induction k as [|k IH]; constructor; [|exact IH].
  change 255 with (N.ones 8). rewrite N.land_ones. by apply N.mod_lt.
Qed.

Lemma sum256_length msg : length (sum256 msg) = 32%nat.
Proof. reflexivity. Qed.

Lemma sum256_bytes msg : Forall (λ b, b < 256) (sum256 msg).
Proof.
  unfold sum256, digest_bytes. apply Forall_bind, Forall_true. intros n. apply big_endian_bytes.
Qed.

(** A padded message is a whole number of blocks, and [blocks] takes all of them. *)
Lemma padded_length n : ∃ k, (n + length (padding n) = 64 * k)%nat.
Proof.
  exists ((n + length (padding n)) / 64)%nat. unfold padding.
  rewrite length_cons, length_app, length_replicate, big_endian_length.
  pose proof (Nat.div_mod_eq n 64). pose proof (Nat.mod_upper_bound n 64 ltac:(done)).
  set (m := (n mod 64)%nat) in *. set (z := ((119 - m) mod 64)%nat).
  assert (n + S (z + 8) = 64 * (n / 64 + (m + S (z + 8)) / 64))%nat as Hn.
  2: { rewrite Hn, (Nat.mul_comm 64 (_ + _)), Nat.div_mul by done. lia. }
  assert ((m + S (z + 8)) mod 64 = 0)%nat as Hz; [|pose proof (Nat.div_mod_eq (m + S (z + 8)) 64); lia].
  unfold z. destruct (Nat.le_gt_cases m 55) as [Hm|Hm].
  - replace (119 - m)%nat with (55 - m + 1 * 64)%nat by lia. rewrite Nat.Div0.mod_add, (Nat.mod_small (55 - m)) by lia.
    by replace (m + S (55 - m + 8))%nat with 64%nat by lia.
  - rewrite (Nat.mod_small (119 - m)) by lia. by replace (m + S (119 - m + 8))%nat with 128%nat by lia.
Qed.

Lemma words_length k l : length l = (4 * k)%nat → length (words l) = k.
Proof.
  revert l. induction k as [|k IH]; intros l Hl; [by apply length_zero_iff_nil in Hl as ->|].
  do 4 (destruct l as [|? l]; [simpl in Hl; lia|]). cbn [words length]. f_equal. apply IH. simpl in Hl. lia.
Qed.

Lemma blocks_all fuel s ws : (length ws ≤ 16 * fuel)%nat → blocks fuel s ws = blocks (length ws) s ws.
Proof.
  intros Hf. assert (∀ n m s ws, (length ws ≤ 16 * n)%nat → (length ws ≤ 16 * m)%nat → blocks n s ws = blocks m s ws) as H.
  { clear. intros n. induction n as [|n IH]; intros [|m] s [|w ws] Hn Hm; try done; simpl in Hn, Hm; [lia..|].
    cbn [blocks]. apply IH; rewrite length_drop; simpl; lia. }
  apply H; lia.
Qed.

Lemma hmac_key_length key : length (hmac_key key) = 64%nat.
Proof.
  unfold hmac_key, BlockSize. rewrite length_app, length_replicate.
  destruct (Nat.ltb_spec 64 (length key)); [by rewrite sum256_length|lia].
Qed.

Lemma bytes_length l : String.length (bytes l) = length l.
Proof. induction l as [|b l IH]; [done|]. simpl. by rewrite IH. Qed.

Lemma HMAC_SHA256_length key msg : String.length (HMAC_SHA256 key msg) = 32%nat.
Proof. unfold HMAC_SHA256. by rewrite bytes_length. Qed.
