(* ===== verification/JsonText.v ===== *)
(** * JsonText: reading a document's bytes

    The scanner and the string decoding of [encoding/json]: what
    [json.Unmarshal] reads from an HTTP answer, and that it reads back what
    [Marshal] writes. *)
From Stdlib Require Import Ascii.
From S2P Require Import Prelude Utf8 Json Hex.

(** ** Tokens *)

Definition is_ws (c : ascii) : bool := bool_decide (byte_of c ∈ [32; 9; 10; 13]%N).

Fixpoint skip_ws (s : string) : string :=
  match s with
  | String c s' => if is_ws c then skip_ws s' else s
  | EmptyString => s
  end.

(** [getu4] on four characters. *)
Definition hex4 (a b c d : ascii) : option N :=
  a ← hex_digit a; b ← hex_digit b; c ← hex_digit c; d ← hex_digit d;
  Some (4096 * a + 256 * b + 16 * c + d)%N.

Definition is_surrogate (r : N) : bool := ((55296 <=? r) && (r <? 57344))%N.

(** utf16.DecodeRune *)
Definition utf16_pair (r1 r2 : N) : option N :=
  if ((55296 <=? r1) && (r1 <? 56320) && (56320 <=? r2) && (r2 <? 57344))%N
  then Some ((r1 - 55296) * 1024 + (r2 - 56320) + 65536)%N else None.

(** The one-character escapes. *)
Definition unescape_char (c : ascii) : option string :=
  match c with
  | "b"%char => Some (bytes [8%N]) | "f"%char => Some (bytes [12%N]) | "n"%char => Some (bytes [10%N])
  | "r"%char => Some (bytes [13%N]) | "t"%char => Some (bytes [9%N]) | "/"%char => Some "/" | "\"%char => Some "\"
  | _ => if (byte_of c =? 34)%N then Some (bytes [34%N]) else None
  end.

Definition prepend (p : string) (r : option (string * string)) : option (string * string) :=
  '(s, rest) ← r; Some (p +:+ s, rest).

(** A string after its opening quotation mark: its value and what follows the
    closing one; [k] bytes of a character are still to be copied. *)
Fixpoint unquote (k : nat) (s : string) : option (string * string) :=
  match s with
  | EmptyString => None
  | String c s' =>
      match k with
      | S k' => prepend (String c "") (unquote k' s')
      | O =>
          if (byte_of c =? 34)%N then Some ("", s')
          else if (byte_of c =? 92)%N then
            match s' with
            | String "u" (String h1 (String h2 (String h3 (String h4 s'')))) =>
                r ← hex4 h1 h2 h3 h4;
                if is_surrogate r then
                  match s'' with
                  | String "\" (String "u" (String l1 (String l2 (String l3 (String l4 s3))))) =>
                      match hex4 l1 l2 l3 l4 ≫= utf16_pair r with
                      | Some r' => prepend (encode_rune r') (unquote 0 s3)
                      | None => prepend (encode_rune RuneError) (unquote 0 s'')
                      end
                  | _ => prepend (encode_rune RuneError) (unquote 0 s'')
                  end
                else prepend (encode_rune r) (unquote 0 s'')
            | String e s'' => p ← unescape_char e; prepend p (unquote 0 s'')
            | EmptyString => None
            end
          else if (byte_of c <? 32)%N then None
          else match utf8_len s with
               | O => prepend (encode_rune RuneError) (unquote 0 s')
               | S k' => prepend (String c "") (unquote k' s')
               end
      end
  end.

Definition digit (c : ascii) : bool := ((48 <=? byte_of c) && (byte_of c <=? 57))%N.

(** Characters of numbers; a number is followed by something else. *)
Definition number_char (c : ascii) : bool :=
  digit c || bool_decide (byte_of c ∈ [43; 45; 46; 69; 101]%N).

Fixpoint span_number (s : string) : string * string :=
  match s with
  | String c s' => if number_char c then let '(t, r) := span_number s' in (String c t, r) else ("", s)
  | EmptyString => ("", "")
  end.

Fixpoint skip_digits (s : string) : string :=
  match s with
  | String c s' => if digit c then skip_digits s' else s
  | EmptyString => s
  end.

Definition digits1 (s : string) : option string :=
  match s with
  | String c s' => if digit c then Some (skip_digits s') else None
  | EmptyString => None
  end.

(** The integer part of a number, without its sign. *)
Definition int_part (s : string) : option string :=
  match s with
  | String "0" s' => Some s'
  | _ => digits1 s
  end.

Definition frac_part (s : string) : option string :=
  match s with String "." s' => digits1 s' | _ => Some s end.

Definition exp_part (s : string) : option string :=
  match s with
  | String "e" s' | String "E" s' =>
      match s' with String "+" s'' | String "-" s'' => digits1 s'' | _ => digits1 s' end
  | _ => Some s
  end.

Fixpoint digits_value (acc : N) (s : string) : N :=
  match s with
  | String c s' => digits_value (10 * acc + (byte_of c - 48)) s'
  | EmptyString => acc
  end.

(** A number token: an integer literal has a value, another keeps its text. *)
Definition number_token (t : string) : option json :=
  let '(neg, u) := match t with String "-" u => (true, u) | _ => (false, t) end in
  r ← int_part u;
  if bool_decide (r = "") then
    let v := Z.of_N (digits_value 0 u) in Some (JInt (if neg then - v else v)%Z)
  else
    r ← frac_part r; r ← exp_part r;
    if bool_decide (r = "") then Some (JFloat t) else None.

Definition parse_number (s : string) : option (json * string) :=
  let '(t, rest) := span_number s in j ← number_token t; Some (j, rest).

(** ** Values *)

Definition maxNestingDepth : N := 10000.

Definition literal (s lit : string) (j : json) : option (json * string) :=
  if HasPrefix s lit then Some (j, string_drop (String.length lit) s) else None.

Fixpoint parse_value (fuel : nat) (depth : N) (s : string) : option (json * string) :=
  match fuel with
  | O => None
  | S fuel =>
      match skip_ws s with
      | EmptyString => None
      | String "{" s' =>
          if (depth =? 0)%N then None
          else match skip_ws s' with
               | String "}" r => Some (JObj [], r)
               | _ => '(kvs, r) ← parse_members fuel (depth - 1) s'; Some (JObj kvs, r)
               end
      | String "[" s' =>
          if (depth =? 0)%N then None
          else match skip_ws s' with
               | String "]" r => Some (JArr [], r)
               | _ => '(l, r) ← parse_elems fuel (depth - 1) s'; Some (JArr l, r)
               end
      | String c s' as t =>
          if (byte_of c =? 34)%N then '(v, r) ← unquote 0 s'; Some (JStr v, r)
          else match c with
               | "n"%char => literal t "null" JNull
               | "t"%char => literal t "true" (JBool true)
               | "f"%char => literal t "false" (JBool false)
               | _ => parse_number t
               end
      end
  end
with parse_elems (fuel : nat) (depth : N) (s : string) : option (list json * string) :=
  match fuel with
  | O => None
  | S fuel =>
      '(v, r) ← parse_value fuel depth s;
      match skip_ws r with
      | String "," r' => '(l, r'') ← parse_elems fuel depth r'; Some (v :: l, r'')
      | String "]" r' => Some ([v], r')
      | _ => None
      end
  end
with parse_members (fuel : nat) (depth : N) (s : string) : option (list (string * json) * string) :=
  match fuel with
  | O => None
  | S fuel =>
      match skip_ws s with
      | String q s' =>
          if (byte_of q =? 34)%N then
            '(k, r) ← unquote 0 s';
            match skip_ws r with
            | String ":" r1 =>
                '(v, r2) ← parse_value fuel depth r1;
                match skip_ws r2 with
                | String "," r3 => '(l, r4) ← parse_members fuel depth r3; Some ((k, v) :: l, r4)
                | String "}" r3 => Some ([(k, v)], r3)
                | _ => None
                end
            | _ => None
            end
          else None
      | EmptyString => None
      end
  end.

(** Every call that does not read a character is followed by one that does, so
    that twice the length is enough fuel. *)
Definition parse_json (s : string) : option json :=
  '(j, r) ← parse_value (2 * String.length s + 2) maxNestingDepth s;
  if bool_decide (skip_ws r = "") then Some j else None.

Example parse_sample :
  parse_json (Marshal (JObj [("ok", JBool true); ("result", JObj [("message_id", JInt (-42)); ("x", JFloat "1.5e3")]);
                             ("text", JArr [JStr "a<b"; JNull])])) =
  Some (JObj [("ok", JBool true); ("result", JObj [("message_id", JInt (-42)); ("x", JFloat "1.5e3")]);
              ("text", JArr [JStr "a<b"; JNull])]).
Proof. vm_compute. reflexivity. Qed.

Example parse_surrogates :
  parse_json (quote_char +:+ "\ud83d\ude00 \ud83d" +:+ quote_char) =
  Some (JStr (bytes [240; 159; 152; 128; 32; 239; 191; 189]%N)).
Proof. vm_compute. reflexivity. Qed.

(** ** Reading back what [Marshal] writes *)

(** Strings *)

Lemma prepend_cons c s rest : prepend (String c "") (Some (s, rest)) = Some (String c s, rest).
Proof. done. Qed.

Lemma unquote_escape_char c t : (byte_of c < 128)%N → unquote 0 (escape_char c +:+ t) = prepend (String c "") (unquote 0 t).
Proof. intros Hc. destruct c as [[] [] [] [] [] [] [] []]; (exfalso; by vm_compute in Hc) || reflexivity. Qed.

Lemma escape_from_take k s : escape_from k s = string_take k s +:+ escape_from 0 (string_drop k s).
Proof.
  revert k. induction s as [|c s IH]; intros [|k]; try done.
  cbn [escape_from string_take string_drop]. by rewrite string_app_cons, <- IH.
Qed.

Lemma line_sep_cases c s : line_sep (String c s) = true →
  ∃ d s'', String c s = String (byte 226) (String (byte 128) (String d s'')) ∧ (d = byte 168 ∨ d = byte 169).
Proof.
  unfold line_sep. intros H. apply orb_true_iff in H.
  destruct H as [H|H]; apply HasPrefix_inv in H as [t ->]; eexists _, t; split; eauto; done.
Qed.

(** The size of a character does not depend on how what follows it is written. *)
Lemma utf8_len_escape c s k t :
  utf8_len (String c s) = S k → utf8_len (String c (escape_from k s +:+ t)) = S k.
Proof.
  intros Hl. rewrite escape_from_take, string_app_assoc.
  by apply (utf8_len_take (String c s) (escape_from 0 (string_drop k s) +:+ t)).
Qed.

Lemma unquote_escape s k rest :
  valid_from k s = true → unquote k (escape_from k s +:+ quote_char +:+ rest) = Some (s, rest).
Proof.
  remember (String.length s) as n eqn:Hn. assert (String.length s ≤ n) as Hle by lia. clear Hn.
  revert s k Hle. induction n as [|n IH]; intros [|c s] k Hle Hv; simpl in Hle; try lia.
  { destruct k; [done|discriminate Hv]. }
  { destruct k; [done|discriminate Hv]. }
  destruct k as [|k]; [|cbn [valid_from] in Hv; cbn [escape_from]; rewrite string_app_cons; cbn [unquote];
    by rewrite IH by (done || lia)].
  cbn [valid_from] in Hv. cbn [escape_from]. destruct (N.ltb_spec (byte_of c) 128) as [Hc|Hc].
  { rewrite utf8_len_ascii in Hv by done. rewrite string_app_assoc, unquote_escape_char by done.
    by rewrite IH by (done || lia). }
  destruct (line_sep (String c s)) eqn:Hls.
  { apply line_sep_cases in Hls as (d & s'' & Hs & Hd). injection Hs as -> ->.
    simpl in Hle. rewrite !string_app_assoc.
    assert (valid_from 0 s'' = true) as Hv' by (destruct Hd as [-> | ->]; exact Hv).
    destruct Hd as [-> | ->]; set (t := escape_from 0 s'' +:+ quote_char +:+ rest).
    - change (prepend (bytes [226; 128; 168]%N) (unquote 0 t) = Some (bytes [226; 128; 168]%N +:+ s'', rest)).
      unfold t. by rewrite IH by (done || lia).
    - change (prepend (bytes [226; 128; 169]%N) (unquote 0 t) = Some (bytes [226; 128; 169]%N +:+ s'', rest)).
      unfold t. by rewrite IH by (done || lia). }
  destruct (utf8_len (String c s)) as [|k] eqn:Hl; [done|].
  rewrite string_app_cons. cbn [unquote].
  rewrite (proj2 (N.eqb_neq _ 34)), (proj2 (N.eqb_neq _ 92)), (proj2 (N.ltb_ge _ 32)) by lia.
  rewrite (utf8_len_escape c s k _ Hl). by rewrite IH by (done || lia).
Qed.

(** Numbers *)

Fixpoint all_digits (s : string) : bool :=
  match s with String c s' => digit c && all_digits s' | EmptyString => true end.

Lemma digits_value_app acc s t : digits_value acc (s +:+ t) = digits_value (digits_value acc s) t.
Proof. revert acc. induction s as [|c s IH]; intros acc; [done|]. rewrite string_app_cons. simpl. apply IH. Qed.

Lemma all_digits_app s t : all_digits (s +:+ t) = all_digits s && all_digits t.
Proof. induction s as [|c s IH]; [done|]. rewrite string_app_cons. simpl. by rewrite IH, andb_assoc. Qed.

Lemma pretty_char_digit d : (d < 10)%N → digit (pretty_N_char d) = true ∧ byte_of (pretty_N_char d) = (48 + d)%N.
Proof.
  intros Hd. destruct d as [|p]; [done|]. do 4 (try destruct p as [p|p|]); try lia; done.
Qed.

(** The digits [pretty] writes before [s]. *)
Lemma pretty_go_digits x s : (0 < x)%N → ∃ c t,
  pretty_N_go x s = String c t +:+ s ∧ c ≠ "0"%char ∧ all_digits (String c t) = true ∧ digits_value 0 (String c t) = x.
Proof.
  revert s. induction (N.lt_wf_0 x) as [x _ IH]. intros s Hx. rewrite pretty_N_go_step by done.
  pose proof (N.mod_lt x 10 ltac:(done)) as Hm. destruct (pretty_char_digit _ Hm) as [Hd Hb].
  destruct (decide (x < 10)%N) as [Hs|Hs].
  - rewrite N.div_small, pretty_N_go_0 by done. rewrite N.mod_small in Hd, Hb |- * by done.
    eexists _, "". split_and!; [done| |simpl; by rewrite Hd|cbn [digits_value]; lia].
    intros Hc. rewrite Hc in Hb. change (48 = 48 + x)%N in Hb. lia.
  - assert (0 < x / 10)%N as H10 by (apply N.div_str_pos; lia).
    destruct (IH (x / 10)%N ltac:(apply N.div_lt; lia) (String (pretty_N_char (x mod 10)) s) H10)
      as (c & t & -> & Hc & Ht & Hval).
    exists c, (t +:+ String (pretty_N_char (x mod 10)) "").
    split_and!; [by rewrite <- !string_app_cons, string_app_assoc|done| |].
    + rewrite <- string_app_cons, all_digits_app, Ht. simpl. by rewrite Hd.
    + rewrite <- string_app_cons, digits_value_app, Hval. cbn [digits_value]. rewrite Hb.
      pose proof (N.div_mod x 10 ltac:(done)) as Hdm. clear -Hdm. revert Hdm.
      generalize (x `div` 10)%N (x `mod` 10)%N. lia.
Qed.

Lemma pretty_pos_digits p : ∃ c t,
  pretty (Npos p) = String c t ∧ c ≠ "0"%char ∧ all_digits (String c t) = true ∧ digits_value 0 (String c t) = Npos p.
Proof.
  unfold pretty, pretty_N. rewrite decide_False by done.
  destruct (pretty_go_digits (Npos p) "" ltac:(done)) as (c & t & -> & H). exists c, t.
  by rewrite string_app_nil_r.
Qed.

Lemma skip_all_digits s : all_digits s = true → skip_digits s = "".
Proof. induction s as [|c s IH]; [done|]. simpl. intros [-> Hs]%andb_true_iff. auto. Qed.

Lemma number_token_nat c t : c ≠ "0"%char → all_digits (String c t) = true →
  int_part (String c t) = Some "".
Proof.
  intros Hc Hd. simpl in Hd. apply andb_true_iff in Hd as [Hcd Ht].
  unfold int_part, digits1. rewrite Hcd, (skip_all_digits _ Ht).
  destruct c as [[] [] [] [] [] [] [] []]; try done.
Qed.

Lemma number_token_int (z : Z) : number_token (pretty z) = Some (JInt z).
Proof.
  destruct z as [|p|p]; [reflexivity| |].
  - change (pretty (Zpos p)) with (pretty (Npos p)). destruct (pretty_pos_digits p) as (c & t & -> & Hc & Hd & Hv).
    unfold number_token. assert (match String c t with String "-" u => (true, u) | _ => (false, String c t) end = (false, String c t)) as ->.
    { simpl in Hd. destruct c as [[] [] [] [] [] [] [] []]; done. }
    rewrite (number_token_nat c t Hc Hd), Hv. done.
  - change (pretty (Zneg p)) with ("-" +:+ pretty (Npos p)). destruct (pretty_pos_digits p) as (c & t & -> & Hc & Hd & Hv).
    rewrite string_app_cons. cbv beta iota delta [number_token].
    change ("" +:+ String c t) with (String c t). by rewrite (number_token_nat c t Hc Hd), Hv.
Qed.

Fixpoint all_number (s : string) : bool :=
  match s with String c s' => number_char c && all_number s' | EmptyString => true end.

Lemma all_digits_number s : all_digits s = true → all_number s = true.
Proof.
  induction s as [|c s IH]; [done|]. simpl. intros [Hc Hs]%andb_true_iff.
  unfold number_char. by rewrite Hc, IH.
Qed.

Lemma pretty_number (z : Z) : all_number (pretty z) = true.
Proof.
  destruct z as [|p|p]; [done| |].
  - change (pretty (Zpos p)) with (pretty (Npos p)). destruct (pretty_pos_digits p) as (c & t & -> & _ & Hd & _).
    by apply all_digits_number.
  - change (pretty (Zneg p)) with ("-" +:+ pretty (Npos p)). destruct (pretty_pos_digits p) as (c & t & -> & _ & Hd & _).
    by apply all_digits_number in Hd.
Qed.

(** What can follow a value inside a document. *)
Definition follow (s : string) : bool :=
  match s with String c _ => negb (number_char c) | EmptyString => true end.

Lemma span_number_app t s : all_number t = true → follow s = true → span_number (t +:+ s) = (t, s).
Proof.
  induction t as [|c t IH]; simpl.
  - intros _ Hs. destruct s as [|c s]; [done|]. simpl in Hs |- *. by apply negb_true_iff in Hs as ->.
  - intros [Hc Ht]%andb_true_iff Hs. by rewrite Hc, (IH Ht Hs).
Qed.

Lemma parse_number_app t s j :
  all_number t = true → number_token t = Some j → follow s = true → parse_number (t +:+ s) = Some (j, s).
Proof. intros Ht Hj Hs. unfold parse_number. by rewrite span_number_app, Hj. Qed.

(** Values: strings are UTF-8 and other numbers are literals, as in every
    document [json.Unmarshal] has read. *)
Fixpoint json_wf (j : json) : bool :=
  match j with
  | JNull | JBool _ | JInt _ => true
  | JFloat lit => all_number lit && match number_token lit with Some (JFloat t) => bool_decide (t = lit) | _ => false end
  | JStr s => ValidString s
  | JArr l => forallb json_wf l
  | JObj kvs => forallb (λ '(k, v), ValidString k && json_wf v) kvs
  end.

Fixpoint json_depth (j : json) : N :=
  match j with
  | JArr l => 1 + foldr (λ v n, N.max (json_depth v) n) 0 l
  | JObj kvs => 1 + foldr (λ kv n, N.max (json_depth kv.2) n) 0 kvs
  | _ => 0
  end%N.

(** The fuel a document needs. *)
Fixpoint json_size (j : json) : nat :=
  match j with
  | JArr l => S (foldr (λ v n, S (json_size v + n)) O l)
  | JObj kvs => S (foldr (λ kv n, S (json_size kv.2 + n)) O kvs)
  | _ => 1
  end%nat.

Definition elems_text (l : list json) : string := String.concat "," (map Marshal l).
Definition member_text (kv : string * json) : string := quote kv.1 +:+ ":" +:+ Marshal kv.2.
Definition members_text (kvs : list (string * json)) : string := String.concat "," (map member_text kvs).

Lemma Marshal_JObj kvs : Marshal (JObj kvs) = "{" +:+ members_text kvs +:+ "}".
Proof. cbn [Marshal]. unfold members_text. do 3 f_equal. apply map_ext. by intros []. Qed.

Lemma concat_cons sep x xs : String.concat sep (x :: xs) = match xs with [] => x | _ => x +:+ sep +:+ String.concat sep xs end.
Proof. by destruct xs. Qed.

(** A value starts with a character of its own. *)
Definition starts_value (s : string) : Prop :=
  match s with String c _ => is_ws c = false ∧ c ≠ "]"%char ∧ c ≠ "}"%char | EmptyString => False end.

Lemma number_starts c s : number_char c = true → starts_value (String c s).
Proof. destruct c as [[] [] [] [] [] [] [] []]; (intros H; by vm_compute in H) || done. Qed.

Lemma JFloat_wf lit : json_wf (JFloat lit) = true → all_number lit = true ∧ number_token lit = Some (JFloat lit).
Proof.
  simpl. intros [Ha Ht]%andb_true_iff. split; [done|]. destruct (number_token lit) as [[]|]; try done.
  by apply bool_decide_eq_true in Ht as ->.
Qed.

Lemma Marshal_starts j : json_wf j = true → starts_value (Marshal j).
Proof.
  destruct j as [|[]|z|lit|s|l|kvs]; try done.
  - intros _. pose proof (pretty_number z) as H. pose proof (number_token_int z) as Ht. cbn [Marshal].
    destruct (pretty z) as [|c t]; [done|]. simpl in H. apply andb_true_iff in H as [H _]. by apply number_starts.
  - intros [H Ht]%JFloat_wf. cbn [Marshal]. destruct lit as [|c t]; [done|].
    simpl in H. apply andb_true_iff in H as [H _]. by apply number_starts.
Qed.

Lemma skip_ws_starts s t : starts_value s → skip_ws (s +:+ t) = s +:+ t.
Proof. destruct s as [|c s]; [done|]. intros [Hc _]. rewrite string_app_cons. simpl. by rewrite Hc. Qed.

Lemma parse_value_number fuel depth c t :
  number_char c = true → parse_value (S fuel) depth (String c t) = parse_number (String c t).
Proof. destruct c as [[] [] [] [] [] [] [] []]; (intros H; by vm_compute in H) || done. Qed.

Lemma parse_value_token fuel depth t s j :
  all_number t = true → number_token t = Some j → follow s = true →
  parse_value (S fuel) depth (t +:+ s) = Some (j, s).
Proof.
  intros Ha Ht Hs. pose proof (parse_number_app t s j Ha Ht Hs) as Hp. destruct t as [|c t]; [done|].
  rewrite string_app_cons in *. simpl in Ha. apply andb_true_iff in Ha as [Hc _]. by rewrite parse_value_number.
Qed.

Definition values_read (fuel : nat) : Prop := ∀ j depth s,
  (json_size j ≤ fuel)%nat → json_wf j = true → (json_depth j ≤ depth)%N → follow s = true →
  parse_value fuel depth (Marshal j +:+ s) = Some (j, s).

Definition elems_read (fuel : nat) : Prop := ∀ l depth s, l ≠ [] →
  (foldr (λ v n, S (json_size v + n)) O l ≤ fuel)%nat → forallb json_wf l = true →
  (foldr (λ v n, N.max (json_depth v) n) 0 l ≤ depth)%N →
  parse_elems fuel depth (elems_text l +:+ "]" +:+ s) = Some (l, s).

Definition members_read (fuel : nat) : Prop := ∀ kvs depth s, kvs ≠ [] →
  (foldr (λ kv n, S (json_size kv.2 + n)) O kvs ≤ fuel)%nat →
  forallb (λ '(k, v), ValidString k && json_wf v) kvs = true →
  (foldr (λ kv n, N.max (json_depth kv.2) n) 0 kvs ≤ depth)%N →
  parse_members fuel depth (members_text kvs +:+ "}" +:+ s) = Some (kvs, s).

Lemma elems_read_step fuel : values_read fuel → elems_read fuel → elems_read (S fuel).
Proof.
  intros Hv He l depth s Hl Hs Hw Hd. destruct l as [|v l]; [done|]. simpl in Hs, Hw, Hd.
  apply andb_true_iff in Hw as [Hw Hwl]. cbn [parse_elems]. unfold elems_text. cbn [map]. rewrite concat_cons.
  destruct l as [|v' l].
  - simpl. rewrite (Hv v depth ("]" +:+ s)) by (done || lia). done.
  - change (map Marshal (v' :: l)) with (Marshal v' :: map Marshal l) at 1. cbv iota.
    change (String.concat "," (map Marshal (v' :: l))) with (elems_text (v' :: l)). rewrite !string_app_assoc.
    rewrite (Hv v depth) by (done || lia). cbn [mbind option_bind]. cbv beta iota.
    change (skip_ws ("," +:+ ?t)) with (String "," t). cbv iota.
    rewrite (He (v' :: l) depth s) by (done || (simpl in *; lia)). done.
Qed.

(** A quoted string and what follows it. *)
Lemma quote_app s t : quote s +:+ t = String (byte 34) (escape_from 0 s +:+ quote_char +:+ t).
Proof. unfold quote, escape. by rewrite !string_app_assoc. Qed.

Lemma members_read_step fuel : values_read fuel → members_read fuel → members_read (S fuel).
Proof.
  intros Hv He kvs depth s Hl Hs Hw Hd. destruct kvs as [|[k v] l]; [done|]. simpl in Hs, Hw, Hd.
  apply andb_true_iff in Hw as [[Hk Hw]%andb_true_iff Hwl]. unfold members_text. cbn [map]. rewrite concat_cons.
  assert (∀ t, follow t = true → parse_members (S fuel) depth (member_text (k, v) +:+ t) =
    match skip_ws t with
    | String "," r3 => '(l, r4) ← parse_members fuel depth r3; Some ((k, v) :: l, r4)
    | String "}" r3 => Some ([(k, v)], r3)
    | _ => None
    end) as Hone.
  { intros t Ht. unfold member_text. cbn [fst snd]. rewrite !string_app_assoc, quote_app. cbn [parse_members].
    change (skip_ws (String (byte 34) ?x)) with (String (byte 34) x). cbv iota.
    change (byte_of (byte 34) =? 34)%N with true. cbv iota.
    rewrite unquote_escape by exact Hk. cbn [mbind option_bind]. cbv beta iota.
    change (skip_ws (":" +:+ ?x)) with (String ":" x). cbv iota.
    rewrite (Hv v depth t) by (done || lia). done. }
  destruct l as [|kv' l]; [by rewrite Hone|].
  change (map member_text (kv' :: l)) with (member_text kv' :: map member_text l) at 1. cbv iota.
  change (String.concat "," (map member_text (kv' :: l))) with (members_text (kv' :: l)).
  rewrite !string_app_assoc, Hone by done. change (skip_ws ("," +:+ ?t)) with (String "," t). cbv iota.
  rewrite (He (kv' :: l) depth s) by (done || (simpl in *; lia)). done.
Qed.

Lemma elems_text_starts l : l ≠ [] → forallb json_wf l = true → starts_value (elems_text l).
Proof.
  destruct l as [|v l]; [done|]. intros _ [Hv _]%andb_true_iff. unfold elems_text. cbn [map]. rewrite concat_cons.
  apply Marshal_starts in Hv. destruct (map Marshal l); [done|]. by destruct (Marshal v).
Qed.

Lemma members_text_starts kvs : kvs ≠ [] → starts_value (members_text kvs).
Proof.
  destruct kvs as [|[k v] l]; [done|]. intros _. unfold members_text. cbn [map]. rewrite concat_cons.
  destruct (map member_text l); done.
Qed.

Lemma literal_app lit s j : literal (lit +:+ s) lit j = Some (j, s).
Proof. unfold literal. by rewrite HasPrefix_app, string_drop_app. Qed.

Lemma values_read_step fuel : elems_read fuel → members_read fuel → values_read (S fuel).
Proof.
  intros He Hm j depth s Hs Hw Hd Hf. destruct j as [|[]|z|lit|str|l|kvs].
  - apply (literal_app "null").
  - apply (literal_app "true").
  - apply (literal_app "false").
  - apply parse_value_token; [apply pretty_number|apply number_token_int|done].
  - apply JFloat_wf in Hw as [Ha Ht]. by apply parse_value_token.
  - cbn [Marshal]. rewrite quote_app. cbn [parse_value].
    change (skip_ws (String (byte 34) ?x)) with (String (byte 34) x).
    change (('(v, r) ← unquote 0 (escape_from 0 str +:+ quote_char +:+ s); Some (JStr v, r)) = Some (JStr str, s)).
    by rewrite unquote_escape.
  - cbn [Marshal json_size json_depth json_wf] in *. change (String.concat "," (map Marshal l)) with (elems_text l).
    rewrite !string_app_assoc. cbn [parse_value]. change (skip_ws ("[" +:+ ?x)) with (String "[" x). cbv iota.
    rewrite (proj2 (N.eqb_neq _ _)) by lia. destruct (decide (l = [])) as [->|Hl]; [done|].
    pose proof (elems_text_starts l Hl Hw) as Hst. rewrite (skip_ws_starts _ _ Hst).
    assert (∀ (X : string → option (json * string)) Y, match elems_text l +:+ "]" +:+ s with String "]" r => X r | _ => Y end = Y) as ->.
    { intros X Y. destruct (elems_text l) as [|c t]; [done|]. destruct Hst as (_ & Hc & _).
      rewrite string_app_cons. destruct c as [[] [] [] [] [] [] [] []]; done. }
    rewrite (He l (depth - 1)%N s) by (done || lia). done.
  - rewrite Marshal_JObj. cbn [json_size json_depth json_wf] in *.
    rewrite !string_app_assoc. cbn [parse_value]. change (skip_ws ("{" +:+ ?x)) with (String "{" x). cbv iota.
    rewrite (proj2 (N.eqb_neq _ _)) by lia. destruct (decide (kvs = [])) as [->|Hl]; [done|].
    pose proof (members_text_starts kvs Hl) as Hst. rewrite (skip_ws_starts _ _ Hst).
    assert (∀ (X : string → option (json * string)) Y, match members_text kvs +:+ "}" +:+ s with String "}" r => X r | _ => Y end = Y) as ->.
    { intros X Y. destruct (members_text kvs) as [|c t]; [done|]. destruct Hst as (_ & _ & Hc).
      rewrite string_app_cons. destruct c as [[] [] [] [] [] [] [] []]; done. }
    rewrite (Hm kvs (depth - 1)%N s) by (done || lia). done.
Qed.

Lemma all_read fuel : values_read fuel ∧ elems_read fuel ∧ members_read fuel.
Proof.
  induction fuel as [|fuel (Hv & He & Hm)].
  - split_and!.
    + intros j depth s Hs. destruct j; simpl in Hs; lia.
    + intros [|v l] depth s Hl Hs; [done|]. simpl in Hs. lia.
    + intros [|v l] depth s Hl Hs; [done|]. simpl in Hs. lia.
  - auto using values_read_step, elems_read_step, members_read_step.
Qed.

(** The fuel of [parse_json] covers every document. *)
Lemma json_size_text n j : (json_size j ≤ n)%nat → json_wf j = true → (json_size j ≤ 2 * String.length (Marshal j))%nat.
Proof.
  revert j. induction n as [|n IH]; intros j Hn Hw; [destruct j; simpl in Hn; lia|].
  assert (starts_value (Marshal j)) as Hst by by apply Marshal_starts.
  destruct j as [|b|z|lit|s|l|kvs]; try (destruct (Marshal _); [done|]; simpl; lia).
  - cbn [json_size Marshal json_wf] in *. rewrite !string_length_app. simpl (String.length "["); simpl (String.length "]").
    enough (foldr (λ v n, S (json_size v + n)) O l ≤ 2 * String.length (String.concat "," (map Marshal l)) + 2)%nat by lia.
    clear Hst. revert Hn Hw. induction l as [|v l IHl]; [simpl; lia|]. intros Hn Hw. simpl in Hn, Hw.
    apply andb_true_iff in Hw as [Hw Hwl]. specialize (IHl ltac:(simpl; lia) Hwl). specialize (IH v ltac:(lia) Hw).
    cbn [map foldr]. rewrite concat_cons. destruct l as [|v' l].
    + simpl in *. pose proof (Marshal_starts v Hw). lia.
    + cbn [map] in *. rewrite !string_length_app. simpl (String.length ","). lia.
  - rewrite Marshal_JObj in *. cbn [json_size json_wf] in *. rewrite !string_length_app. simpl (String.length "{"); simpl (String.length "}").
    enough (foldr (λ kv n, S (json_size kv.2 + n)) O kvs ≤ 2 * String.length (members_text kvs) + 2)%nat by lia.
    clear Hst. revert Hn Hw. unfold members_text. induction kvs as [|[k v] l IHl]; [simpl; lia|]. intros Hn Hw. simpl in Hn, Hw.
    apply andb_true_iff in Hw as [[_ Hw]%andb_true_iff Hwl]. specialize (IHl ltac:(simpl; lia) Hwl). specialize (IH v ltac:(lia) Hw).
    cbn [map foldr]. rewrite concat_cons.
    assert (String.length (member_text (k, v)) ≥ 2 + String.length (Marshal v))%nat as Hm.
    { unfold member_text, quote. rewrite !string_length_app. simpl. lia. }
    simpl snd. destruct l as [|kv' l].
    + simpl in *. lia.
    + cbn [map] in *. rewrite !string_length_app. simpl (String.length ","). lia.
Qed.

Lemma parse_Marshal j : json_wf j = true → (json_depth j ≤ maxNestingDepth)%N → parse_json (Marshal j) = Some j.
Proof.
  intros Hw Hd. unfold parse_json. rewrite <- (string_app_nil_r (Marshal j)) at 2.
  rewrite (proj1 (all_read _) j maxNestingDepth "") by (done || (pose proof (json_size_text _ j (le_n _) Hw); lia)). done.
Qed.

(** [json.Encoder] ends a document with a newline. *)
Definition Encode (j : json) : string := Marshal j +:+ bytes [10]%N.

Lemma parse_Encode j : json_wf j = true → (json_depth j ≤ maxNestingDepth)%N → parse_json (Encode j) = Some j.
Proof.
  intros Hw Hd. unfold parse_json, Encode. rewrite string_length_app.
  rewrite (proj1 (all_read _) j maxNestingDepth (bytes [10]%N))
    by (done || (pose proof (json_size_text _ j (le_n _) Hw); lia)). done.
Qed.
