(* ===== verification/Durations.v ===== *)
(** * Durations: the text of a [time.Duration]

    [Duration.String] and [time.ParseDuration].  A fraction is scaled in binary64
    arithmetic, as the library does it.  A duration of whole seconds, such as the
    lifetime of a token, is read back from its text. *)
From Stdlib Require Import Ascii SpecFloat.
From S2P Require Import Prelude GoTime Utf8 Json JsonText.

(** ** [Duration.String] *)

(** [fmtFrac]: the last [prec] digits of [u] behind a point, without trailing
    zeros, and the rest of [u]. *)
Definition fmtFrac (u : Z) (prec : nat) : string * Z :=
  let m := (10 ^ Z.of_nat prec)%Z in
  (if (u mod m =? 0)%Z then "" else "." +:+ trim_zeros (pad prec (u mod m)), u / m)%Z.

Definition Duration_String (d : Duration) : string :=
  let u := Z.abs d in
  let sign := if (d <? 0)%Z then "-" else "" in
  sign +:+
  (if (u <? Second)%Z then
     if (u =? 0)%Z then "0s"
     else if (u <? 1000)%Z then pretty u +:+ "ns"
     else if (u <? Millisecond)%Z then let '(frac, v) := fmtFrac u 3 in pretty v +:+ frac +:+ "µs"
     else let '(frac, v) := fmtFrac u 6 in pretty v +:+ frac +:+ "ms"
   else
     let '(frac, v) := fmtFrac u 9 in
     let seconds := pretty (v mod 60)%Z +:+ frac +:+ "s" in
     let m := (v / 60)%Z in
     if (m =? 0)%Z then seconds
     else
       let minutes := pretty (m mod 60)%Z +:+ "m" +:+ seconds in
       let h := (m / 60)%Z in
       if (h =? 0)%Z then minutes else pretty h +:+ "h" +:+ minutes).

(** ** [time.ParseDuration] *)

(** [leadingInt]: none when the number does not fit. *)
Fixpoint leadingInt (x : Z) (s : string) : option (Z * string) :=
  match s with
  | String c s' =>
      if digit c then
        if (2 ^ 63 / 10 <? x)%Z then None
        else
          let x := (10 * x + Z.of_N (byte_of c - 48))%Z in
          if (2 ^ 63 <? x)%Z then None else leadingInt x s'
      else Some (x, s)
  | EmptyString => Some (x, s)
  end.

(** [leadingFraction]: digits that no longer fit are dropped. *)
Fixpoint leadingFraction (x scale : Z) (overflow : bool) (s : string) : Z * Z * string :=
  match s with
  | String c s' =>
      if digit c then
        let y := (10 * x + Z.of_N (byte_of c - 48))%Z in
        if overflow || ((2 ^ 63 - 1) / 10 <? x)%Z || (2 ^ 63 <? y)%Z then leadingFraction x scale true s'
        else leadingFraction y (10 * scale) false s'
      else (x, scale, s)
  | EmptyString => (x, scale, s)
  end.

(** [uint64(float64(f) * (float64(unit) / scale))] *)
Definition float64 (z : Z) : spec_float := binary_normalize 53 1024 z 0 false.
Definition float_trunc (x : spec_float) : Z :=
  match x with
  | S754_finite false m e => if (0 <=? e)%Z then (Zpos m * 2 ^ e)%Z else (Zpos m / 2 ^ (- e))%Z
  | _ => 0%Z
  end.
Definition scaled_fraction (f unit scale : Z) : Z :=
  float_trunc (SFmul 53 1024 (float64 f) (SFdiv 53 1024 (float64 unit) (float64 scale))).

Definition unit_map (u : string) : option Z :=
  if bool_decide (u = "ns") then Some 1%Z
  else if bool_decide (u = "us") || bool_decide (u = "µs") || bool_decide (u = "μs") then Some 1000%Z
  else if bool_decide (u = "ms") then Some Millisecond
  else if bool_decide (u = "s") then Some Second
  else if bool_decide (u = "m") then Some Minute
  else if bool_decide (u = "h") then Some Hour
  else None.

Definition unit_char (c : ascii) : bool := negb (digit c || bool_decide (c = "."%char)).
Fixpoint span_unit (s : string) : string * string :=
  match s with
  | String c s' => if unit_char c then let '(t, r) := span_unit s' in (String c t, r) else ("", s)
  | EmptyString => ("", "")
  end.

Definition invalid_duration (orig : string) : error := errors_New ("time: invalid duration " +:+ quote orig).

(** The fraction, if there is one: its digits, their scale, what follows, and
    whether there were digits. *)
Definition parse_fraction (s : string) : Z * Z * string * bool :=
  match s with
  | String "." s' => let '(f, scale, s2) := leadingFraction 0 1 false s' in
                     (f, scale, s2, negb (String.length s' =? String.length s2)%nat)
  | _ => (0%Z, 1%Z, s, false)
  end.

(** One number with its unit: its value, and what follows. *)
Definition parse_component (orig s : string) : result (Z * string) :=
  let starts := match s with String c _ => digit c || bool_decide (c = "."%char) | EmptyString => false end in
  if negb starts then Err (invalid_duration orig)
  else match leadingInt 0 s with
  | None => Err (invalid_duration orig)
  | Some (v, s1) =>
      let pre := negb (String.length s =? String.length s1)%nat in
      let '(f, scale, s2, post) := parse_fraction s1 in
      if negb pre && negb post then Err (invalid_duration orig)
      else
        let '(u, s3) := span_unit s2 in
        if bool_decide (u = "") then Err (errors_New ("time: missing unit in duration " +:+ quote orig))
        else match unit_map u with
        | None => Err (errors_New ("time: unknown unit " +:+ quote u +:+ " in duration " +:+ quote orig))
        | Some unit =>
            if (2 ^ 63 / unit <? v)%Z then Err (invalid_duration orig)
            else
              let v := (v * unit + (if (0 <? f)%Z then scaled_fraction f unit scale else 0))%Z in
              if (2 ^ 63 <? v)%Z then Err (invalid_duration orig) else Ok (v, s3)
        end
  end.

(** The loop; every round consumes text, so that its length is enough fuel. *)
Fixpoint parse_components (fuel : nat) (orig : string) (d : Z) (s : string) : result Z :=
  match s, fuel with
  | EmptyString, _ => Ok d
  | _, O => Err (invalid_duration orig)
  | _, S fuel =>
      vs <-? parse_component orig s;
      let d := ((d + vs.1) mod 2 ^ 64)%Z in
      if (2 ^ 63 <? d)%Z then Err (invalid_duration orig) else parse_components fuel orig d vs.2
  end.

Definition ParseDuration (orig : string) : result Duration :=
  let '(neg, s) := match orig with
                   | String "-" s => (true, s)
                   | String "+" s => (false, s)
                   | _ => (false, orig)
                   end in
  if bool_decide (s = "0") then Ok 0%Z
  else if bool_decide (s = "") then Err (invalid_duration orig)
  else
    d <-? parse_components (String.length s) orig 0 s;
    if neg then Ok (- d)%Z
    else if (2 ^ 63 - 1 <? d)%Z then Err (invalid_duration orig) else Ok d.

Example duration_samples :
  map Duration_String [0; 1; 1500; 2500000; 90 * Second; 24 * Hour; -1500000000; Second + 1]%Z =
  ["0s"; "1ns"; "1.5µs"; "2.5ms"; "1m30s"; "24h0m0s"; "-1.5s"; "1.000000001s"].
Proof. vm_compute. reflexivity. Qed.

Example parse_samples :
  map ParseDuration ["24h0m0s"; "1.5h"; "-1.5s"; "0"; "1.000000001s"; ".5m"; "1us2µs3ns"] =
  map Ok [86400 * Second; 5400 * Second; -1500000000; 0; Second + 1; 30 * Second; 3003]%Z.
Proof. vm_compute. reflexivity. Qed.

Example parse_errors :
  map (λ s, is_Ok (ParseDuration s)) [""; "1"; "h"; "."; "1x"; "9223372036854775808ns"; "1h-2m"] = replicate 7 false.
Proof. vm_compute. reflexivity. Qed.

(** ** Whole seconds are read back *)

Lemma digits_value_mono acc t : (acc ≤ digits_value acc t)%N.
Proof. revert acc. induction t as [|c t IH]; intros acc; cbn [digits_value]; [done|]. etrans; [|apply IH]. lia. Qed.

Lemma leadingInt_digits acc t c rest :
  all_digits t = true → (Z.of_N (digits_value acc t) ≤ 2 ^ 63)%Z → digit c = false →
  leadingInt (Z.of_N acc) (t +:+ String c rest) = Some (Z.of_N (digits_value acc t), String c rest).
Proof.
  intros Ht Hb Hc. revert acc Ht Hb. induction t as [|d t IH]; intros acc Ht Hb.
  - change ("" +:+ String c rest) with (String c rest). cbn [leadingInt]. by rewrite Hc.
  - rewrite string_app_cons. cbn [leadingInt all_digits digits_value] in *. apply andb_true_iff in Ht as [Hd Ht]. rewrite Hd.
    pose proof (digits_value_mono (10 * acc + (byte_of d - 48)) t) as Hm.
    assert (Z.of_N acc ≤ 2 ^ 63 / 10)%Z by (apply Z.div_le_lower_bound; lia).
    rewrite (proj2 (Z.ltb_ge _ _)) by done.
    replace (10 * Z.of_N acc + Z.of_N (byte_of d - 48))%Z with (Z.of_N (10 * acc + (byte_of d - 48))) by lia.
    rewrite (proj2 (Z.ltb_ge _ _)) by lia. by apply IH.
Qed.

(** The digits of a number that is not negative. *)
Lemma pretty_digits (n : Z) : (0 ≤ n)%Z → ∃ c t,
  pretty n = String c t ∧ all_digits (String c t) = true ∧ Z.of_N (digits_value 0 (String c t)) = n.
Proof.
  intros Hn. destruct n as [|p|p]; [by exists "0"%char, ""| |lia].
  change (pretty (Zpos p)) with (pretty (Npos p)). destruct (pretty_pos_digits p) as (c & t & H1 & _ & H2 & H3).
  exists c, t. split_and!; [done|done|]. by rewrite H3.
Qed.

Definition component_end (s : string) : Prop :=
  match s with String c _ => digit c = true | EmptyString => True end.

(** A number with a one-letter unit, before another number or the end. *)
Lemma parse_component_unit orig n c unit rest :
  (0 ≤ n)%Z → (n * unit ≤ 2 ^ 63)%Z → (1 ≤ unit)%Z → c ≠ "."%char → digit c = false → unit_map (String c "") = Some unit →
  component_end rest → parse_component orig (pretty n +:+ String c rest) = Ok ((n * unit)%Z, rest).
Proof.
  intros Hn Hb Hu Hdot Hdig Hunit Hend. destruct (pretty_digits n Hn) as (d & t & -> & Hd & Hv).
  pose proof (leadingInt_digits 0 (String d t) c rest Hd ltac:(nia) Hdig) as Hl.
  unfold parse_component. rewrite string_app_cons in Hl |- *. cbn [all_digits] in Hd. apply andb_true_iff in Hd as [Hd _].
  rewrite Hd. cbn [orb negb]. change (Z.of_N 0) with 0%Z in Hl. rewrite Hl, Hv.
  assert ((String.length (String d (t +:+ String c rest)) =? String.length (String c rest))%nat = false) as ->.
  { apply Nat.eqb_neq. simpl. rewrite string_length_app. simpl. lia. }
  assert (span_unit (String c rest) = (String c "", rest)) as Hs.
  { cbn [span_unit]. unfold unit_char at 1. rewrite Hdig, bool_decide_eq_false_2 by done. cbn [orb negb].
    destruct rest as [|e rest]; [done|]. cbn [span_unit]. unfold unit_char. rewrite Hend. done. }
  assert (parse_fraction (String c rest) = (0%Z, 1%Z, String c rest, false)) as ->
    by (destruct c as [[] [] [] [] [] [] [] []]; done).
  cbn [negb andb]. rewrite Hs. rewrite bool_decide_eq_false_2 by done. rewrite Hunit.
  rewrite (proj2 (Z.ltb_ge _ _)) by (apply Z.div_le_lower_bound; nia). change (0 <? 0)%Z with false. cbv iota zeta.
  rewrite Z.add_0_r. by rewrite (proj2 (Z.ltb_ge _ _)) by done.
Qed.

Lemma pretty_end n s : (0 ≤ n)%Z → component_end (pretty n +:+ s).
Proof.
  intros Hn. destruct (pretty_digits n Hn) as (c & t & -> & H & _). rewrite string_app_cons. simpl in *.
  by apply andb_true_iff in H as [H _].
Qed.

Lemma parse_step fuel orig d n c unit rest :
  (0 ≤ n)%Z → (0 ≤ d)%Z → (d + n * unit ≤ 2 ^ 63)%Z → (1 ≤ unit)%Z → c ≠ "."%char → digit c = false →
  unit_map (String c "") = Some unit → component_end rest →
  parse_components (S fuel) orig d (pretty n +:+ String c rest) = parse_components fuel orig (d + n * unit) rest.
Proof.
  intros Hn Hd Hb Hu Hdot Hdig Hunit Hend.
  pose proof (parse_component_unit orig n c unit rest Hn ltac:(lia) Hu Hdot Hdig Hunit Hend) as Hp.
  assert (0 ≤ n * unit)%Z by nia.
  destruct (pretty_digits n Hn) as (e & t & He & _). rewrite He, string_app_cons in Hp |- *.
  cbn [parse_components]. rewrite Hp. cbn [rbind fst snd]. rewrite Z.mod_small by lia.
  by rewrite (proj2 (Z.ltb_ge _ _)) by lia.
Qed.

Lemma parse_done fuel orig d : parse_components fuel orig d "" = Ok d.
Proof. by destruct fuel. Qed.

Lemma fmtFrac_seconds v : (0 ≤ v)%Z → fmtFrac (v * Second) 9 = ("", v).
Proof.
  intros Hv. unfold fmtFrac. change (10 ^ Z.of_nat 9)%Z with Second. by rewrite Z.mod_mul, Z.div_mul by done.
Qed.

Lemma ParseDuration_unsigned n c rest : (0 ≤ n)%Z → let s := pretty n +:+ String c rest in
  ParseDuration s = rbind (parse_components (String.length s) s 0 s)
    (λ d, if (2 ^ 63 - 1 <? d)%Z then Err (invalid_duration s) else Ok d).
Proof.
  intros Hn. cbv zeta. destruct (pretty_digits n Hn) as (e & t & -> & H & _). rewrite string_app_cons. unfold ParseDuration.
  cbn [all_digits] in H. apply andb_true_iff in H as [H _].
  destruct e as [[] [] [] [] [] [] [] []]; try discriminate H;
    (rewrite bool_decide_eq_false_2; [|by destruct t]); rewrite bool_decide_eq_false_2 by done; done.
Qed.

Lemma component_length n c rest : (2 + String.length rest ≤ String.length (pretty n +:+ String c rest))%nat ∨ (n < 0)%Z.
Proof.
  destruct (decide (0 ≤ n)%Z) as [Hn|]; [left|right; lia]. destruct (pretty_digits n Hn) as (e & t & -> & _).
  rewrite string_app_cons. simpl. rewrite string_length_app. simpl. lia.
Qed.

(** Seconds, with minutes and hours as needed. *)
Definition seconds_text (v : Z) : string :=
  let seconds := pretty (v mod 60)%Z +:+ "s" in
  if (v / 60 =? 0)%Z then seconds
  else
    let minutes := pretty (v / 60 mod 60)%Z +:+ "m" +:+ seconds in
    if (v / 60 / 60 =? 0)%Z then minutes else pretty (v / 60 / 60)%Z +:+ "h" +:+ minutes.

Lemma Duration_String_seconds v : (0 < v)%Z → Duration_String (v * Second) = seconds_text v.
Proof.
  intros Hv. assert (Second ≤ v * Second)%Z by (change Second with 1000000000%Z; lia).
  unfold Duration_String. rewrite Z.abs_eq by (change Second with 1000000000%Z in *; lia).
  rewrite (proj2 (Z.ltb_ge _ 0)) by (change Second with 1000000000%Z in *; lia).
  rewrite (proj2 (Z.ltb_ge _ _)) by done. rewrite fmtFrac_seconds by lia. reflexivity.
Qed.

(** The loop over such a text. *)
Lemma parse_seconds orig v fuel : (0 < v)%Z → (v * Second ≤ 2 ^ 63)%Z → (String.length (seconds_text v) ≤ fuel)%nat →
  parse_components fuel orig 0 (seconds_text v) = Ok (v * Second)%Z.
Proof.
  intros Hv Hb Hf. unfold seconds_text in *. cbv zeta in *. set (s := (v mod 60)%Z) in *. set (m := (v / 60)%Z) in *.
  assert (v = 60 * m + s)%Z as Hvs by (apply Z.div_mod; done).
  assert (0 ≤ s < 60)%Z as Hs by (apply Z.mod_pos_bound; lia). assert (0 ≤ m)%Z as Hm by (apply Z.div_pos; lia).
  change Second with 1000000000%Z in *.
  destruct (Z.eqb_spec m 0) as [Hm0|Hm0].
  { destruct (component_length s "s" "") as [Hl|]; [|lia]. destruct fuel as [|fuel]; [simpl in *; lia|].
    rewrite (parse_step fuel orig 0 s "s" 1000000000 ""), parse_done by (done || lia). f_equal. lia. }
  set (m1 := (m mod 60)%Z) in *. set (h := (m / 60)%Z) in *.
  assert (m = 60 * h + m1)%Z as Hmh by (apply Z.div_mod; done).
  assert (0 ≤ m1 < 60)%Z as Hm1 by (apply Z.mod_pos_bound; lia). assert (0 ≤ h)%Z as Hh by (apply Z.div_pos; lia).
  destruct (component_length s "s" "") as [Hl1|]; [|lia]. change (String "s" "") with "s" in Hl1. set (st := pretty s +:+ "s") in *.
  destruct (component_length m1 "m" st) as [Hl2|]; [|lia]. change (String "m" st) with ("m" +:+ st) in Hl2.
  set (mt := pretty m1 +:+ "m" +:+ st) in *.
  assert (component_end st) by (apply pretty_end; lia). assert (component_end mt) by (apply pretty_end; lia).
  destruct (Z.eqb_spec h 0) as [Hh0|Hh0].
  - destruct fuel as [|[|fuel]]; [simpl in *; lia..|]. unfold mt. change ("m" +:+ st) with (String "m" st).
    rewrite (parse_step (S fuel) orig 0 m1 "m" 60000000000 st) by (done || lia). unfold st.
    rewrite (parse_step fuel orig _ s "s" 1000000000 ""), parse_done by (done || lia). f_equal. lia.
  - destruct (component_length h "h" mt) as [Hl3|]; [|lia]. change (String "h" mt) with ("h" +:+ mt) in Hl3.
    destruct fuel as [|[|[|fuel]]]; [simpl in *; lia..|]. change ("h" +:+ mt) with (String "h" mt).
    rewrite (parse_step (S (S fuel)) orig 0 h "h" 3600000000000 mt) by (done || lia). unfold mt.
    change ("m" +:+ st) with (String "m" st).
    rewrite (parse_step (S fuel) orig _ m1 "m" 60000000000 st) by (done || lia). unfold st.
    rewrite (parse_step fuel orig _ s "s" 1000000000 ""), parse_done by (done || lia). f_equal. lia.
Qed.

Lemma seconds_text_head v : (0 < v)%Z → ∃ n c rest, (0 ≤ n)%Z ∧ seconds_text v = pretty n +:+ String c rest.
Proof.
  intros Hv. unfold seconds_text. cbv zeta. pose proof (Z.mod_pos_bound v 60 ltac:(done)).
  assert (0 ≤ v / 60)%Z by (apply Z.div_pos; lia). pose proof (Z.mod_pos_bound (v / 60) 60 ltac:(done)).
  assert (0 ≤ v / 60 / 60)%Z by (apply Z.div_pos; lia).
  destruct (_ =? 0)%Z; [|destruct (_ =? 0)%Z]; eexists _, _, _; (split; [|reflexivity]); lia.
Qed.

(** A duration of whole seconds is read back from its text. *)
Lemma ParseDuration_String d :
  (0 ≤ d ≤ int64_max)%Z → (d mod Second = 0)%Z → ParseDuration (Duration_String d) = Ok d.
Proof.
  intros Hd Hs. apply Z.div_exact in Hs; [|done]. rewrite Z.mul_comm in Hs. revert Hs. generalize (d / Second)%Z. intros v ->.
  unfold int64_max in Hd. destruct (decide (v = 0)%Z) as [->|Hv]; [reflexivity|].
  assert (0 < v)%Z as Hv' by (change Second with 1000000000%Z in *; lia).
  rewrite Duration_String_seconds by done. destruct (seconds_text_head v Hv') as (n & c & rest & Hn & He).
  rewrite He, ParseDuration_unsigned, <- He, parse_seconds by (done || lia). cbn [rbind].
  by rewrite (proj2 (Z.ltb_ge _ _)) by lia.
Qed.

(** *** The text is UTF-8 *)

Lemma valid_number t s : all_number t = true → ValidString (t +:+ s) = ValidString s.
Proof.
  unfold ValidString. induction t as [|c t IH]; [done|]. cbn [all_number]. intros [Hc Ht]%andb_true_iff.
  rewrite string_app_cons. cbn [valid_from]. rewrite utf8_len_ascii; [by apply IH|]. unfold number_char, digit in Hc.
  destruct (N.leb_spec (byte_of c) 57); [lia|]. rewrite andb_false_r in Hc. simpl in Hc. apply bool_decide_eq_true in Hc.
  set_unfold in Hc. lia.
Qed.

Lemma Duration_String_text d : (0 ≤ d)%Z → (d mod Second = 0)%Z → ValidString (Duration_String d) = true.
Proof.
  intros Hd Hs. apply Z.div_exact in Hs; [|done]. rewrite Z.mul_comm in Hs. revert Hs. generalize (d / Second)%Z. intros v ->.
  destruct (decide (v = 0)%Z) as [->|Hv]; [reflexivity|].
  rewrite Duration_String_seconds by (change Second with 1000000000%Z in Hd; lia). unfold seconds_text. cbv zeta.
  assert (∀ n c s, (byte_of c < 128)%N → ValidString s = true → ValidString (pretty (n : Z) +:+ String c s) = true) as Hu.
  { intros n c s Hc Hs. rewrite valid_number by apply pretty_number. unfold ValidString. cbn [valid_from].
    by rewrite utf8_len_ascii. }
  destruct (_ =? 0)%Z; [by apply Hu|]. destruct (_ =? 0)%Z; by repeat (apply Hu; [done|]).
Qed.
