(* ===== verification/Markdown.v ===== *)
(** * Markdown: from CommonMark to Slack's mrkdwn

    The conversion of internal/provider/slack.go.  Its regular expressions are
    matched as package regexp matches them: leftmost, and with the shortest text
    for [.+?].  They start and end with ASCII characters, so that matching bytes
    is matching characters. *)
From Stdlib Require Import Ascii.
From S2P Require Import Prelude Utf8.

(** ** Regular expressions *)

(** What [.] and [\S] match. *)
Definition dot (c : ascii) : bool := negb (byte_of c =? 10)%N.
Definition non_space (c : ascii) : bool := negb (bool_decide (byte_of c ∈ [9; 10; 12; 13; 32]%N)).

(** [x*?] followed by what [k] matches, and [x+?]; [ok] are the characters of [x]. *)
Fixpoint lazy0 {A} (ok : ascii → bool) (k : string → option A) (s : string) : option (string * A) :=
  match k s with
  | Some a => Some ("", a)
  | None =>
      match s with
      | String c s' => if ok c then '(t, a) ← lazy0 ok k s'; Some (String c t, a) else None
      | EmptyString => None
      end
  end.

Definition lazy1 {A} (ok : ascii → bool) (k : string → option A) (s : string) : option (string * A) :=
  match s with
  | String c s' => if ok c then '(t, a) ← lazy0 ok k s'; Some (String c t, a) else None
  | EmptyString => None
  end.

(** A literal: what follows it. *)
Definition lit (p s : string) : option string :=
  if HasPrefix s p then Some (string_drop (String.length p) s) else None.

(** A matcher: the groups of a match at the start of the text, and the rest. *)
Definition matcher (A : Type) : Type := string → option (A * string).

Definition boldPattern : matcher string := λ s, lit "**" s ≫= lazy1 dot (lit "**").
Definition italicPattern : matcher string := λ s, lit "*" s ≫= lazy1 dot (lit "*").
Definition linkPattern : matcher (string * string) := λ s,
  '(text, (url, rest)) ← (lit "[" s ≫= lazy1 dot (λ u, lit "](" u ≫= lazy1 non_space (lit ")")));
  Some ((text, url), rest).

(** [ReplaceAllString]: a match is replaced and the search goes on behind it.
    A match is never empty, so that the length of the text is enough fuel. *)
Fixpoint replace_all {A} (fuel : nat) (m : matcher A) (repl : A → string) (s : string) : string :=
  match fuel with
  | O => ""
  | S fuel =>
      match m s with
      | Some (a, rest) => repl a +:+ replace_all fuel m repl rest
      | None => match s with
                | String c s' => String c (replace_all fuel m repl s')
                | EmptyString => ""
                end
      end
  end.

Definition ReplaceAllString {A} (m : matcher A) (repl : A → string) (s : string) : string :=
  replace_all (S (String.length s)) m repl s.

(** [strings.ReplaceAll] with a non-empty text to replace. *)
Definition strings_ReplaceAll (s old new : string) : string :=
  ReplaceAllString (λ s, pair () <$> lit old s) (λ _, new) s.

(** ** slack.go *)

Definition boldPlaceholder : string := encode_rune 57344.   (* U+E000 *)

Definition MarkdownToSlackMrkdwn (text : string) : string :=
  let text := strings_ReplaceAll text boldPlaceholder "" in
  let text := ReplaceAllString linkPattern (λ '(text, url), "<" +:+ url +:+ "|" +:+ text +:+ ">") text in
  let text := ReplaceAllString boldPattern (λ t, boldPlaceholder +:+ t +:+ boldPlaceholder) text in
  let text := ReplaceAllString italicPattern (λ t, "_" +:+ t +:+ "_") text in
  strings_ReplaceAll text boldPlaceholder "*".

(** The table of slack_test.go, with its documented limitations. *)
Example convert_table :
  map MarkdownToSlackMrkdwn
    ["This is **bold** text"; "This is _italic_ text"; "This is *italic* text"; "Run `go test` now";
     "See [the docs](https://example.com/docs) for more"; "**Important**: read [this](https://example.com)";
     "Nothing special here"; "**one** and **two**"; ""; "score: 100" +:+ boldPlaceholder +:+ " nice";
     "***triple bold italic***"; "a * b * c"] =
  ["This is *bold* text"; "This is _italic_ text"; "This is _italic_ text"; "Run `go test` now";
   "See <https://example.com/docs|the docs> for more"; "*Important*: read <https://example.com|this>";
   "Nothing special here"; "*one* and *two*"; ""; "score: 100 nice";
   "*_triple bold italic*_"; "a _ b _ c"].
Proof. vm_compute. reflexivity. Qed.

(** ** The passes terminate *)

(** A match consumes text. *)
Definition consumes {A} (m : matcher A) : Prop :=
  ∀ s a rest, m s = Some (a, rest) → (String.length rest < String.length s)%nat.

Lemma lit_length p s r : lit p s = Some r → String.length s = (String.length p + String.length r)%nat.
Proof.
  unfold lit. destruct (HasPrefix s p) eqn:Hp; [|done]. apply HasPrefix_inv in Hp as [t ->].
  rewrite string_drop_app. intros [= ->]. apply string_length_app.
Qed.

Lemma lazy0_length {A} (len : A → nat) ok k s t (a : A) :
  (∀ u b, k u = Some b → (len b < String.length u)%nat) →
  lazy0 ok k s = Some (t, a) → (len a < String.length s)%nat.
Proof.
  intros Hk. revert t. induction s as [|c s IH]; intros t; simpl.
  - destruct (k "") as [b|] eqn:Hb; [|done]. intros [= _ <-]. by apply Hk in Hb.
  - destruct (k (String c s)) as [b|] eqn:Hb; [intros [= _ <-]; by apply Hk in Hb|].
    destruct (ok c); [|done]. destruct (lazy0 ok k s) as [[t' a']|]; [|done]. simpl. intros [= _ <-].
    specialize (IH _ eq_refl). lia.
Qed.

Lemma lazy1_length {A} (len : A → nat) ok k s t (a : A) :
  (∀ u b, k u = Some b → (len b < String.length u)%nat) →
  lazy1 ok k s = Some (t, a) → (len a < String.length s)%nat.
Proof.
  intros Hk. destruct s as [|c s]; simpl; [done|]. destruct (ok c); [|done].
  destruct (lazy0 ok k s) as [[t' a']|] eqn:Hl; [|done]. simpl. intros [= _ <-].
  pose proof (lazy0_length len _ _ _ _ _ Hk Hl). lia.
Qed.

Lemma lit_shrinks p u r : p ≠ "" → lit p u = Some r → (String.length r < String.length u)%nat.
Proof. intros Hp Hl. apply lit_length in Hl. destruct p; [done|]. simpl in Hl. lia. Qed.

Lemma bold_consumes : consumes boldPattern.
Proof.
  intros s t rest. unfold boldPattern. destruct (lit "**" s) as [u|] eqn:Hu; [|done]. simpl. intros H.
  apply (lazy1_length String.length) in H; [|intros; by apply (lit_shrinks "**")].
  apply lit_shrinks in Hu; [lia|done].
Qed.

Lemma italic_consumes : consumes italicPattern.
Proof.
  intros s t rest. unfold italicPattern. destruct (lit "*" s) as [u|] eqn:Hu; [|done]. simpl. intros H.
  apply (lazy1_length String.length) in H; [|intros; by apply (lit_shrinks "*")].
  apply lit_shrinks in Hu; [lia|done].
Qed.

Lemma link_consumes : consumes linkPattern.
Proof.
  intros s [t url] rest. unfold linkPattern. destruct (lit "[" s) as [u|] eqn:Hu; [|done]. cbn [mbind option_bind].
  destruct (lazy1 dot _ u) as [[t' [url' rest']]|] eqn:H; [|done]. simpl. intros [= <- <- <-].
  apply (lazy1_length (String.length ∘ snd)) in H.
  - apply lit_shrinks in Hu; [simpl in H; lia|done].
  - intros v [url'' r] Hv. destruct (lit "](" v) as [x|] eqn:Hx; [|done]. simpl in Hv.
    apply (lazy1_length String.length) in Hv; [|intros; by apply (lit_shrinks ")")].
    apply lit_shrinks in Hx; [simpl; lia|done].
Qed.

Lemma replace_consumes old : old ≠ "" → consumes (λ s, pair () <$> lit old s).
Proof.
  intros Ho s a rest H. destruct (lit old s) as [r|] eqn:Hl; [|done]. injection H as <- <-. by apply (lit_shrinks old).
Qed.

Section passes.
Context {A : Type} (m : matcher A) (repl : A → string) (Hm : consumes m).

(** More fuel than the text has characters changes nothing. *)
Lemma replace_all_fuel f1 f2 s :
  (String.length s < f1)%nat → (String.length s < f2)%nat → replace_all f1 m repl s = replace_all f2 m repl s.
Proof.
  revert f2 s. induction f1 as [|f1 IH]; intros [|f2] s H1 H2; try lia. simpl.
  destruct (m s) as [[a rest]|] eqn:Hs.
  - apply Hm in Hs. f_equal. apply IH; lia.
  - destruct s as [|c s]; [done|]. simpl in *. f_equal. apply IH; lia.
Qed.

Lemma pass_unfold s :
  ReplaceAllString m repl s =
  match m s with
  | Some (a, rest) => repl a +:+ ReplaceAllString m repl rest
  | None => match s with String c s' => String c (ReplaceAllString m repl s') | EmptyString => "" end
  end.
Proof.
  unfold ReplaceAllString at 1. cbn [replace_all]. destruct (m s) as [[a rest]|] eqn:Hs.
  - apply Hm in Hs. f_equal. apply replace_all_fuel; lia.
  - by destruct s.
Qed.

(** Text in front of which nothing matches, whatever of it is left. *)
Fixpoint inert (p rest : string) : Prop :=
  match p with
  | String c p' => m (p +:+ rest) = None ∧ inert p' rest
  | EmptyString => True
  end.

Lemma pass_inert p rest : inert p rest → ReplaceAllString m repl (p +:+ rest) = p +:+ ReplaceAllString m repl rest.
Proof.
  induction p as [|c p IH]; [done|]. intros [Hn Hp]. rewrite pass_unfold, Hn, string_app_cons. by rewrite IH.
Qed.

Lemma pass_hit s a rest : m s = Some (a, rest) → ReplaceAllString m repl s = repl a +:+ ReplaceAllString m repl rest.
Proof. intros Hs. by rewrite pass_unfold, Hs. Qed.
End passes.

(** ** Documents of spans *)

(** A document of the subset the conversion covers, and its two renderings. *)
Inductive span :=
| Text (t : string)
| Bold (t : string)
| Italic (t : string)
| Link (t url : string).

Definition commonmark_span (x : span) : string :=
  match x with
  | Text t => t
  | Bold t => "**" +:+ t +:+ "**"
  | Italic t => "*" +:+ t +:+ "*"
  | Link t url => "[" +:+ t +:+ "](" +:+ url +:+ ")"
  end.

Definition mrkdwn_span (x : span) : string :=
  match x with
  | Text t => t
  | Bold t => "*" +:+ t +:+ "*"
  | Italic t => "_" +:+ t +:+ "_"
  | Link t url => "<" +:+ url +:+ "|" +:+ t +:+ ">"
  end.

Definition render (f : span → string) (l : list span) : string := foldr (λ x s, f x +:+ s) "" l.
Definition commonmark : list span → string := render commonmark_span.
Definition mrkdwn : list span → string := render mrkdwn_span.

(** No byte of the text is one of [bs]. *)
Fixpoint has_no (bs : list N) (s : string) : bool :=
  match s with
  | String c s' => negb (bool_decide (byte_of c ∈ bs)) && has_no bs s'
  | EmptyString => true
  end.

(** Spans hold text without the markup characters of the subset ([*] 42, [\[]
    91, [\]] 93, [)] 41), on one line (10), and without the characters from
    U+E000 to U+EFFF (lead byte 238). *)
Definition span_ok (x : span) : bool :=
  match x with
  | Text t => negb (bool_decide (t = "")) && has_no [42; 91; 238]%N t
  | Bold t | Italic t => negb (bool_decide (t = "")) && has_no [10; 42; 91; 238]%N t
  | Link t url => negb (bool_decide (t = "")) && has_no [10; 42; 91; 93; 238]%N t &&
                  negb (bool_decide (url = "")) && has_no [9; 10; 12; 13; 32; 41; 42; 91; 238]%N url
  end.

Definition emphasis (x : span) : bool := match x with Bold _ | Italic _ => true | _ => false end.

(** An emphasis does not follow an italic one directly: the asterisks of both
    would be taken for one mark. *)
Fixpoint doc_ok (l : list span) : bool :=
  match l with
  | [] => true
  | x :: l' => span_ok x && doc_ok l' &&
      match x, l' with Italic _, y :: _ => negb (emphasis y) | _, _ => true end
  end.

(** What the spans are after each pass. *)
Definition linked (x : span) : string := match x with Link _ _ => mrkdwn_span x | _ => commonmark_span x end.
Definition bolded (x : span) : string :=
  match x with Bold t => boldPlaceholder +:+ t +:+ boldPlaceholder | _ => linked x end.
Definition slanted (x : span) : string := match x with Italic _ => mrkdwn_span x | _ => bolded x end.

Lemma has_no_app bs s t : has_no bs (s +:+ t) = has_no bs s && has_no bs t.
Proof. induction s as [|c s IH]; [done|]. rewrite string_app_cons. simpl. by rewrite IH, andb_assoc. Qed.

Lemma has_no_sub bs bs' s : bs' ⊆ bs → has_no bs s = true → has_no bs' s = true.
Proof.
  intros Hb. induction s as [|c s IH]; [done|]. simpl. rewrite !andb_true_iff, !negb_true_iff, !bool_decide_eq_false.
  set_solver.
Qed.

(** Solves [has_no] of a concrete arrangement of texts that are free of more. *)
Ltac no_bytes := rewrite ?has_no_app, ?andb_true_iff; split_and?;
  first [reflexivity | eapply has_no_sub; [|eassumption]; set_solver].

Section first_byte.
Context {A : Type} (b : N).

(** A matcher (or what ends a lazy group) that starts with the byte [b]. *)
Definition starts_with (m : string → option A) : Prop :=
  m "" = None ∧ ∀ c s, byte_of c ≠ b → m (String c s) = None.

Context (ok : ascii → bool) (bad : list N) (Hbad : ∀ c, byte_of c ∉ bad → ok c = true).

Lemma lazy0_hit (k : string → option A) t rest a :
  starts_with k → has_no (b :: bad) t = true → k rest = Some a → lazy0 ok k (t +:+ rest) = Some (t, a).
Proof.
  intros [He Hk] Hb Hr. induction t as [|c t IH].
  { destruct rest; simpl; by rewrite Hr. }
  rewrite string_app_cons. simpl in Hb |- *.
  apply andb_true_iff in Hb as [Hc%negb_true_iff%bool_decide_eq_false Hb]. apply not_elem_of_cons in Hc as [Hc Hcb].
  by rewrite Hk, Hbad, (IH Hb).
Qed.

Lemma lazy1_hit (k : string → option A) t rest a :
  starts_with k → t ≠ "" → has_no (b :: bad) t = true → k rest = Some a → lazy1 ok k (t +:+ rest) = Some (t, a).
Proof.
  intros Hk Ht Hb Hr. destruct t as [|c t]; [done|]. rewrite string_app_cons. simpl in Hb |- *.
  apply andb_true_iff in Hb as [Hc%negb_true_iff%bool_decide_eq_false Hb]. apply not_elem_of_cons in Hc as [Hc Hcb].
  by rewrite Hbad, (lazy0_hit k t rest a).
Qed.
End first_byte.

Lemma lit_app p s : lit p (p +:+ s) = Some s.
Proof. unfold lit. by rewrite HasPrefix_app, string_drop_app. Qed.

Lemma lit_starts c p : starts_with (byte_of c) (lit (String c p)).
Proof.
  split; [done|]. intros d s Hd. unfold lit, HasPrefix. simpl. destruct (ascii_dec c d) as [->|]; done.
Qed.

Lemma bind_starts {A B} b (m : string → option A) (f : A → option B) :
  starts_with b m → starts_with b (λ s, m s ≫= f).
Proof. intros [He Hm]. split; [by rewrite He|]. intros c s Hc. by rewrite (Hm c s Hc). Qed.

Lemma dot_ok c : byte_of c ∉ [10]%N → dot c = true.
Proof. intros H. apply negb_true_iff, N.eqb_neq. set_solver. Qed.

Lemma non_space_ok c : byte_of c ∉ [9; 10; 12; 13; 32]%N → non_space c = true.
Proof. intros H. by apply negb_true_iff, bool_decide_eq_false. Qed.

Lemma bold_starts : starts_with 42 boldPattern.
Proof. apply (bind_starts _ (lit "**")), (lit_starts "*"). Qed.
Lemma italic_starts : starts_with 42 italicPattern.
Proof. apply (bind_starts _ (lit "*")), (lit_starts "*"). Qed.
Lemma link_starts : starts_with 91 linkPattern.
Proof. apply (bind_starts _ (λ s, lit "[" s ≫= _)), (bind_starts _ (lit "[")), (lit_starts "["). Qed.
Lemma placeholder_starts : starts_with 238 (λ s, pair () <$> lit boldPlaceholder s).
Proof.
  change boldPlaceholder with (String (byte 238) (bytes [128; 128]%N)).
  pose proof (lit_starts (byte 238) (bytes [128; 128]%N)) as [He Hl]. split; [done|].
  intros c s Hc. by rewrite (Hl c s Hc).
Qed.

Lemma bold_hit t rest : t ≠ "" → has_no [42; 10]%N t = true → boldPattern ("**" +:+ t +:+ "**" +:+ rest) = Some (t, rest).
Proof.
  intros Ht Hn. unfold boldPattern. rewrite lit_app. cbn [mbind option_bind].
  apply (lazy1_hit 42 dot [10]%N dot_ok); [apply (lit_starts "*")|done..|apply (lit_app "**")].
Qed.

Lemma italic_hit t rest : t ≠ "" → has_no [42; 10]%N t = true → italicPattern ("*" +:+ t +:+ "*" +:+ rest) = Some (t, rest).
Proof.
  intros Ht Hn. unfold italicPattern. rewrite lit_app. cbn [mbind option_bind].
  apply (lazy1_hit 42 dot [10]%N dot_ok); [apply (lit_starts "*")|done..|apply (lit_app "*")].
Qed.

Lemma link_hit t url rest :
  t ≠ "" → has_no [93; 10]%N t = true → url ≠ "" → has_no [41; 9; 10; 12; 13; 32]%N url = true →
  linkPattern ("[" +:+ t +:+ "](" +:+ url +:+ ")" +:+ rest) = Some ((t, url), rest).
Proof.
  intros Ht Hn Hu Hnu. unfold linkPattern. rewrite lit_app. cbn [mbind option_bind].
  rewrite (lazy1_hit 93 dot [10]%N dot_ok _ t _ (url, rest)); [done|apply bind_starts, (lit_starts "]")|done..|].
  rewrite lit_app. apply (lazy1_hit 41 non_space [9; 10; 12; 13; 32]%N non_space_ok);
    [apply (lit_starts ")")|done..|apply (lit_app ")")].
Qed.

(** Text without the byte a pattern starts with stays as it is. *)
Lemma no_match {A} b (m : matcher A) p rest : starts_with b m → has_no [b] p = true → inert m p rest.
Proof.
  intros [_ Hm] Hp. induction p as [|c p IH]; [done|]. simpl in Hp.
  apply andb_true_iff in Hp as [Hc%negb_true_iff%bool_decide_eq_false Hp]. split; [|auto].
  rewrite string_app_cons. apply Hm. set_solver.
Qed.

(** ** The passes on a document of spans *)

(** A pass turns the rendering [f] of a document into [g] when it does so for
    each span, whatever follows it. *)
Lemma pass_render {A} (m : matcher A) repl (f g : span → string) l :
  consumes m → m "" = None →
  (∀ x l', doc_ok (x :: l') = true →
     ReplaceAllString m repl (f x +:+ render f l') = g x +:+ ReplaceAllString m repl (render f l')) →
  doc_ok l = true → ReplaceAllString m repl (render f l) = render g l.
Proof.
  intros Hm He Hx. induction l as [|x l IH]; intros Hl.
  - cbn [render foldr]. by rewrite (pass_unfold m repl Hm ""), He.
  - change (render f (x :: l)) with (f x +:+ render f l). rewrite (Hx x l Hl).
    simpl in Hl. rewrite IH by (by apply andb_true_iff in Hl as [[_ Hl]%andb_true_iff _]). done.
Qed.

Lemma doc_ok_span x l : doc_ok (x :: l) = true → span_ok x = true.
Proof. by intros [[? _]%andb_true_iff _]%andb_true_iff. Qed.

(** The conditions on a span, one hypothesis each. *)
Ltac span_facts H :=
  simpl in H;
  repeat match goal with
  | H : _ && _ = true |- _ => apply andb_true_iff in H as [? ?]
  | H : negb (bool_decide _) = true |- _ => apply negb_true_iff, bool_decide_eq_false in H
  end.

Lemma strip_pass l : doc_ok l = true → strings_ReplaceAll (commonmark l) boldPlaceholder "" = commonmark l.
Proof.
  apply pass_render; [by apply replace_consumes|done|]. intros x l' H%doc_ok_span.
  apply pass_inert; [by apply replace_consumes|]. apply (no_match 238); [apply placeholder_starts|].
  destruct x; span_facts H; unfold commonmark_span; no_bytes.
Qed.

Lemma link_pass l : doc_ok l = true →
  ReplaceAllString linkPattern (λ '(text, url), "<" +:+ url +:+ "|" +:+ text +:+ ">") (commonmark l) = render linked l.
Proof.
  apply pass_render; [apply link_consumes|done|]. intros x l' H%doc_ok_span.
  destruct x as [t|t|t|t url]; span_facts H; cbn [commonmark_span linked bolded slanted mrkdwn_span];
    try (apply pass_inert; [apply link_consumes|]; apply (no_match 91); [apply link_starts|];
         no_bytes).
  rewrite !string_app_assoc. rewrite (pass_hit _ _ link_consumes _ (t, url) (render commonmark_span l')).
  - by rewrite !string_app_assoc.
  - apply link_hit; [done|no_bytes|done|no_bytes].
Qed.

(** What follows an italic span does not start with an asterisk. *)
Lemma render_head l : doc_ok l = true → match l with y :: _ => negb (emphasis y) | [] => true end = true →
  match render linked l with String c _ => byte_of c ≠ 42%N | EmptyString => True end.
Proof.
  destruct l as [|y l]; [done|]. intros H%doc_ok_span Hy. change (render linked (y :: l)) with (linked y +:+ render linked l).
  destruct y as [t|t|t|t url]; try done. span_facts H. destruct t as [|c t]; [done|]. simpl in *.
  apply andb_true_iff in H0 as [Hc%negb_true_iff%bool_decide_eq_false _]. set_solver.
Qed.

(** An italic span is nothing to the bold pass. *)
Lemma italic_inert t rest : t ≠ "" → has_no [42]%N t = true →
  match rest with String c _ => byte_of c ≠ 42%N | EmptyString => True end →
  inert boldPattern (linked (Italic t)) rest.
Proof.
  intros Ht Hn Hr. unfold linked, commonmark_span.
  assert (∀ s, match s with String c _ => byte_of c ≠ 42%N | EmptyString => True end → boldPattern (String "*" s) = None) as Hb.
  { intros s Hs. unfold boldPattern, lit. destruct (HasPrefix (String "*" s) "**") eqn:Hp; [|done].
    apply HasPrefix_inv in Hp as [u Hu]. injection Hu as ->. by destruct Hs. }
  rewrite string_app_cons. split.
  - apply Hb. destruct t as [|c t]; [done|]. simpl in Hn |- *.
    apply andb_true_iff in Hn as [Hc%negb_true_iff%bool_decide_eq_false _]. set_solver.
  - change ("" +:+ ?x) with x. clear Ht. induction t as [|c t IH].
    + split; [by apply Hb|done].
    + simpl in Hn. apply andb_true_iff in Hn as [Hc%negb_true_iff%bool_decide_eq_false Hn]. rewrite string_app_cons.
      split; [|by apply IH]. rewrite string_app_cons. apply bold_starts. set_solver.
Qed.

Lemma bold_pass l : doc_ok l = true →
  ReplaceAllString boldPattern (λ t, boldPlaceholder +:+ t +:+ boldPlaceholder) (render linked l) = render bolded l.
Proof.
  apply pass_render; [apply bold_consumes|done|]. intros x l' Hd. pose proof (doc_ok_span _ _ Hd) as H.
  destruct x as [t|t|t|t url]; span_facts H; cbn [commonmark_span linked bolded slanted mrkdwn_span];
    try (apply pass_inert; [apply bold_consumes|]; apply (no_match 42); [apply bold_starts|];
         no_bytes).
  - rewrite !string_app_assoc.
    rewrite (pass_hit _ _ bold_consumes _ t (render linked l')); [by rewrite !string_app_assoc|].
    apply bold_hit; [done|no_bytes].
  - apply pass_inert; [apply bold_consumes|]. apply italic_inert; [done|no_bytes|].
    simpl in Hd. apply andb_true_iff in Hd as [[_ Hl]%andb_true_iff Hn]. by apply render_head.
Qed.

Lemma italic_pass l : doc_ok l = true →
  ReplaceAllString italicPattern (λ t, "_" +:+ t +:+ "_") (render bolded l) = render slanted l.
Proof.
  apply pass_render; [apply italic_consumes|done|]. intros x l' H%doc_ok_span.
  destruct x as [t|t|t|t url]; span_facts H; cbn [commonmark_span linked bolded slanted mrkdwn_span];
    try (apply pass_inert; [apply italic_consumes|]; apply (no_match 42); [apply italic_starts|];
         no_bytes).
  rewrite !string_app_assoc.
  rewrite (pass_hit _ _ italic_consumes _ t (render bolded l')); [by rewrite !string_app_assoc|].
  apply italic_hit; [done|no_bytes].
Qed.

Lemma restore_pass l : doc_ok l = true → strings_ReplaceAll (render slanted l) boldPlaceholder "*" = mrkdwn l.
Proof.
  apply pass_render; [by apply replace_consumes|done|]. intros x l' H%doc_ok_span.
  assert (∀ p rest, has_no [238]%N p = true → strings_ReplaceAll (p +:+ rest) boldPlaceholder "*" =
    p +:+ strings_ReplaceAll rest boldPlaceholder "*") as Hp.
  { intros p rest Hp. apply pass_inert; [by apply replace_consumes|]. by apply (no_match 238); [apply placeholder_starts|]. }
  destruct x as [t|t|t|t url]; span_facts H; cbn [commonmark_span linked bolded slanted mrkdwn_span];
    try (apply Hp; no_bytes).
  rewrite !string_app_assoc.
  assert (∀ rest, strings_ReplaceAll (boldPlaceholder +:+ rest) boldPlaceholder "*" =
    "*" +:+ strings_ReplaceAll rest boldPlaceholder "*") as Hh.
  { intros rest. unfold strings_ReplaceAll. apply (pass_hit _ (λ _, "*") (replace_consumes boldPlaceholder ltac:(done)) _ tt rest).
    by rewrite lit_app. }
  fold (strings_ReplaceAll (boldPlaceholder +:+ t +:+ boldPlaceholder +:+ render slanted l') boldPlaceholder "*").
  fold (strings_ReplaceAll (render slanted l') boldPlaceholder "*").
  rewrite Hh, Hp, Hh by no_bytes. done.
Qed.

Lemma convert_document l : doc_ok l = true → MarkdownToSlackMrkdwn (commonmark l) = mrkdwn l.
Proof.
  intros Hl. unfold MarkdownToSlackMrkdwn. cbv zeta.
  by rewrite strip_pass, link_pass, bold_pass, italic_pass, restore_pass.
Qed.
