(* ===== verification/Mime.v ===== *)
(** * Mime: the encodings of email messages

    The writer of mime/quotedprintable and [mime.QEncoding], as the packages
    implement them, and what the provider relies on of them: a body is read back
    by any mail reader, in short lines of ASCII, and an encoded header value has
    no line break. *)
From Stdlib Require Import Ascii.
From S2P Require Import Prelude Utf8 Json.

Definition CR : ascii := byte 13.
Definition LF : ascii := byte 10.
Definition crlf : string := String CR (String LF "").

Definition upper_hex (n : N) : ascii := if (n <? 10)%N then ascii_of_N (48 + n) else ascii_of_N (55 + n).
Definition hex2 (c : ascii) : string := String (upper_hex (byte_of c / 16)) (String (upper_hex (byte_of c mod 16)) "").

(** ** quotedprintable.Writer *)

(** What was flushed, the buffered line with its last byte first, and whether
    the last byte written was a carriage return. *)
Record qpWriter := mkQpWriter { qp_out : string; qp_line : list ascii; qp_cr : bool }.

Definition lineMaxLen : nat := 76.

Definition isWhitespace (c : ascii) : bool := bool_decide (byte_of c ∈ [32; 9]%N).

Definition rev_string (l : list ascii) : string := String.string_of_list_ascii (rev l).

Definition flush (w : qpWriter) : qpWriter :=
  mkQpWriter (qp_out w +:+ rev_string (qp_line w)) [] (qp_cr w).
Definition insertCRLF (w : qpWriter) : qpWriter :=
  flush (mkQpWriter (qp_out w) (LF :: CR :: qp_line w) (qp_cr w)).
Definition insertSoftLineBreak (w : qpWriter) : qpWriter :=
  insertCRLF (mkQpWriter (qp_out w) ("="%char :: qp_line w) (qp_cr w)).

Definition qp_encode_byte (c : ascii) (w : qpWriter) : qpWriter :=
  let w := if (lineMaxLen - 1 - length (qp_line w) <? 3)%nat then insertSoftLineBreak w else w in
  mkQpWriter (qp_out w)
    (upper_hex (byte_of c mod 16) :: upper_hex (byte_of c / 16) :: "="%char :: qp_line w) (qp_cr w).

(** A space or tab at the end of a line is encoded. *)
Definition checkLastByte (w : qpWriter) : qpWriter :=
  match qp_line w with
  | c :: line => if isWhitespace c then qp_encode_byte c (mkQpWriter (qp_out w) line (qp_cr w)) else w
  | [] => w
  end.

Definition qp_write_byte (c : ascii) (w : qpWriter) : qpWriter :=
  if bool_decide (c = LF ∨ c = CR) then
    if qp_cr w && bool_decide (c = LF) then mkQpWriter (qp_out w) (qp_line w) false
    else let w := insertCRLF (checkLastByte w) in
         mkQpWriter (qp_out w) (qp_line w) (bool_decide (c = CR))
  else
    let w := if (length (qp_line w) =? lineMaxLen - 1)%nat then insertSoftLineBreak w else w in
    mkQpWriter (qp_out w) (c :: qp_line w) false.

(** The bytes written as they are. *)
Definition qp_simple (c : ascii) : bool :=
  ((33 <=? byte_of c) && (byte_of c <=? 126) && negb (byte_of c =? 61))%N || isWhitespace c ||
  bool_decide (c = LF ∨ c = CR).

(** [Write] hands runs of simple bytes to [write] and others to [encode]: byte
    by byte this is the following. *)
Fixpoint qp_Write (s : string) (w : qpWriter) : qpWriter :=
  match s with
  | EmptyString => w
  | String c s' => qp_Write s' (if qp_simple c then qp_write_byte c w else qp_encode_byte c w)
  end.

Definition qp_Close (w : qpWriter) : qpWriter := flush (checkLastByte w).

(** A writer on an empty buffer, a body, and [Close]. *)
Definition quotedprintable (body : string) : string :=
  qp_out (qp_Close (qp_Write body (mkQpWriter "" [] false))).

(** ** Reading quoted-printable (RFC 2045) *)

Definition upper_digit (c : ascii) : option N :=
  let n := byte_of c in
  if ((48 <=? n) && (n <=? 57))%N then Some (n - 48)%N
  else if ((65 <=? n) && (n <=? 70))%N then Some (n - 55)%N
  else None.

Fixpoint qp_decode (s : string) : option string :=
  match s with
  | EmptyString => Some ""
  | String c s' =>
      if bool_decide (c = "="%char) then
        match s' with
        | String a (String b s'') =>
            if bool_decide (a = CR ∧ b = LF) then qp_decode s''
            else h ← upper_digit a; l ← upper_digit b; t ← qp_decode s''; Some (String (byte (16 * h + l)) t)
        | _ => None
        end
      else t ← qp_decode s'; Some (String c t)
  end.

(** A text of lines of at most [lineMaxLen] characters, all printable ASCII or
    tabs, none ending in white space, which a relay may drop: [col] characters of
    the line are read, the last white or not. *)
Fixpoint qp_lines_ok (col : nat) (white : bool) (s : string) : bool :=
  match s with
  | EmptyString => negb white
  | String c s' =>
      if bool_decide (c = CR) then
        match s' with
        | String d s'' => bool_decide (d = LF) && negb white && qp_lines_ok 0 false s''
        | EmptyString => false
        end
      else (col <? lineMaxLen)%nat && (isWhitespace c || (33 <=? byte_of c)%N && (byte_of c <=? 126)%N) &&
           qp_lines_ok (S col) (isWhitespace c) s'
  end.

(** The text a reader gets: every line end is CRLF.  [cr]: the last line end
    written was a carriage return; an encoded byte does not clear it. *)
Fixpoint canon (cr : bool) (s : string) : string :=
  match s with
  | EmptyString => ""
  | String c s' =>
      if bool_decide (c = LF) then (if cr then canon false s' else crlf +:+ canon false s')
      else if bool_decide (c = CR) then crlf +:+ canon true s'
      else String c (canon (if qp_simple c then false else cr) s')
  end.

(** Every CR is part of a CRLF; LF alone becomes CRLF. *)
Fixpoint cr_ok (s : string) : bool :=
  match s with
  | EmptyString => true
  | String c s' =>
      (if bool_decide (c = CR) then match s' with String d _ => bool_decide (d = LF) | _ => false end else true) && cr_ok s'
  end.

Fixpoint to_crlf (s : string) : string :=
  match s with
  | EmptyString => ""
  | String c s' =>
      if bool_decide (c = CR) then
        match s' with String _ s'' => crlf +:+ to_crlf s'' | EmptyString => crlf end
      else if bool_decide (c = LF) then crlf +:+ to_crlf s'
      else String c (to_crlf s')
  end.

Example qp_sample : quotedprintable (bytes [72; 195; 169; 61; 32; 10; 120]%N) = "H=C3=A9=3D=20" +:+ crlf +:+ "x".
Proof. vm_compute. reflexivity. Qed.

(** ** Facts about reading *)

Definition printable (c : ascii) : bool := isWhitespace c || (33 <=? byte_of c)%N && (byte_of c <=? 126)%N.

Lemma string_of_app l k :
  String.string_of_list_ascii (l ++ k) = String.string_of_list_ascii l +:+ String.string_of_list_ascii k.
Proof. induction l as [|c l IH]; [done|]. simpl. by rewrite IH. Qed.

Lemma rev_string_cons c l : rev_string (c :: l) = rev_string l +:+ String c "".
Proof. unfold rev_string. simpl. by rewrite string_of_app. Qed.

Lemma qp_decode_app e v f : qp_decode e = Some v → qp_decode (e +:+ f) = (t ← qp_decode f; Some (v +:+ t)).
Proof.
  remember (String.length e) as n eqn:Hn. assert (String.length e ≤ n)%nat as Hle by lia. clear Hn.
  revert e v Hle. induction n as [|n IH]; intros [|c e] v Hle; simpl in Hle; try lia.
  1-2: intros [= <-]; change ("" +:+ f) with f; by destruct (qp_decode f).
  rewrite string_app_cons. cbn [qp_decode]. case_bool_decide.
  - destruct e as [|a [|b e]]; [done..|]. rewrite !string_app_cons. simpl in Hle. case_bool_decide.
    + apply IH. lia.
    + destruct (upper_digit a) as [h|]; [|done]. destruct (upper_digit b) as [l|]; [|done]. cbn [mbind option_bind].
      destruct (qp_decode e) as [u|] eqn:He; [|done]. intros [= <-]. rewrite (IH e u) by (done || lia).
      by destruct (qp_decode f).
  - destruct (qp_decode e) as [u|] eqn:He; [|done]. intros [= <-]. rewrite (IH e u) by (done || lia).
    by destruct (qp_decode f).
Qed.

Lemma white_no_digit c : isWhitespace c = true → upper_digit c = None ∧ c ≠ LF ∧ c ≠ "="%char.
Proof. destruct c as [[] [] [] [] [] [] [] []]; (intros H; by vm_compute in H) || done. Qed.

(** White space at the end stands for itself. *)
Lemma qp_decode_white e c v :
  isWhitespace c = true → qp_decode (e +:+ String c "") = Some v → ∃ u, qp_decode e = Some u ∧ v = u +:+ String c "".
Proof.
  intros Hc. destruct (white_no_digit c Hc) as (Hd & Hlf & Heq).
  remember (String.length e) as n eqn:Hn. assert (String.length e ≤ n)%nat as Hle by lia. clear Hn.
  revert e v Hle. induction n as [|n IH]; intros [|a e] v Hle; simpl in Hle; try lia.
  1-2: change ("" +:+ ?x) with x; simpl; rewrite bool_decide_eq_false_2 by done; intros [= <-]; by exists "".
  rewrite string_app_cons. cbn [qp_decode]. case_bool_decide.
  - destruct e as [|a' [|b e]]; [done| |].
    + simpl. rewrite bool_decide_eq_false_2 by tauto. rewrite Hd. by destruct (upper_digit a').
    + rewrite !string_app_cons. simpl in Hle. case_bool_decide; [apply IH; lia|].
      destruct (upper_digit a') as [h|]; [|done]. destruct (upper_digit b) as [l|]; [|done]. cbn [mbind option_bind].
      destruct (qp_decode (e +:+ String c "")) as [u|] eqn:He; [|done]. intros [= <-].
      destruct (IH e u ltac:(lia) He) as (u' & -> & ->). by eexists.
  - destruct (qp_decode (e +:+ String c "")) as [u|] eqn:He; [|done]. intros [= <-].
    destruct (IH e u ltac:(lia) He) as (u' & -> & ->). by eexists.
Qed.

(** A line of printable characters that does not end in white space. *)
Lemma qp_line_crlf l col white t :
  forallb printable l = true → (col + length l ≤ lineMaxLen)%nat →
  isWhitespace (default "x"%char (last l)) = false → (l = [] → white = false) →
  qp_lines_ok col white (String.string_of_list_ascii l +:+ crlf +:+ t) = qp_lines_ok 0 false t.
Proof.
  revert col white. induction l as [|c l IH]; intros col white Hp Hn Hl Hw; simpl in Hp, Hn.
  - by rewrite Hw.
  - apply andb_true_iff in Hp as [Hc Hp]. cbn [String.string_of_list_ascii]. rewrite string_app_cons. cbn [qp_lines_ok].
    rewrite bool_decide_eq_false_2 by (by intros ->). rewrite (proj2 (Nat.ltb_lt _ _)) by lia.
    change (isWhitespace c || _) with (printable c). rewrite Hc. apply IH; [done|lia| |].
    + destruct l; [done|exact Hl].
    + by intros ->.
Qed.

Lemma qp_line_end l col white :
  forallb printable l = true → (col + length l ≤ lineMaxLen)%nat →
  isWhitespace (default "x"%char (last l)) = false → (l = [] → white = false) →
  qp_lines_ok col white (String.string_of_list_ascii l) = true.
Proof.
  revert col white. induction l as [|c l IH]; intros col white Hp Hn Hl Hw; simpl in Hp, Hn.
  - by rewrite Hw.
  - apply andb_true_iff in Hp as [Hc Hp]. cbn [String.string_of_list_ascii qp_lines_ok].
    rewrite bool_decide_eq_false_2 by (by intros ->). rewrite (proj2 (Nat.ltb_lt _ _)) by lia.
    change (isWhitespace c || _) with (printable c). rewrite Hc. apply IH; [done|lia| |].
    + destruct l; [done|exact Hl].
    + by intros ->.
Qed.

(** ** The writer's invariant *)

(** What was written reads back as [v], in proper lines. *)
Record qp_inv (w : qpWriter) (v : string) : Prop := mkQpInv {
  qi_decode : qp_decode (qp_out w +:+ rev_string (qp_line w)) = Some v;
  qi_lines : ∀ t, qp_lines_ok 0 false (qp_out w +:+ t) = qp_lines_ok 0 false t;
  qi_printable : forallb printable (qp_line w) = true;
  qi_length : (length (qp_line w) ≤ lineMaxLen - 1)%nat
}.

Lemma qp_inv_cr w v cr : qp_inv w v → qp_inv (mkQpWriter (qp_out w) (qp_line w) cr) v.
Proof. by intros []. Qed.

Lemma put_inv w v c cr :
  qp_inv w v → printable c = true → c ≠ "="%char → (length (qp_line w) < lineMaxLen - 1)%nat →
  qp_inv (mkQpWriter (qp_out w) (c :: qp_line w) cr) (v +:+ String c "").
Proof.
  intros [Hd Hl Hp Hn] Hc He Hlt. split; cbn [qp_out qp_line].
  - rewrite rev_string_cons, <- string_app_assoc, (qp_decode_app _ _ _ Hd). simpl.
    by rewrite bool_decide_eq_false_2.
  - done.
  - simpl. by rewrite Hc.
  - unfold lineMaxLen in *. simpl. lia.
Qed.

Lemma forallb_rev (f : ascii → bool) l : forallb f (rev l) = forallb f l.
Proof. induction l as [|c l IH]; [done|]. simpl. rewrite forallb_app, IH. simpl. rewrite andb_true_r. apply andb_comm. Qed.

Lemma last_rev {A} (l : list A) : last (rev l) = head l.
Proof. rewrite <- rev_alt || idtac. destruct l as [|c l]; [done|]. simpl. by rewrite last_snoc. Qed.

Lemma line_flush w v l :
  qp_inv w v → forallb printable l = true → (length l ≤ lineMaxLen)%nat → isWhitespace (default "x"%char (head l)) = false →
  ∀ t, qp_lines_ok 0 false ((qp_out w +:+ rev_string (LF :: CR :: l)) +:+ t) = qp_lines_ok 0 false t.
Proof.
  intros [_ Hl _ _] Hp Hn Hw t. rewrite !rev_string_cons, !string_app_assoc, Hl. unfold rev_string.
  apply (qp_line_crlf (rev l)); [by rewrite forallb_rev|rewrite length_rev; lia|by rewrite last_rev|done].
Qed.

Lemma soft_inv w v : qp_inv w v → qp_inv (insertSoftLineBreak w) v.
Proof.
  intros Hi. pose proof Hi as [Hd Hl Hp Hn]. split; cbn [qp_out qp_line insertSoftLineBreak insertCRLF flush].
  - rewrite !rev_string_cons, <- !string_app_assoc, !string_app_assoc. change (rev_string []) with "".
    rewrite string_app_nil_r, <- string_app_assoc, (qp_decode_app _ _ _ Hd). simpl. by rewrite string_app_nil_r.
  - apply (line_flush w v); [done|simpl; by rewrite Hp|simpl; unfold lineMaxLen in *; lia|done].
  - done.
  - simpl. lia.
Qed.

Lemma crlf_inv w v :
  qp_inv w v → isWhitespace (default "x"%char (head (qp_line w))) = false → qp_inv (insertCRLF w) (v +:+ crlf).
Proof.
  intros Hi Hw. pose proof Hi as [Hd Hl Hp Hn]. split; cbn [qp_out qp_line insertCRLF flush].
  - rewrite !rev_string_cons, !string_app_assoc. change (rev_string []) with "".
    rewrite string_app_nil_r, <- string_app_assoc, (qp_decode_app _ _ _ Hd). done.
  - by apply (line_flush w v); [..|lia|].
  - done.
  - simpl. lia.
Qed.

Lemma upper_hex_ok n : (n < 16)%N →
  upper_digit (upper_hex n) = Some n ∧ printable (upper_hex n) = true ∧ isWhitespace (upper_hex n) = false ∧ upper_hex n ≠ CR.
Proof.
  intros Hn. destruct n as [|p]; [done|]. do 4 (try destruct p as [p|p|]); try lia; done.
Qed.

Lemma hex_halves c : (byte_of c / 16 < 16)%N ∧ (byte_of c mod 16 < 16)%N.
Proof.
  pose proof (byte_of_bounded c). split; [apply N.Div0.div_lt_upper_bound; lia|by apply N.mod_lt].
Qed.

Lemma encode_inv w v c :
  qp_inv w v → qp_inv (qp_encode_byte c w) (v +:+ String c "") ∧ qp_cr (qp_encode_byte c w) = qp_cr w ∧
    isWhitespace (default "x"%char (head (qp_line (qp_encode_byte c w)))) = false.
Proof.
  intros Hi. unfold qp_encode_byte. cbv zeta.
  assert (∃ w', (if (lineMaxLen - 1 - length (qp_line w) <? 3)%nat then insertSoftLineBreak w else w) = w' ∧
    qp_inv w' v ∧ qp_cr w' = qp_cr w ∧ (length (qp_line w') + 3 ≤ lineMaxLen - 1)%nat) as (w' & -> & Hi' & Hcr & Hn).
  { destruct (Nat.ltb_spec (lineMaxLen - 1 - length (qp_line w)) 3) as [Hlt|Hge].
    - eexists. split; [done|]. split; [by apply soft_inv|]. split; [done|]. simpl. unfold lineMaxLen. lia.
    - eexists. split; [done|]. split; [done|]. split; [done|]. unfold lineMaxLen in *. lia. }
  pose proof Hi' as [Hd Hl Hp Hlen]. pose proof (hex_halves c) as [Hh Hm].
  destruct (upper_hex_ok _ Hh) as (Hh1 & Hh2 & _ & Hh3). destruct (upper_hex_ok _ Hm) as (Hm1 & Hm2 & Hm3 & _).
  split; [|by simpl; rewrite Hcr]. split; cbn [qp_out qp_line].
  - rewrite !rev_string_cons, !string_app_assoc, <- string_app_assoc, (qp_decode_app _ _ _ Hd).
    cbn [qp_decode]. change ((String "=" "" +:+ ?x)) with (String "=" x). cbn [qp_decode].
    rewrite bool_decide_eq_true_2 by done. change (String ?a "" +:+ String ?b "") with (String a (String b "")). cbv iota.
    rewrite bool_decide_eq_false_2 by tauto. rewrite Hh1, Hm1. cbn [mbind option_bind qp_decode].
    do 2 f_equal. rewrite <- N.div_mod by done. by rewrite byte_byte_of.
  - done.
  - simpl. by rewrite Hh2, Hm2, Hp.
  - unfold lineMaxLen in *. simpl. lia.
Qed.

Lemma check_inv w v :
  qp_inv w v → qp_inv (checkLastByte w) v ∧ qp_cr (checkLastByte w) = qp_cr w ∧
    isWhitespace (default "x"%char (head (qp_line (checkLastByte w)))) = false.
Proof.
  intros Hi. unfold checkLastByte. destruct (qp_line w) as [|c line] eqn:Hline; [by rewrite Hline|].
  destruct (isWhitespace c) eqn:Hc; [|by rewrite Hline].
  pose proof Hi as [Hd Hl Hp Hn]. rewrite Hline in *. rewrite rev_string_cons, <- string_app_assoc in Hd.
  destruct (qp_decode_white _ _ _ Hc Hd) as (u & Hu & ->).
  apply (encode_inv (mkQpWriter (qp_out w) line (qp_cr w)) u c). split; cbn [qp_out qp_line].
  - done.
  - done.
  - simpl in Hp. by apply andb_true_iff in Hp as [_ Hp].
  - unfold lineMaxLen in *. simpl in Hn. lia.
Qed.

Lemma simple_printable c : qp_simple c = true → c ≠ LF → c ≠ CR → printable c = true ∧ c ≠ "="%char.
Proof. destruct c as [[] [] [] [] [] [] [] []]; (intros H; by vm_compute in H) || done. Qed.

Lemma write_inv w v c s :
  qp_inv w v → qp_simple c = true → ∃ v', qp_inv (qp_write_byte c w) v' ∧
    v' +:+ canon (qp_cr (qp_write_byte c w)) s = v +:+ canon (qp_cr w) (String c s).
Proof.
  intros Hi Hs. unfold qp_write_byte. cbn [canon]. case_bool_decide as Hc.
  - destruct (qp_cr w && bool_decide (c = LF)) eqn:Hcr.
    + apply andb_true_iff in Hcr as [Hcr Hlf]. apply bool_decide_eq_true in Hlf. exists v.
      split; [by apply qp_inv_cr|]. rewrite bool_decide_eq_true_2 by done. by rewrite Hcr.
    + destruct (check_inv w v Hi) as (Hi' & Hcr' & Hw). exists (v +:+ crlf).
      split; [by apply qp_inv_cr, crlf_inv|]. cbn [qp_cr]. destruct Hc as [-> | ->].
      * rewrite bool_decide_eq_true_2 in Hcr by done. rewrite andb_true_r in Hcr. rewrite Hcr. by rewrite string_app_assoc.
      * by rewrite string_app_assoc.
  - assert (c ≠ LF ∧ c ≠ CR) as [Hlf Hcr] by tauto. rewrite !bool_decide_eq_false_2 by done. rewrite Hs.
    destruct (simple_printable c Hs Hlf Hcr) as [Hp He]. exists (v +:+ String c ""). cbn [qp_cr].
    split; [|by rewrite string_app_assoc].
    destruct (Nat.eqb_spec (length (qp_line w)) (lineMaxLen - 1)) as [Heq|Hne].
    + apply put_inv; [by apply soft_inv|done..|]. simpl. unfold lineMaxLen. lia.
    + apply put_inv; [done..|]. pose proof (qi_length _ _ Hi). lia.
Qed.

Lemma Write_inv s w v : qp_inv w v → ∃ v', qp_inv (qp_Write s w) v' ∧ v' = v +:+ canon (qp_cr w) s.
Proof.
  revert w v. induction s as [|c s IH]; intros w v Hi; cbn [qp_Write].
  { exists v. split; [done|]. by rewrite string_app_nil_r. }
  destruct (qp_simple c) eqn:Hs.
  - destruct (write_inv w v c s Hi Hs) as (v' & Hi' & Hv). destruct (IH _ _ Hi') as (v'' & Hi'' & ->).
    eexists. split; [exact Hi''|exact Hv].
  - destruct (encode_inv w v c Hi) as (Hi' & Hcr & _). destruct (IH _ _ Hi') as (v'' & Hi'' & ->).
    eexists. split; [done|]. rewrite Hcr. cbn [canon].
    assert (c ≠ LF ∧ c ≠ CR) as [Hlf Hc] by (split; intros ->; by vm_compute in Hs).
    rewrite !bool_decide_eq_false_2, Hs by done. by rewrite string_app_assoc.
Qed.

Lemma qp_empty_inv : qp_inv (mkQpWriter "" [] false) "".
Proof. split; try done. simpl. lia. Qed.

(** Every body is read back up to its line ends, in proper lines. *)
Lemma quotedprintable_reads body :
  qp_decode (quotedprintable body) = Some (canon false body) ∧ qp_lines_ok 0 false (quotedprintable body) = true.
Proof.
  destruct (Write_inv body _ _ qp_empty_inv) as (v & Hi & ->). cbn [qp_cr] in Hi.
  destruct (check_inv _ _ Hi) as ([Hd Hl Hp Hn] & _ & Hw). unfold quotedprintable, qp_Close, flush. cbn [qp_out].
  split; [exact Hd|]. rewrite Hl. unfold rev_string. unfold lineMaxLen in Hn.
  apply qp_line_end; [by rewrite forallb_rev|rewrite length_rev; unfold lineMaxLen; lia|by rewrite last_rev|done].
Qed.

Lemma canon_to_crlf s : cr_ok s = true → canon false s = to_crlf s.
Proof.
  remember (String.length s) as n eqn:Hn. assert (String.length s ≤ n)%nat as Hle by lia. clear Hn.
  revert s Hle. induction n as [|n IH]; intros [|c s] Hle Hc; simpl in Hle; try lia; [done..|].
  cbn [canon to_crlf cr_ok] in *. apply andb_true_iff in Hc as [Hc Hs].
  destruct (decide (c = CR)) as [->|Hcr].
  - rewrite (bool_decide_eq_true_2 (CR = CR)) in * by done. rewrite (bool_decide_eq_false_2 (CR = LF)) by done.
    destruct s as [|d s]; [done|]. apply bool_decide_eq_true in Hc as ->. cbn [canon cr_ok] in *.
    apply andb_true_iff in Hs as [_ Hs]. simpl in Hle.
    rewrite (bool_decide_eq_true_2 (LF = LF)) by done. by rewrite IH by (done || lia).
  - rewrite (bool_decide_eq_false_2 (c = CR)) by done. case_bool_decide; [by rewrite IH by (done || lia)|].
    destruct (qp_simple c); by rewrite IH by (done || lia).
Qed.

(** ** mime.QEncoding *)

Definition q_plain (c : ascii) : bool :=
  ((32 <=? byte_of c) && (byte_of c <=? 126) && negb (byte_of c =? 61) && negb (byte_of c =? 63) &&
   negb (byte_of c =? 95))%N.

Definition q_byte (c : ascii) : string :=
  if (byte_of c =? 32)%N then "_" else if q_plain c then String c "" else "=" +:+ hex2 c.

Fixpoint needsEncoding (s : string) : bool :=
  match s with
  | EmptyString => false
  | String c s' => ((byte_of c <? 32) || (126 <? byte_of c))%N && negb (byte_of c =? 9)%N || needsEncoding s'
  end.

Definition maxContentLen : nat := 63.
Definition openWord : string := "=?UTF-8?q?".
Definition closeWord : string := "?=".

(** [qEncode]: [k] bytes of a character are still to be written, [currentLen]
    characters are in the word. *)
Fixpoint qEncode (currentLen k : nat) (s : string) : string :=
  match s with
  | EmptyString => ""
  | String c s' =>
      match k with
      | S k' => q_byte c +:+ qEncode currentLen k' s'
      | O =>
          let '(runeLen, encLen) :=
            if q_plain c then (1, 1)%nat
            else let n := Nat.max 1 (utf8_len s) in (n, 3 * n)%nat in
          let split := (maxContentLen <? currentLen + encLen)%nat in
          (if split then closeWord +:+ " " +:+ openWord else "") +:+ q_byte c +:+
          qEncode (if split then encLen else currentLen + encLen)%nat (runeLen - 1) s'
      end
  end.

Definition QEncoding_Encode (s : string) : string :=
  if needsEncoding s then openWord +:+ qEncode 0 0 s +:+ closeWord else s.

Example QEncoding_sample : QEncoding_Encode (bytes [72; 105; 32; 195; 169]%N) = "=?UTF-8?q?Hi_=C3=A9?=".
Proof. vm_compute. reflexivity. Qed.

(** No line break in a text. *)
Fixpoint one_line (s : string) : bool :=
  match s with
  | EmptyString => true
  | String c s' => negb (bool_decide (c = CR ∨ c = LF)) && one_line s'
  end.

Lemma one_line_app s t : one_line (s +:+ t) = one_line s && one_line t.
Proof. induction s as [|c s IH]; [done|]. rewrite string_app_cons. simpl. by rewrite IH, andb_assoc. Qed.

Lemma q_byte_line c : one_line (q_byte c) = true.
Proof. destruct c as [[] [] [] [] [] [] [] []]; reflexivity. Qed.

Lemma qEncode_line s n k : one_line (qEncode n k s) = true.
Proof.
  revert n k. induction s as [|c s IH]; intros n k; [done|]. cbn [qEncode]. destruct k as [|k].
  - destruct (if q_plain c then _ else _) as [runeLen encLen]. cbv zeta. rewrite !one_line_app, IH, q_byte_line.
    by destruct (_ <? _)%nat.
  - by rewrite one_line_app, IH, q_byte_line.
Qed.

Lemma plain_line s : needsEncoding s = false → one_line s = true.
Proof.
  induction s as [|c s IH]; [done|]. simpl. intros [Hc Hs]%orb_false_iff. rewrite (IH Hs), andb_true_r.
  apply negb_true_iff, bool_decide_eq_false. intros [-> | ->]; by vm_compute in Hc.
Qed.

Lemma QEncoding_line s : one_line (QEncoding_Encode s) = true.
Proof.
  unfold QEncoding_Encode. destruct (needsEncoding s) eqn:Hs; [|by apply plain_line].
  by rewrite !one_line_app, qEncode_line.
Qed.
