(* ===== verification/DotWriter.v ===== *)
(** * DotWriter: how a message travels inside DATA

    The writer of net/textproto that [smtp.Client.Data] answers, byte by byte: a
    dot at the start of a line is doubled, a line feed alone becomes CRLF, and the
    message ends with a dot on a line of its own.  [data_read] is the receiving
    side of RFC 5321 (4.5.2), for a server that takes CRLF as the only line end.
    Whatever a message contains, the server reads it to its end and no further, so
    that no text of a message is ever taken for commands. *)
From Stdlib Require Import Ascii.
From S2P Require Import Prelude Utf8 Mime.

Definition DOT : ascii := "."%char.

(** ** The writer *)

Inductive wstate := wstateBegin | wstateBeginLine | wstateCR | wstateData.

(** [Write] of one byte: whether a dot, and whether a CR goes before it, and the
    next state. *)
Definition dot_Write (st : wstate) (c : ascii) : bool * bool * wstate :=
  match st with
  | wstateCR => (false, false, if bool_decide (c = LF) then wstateBeginLine else wstateData)
  | _ =>
      let dot := match st with wstateData => false | _ => bool_decide (c = DOT) end in
      if bool_decide (c = CR) then (dot, false, wstateCR)
      else if bool_decide (c = LF) then (dot, true, wstateBeginLine)
      else (dot, false, wstateData)
  end.

(** [Close]: the line is ended, and a dot on a line of its own follows. *)
Definition line_end (st : wstate) : string :=
  match st with
  | wstateBegin | wstateData => crlf
  | wstateCR => String LF ""
  | wstateBeginLine => ""
  end.
Definition dotnl : string := String DOT crlf.

Definition opt_byte (b : bool) (c : ascii) (s : string) : string := if b then String c s else s.

(** The bytes on the wire for the rest of a message, [Close] included. *)
Fixpoint data_from (st : wstate) (s : string) : string :=
  match s with
  | EmptyString => line_end st +:+ dotnl
  | String c s' =>
      let '(dot, cr, st') := dot_Write st c in opt_byte dot DOT (opt_byte cr CR (String c (data_from st' s')))
  end.
Definition data_wire (message : string) : string := data_from wstateBegin message.

(** The text the message stands for: the same without the dots. *)
Fixpoint text_from (st : wstate) (s : string) : string :=
  match s with
  | EmptyString => line_end st
  | String c s' => let '(_, cr, st') := dot_Write st c in opt_byte cr CR (String c (text_from st' s'))
  end.
Definition data_text (message : string) : string := text_from wstateBegin message.

(** ** The reader *)

Inductive rstate := rBeginLine | rDot | rDotCR | rData | rCR.

Definition prepend_text (p : string) (r : option (string * string)) : option (string * string) :=
  (λ '(m, rest), (p +:+ m, rest)) <$> r.

(** The message and what follows it; [None] when it has no end. *)
Fixpoint data_read (st : rstate) (s : string) : option (string * string) :=
  match s with
  | EmptyString => None
  | String c s' =>
      match st with
      | rDotCR =>
          if bool_decide (c = LF) then Some ("", s')
          else if bool_decide (c = CR) then prepend_text (String CR "") (data_read rCR s')
          else prepend_text (String CR (String c "")) (data_read rData s')
      | rCR =>
          if bool_decide (c = LF) then prepend_text crlf (data_read rBeginLine s')
          else if bool_decide (c = CR) then prepend_text (String CR "") (data_read rCR s')
          else prepend_text (String CR (String c "")) (data_read rData s')
      | rDot =>
          if bool_decide (c = CR) then data_read rDotCR s' else prepend_text (String c "") (data_read rData s')
      | rBeginLine | rData =>
          if bool_decide (c = CR) then data_read rCR s'
          else if (match st with rBeginLine => bool_decide (c = DOT) | _ => false end) then data_read rDot s'
          else prepend_text (String c "") (data_read rData s')
      end
  end.

(** ** Writer and reader stay together *)

Definition together (st : wstate) (r : rstate) : Prop :=
  match st with
  | wstateBegin | wstateBeginLine => r = rBeginLine
  | wstateCR => r = rCR
  | wstateData => r = rData ∨ r = rCR
  end.

(** A CR the reader has not passed on yet. *)
Definition held_back (r : rstate) : string := match r with rCR => String CR "" | _ => "" end.

Lemma prepend_Some p m rest : prepend_text p (Some (m, rest)) = Some (p +:+ m, rest).
Proof. done. Qed.

Lemma CR_LF : CR ≠ LF.
Proof. discriminate. Qed.
Lemma CR_DOT : CR ≠ DOT.
Proof. discriminate. Qed.
Lemma LF_DOT : LF ≠ DOT.
Proof. discriminate. Qed.

(** Which byte it is decides every test. *)
Lemma byte_cases (c : ascii) : c = CR ∨ c = LF ∨ c = DOT ∨ (c ≠ CR ∧ c ≠ LF ∧ c ≠ DOT).
Proof.
  destruct (decide (c = CR)); [by left|]. destruct (decide (c = LF)); [by right; left|].
  destruct (decide (c = DOT)); [by right; right; left|]. by do 3 right.
Qed.

Ltac byte_tests :=
  repeat first
    [ progress cbn [data_from text_from data_read dot_Write opt_byte held_back]
    | rewrite string_app_cons
    | rewrite (bool_decide_eq_true_2 (_ = _)) by reflexivity
    | rewrite (bool_decide_eq_false_2 (_ = _)) by (assumption || apply CR_LF || apply CR_DOT || apply LF_DOT
        || (apply not_eq_sym; apply CR_LF || apply CR_DOT || apply LF_DOT)) ].

Lemma data_framed m st r rest :
  together st r → data_read r (data_from st m +:+ rest) = Some (held_back r +:+ text_from st m, rest).
Proof.
  revert st r. induction m as [|c m IH]; intros st r Ht.
  - destruct st; simpl in Ht; [subst..|destruct Ht as [-> | ->]]; reflexivity.
  - destruct (byte_cases c) as [->|[->|[->|(H1 & H2 & H3)]]].
    all: destruct st; simpl in Ht; [subst..|destruct Ht as [-> | ->]]; byte_tests; rewrite IH; try done.
    all: by (left + right).
Qed.

(** Every message is read to its end and no further. *)
Lemma data_roundtrip m rest : data_read rBeginLine (data_wire m +:+ rest) = Some (data_text m, rest).
Proof. by apply data_framed. Qed.

(** ** Messages of whole lines *)

(** CR and LF only as CRLF, and the last line is ended. *)
Fixpoint whole_lines (bol : bool) (s : string) : bool :=
  match s with
  | EmptyString => bol
  | String c s' =>
      if bool_decide (c = CR) then
        match s' with String d s'' => bool_decide (d = LF) && whole_lines true s'' | EmptyString => false end
      else if bool_decide (c = LF) then false else whole_lines false s'
  end.

Lemma whole_lines_text s bol st :
  whole_lines bol s = true → st = (if bol then wstateBeginLine else wstateData) → text_from st s = s.
Proof.
  revert bol st. induction s as [s IH] using (induction_ltof1 _ String.length). unfold ltof in IH.
  intros bol st Hs ->. destruct s as [|c s]; simpl in Hs; [by destruct bol|].
  case_bool_decide as H1; [|case_bool_decide as H2; [done|]].
  - subst c. destruct s as [|d s]; [done|]. apply andb_true_iff in Hs as [->%bool_decide_eq_true Hs].
    destruct bol; byte_tests; by rewrite (IH s ltac:(simpl; lia) true).
  - destruct bol; byte_tests; [|by rewrite (IH s ltac:(simpl; lia) false)].
    destruct (decide (c = DOT)) as [->|H3]; byte_tests; by rewrite (IH s ltac:(simpl; lia) false).
Qed.

(** Such a message arrives as it is. *)
Lemma data_text_whole m : m ≠ "" → whole_lines true m = true → data_text m = m.
Proof.
  intros Hne Hm. rewrite <- (whole_lines_text m true wstateBeginLine Hm eq_refl) at 2. by destruct m.
Qed.

Lemma whole_line l bol t : one_line l = true → whole_lines bol (l +:+ crlf +:+ t) = whole_lines true t.
Proof.
  revert bol. induction l as [|c l IH]; intros bol Hl.
  - by destruct bol.
  - simpl in Hl. apply andb_true_iff in Hl as [Hc%negb_true_iff%bool_decide_eq_false Hl].
    rewrite string_app_cons. cbn [whole_lines]. rewrite !bool_decide_eq_false_2 by naive_solver. by apply IH.
Qed.

Lemma whole_crlf bol t : whole_lines bol (crlf +:+ t) = whole_lines true t.
Proof. by apply (whole_line ""). Qed.

Lemma whole_qp s col white bol t : qp_lines_ok col white s = true → whole_lines bol (s +:+ crlf +:+ t) = whole_lines true t.
Proof.
  revert col white bol. induction s as [s IH] using (induction_ltof1 _ String.length). unfold ltof in IH.
  intros col white bol Hs. destruct s as [|c s]; [apply whole_crlf|]. rewrite string_app_cons. cbn [qp_lines_ok whole_lines] in *.
  case_bool_decide as Hc.
  - destruct s as [|d s]; [done|]. rewrite !andb_true_iff in Hs. destruct Hs as [[->%bool_decide_eq_true _] Hs].
    rewrite string_app_cons, bool_decide_eq_true_2 by done. apply (IH s ltac:(simpl; lia) _ _ _ Hs).
  - rewrite !andb_true_iff in Hs. destruct Hs as [[_ Hp] Hs].
    rewrite bool_decide_eq_false_2 by (intros ->; by vm_compute in Hp). apply (IH s ltac:(simpl; lia) _ _ _ Hs).
Qed.

Example dots : data_read rBeginLine (data_wire ("a" +:+ crlf +:+ "." +:+ crlf +:+ "QUIT") +:+ "NOOP") =
  Some ("a" +:+ crlf +:+ "." +:+ crlf +:+ "QUIT" +:+ crlf, "NOOP").
Proof. vm_compute. reflexivity. Qed.
