(* ===== verification/Domain.v ===== *)
(** * Domain: the data types and validation rules of internal/domain *)
From S2P Require Import Prelude GoTime Json.

(** ** UUIDs: 128-bit values *)

Record uuid := mkUuid { uuid_N : N; uuid_range : (uuid_N <? 2 ^ 128)%N = true }.

Lemma uuid_eq (u v : uuid) : uuid_N u = uuid_N v → u = v.
Proof.
  destruct u as [n p], v as [m q]; simpl. intros ->. f_equal. apply (proof_irrel p q).
Qed.

#[export] Instance uuid_eq_dec : EqDecision uuid.
Proof.
  refine (λ u v, cast_if (decide (uuid_N u = uuid_N v))); [by apply uuid_eq|naive_solver].
Defined.

Definition uuid_of_N (n : N) : option uuid :=
  match decide ((n <? 2 ^ 128)%N = true) with left p => Some (mkUuid n p) | right _ => None end.

Lemma uuid_of_N_N u : uuid_of_N (uuid_N u) = Some u.
Proof.
  unfold uuid_of_N. destruct (decide _) as [p|n]; [f_equal; by apply uuid_eq|].
  by destruct n, u.
Qed.

#[export] Instance uuid_countable : Countable uuid := inj_countable uuid_N uuid_of_N uuid_of_N_N.

Definition uuid_Nil : uuid := mkUuid 0 eq_refl.

(** ** notification.go *)

Abbreviation NotificationStatus := string (only parsing).
Definition StatusPending : NotificationStatus := "pending".
Definition StatusProcessing : NotificationStatus := "processing".
Definition StatusDelivered : NotificationStatus := "delivered".
Definition StatusFailed : NotificationStatus := "failed".
Definition StatusRetrying : NotificationStatus := "retrying".

Definition IsValidNotificationStatus (s : NotificationStatus) : bool :=
  bool_decide (s ∈ [StatusPending; StatusProcessing; StatusDelivered; StatusFailed; StatusRetrying]).

(** ** channel.go *)

Abbreviation ChannelType := string (only parsing).
Definition ChannelDiscord : ChannelType := "discord".
Definition ChannelTelegram : ChannelType := "telegram".
Definition ChannelWhatsApp : ChannelType := "whatsapp".
Definition ChannelEmail : ChannelType := "email".
Definition ChannelSlack : ChannelType := "slack".
Definition ChannelWebhook : ChannelType := "webhook".

Definition ValidChannelTypes : list ChannelType :=
  [ChannelDiscord; ChannelTelegram; ChannelWhatsApp; ChannelEmail; ChannelSlack; ChannelWebhook].

Definition IsValidChannelType (ct : ChannelType) : bool :=
  existsb (λ valid, bool_decide (valid = ct)) ValidChannelTypes.

Record DeliveryPreferences := mkDeliveryPreferences {
  dp_Priority : string;
  dp_MaxRetries : option Z;
  dp_FormatMode : string
}.

(** [dp] is nil when [None]. *)
Definition DeliveryPreferences_Validate (dp : option DeliveryPreferences) : result unit :=
  match dp with
  | None => Ok tt
  | Some p =>
      if bool_decide (dp_Priority p ≠ "") &&
         negb (bool_decide (dp_Priority p ∈ ["critical"; "normal"; "low"]))
      then Err (errorf_s ErrValidationFailed
                  ("invalid priority: " +:+ dp_Priority p +:+ ", must be critical, normal, or low"))
      else if bool_decide (dp_FormatMode p ≠ "") &&
              negb (bool_decide (dp_FormatMode p ∈ ["plain"; "markdown"; "html"]))
      then Err (errorf_s ErrValidationFailed
                  ("invalid format_mode: " +:+ dp_FormatMode p +:+ ", must be plain, markdown, or html"))
      else match dp_MaxRetries p with
           | Some n => if (n <? 0)%Z
                       then Err (errorf_s ErrValidationFailed "max_retries must be non-negative")
                       else Ok tt
           | None => Ok tt
           end
  end.

(** The struct's JSON members ([omitempty] on each) and their decoding. *)
Definition json_DeliveryPreferences (p : DeliveryPreferences) : json := JObj
  ((if bool_decide (dp_Priority p = "") then [] else [("priority", JStr (dp_Priority p))]) ++
   match dp_MaxRetries p with None => [] | Some n => [("max_retries", JInt n)] end ++
   (if bool_decide (dp_FormatMode p = "") then [] else [("format_mode", JStr (dp_FormatMode p))])).

Definition dec_DeliveryPreferences : decoder DeliveryPreferences := λ cur j,
  kvs <-? json_object j;
  p <-? field dec_string "priority" (dp_Priority cur) kvs;
  n <-? field (dec_ptr dec_int 0%Z) "max_retries" (dp_MaxRetries cur) kvs;
  f <-? field dec_string "format_mode" (dp_FormatMode cur) kvs;
  Ok (mkDeliveryPreferences p n f).

Definition zero_DeliveryPreferences : DeliveryPreferences := mkDeliveryPreferences "" None "".

Record ChannelConfig := mkChannelConfig {
  cc_ID : uuid;
  cc_TenantID : uuid;
  cc_Channel : ChannelType;
  cc_Name : string;
  cc_Config : RawMessage;
  cc_IsActive : bool;
  cc_DeliveryPrefs : option DeliveryPreferences;
  cc_CreatedAt : Time;
  cc_UpdatedAt : Time
}.

Record CreateChannelConfigInput := mkCreateChannelConfigInput {
  cci_Channel : ChannelType;
  cci_Name : string;
  cci_Config : RawMessage;
  cci_DeliveryPrefs : option DeliveryPreferences
}.

Record UpdateChannelConfigInput := mkUpdateChannelConfigInput {
  uci_Name : option string;
  uci_Config : option RawMessage;
  uci_IsActive : option bool;
  uci_DeliveryPrefs : option DeliveryPreferences
}.

Record Notification := mkNotification {
  n_ID : uuid;
  n_TenantID : uuid;
  n_ChannelConfigID : uuid;
  n_Channel : ChannelType;
  n_Subject : option string;
  n_Body : string;
  n_Metadata : RawMessage;
  n_Status : NotificationStatus;
  n_AsynqTaskID : option string;
  n_RetryCount : Z;
  n_MaxRetries : Z;
  n_LastError : option string;
  n_DeliveredAt : option Time;
  n_ProviderMsgID : option string;
  n_CreatedAt : Time;
  n_UpdatedAt : Time
}.

Record SendNotificationInput := mkSendNotificationInput {
  sni_ChannelConfigID : uuid;
  sni_Subject : option string;
  sni_Body : string;
  sni_Metadata : RawMessage
}.

Record NotificationFilter := mkNotificationFilter {
  nf_TenantID : uuid;
  nf_Status : option NotificationStatus;
  nf_Channel : option ChannelType;
  nf_Limit : Z;
  nf_Offset : Z
}.

Record UsageReport := mkUsageReport {
  ur_Sent : Z;
  ur_Delivered : Z;
  ur_Failed : Z;
  ur_ByChannel : gmap string Z
}.

(** ** tenant.go, apikey.go *)

Record Tenant := mkTenant {
  t_ID : uuid;
  t_Name : string;
  t_Slug : string;
  t_APIKey : string;
  t_APISecret : string;
  t_IsActive : bool;
  t_CreatedAt : Time;
  t_UpdatedAt : Time
}.

Record CreateTenantInput := mkCreateTenantInput { cti_Name : string; cti_Slug : string }.
Record UpdateTenantInput := mkUpdateTenantInput { uti_Name : option string; uti_IsActive : option bool }.

Record APIKey := mkAPIKey {
  k_ID : uuid;
  k_TenantID : uuid;
  k_APIKey : string;
  k_APISecretHash : string;
  k_Label : string;
  k_CreatedAt : Time;
  k_RevokedAt : option Time
}.

(** ** delivery_attempt.go, delivery_metric.go *)

Abbreviation AttemptStatus := string (only parsing).
Definition AttemptSuccess : AttemptStatus := "success".
Definition AttemptFailure : AttemptStatus := "failure".

Record DeliveryAttempt := mkDeliveryAttempt {
  a_ID : uuid;
  a_NotificationID : uuid;
  a_AttemptNumber : Z;
  a_Status : AttemptStatus;
  a_ProviderResponse : option string;
  a_ErrorMessage : option string;
  a_DurationMs : Z;
  a_AttemptedAt : Time
}.

Record DeliveryMetric := mkDeliveryMetric {
  m_ID : uuid;
  m_NotificationID : uuid;
  m_ProviderMsgID : string;
  m_DeliveredAt : option Time;
  m_ReadAt : option Time;
  m_Interactions : RawMessage;
  m_CollectedAt : Time
}.

(** ** webhook_endpoint.go *)

Abbreviation WebhookEventType := string (only parsing).
Definition WebhookEventDelivered : WebhookEventType := "notification.delivered".
Definition WebhookEventFailed : WebhookEventType := "notification.failed".

Definition validWebhookEventTypes : list WebhookEventType :=
  [WebhookEventDelivered; WebhookEventFailed].

Definition IsValidWebhookEventType (t : WebhookEventType) : bool :=
  existsb (λ valid, bool_decide (valid = t)) validWebhookEventTypes.

(** The loop over [events] with its [seen] map. *)
Fixpoint validate_events_loop (seen : gset string) (events : list string) : result unit :=
  match events with
  | [] => Ok tt
  | event :: rest =>
      if negb (IsValidWebhookEventType event)
      then Err (errorf_s ErrValidationFailed ("invalid event type: " +:+ event))
      else if bool_decide (event ∈ seen)
      then Err (errorf_s ErrValidationFailed ("duplicate event type: " +:+ event))
      else validate_events_loop ({[event]} ∪ seen) rest
  end.

Definition ValidateWebhookEvents (events : list string) : result unit :=
  match events with
  | [] => Err (errorf_s ErrValidationFailed "events must not be empty")
  | _ => validate_events_loop ∅ events
  end.

Record WebhookEndpoint := mkWebhookEndpoint {
  e_ID : uuid;
  e_TenantID : uuid;
  e_URL : string;
  e_Secret : string;
  e_Events : list string;
  e_IsActive : bool;
  e_CreatedAt : Time
}.

Definition SubscribesTo (e : WebhookEndpoint) (eventType : WebhookEventType) : bool :=
  if negb (e_IsActive e) then false
  else existsb (λ event, bool_decide (event = eventType)) (e_Events e).

Record CreateWebhookEndpointInput := mkCreateWebhookEndpointInput {
  cwi_URL : string;
  cwi_Events : list string
}.

(** [uwi_Events] is [None] for a nil slice. *)
Record UpdateWebhookEndpointInput := mkUpdateWebhookEndpointInput {
  uwi_URL : option string;
  uwi_Events : option (list string);
  uwi_IsActive : option bool
}.

(** ** entitlement.go *)

Record Entitlements := mkEntitlements {
  ent_TenantID : uuid;
  ent_PlanCode : string;
  ent_MessageLimit : Z;
  ent_AllowedChannels : list ChannelType;
  ent_APIKeyLimit : Z;
  ent_RetentionDays : Z;
  ent_PeriodStart : Time;
  ent_PeriodEnd : Time;
  ent_UpdatedAt : Time
}.

Definition AllowsChannel (e : Entitlements) (ct : ChannelType) : bool :=
  existsb (λ c, bool_decide (c = ct)) (ent_AllowedChannels e).

(** The zero [time.Time], January 1, year 1. *)
Definition time_zero : Time := time_Date 1 1 1.

Definition FreeDefaults (tenantID : uuid) (now : Time) : Entitlements :=
  let start := time_Date (time_Year now) (time_Month now) 1 in
  {| ent_TenantID := tenantID;
     ent_PlanCode := "free";
     ent_MessageLimit := 1000;
     ent_AllowedChannels := [ChannelDiscord; ChannelTelegram; ChannelEmail; ChannelSlack; ChannelWebhook];
     ent_APIKeyLimit := 1;
     ent_RetentionDays := 7;
     ent_PeriodStart := start;
     ent_PeriodEnd := AddDate start 0 1 0;
     ent_UpdatedAt := time_zero |}.

Section EntitlementsOrFree.
(** The repository method and the clock it calls. *)
Context {W : Type} (GetByTenantID : uuid → ST W (result Entitlements)) (Now : ST W Time).

Definition EntitlementsOrFree (tenantID : uuid) : ST W (result Entitlements) :=
  r ← GetByTenantID tenantID;
  match r with
  | Ok ent => mret (Ok ent)
  | Err err =>
      if errors_Is err ErrNotFound
      then now ← Now; mret (Ok (FreeDefaults tenantID now))
      else mret (Err err)
  end.
End EntitlementsOrFree.

(** ** Properties *)

Lemma IsValidChannelType_spec ct : IsValidChannelType ct = true ↔ ct ∈ ValidChannelTypes.
Proof. apply existsb_elem_of. Qed.

Lemma AllowsChannel_spec e ct : AllowsChannel e ct = true ↔ ct ∈ ent_AllowedChannels e.
Proof. apply existsb_elem_of. Qed.

Lemma IsValidWebhookEventType_spec t :
  IsValidWebhookEventType t = true ↔ t ∈ validWebhookEventTypes.
Proof. apply existsb_elem_of. Qed.

Lemma SubscribesTo_spec e t :
  SubscribesTo e t = true ↔ e_IsActive e = true ∧ t ∈ e_Events e.
Proof.
  unfold SubscribesTo. destruct (e_IsActive e); simpl; [|naive_solver].
  rewrite existsb_elem_of. naive_solver.
Qed.

(** A preferences block is accepted exactly when each field holds a value the
    worker understands; the only error is a validation error. *)
Lemma DeliveryPreferences_Validate_spec dp :
  match DeliveryPreferences_Validate dp with
  | Ok _ => ∀ p, dp = Some p →
      dp_Priority p ∈ [""; "critical"; "normal"; "low"] ∧
      dp_FormatMode p ∈ [""; "plain"; "markdown"; "html"] ∧
      (∀ n, dp_MaxRetries p = Some n → (0 ≤ n)%Z)
  | Err e => err_chain e = [ErrValidationFailed] ∧ ∃ p, dp = Some p ∧
      ¬ (dp_Priority p ∈ [""; "critical"; "normal"; "low"] ∧
         dp_FormatMode p ∈ [""; "plain"; "markdown"; "html"] ∧
         (∀ n, dp_MaxRetries p = Some n → (0 ≤ n)%Z))
  end.
Proof.
  destruct dp as [[prio mr fmt]|]; simpl; [|done].
  case_bool_decide as Hp; case_bool_decide as Hp'; simpl; [|set_solver| |].
  all: case_bool_decide as Hf; case_bool_decide as Hf'; simpl; [|set_solver| |].
  all: destruct mr as [n|]; [destruct (Z.ltb_spec n 0)|].
  all: try (split; [done|]; eexists; split; [done|]; simpl).
  all: try (intros (_ & _ & Hn); specialize (Hn _ eq_refl); lia).
  all: intros p [= <-]; simpl; split_and!; try set_solver.
  all: intros ? [= <-]; lia.
Qed.

(** Go's [int] holds the retry count of a preferences block. *)
Definition prefs_in_range (p : DeliveryPreferences) : Prop :=
  ∀ n, dp_MaxRetries p = Some n → in_int64 n.

Lemma dec_json_DeliveryPreferences p :
  prefs_in_range p → dec_DeliveryPreferences zero_DeliveryPreferences (json_DeliveryPreferences p) = Ok p.
Proof.
  destruct p as [prio mr fmt]. intros Hn. unfold json_DeliveryPreferences; simpl.
  case_bool_decide; case_bool_decide; destruct mr as [n|]; subst; simpl.
  all: unfold dec_DeliveryPreferences; simpl; json_fields; try done.
  all: unfold dec_int; rewrite bool_decide_eq_true_2 by (by apply Hn); done.
Qed.

(** A decoded block is in range: other numbers are refused. *)
Lemma dec_DeliveryPreferences_range j p :
  dec_DeliveryPreferences zero_DeliveryPreferences j = Ok p → prefs_in_range p.
Proof.
  unfold dec_DeliveryPreferences, rbind. destruct (json_object j) as [kvs|]; [|done].
  destruct (field dec_string "priority" _ kvs) as [prio|]; [|done].
  destruct (field _ "max_retries" _ kvs) as [mr|] eqn:Hmr; [|done].
  destruct (field dec_string "format_mode" _ kvs) as [fmt|]; [|done]. intros [= <-]. intros n; simpl; intros ->.
  refine (field_inv (λ o, ∀ n, o = Some n → in_int64 n) _ _ _ _ _ _ _ Hmr n eq_refl); [|done].
  intros cur v b Hcur Hb n' ->. unfold dec_ptr, dec_int in Hb. destruct v; try done.
  case_bool_decide; [|done]. by injection Hb as <-.
Qed.

Lemma validate_events_loop_ok seen events :
  validate_events_loop seen events = Ok tt ↔
  Forall (.∈ validWebhookEventTypes) events ∧ NoDup events ∧ (∀ x, x ∈ events → x ∉ seen).
Proof.
  revert seen. induction events as [|e es IH]; intros seen; simpl.
  { split; [|done]. intros _. split_and!; [constructor|constructor|set_solver]. }
  destruct (IsValidWebhookEventType e) eqn:Hv; simpl; last first.
  { split; [done|]. intros [[He _]%Forall_cons _].
    apply IsValidWebhookEventType_spec in He. congruence. }
  apply IsValidWebhookEventType_spec in Hv. rewrite Forall_cons, NoDup_cons.
  case_bool_decide as Hs; [split; [done|set_solver]|]. rewrite IH. set_solver.
Qed.

(** The accepted event lists: not empty, only known event types, no repetition. *)
Lemma ValidateWebhookEvents_ok events :
  ValidateWebhookEvents events = Ok tt ↔
  events ≠ [] ∧ Forall (.∈ validWebhookEventTypes) events ∧ NoDup events.
Proof.
  unfold ValidateWebhookEvents. destruct events as [|e es]; [naive_solver|].
  rewrite validate_events_loop_ok. set_solver.
Qed.

Lemma ValidateWebhookEvents_err events e :
  ValidateWebhookEvents events = Err e → err_chain e = [ErrValidationFailed].
Proof.
  unfold ValidateWebhookEvents. destruct events as [|x xs]; [by intros [= <-]|].
  generalize (∅ : gset string). generalize (x :: xs) as l.
  induction l as [|y l IH]; intros seen; simpl; [done|].
  repeat case_match; [by intros [= <-]..|]. apply IH.
Qed.

(** The default period is the calendar month of [now]: it starts on the first
    of the month and the clock reading lies inside the half-open period. *)
Lemma FreeDefaults_period tenantID now :
  let e := FreeDefaults tenantID now in
  (ent_PeriodStart e ≤ now < ent_PeriodEnd e)%Z ∧
  ent_PeriodEnd e = time_Date (time_Year now) (time_Month now + 1) 1.
Proof.
  simpl. rewrite AddDate_month_first by apply time_Month_range.
  split; [apply time_month_bounds|done].
Qed.
