(* ===== verification/World.v ===== *)
(** * World: what the process shares with its environment

    [Env] collects everything the program calls but does not contain: the clock,
    randomness, PostgreSQL failures, the asynq client, HTTP peers, Redis, UUID
    and cryptographic libraries.  [World] is the state those services hold for
    the program (tables, Redis keys, tasks accepted by asynq, requests sent,
    log lines).  Every external interaction consumes one tick, so that each one
    sees its own clock reading, failure and answer. *)
From Stdlib Require Import Ascii.
From S2P Require Import Prelude GoTime Json Domain.

(** ** Values exchanged with the services *)

(** Outcome of a PostgreSQL or Redis round trip as a service: the call is
    executed and answered, never executed (also: its parameters rejected by the
    server as malformed or too long), or executed with the answer lost. *)
Inductive fault :=
| Fine
| Lost (msg : string)
| Unacked (msg : string).

(** asynq options and tasks; the payload is kept as the JSON it encodes. *)
Inductive asynq_Option :=
| Queue (name : string)
| MaxRetry (n : Z)
| TaskID (id : string)
| Timeout (d : Duration).

Record Task := NewTask {
  task_Type : string;
  task_Payload : json;
  task_Opts : list asynq_Option
}.

Record TaskInfo := mkTaskInfo { ti_ID : string }.

(** The options in force are the last ones given, as asynq documents. *)
Definition opt_MaxRetry (opts : list asynq_Option) : option Z :=
  foldl (λ acc o, match o with MaxRetry n => Some n | _ => acc end) None opts.
Definition opt_Queue (opts : list asynq_Option) : option string :=
  foldl (λ acc o, match o with Queue q => Some q | _ => acc end) None opts.
Definition opt_TaskID (opts : list asynq_Option) : option string :=
  foldl (λ acc o, match o with TaskID i => Some i | _ => acc end) None opts.

(** Headers are kept under their canonical name, [http.CanonicalHeaderKey]. *)
Record HttpRequest := mkHttpRequest {
  rq_Method : string;
  rq_URL : string;
  rq_Header : gmap string string;
  rq_Body : string
}.

Record HttpResponse := mkHttpResponse { rs_StatusCode : Z; rs_Body : string }.

(** ** SMTP

    What net/smtp does on a connection: opening it, reading the greeting, one
    command line, the message of DATA and its end.  The server answers a reply
    code with its text, or the connection fails (also: a TLS handshake, a
    malformed reply, the context's deadline). *)
Inductive SmtpAct :=
| SmtpDial (addr : string)
| SmtpGreeting
| SmtpLine (line : string)
| SmtpWrite (message : string)
| SmtpDot.

Inductive SmtpAnswer :=
| Reply (code : Z) (msg : string)
| Broken (msg : string).

(** An act with whether the connection was under TLS. *)
Record SmtpEvent := mkSmtpEvent { se_TLS : bool; se_Act : SmtpAct }.

Definition ascii_upper (c : ascii) : ascii :=
  let n := N_of_ascii c in
  if ((97 <=? n) && (n <=? 122))%N then ascii_of_N (n - 32) else c.

Fixpoint canonical_from (up : bool) (s : string) : string :=
  match s with
  | EmptyString => EmptyString
  | String c s' =>
      String (if up then ascii_upper c else ascii_lower c)
             (canonical_from (bool_decide (c = "-"%char)) s')
  end.

Definition token_char (c : ascii) : bool :=
  let n := N_of_ascii c in
  ((48 <=? n) && (n <=? 57) || (65 <=? n) && (n <=? 90) || (97 <=? n) && (n <=? 122)
   || bool_decide (n ∈ [33; 35; 36; 37; 38; 39; 42; 43; 45; 46; 94; 95; 96; 124; 126]))%N.

Definition CanonicalHeaderKey (s : string) : string :=
  if forallb token_char (String.list_ascii_of_string s) then canonical_from true s else s.

Definition Header_Set (k v : string) (h : gmap string string) : gmap string string :=
  <[CanonicalHeaderKey k := v]> h.

(** ** The environment *)

Class Env := {
  (** [time.Now], [uuid.New], [rand.Int64N] and [crypto/rand] at a tick *)
  env_now : nat → Time;
  env_uuid : nat → uuid;
  env_Int64N : nat → Z → Z;
  env_rand_bytes : nat → nat → result string;
  (** failures of PostgreSQL and Redis round trips *)
  env_fault : nat → fault;
  (** the [jsonb] value PostgreSQL keeps for a text (none when it rejects it) and
      for a document, and the order in which a scan at a tick meets the rows *)
  pg_jsonb : string → option string;
  jsonb : json → json;
  heap_order : nat → list uuid → list uuid;
  (** [asynq.Client.EnqueueContext] *)
  env_enqueue : nat → Task → result TaskInfo;
  (** [http.Client.Do] *)
  env_http : nat → HttpRequest → result HttpResponse;
  (** the peer of an SMTP connection *)
  env_smtp : nat → SmtpEvent → SmtpAnswer;
  (** the order in which a [range] over a map at a tick meets the keys *)
  map_order : nat → list string → list string;
  (** [url.Parse] of net/url followed by [Hostname] *)
  url_Hostname : string → result string;
  (** github.com/google/uuid *)
  uuid_String : uuid → string;
  uuid_Parse : string → option uuid;
  uuid_NewSHA1 : uuid → string → uuid;
  (** crypto/hmac with crypto/sha256, crypto/sha256, golang.org/x/crypto/bcrypt *)
  hmac_sha256 : string → string → string;
  sha256 : string → string;
  bcrypt_Generate : nat → string → result string;
  bcrypt_Compare : string → string → bool;
  (** Redis: its state, the integer at a key, and the commands used *)
  redis : Type;
  redis_value : redis → string → option Z;
  redis_IncrBy : redis → string → Z → Z * redis;
  redis_Expire : redis → string → Duration → redis;
  redis_Set : redis → string → Z → Duration → redis;
  redis_SetNX : redis → string → Z → Duration → bool * redis
}.

(** The URLs net/url parses, as [http.NewRequest] requires. *)
Definition url_parses `{E : Env} (u : string) : bool := is_Ok (url_Hostname u).

(** What the program relies on of the UUID package: the text form has 36
    characters, determines the UUID and parses back to it. *)
Class UuidLaws (E : Env) : Prop := {
  uuid_String_length u : String.length (uuid_String u) = 36;
  uuid_Parse_String u : uuid_Parse (uuid_String u) = Some u
}.

Definition is_scalar (j : json) : bool :=
  match j with JNull | JBool _ | JInt _ | JStr _ => true | _ => false end.

(** What the program relies on of PostgreSQL: a scan meets every row once, in
    any order; [jsonb] keeps scalars, and the members of an object without
    duplicate keys up to their order. *)
Class PgLaws (E : Env) : Prop := {
  heap_order_perm t l : heap_order t l ≡ₚ l;
  jsonb_scalar j : is_scalar j = true → jsonb j = j;
  jsonb_object kvs :
    NoDup kvs.*1 → ∃ kvs', jsonb (JObj kvs) = JObj kvs' ∧ kvs' ≡ₚ prod_map id jsonb <$> kvs
}.

(** What the program relies on of Go's maps: a [range] meets every key once. *)
Class MapLaws (E : Env) : Prop := {
  map_order_perm t l : map_order t l ≡ₚ l
}.

(** What the program relies on of math/rand/v2. *)
Class RandLaws (E : Env) : Prop := {
  env_Int64N_range t n : (0 < n)%Z → (0 ≤ env_Int64N t n < n)%Z
}.

(** What the program relies on of Redis: INCRBY adds to the integer at the key (0
    when absent) and answers the new value, SET and SET NX store, EXPIRE keeps
    the value, and no command touches another key. *)
Class RedisLaws (E : Env) : Prop := {
  redis_IncrBy_answer r k n :
    in_int64 (default 0%Z (redis_value r k) + n) →
    (redis_IncrBy r k n).1 = (default 0%Z (redis_value r k) + n)%Z;
  redis_IncrBy_value r k n k' :
    in_int64 (default 0%Z (redis_value r k) + n) →
    redis_value (redis_IncrBy r k n).2 k' =
    if decide (k = k') then Some (default 0%Z (redis_value r k) + n)%Z else redis_value r k';
  redis_Expire_value r k d k' :
    (0 < d)%Z → redis_value (redis_Expire r k d) k' = redis_value r k';
  redis_Set_value r k v d k' :
    (0 < d)%Z →
    redis_value (redis_Set r k v d) k' = if decide (k = k') then Some v else redis_value r k';
  redis_SetNX_answer r k v d :
    (redis_SetNX r k v d).1 = bool_decide (redis_value r k = None);
  redis_SetNX_value r k v d k' :
    (0 < d)%Z →
    redis_value (redis_SetNX r k v d).2 k' =
    if decide (k = k') then Some (default v (redis_value r k)) else redis_value r k'
}.

#[export] Instance uuid_String_inj {E : Env} {L : UuidLaws E} : Inj (=) (=) uuid_String.
Proof.
  intros u v Huv. apply (f_equal uuid_Parse) in Huv. rewrite !uuid_Parse_String in Huv. by injection Huv.
Qed.

(** ** The tables of PostgreSQL (migrations/) *)

Record ChannelRow := mkChannelRow {
  cr_ID : uuid;
  cr_TenantID : uuid;
  cr_Channel : ChannelType;
  cr_Name : string;
  cr_Config : json;
  cr_IsActive : bool;
  cr_DeliveryPrefs : option json;
  cr_CreatedAt : Time;
  cr_UpdatedAt : Time
}.

Record DB := mkDB {
  tenants : gmap uuid Tenant;
  channel_configs : gmap uuid ChannelRow;
  notifications : gmap uuid Notification;
  delivery_attempts : gmap uuid DeliveryAttempt;
  delivery_metrics : gmap uuid DeliveryMetric;      (* keyed by notification_id *)
  tenant_entitlements : gmap uuid Entitlements;     (* keyed by tenant_id *)
  api_keys : gmap uuid APIKey;
  webhook_endpoints : gmap uuid WebhookEndpoint
}.

Definition set_tenants x d := mkDB x (channel_configs d) (notifications d) (delivery_attempts d)
  (delivery_metrics d) (tenant_entitlements d) (api_keys d) (webhook_endpoints d).
Definition set_channel_configs x d := mkDB (tenants d) x (notifications d) (delivery_attempts d)
  (delivery_metrics d) (tenant_entitlements d) (api_keys d) (webhook_endpoints d).
Definition set_notifications x d := mkDB (tenants d) (channel_configs d) x (delivery_attempts d)
  (delivery_metrics d) (tenant_entitlements d) (api_keys d) (webhook_endpoints d).
Definition set_delivery_attempts x d := mkDB (tenants d) (channel_configs d) (notifications d) x
  (delivery_metrics d) (tenant_entitlements d) (api_keys d) (webhook_endpoints d).
Definition set_delivery_metrics x d := mkDB (tenants d) (channel_configs d) (notifications d)
  (delivery_attempts d) x (tenant_entitlements d) (api_keys d) (webhook_endpoints d).
Definition set_tenant_entitlements x d := mkDB (tenants d) (channel_configs d) (notifications d)
  (delivery_attempts d) (delivery_metrics d) x (api_keys d) (webhook_endpoints d).
Definition set_api_keys x d := mkDB (tenants d) (channel_configs d) (notifications d)
  (delivery_attempts d) (delivery_metrics d) (tenant_entitlements d) x (webhook_endpoints d).
Definition set_webhook_endpoints x d := mkDB (tenants d) (channel_configs d) (notifications d)
  (delivery_attempts d) (delivery_metrics d) (tenant_entitlements d) (api_keys d) x.

(** ** The world and its primitive operations *)

Record World `{E : Env} := mkWorld {
  w_db : DB;
  w_redis : redis;
  w_tasks : list Task;          (* accepted by asynq, oldest first *)
  w_http : list HttpRequest;    (* handed to an HTTP client, oldest first *)
  w_smtp : list SmtpEvent;      (* done on SMTP connections, oldest first *)
  w_log : list string;
  w_tick : nat
}.

Abbreviation M := (ST World).

Section primitives.
Context `{E : Env}.

Definition set_db (db : DB) (w : World) : World :=
  mkWorld _ db (w_redis w) (w_tasks w) (w_http w) (w_smtp w) (w_log w) (w_tick w).
Definition set_redis (r : redis) (w : World) : World :=
  mkWorld _ (w_db w) r (w_tasks w) (w_http w) (w_smtp w) (w_log w) (w_tick w).
Definition add_task (t : Task) (w : World) : World :=
  mkWorld _ (w_db w) (w_redis w) (w_tasks w ++ [t]) (w_http w) (w_smtp w) (w_log w) (w_tick w).
Definition add_http (q : HttpRequest) (w : World) : World :=
  mkWorld _ (w_db w) (w_redis w) (w_tasks w) (w_http w ++ [q]) (w_smtp w) (w_log w) (w_tick w).
Definition add_smtp (e : SmtpEvent) (w : World) : World :=
  mkWorld _ (w_db w) (w_redis w) (w_tasks w) (w_http w) (w_smtp w ++ [e]) (w_log w) (w_tick w).
Definition add_log (m : string) (w : World) : World :=
  mkWorld _ (w_db w) (w_redis w) (w_tasks w) (w_http w) (w_smtp w) (w_log w ++ [m]) (w_tick w).
Definition next_tick (w : World) : World :=
  mkWorld _ (w_db w) (w_redis w) (w_tasks w) (w_http w) (w_smtp w) (w_log w) (S (w_tick w)).

Definition log (msg : string) : M unit := λ w, (tt, add_log msg w).

Definition time_Now : M Time := λ w, (env_now (w_tick w), next_tick w).
Definition uuid_New : M uuid := λ w, (env_uuid (w_tick w), next_tick w).
Definition rand_Int64N (n : Z) : M Z := λ w, (env_Int64N (w_tick w) n, next_tick w).
Definition rand_Read (n : nat) : M (result string) := λ w, (env_rand_bytes (w_tick w) n, next_tick w).
Definition bcrypt_GenerateFromPassword (pw : string) : M (result string) :=
  λ w, (bcrypt_Generate (w_tick w) pw, next_tick w).

(** One SQL statement outside a transaction. *)
Definition db_exec {A} (f : DB → result A * DB) : M (result A) := λ w,
  match env_fault (w_tick w) with
  | Fine => ((f (w_db w)).1, set_db (f (w_db w)).2 (next_tick w))
  | Lost msg => (Err (errors_New msg), next_tick w)
  | Unacked msg => (Err (errors_New msg), set_db (f (w_db w)).2 (next_tick w))
  end.

(** A statement that depends on the moment it runs ([NOW()], row order). *)
Definition db_exec_at {A} (f : nat → DB → result A * DB) : M (result A) := λ w,
  db_exec (f (w_tick w)) w.

Definition db_query {A} (f : DB → result A) : M (result A) := db_exec (λ db, (f db, db)).
Definition db_query_at {A} (f : nat → DB → result A) : M (result A) :=
  db_exec_at (λ t db, (f t db, db)).

(** [timestamptz] has microsecond resolution. *)
Definition timestamptz (t : Time) : Time := (t / 1000 * 1000)%Z.
Definition pg_now (tick : nat) : Time := timestamptz (env_now tick).

(** The rows of a table as a sequential scan delivers them. *)
Definition pg_rows {A} (tick : nat) (m : gmap uuid A) : list A :=
  omap (m !!.) (heap_order tick (map_to_list m).*1).

(** A read of the current tables inside a transaction: BEGIN and the
    statements before COMMIT only see and change the transaction's copy. *)
Definition tx_stmt {A} (r : result A) : M (result A) := λ w,
  (match env_fault (w_tick w) with
   | Fine => r
   | Lost msg | Unacked msg => Err (errors_New msg)
   end, next_tick w).

Definition tx_begin : M (result DB) := λ w, tx_stmt (Ok (w_db w)) w.
Definition tx_commit (db : DB) : M (result unit) := db_exec (λ _, (Ok tt, db)).

Definition redis_do {A} (f : redis → A * redis) : M (result A) := λ w,
  match env_fault (w_tick w) with
  | Fine => (Ok (f (w_redis w)).1, set_redis (f (w_redis w)).2 (next_tick w))
  | Lost msg => (Err (errors_New msg), next_tick w)
  | Unacked msg => (Err (errors_New msg), set_redis (f (w_redis w)).2 (next_tick w))
  end.

Definition EnqueueContext (t : Task) : M (result TaskInfo) := λ w,
  match env_enqueue (w_tick w) t with
  | Ok info => (Ok info, add_task t (next_tick w))
  | Err e => (Err e, next_tick w)
  end.

Definition client_Do (q : HttpRequest) : M (result HttpResponse) := λ w,
  (env_http (w_tick w) q, add_http q (next_tick w)).

Definition smtp_do (e : SmtpEvent) : M SmtpAnswer := λ w,
  (env_smtp (w_tick w) e, add_smtp e (next_tick w)).

(** [range] over a map with string keys. *)
Definition map_entries {A} (tick : nat) (m : gmap string A) : list (string * A) :=
  omap (λ k, pair k <$> m !! k) (map_order tick (map_to_list m).*1).
Definition map_range {A} (m : gmap string A) : M (list (string * A)) :=
  λ w, (map_entries (w_tick w) m, next_tick w).

(** No PostgreSQL or Redis round trip fails. *)
Definition no_faults : Prop := ∀ n, env_fault n = Fine.

(** The queue accepts every task, and the clock stays in the range JSON can
    carry. *)
Definition queue_accepts : Prop := ∀ n t, is_Ok (env_enqueue n t) = true.
Definition clock_sane : Prop := ∀ n, (0 ≤ time_Year (env_now n) ≤ 9999)%Z.

(** Every service answers. *)
Record services_up : Prop := mkServicesUp {
  up_faults : no_faults;
  up_queue : queue_accepts;
  up_clock : clock_sane
}.

(** Logs the error of a call, if any, and goes on. *)
Definition log_err {A} (m : M (result A)) (msg : string) : M unit :=
  r ← m; match r with Ok _ => mret tt | Err _ => log msg end.
End primitives.

(** ** Frames: the parts of the world a computation leaves alone *)

(** Two worlds agree on an observation. *)
Definition same {W X} (f : W → X) : relation W := λ w w', f w' = f w.

#[export] Instance same_preorder {W X} (f : W → X) : PreOrder (same f).
Proof. split; [by intros w|]. intros x y z H1 H2. unfold same in *. congruence. Qed.

Section frames.
Context `{E : Env}.

(** A primitive that leaves an observation alone. *)
Ltac frame := intros w; unfold same, EnqueueContext, client_Do, tx_begin, tx_stmt;
  repeat case_match; done.

Lemma log_db msg : keeps (same w_db) (log msg). Proof. frame. Qed.
Lemma log_redis msg : keeps (same w_redis) (log msg). Proof. frame. Qed.
Lemma log_tasks msg : keeps (same w_tasks) (log msg). Proof. frame. Qed.
Lemma log_http msg : keeps (same w_http) (log msg). Proof. frame. Qed.
Lemma Now_db : keeps (same w_db) time_Now. Proof. frame. Qed.
Lemma Now_redis : keeps (same w_redis) time_Now. Proof. frame. Qed.
Lemma Now_tasks : keeps (same w_tasks) time_Now. Proof. frame. Qed.
Lemma Now_http : keeps (same w_http) time_Now. Proof. frame. Qed.
Lemma New_db : keeps (same w_db) uuid_New. Proof. frame. Qed.
Lemma New_redis : keeps (same w_redis) uuid_New. Proof. frame. Qed.
Lemma New_tasks : keeps (same w_tasks) uuid_New. Proof. frame. Qed.
Lemma New_http : keeps (same w_http) uuid_New. Proof. frame. Qed.
Lemma rand_Read_db n : keeps (same w_db) (rand_Read n). Proof. frame. Qed.
Lemma bcrypt_db pw : keeps (same w_db) (bcrypt_GenerateFromPassword pw). Proof. frame. Qed.
Lemma Enqueue_db t : keeps (same w_db) (EnqueueContext t). Proof. frame. Qed.
Lemma Enqueue_redis t : keeps (same w_redis) (EnqueueContext t). Proof. frame. Qed.
Lemma Enqueue_http t : keeps (same w_http) (EnqueueContext t). Proof. frame. Qed.
Lemma log_smtp msg : keeps (same w_smtp) (log msg). Proof. frame. Qed.
Lemma Now_smtp : keeps (same w_smtp) time_Now. Proof. frame. Qed.
Lemma rand_Read_smtp n : keeps (same w_smtp) (rand_Read n). Proof. frame. Qed.
Lemma rand_Read_tasks n : keeps (same w_tasks) (rand_Read n). Proof. frame. Qed.
Lemma rand_Read_http n : keeps (same w_http) (rand_Read n). Proof. frame. Qed.
Lemma smtp_do_db e : keeps (same w_db) (smtp_do e). Proof. frame. Qed.
Lemma smtp_do_redis e : keeps (same w_redis) (smtp_do e). Proof. frame. Qed.
Lemma smtp_do_tasks e : keeps (same w_tasks) (smtp_do e). Proof. frame. Qed.
Lemma smtp_do_http e : keeps (same w_http) (smtp_do e). Proof. frame. Qed.
Lemma map_range_db {A} (m : gmap string A) : keeps (same w_db) (map_range m). Proof. frame. Qed.
Lemma map_range_tasks {A} (m : gmap string A) : keeps (same w_tasks) (map_range m). Proof. frame. Qed.
Lemma map_range_http {A} (m : gmap string A) : keeps (same w_http) (map_range m). Proof. frame. Qed.
Lemma Do_smtp q : keeps (same w_smtp) (client_Do q). Proof. frame. Qed.
Lemma Do_db q : keeps (same w_db) (client_Do q). Proof. frame. Qed.
Lemma Do_redis q : keeps (same w_redis) (client_Do q). Proof. frame. Qed.
Lemma Do_tasks q : keeps (same w_tasks) (client_Do q). Proof. frame. Qed.
Lemma db_exec_redis {A} (f : DB → result A * DB) : keeps (same w_redis) (db_exec f).
Proof. intros w. unfold same, db_exec. by destruct (env_fault _). Qed.
Lemma db_exec_tasks {A} (f : DB → result A * DB) : keeps (same w_tasks) (db_exec f).
Proof. intros w. unfold same, db_exec. by destruct (env_fault _). Qed.
Lemma db_exec_http {A} (f : DB → result A * DB) : keeps (same w_http) (db_exec f).
Proof. intros w. unfold same, db_exec. by destruct (env_fault _). Qed.
Lemma db_query_db {A} (f : DB → result A) : keeps (same w_db) (db_query f).
Proof. intros w. unfold same, db_query, db_exec. by destruct (env_fault _). Qed.
Lemma db_query_at_db {A} (f : nat → DB → result A) : keeps (same w_db) (db_query_at f).
Proof. intros w. apply (db_query_db (f (w_tick w))). Qed.
Lemma db_exec_at_redis {A} (f : nat → DB → result A * DB) : keeps (same w_redis) (db_exec_at f).
Proof. intros w. apply (db_exec_redis (f (w_tick w))). Qed.
Lemma db_exec_at_tasks {A} (f : nat → DB → result A * DB) : keeps (same w_tasks) (db_exec_at f).
Proof. intros w. apply (db_exec_tasks (f (w_tick w))). Qed.
Lemma db_exec_at_http {A} (f : nat → DB → result A * DB) : keeps (same w_http) (db_exec_at f).
Proof. intros w. apply (db_exec_http (f (w_tick w))). Qed.
Lemma db_query_at_redis {A} (f : nat → DB → result A) : keeps (same w_redis) (db_query_at f).
Proof. apply db_exec_at_redis. Qed.
Lemma db_query_at_tasks {A} (f : nat → DB → result A) : keeps (same w_tasks) (db_query_at f).
Proof. apply db_exec_at_tasks. Qed.
Lemma db_query_at_http {A} (f : nat → DB → result A) : keeps (same w_http) (db_query_at f).
Proof. apply db_exec_at_http. Qed.
Lemma db_query_redis {A} (f : DB → result A) : keeps (same w_redis) (db_query f).
Proof. apply db_exec_redis. Qed.
Lemma db_query_tasks {A} (f : DB → result A) : keeps (same w_tasks) (db_query f).
Proof. apply db_exec_tasks. Qed.
Lemma db_query_http {A} (f : DB → result A) : keeps (same w_http) (db_query f).
Proof. apply db_exec_http. Qed.
Lemma tx_stmt_db {A} (r : result A) : keeps (same w_db) (tx_stmt r). Proof. frame. Qed.
Lemma tx_begin_db : keeps (same w_db) tx_begin. Proof. frame. Qed.
Lemma redis_do_db {A} (f : redis → A * redis) : keeps (same w_db) (redis_do f).
Proof. intros w. unfold same, redis_do. by destruct (env_fault _). Qed.
Lemma redis_do_tasks {A} (f : redis → A * redis) : keeps (same w_tasks) (redis_do f).
Proof. intros w. unfold same, redis_do. by destruct (env_fault _). Qed.

(** A statement moves the database along [R] when its effect does. *)
Lemma db_exec_keeps {A} (R : relation DB) `{!PreOrder R} (f : DB → result A * DB) :
  (∀ db, R db (f db).2) → keeps (λ w w', R (w_db w) (w_db w')) (db_exec f).
Proof. intros H w. unfold db_exec. destruct (env_fault _); simpl; auto; reflexivity. Qed.

Lemma db_exec_at_keeps {A} (R : relation DB) `{!PreOrder R} (f : nat → DB → result A * DB) :
  (∀ t db, R db (f t db).2) → keeps (λ w w', R (w_db w) (w_db w')) (db_exec_at f).
Proof. intros H w. by apply (db_exec_keeps R (f (w_tick w))). Qed.

Lemma keeps_log_err {A} (R : relation World) `{!PreOrder R} (m : M (result A)) msg :
  keeps R m → keeps R (log msg) → keeps R (log_err m msg).
Proof. intros. unfold log_err. keeps_step; [done|]. destruct a; [by apply keeps_ret|done]. Qed.

Lemma log_err_state {A} (m : M (result A)) msg w :
  (log_err m msg w).2 = (m w).2 ∨ (log_err m msg w).2 = add_log msg (m w).2.
Proof. unfold log_err, mbind, ST_bind. destruct (m w) as [[a|e] w']; auto. Qed.

(** Keeping the database keeps every relation on databases. *)
Lemma keeps_db_rel {A} (R : relation DB) `{!PreOrder R} (m : M A) :
  keeps (same w_db) m → keeps (λ w w', R (w_db w) (w_db w')) m.
Proof. intros H w. rewrite (H w). reflexivity. Qed.

Lemma db_exec_fine {A} (f : DB → result A * DB) w :
  no_faults → db_exec f w = ((f (w_db w)).1, set_db (f (w_db w)).2 (next_tick w)).
Proof. intros H. unfold db_exec. by rewrite H. Qed.

Lemma db_query_fine {A} (f : DB → result A) w :
  no_faults → db_query f w = (f (w_db w), set_db (w_db w) (next_tick w)).
Proof. intros H. unfold db_query. by rewrite db_exec_fine. Qed.

Lemma db_query_outcome {A} (f : DB → result A) w :
  ∃ r w', db_query f w = (r, w') ∧ w_db w' = w_db w ∧ w_redis w' = w_redis w ∧ w_tasks w' = w_tasks w ∧
    (r = f (w_db w) ∨ ∃ msg, r = Err (errors_New msg)).
Proof. unfold db_query, db_exec. destruct (env_fault _); eexists _, _; split_and!; try done; eauto. Qed.

Lemma Enqueue_outcome t w :
  ∃ r w', EnqueueContext t w = (r, w') ∧ w_db w' = w_db w ∧
    match r with Ok _ => w_tasks w' = w_tasks w ++ [t] | Err _ => w_tasks w' = w_tasks w end.
Proof. unfold EnqueueContext. destruct (env_enqueue _ _); by eexists _, _. Qed.

Lemma redis_do_fine {A} (f : redis → A * redis) w :
  no_faults → redis_do f w = (Ok (f (w_redis w)).1, set_redis (f (w_redis w)).2 (next_tick w)).
Proof. intros H. unfold redis_do. by rewrite H. Qed.

(** Every row is delivered once. *)
Lemma pg_rows_perm {L : PgLaws E} {A} tick (m : gmap uuid A) : pg_rows tick m ≡ₚ (map_to_list m).*2.
Proof.
  unfold pg_rows. rewrite heap_order_perm.
  assert (∀ l : list (uuid * A), (∀ k x, (k, x) ∈ l → m !! k = Some x) →
    omap (m !!.) l.*1 = l.*2) as H.
  { induction l as [|[k x] l IH]; intros Hl; [done|]. csimpl.
    rewrite (Hl k x) by set_solver. rewrite IH; [done|]. set_solver. }
  rewrite H; [done|]. intros k x. by rewrite elem_of_map_to_list.
Qed.

Lemma elem_of_pg_rows {L : PgLaws E} {A} tick (m : gmap uuid A) x :
  x ∈ pg_rows tick m ↔ ∃ k, m !! k = Some x.
Proof.
  rewrite pg_rows_perm, list_elem_of_fmap. setoid_rewrite <- elem_of_map_to_list.
  split; [intros ([k y] & -> & H); eauto | intros [k H]; by exists (k, x)].
Qed.

(** Every entry is met once. *)
Lemma map_entries_perm {L : MapLaws E} {A} tick (m : gmap string A) : map_entries tick m ≡ₚ map_to_list m.
Proof.
  unfold map_entries. rewrite map_order_perm.
  assert (∀ l : list (string * A), (∀ k x, (k, x) ∈ l → m !! k = Some x) →
    omap (λ k, pair k <$> m !! k) l.*1 = l) as H.
  { induction l as [|[k x] l IH]; intros Hl; [done|]. csimpl.
    rewrite (Hl k x) by set_solver. simpl. rewrite IH; [done|]. set_solver. }
  rewrite H; [done|]. intros k x. by rewrite elem_of_map_to_list.
Qed.

Lemma elem_of_map_entries {L : MapLaws E} {A} tick (m : gmap string A) k x :
  (k, x) ∈ map_entries tick m ↔ m !! k = Some x.
Proof. by rewrite map_entries_perm, elem_of_map_to_list. Qed.

(** Infrastructure errors wrap none of the program's sentinels, and a statement
    without them answers what its SQL computes. *)
Lemma db_exec_result {A} (f : DB → result A * DB) w :
  (db_exec f w).1 = (f (w_db w)).1 ∨ ∃ msg, (db_exec f w).1 = Err (errors_New msg).
Proof. unfold db_exec. destruct (env_fault _); eauto. Qed.
End frames.

#[export] Hint Resolve log_db log_redis log_tasks log_http Now_db Now_redis Now_tasks Now_http
  New_db New_redis New_tasks New_http rand_Read_db bcrypt_db Enqueue_db Enqueue_redis Enqueue_http
  Do_db Do_redis Do_tasks db_exec_redis db_exec_tasks db_exec_http db_query_db
  db_query_at_db db_query_at_redis db_query_at_tasks db_query_at_http db_query_redis db_query_tasks
  db_query_http db_exec_at_redis db_exec_at_tasks db_exec_at_http tx_stmt_db
  tx_begin_db redis_do_db redis_do_tasks keeps_log_err
  log_smtp Now_smtp rand_Read_smtp rand_Read_tasks rand_Read_http smtp_do_db smtp_do_redis smtp_do_tasks smtp_do_http
  map_range_db map_range_tasks map_range_http Do_smtp : keeps.
