(* ===== verification/Smtp.v ===== *)
(** * Smtp: the client of net/smtp

    [smtp.Client] with the reply codes it expects, as the package implements it,
    on a connection whose peer is [env_smtp].  The client's state is passed
    explicitly; every act is recorded in [w_smtp] with whether the connection was
    under TLS. *)
From Stdlib Require Import Ascii.
From S2P Require Import Prelude GoTime Utf8 Json Domain World Mime.

(** ** encoding/base64, standard alphabet with padding *)

Definition base64_char (n : N) : ascii :=
  (if n <? 26 then ascii_of_N (65 + n) else if n <? 52 then ascii_of_N (71 + n)
   else if n <? 62 then ascii_of_N (n - 4) else if n =? 62 then "+"%char else "/"%char)%N.

Fixpoint base64_EncodeToString (s : string) : string :=
  match s with
  | EmptyString => ""
  | String a s1 =>
      let x := byte_of a in
      let c1 := base64_char (x / 4) in
      match s1 with
      | EmptyString => String c1 (String (base64_char (x mod 4 * 16)) "==")
      | String b s2 =>
          let y := byte_of b in
          let c2 := base64_char (x mod 4 * 16 + y / 16) in
          match s2 with
          | EmptyString => String c1 (String c2 (String (base64_char (y mod 16 * 4)) "="))
          | String c s3 =>
              let z := byte_of c in
              String c1 (String c2 (String (base64_char (y mod 16 * 4 + z / 64))
                (String (base64_char (z mod 64)) (base64_EncodeToString s3))))
          end
      end
  end%N.

(** Whether [DecodeString] accepts a text; it skips line breaks. *)
Definition base64_alphabet (c : ascii) : bool :=
  let n := byte_of c in
  ((48 <=? n) && (n <=? 57) || (65 <=? n) && (n <=? 90) || (97 <=? n) && (n <=? 122) || (n =? 43) || (n =? 47))%N.

Fixpoint base64_decodes (l : list ascii) : bool :=
  match l with
  | [] => true
  | [a; b; c; d] =>
      base64_alphabet a && base64_alphabet b &&
      (base64_alphabet c && (base64_alphabet d || bool_decide (d = "="%char)) || bool_decide (c = "="%char ∧ d = "="%char))
  | a :: b :: c :: d :: l' => forallb base64_alphabet [a; b; c; d] && base64_decodes l'
  | _ => false
  end.

Definition base64_valid (s : string) : bool :=
  base64_decodes (filter (λ c, c ≠ CR ∧ c ≠ LF) (String.list_ascii_of_string s)).

(** ** Text *)

(** [strings.Split] and [strings.Cut] at one character. *)
Fixpoint strings_Split (s : string) (sep : ascii) : list string :=
  match s with
  | EmptyString => [""]
  | String c s' =>
      if bool_decide (c = sep) then "" :: strings_Split s' sep
      else match strings_Split s' sep with
           | x :: l => String c x :: l
           | [] => [String c ""]
           end
  end.

Fixpoint strings_Cut (s : string) (sep : ascii) : option (string * string) :=
  match s with
  | EmptyString => None
  | String c s' =>
      if bool_decide (c = sep) then Some ("", s')
      else '(before, after) ← strings_Cut s' sep; Some (String c before, after)
  end.

(** ** Replies *)

Definition code_expected (expectCode code : Z) : bool :=
  (if (1 <=? expectCode) && (expectCode <? 10) then code / 100 =? expectCode
   else if (10 <=? expectCode) && (expectCode <? 100) then code / 10 =? expectCode
   else if (100 <=? expectCode) && (expectCode <? 1000) then code =? expectCode
   else true)%Z.

(** A [*textproto.Error]. *)
Definition protoError (code : Z) (msg : string) : error :=
  mkError (pad 3 code +:+ " " +:+ msg) [textproto_Error code].

Definition ReadResponse (expectCode : Z) (a : SmtpAnswer) : result (Z * string) :=
  match a with
  | Broken msg => Err (errors_New msg)
  | Reply code msg => if code_expected expectCode code then Ok (code, msg) else Err (protoError code msg)
  end.

(** ** smtp.Client *)

Record smtpClient := mkSmtpClient {
  cl_serverName : string;
  cl_tls : bool;
  cl_ext : option (gmap string string);
  cl_didHello : bool;
  cl_helloError : option error
}.

Definition set_ext (ext : option (gmap string string)) (c : smtpClient) : smtpClient :=
  mkSmtpClient (cl_serverName c) (cl_tls c) ext (cl_didHello c) (cl_helloError c).
Definition set_hello (err : option error) (c : smtpClient) : smtpClient :=
  mkSmtpClient (cl_serverName c) (cl_tls c) (cl_ext c) true err.
Definition set_tls (c : smtpClient) : smtpClient :=
  mkSmtpClient (cl_serverName c) true (cl_ext c) (cl_didHello c) (cl_helloError c).

Section client.
Context `{E : Env}.

Definition smtp_act (c : smtpClient) (a : SmtpAct) : M SmtpAnswer := smtp_do (mkSmtpEvent (cl_tls c) a).

Definition client_cmd (c : smtpClient) (expectCode : Z) (line : string) : M (result (Z * string)) :=
  ReadResponse expectCode <$> smtp_act c (SmtpLine line).

(** The greeting; [tls]: the connection is a [*tls.Conn]. *)
Definition smtp_NewClient (tls : bool) (host : string) : M (result smtpClient) :=
  let c := mkSmtpClient host tls None false None in
  r ← ReadResponse 220 <$> smtp_act c SmtpGreeting;
  mret match r with Ok _ => Ok c | Err err => Err err end.

(** The extensions of an EHLO reply: a keyword and its parameters per line. *)
Definition parse_ext (msg : string) : gmap string string :=
  foldl (λ m line, match strings_Cut line " " with
                   | Some (k, v) => <[k := v]> m
                   | None => <[line := ""]> m
                   end) ∅ (tail (strings_Split msg LF)).

Definition client_ehlo (c : smtpClient) : M (result unit * smtpClient) :=
  r ← client_cmd c 250 "EHLO localhost";
  mret match r with
       | Err err => (Err err, c)
       | Ok (_, msg) => (Ok tt, set_ext (Some (parse_ext msg)) c)
       end.

Definition client_helo (c : smtpClient) : M (result unit * smtpClient) :=
  r ← client_cmd c 250 "HELO localhost";
  mret (match r with Err err => Err err | Ok _ => Ok tt end, set_ext None c).

Definition client_hello (c : smtpClient) : M (result unit * smtpClient) :=
  if cl_didHello c then mret (match cl_helloError c with None => Ok tt | Some err => Err err end, c)
  else
    '(r, c) ← client_ehlo (set_hello None c);
    match r with
    | Ok _ => mret (Ok tt, c)
    | Err _ =>
        '(r, c) ← client_helo c;
        mret match r with
             | Ok _ => (Ok tt, c)
             | Err err => (Err err, set_hello (Some err) c)
             end
    end.

Definition client_Extension (c : smtpClient) (ext : string) : M (bool * smtpClient) :=
  '(r, c) ← client_hello c;
  mret match r, cl_ext c with
       | Ok _, Some m => (bool_decide (is_Some (m !! ext)), c)
       | _, _ => (false, c)
       end.

Definition client_StartTLS (c : smtpClient) : M (result unit * smtpClient) :=
  '(r, c) ← client_hello c;
  match r with
  | Err err => mret (Err err, c)
  | Ok _ =>
      r ← client_cmd c 220 "STARTTLS";
      match r with
      | Err err => mret (Err err, c)
      | Ok _ => client_ehlo (set_tls c)
      end
  end.

Definition client_Quit (c : smtpClient) : M (result unit * smtpClient) :=
  '(r, c) ← client_hello c;
  match r with
  | Err err => mret (Err err, c)
  | Ok _ => r ← client_cmd c 221 "QUIT";
            mret (match r with Err err => Err err | Ok _ => Ok tt end, c)
  end.

(** [smtp.PlainAuth]: nothing is sent without TLS, except to this host. *)
Record plainAuth := mkPlainAuth { pa_username : string; pa_password : string; pa_host : string }.

Definition isLocalhost (name : string) : bool := bool_decide (name ∈ ["localhost"; "127.0.0.1"; "::1"]).

Definition nul : string := String (byte 0) "".

Definition plainAuth_Start (a : plainAuth) (c : smtpClient) : result (string * string) :=
  if negb (cl_tls c) && negb (isLocalhost (cl_serverName c)) then Err (errors_New "unencrypted connection")
  else if negb (bool_decide (cl_serverName c = pa_host a)) then Err (errors_New "wrong host name")
  else Ok ("PLAIN", nul +:+ pa_username a +:+ nul +:+ pa_password a).

(** The outcome of the exchange; PLAIN answers no challenge.  The text of a
    malformed challenge's error is kept without its position. *)
Definition auth_result (code : Z) (msg64 : string) : result unit :=
  if (code =? 334)%Z then
    Err (errors_New (if base64_valid msg64 then "unexpected server challenge" else "illegal base64 data"))
  else if (code =? 235)%Z then Ok tt
  else Err (protoError code msg64).

Definition auth_line (mech resp : string) : string := "AUTH " +:+ mech +:+ " " +:+ base64_EncodeToString resp.

Definition client_Auth (c : smtpClient) (a : plainAuth) : M (result unit * smtpClient) :=
  '(r, c) ← client_hello c;
  match r with
  | Err err => mret (Err err, c)
  | Ok _ =>
      match plainAuth_Start a c with
      | Err err => '(_, c) ← client_Quit c; mret (Err err, c)
      | Ok (mech, resp) =>
          r ← client_cmd c 0 (auth_line mech resp);
          match r with
          | Err err => mret (Err err, c)
          | Ok (code, msg64) =>
              match auth_result code msg64 with
              | Ok _ => mret (Ok tt, c)
              | Err err =>
                  _ ← client_cmd c 501 "*";
                  '(_, c) ← client_Quit c;
                  mret (Err err, c)
              end
          end
      end
  end.

Definition validateLine (line : string) : result unit :=
  if one_line line then Ok tt else Err (errors_New "smtp: A line must not contain CR or LF").

Definition has_ext (c : smtpClient) (k : string) : bool :=
  match cl_ext c with Some m => bool_decide (is_Some (m !! k)) | None => false end.

Definition mail_line (c : smtpClient) (from : string) : string :=
  "MAIL FROM:<" +:+ from +:+ ">" +:+ (if has_ext c "8BITMIME" then " BODY=8BITMIME" else "") +:+
  (if has_ext c "SMTPUTF8" then " SMTPUTF8" else "").
Definition rcpt_line (to : string) : string := "RCPT TO:<" +:+ to +:+ ">".

Definition client_Mail (c : smtpClient) (from : string) : M (result unit * smtpClient) :=
  match validateLine from with
  | Err err => mret (Err err, c)
  | Ok _ =>
      '(r, c) ← client_hello c;
      match r with
      | Err err => mret (Err err, c)
      | Ok _ => r ← client_cmd c 250 (mail_line c from);
                mret (match r with Err err => Err err | Ok _ => Ok tt end, c)
      end
  end.

Definition client_Rcpt (c : smtpClient) (to : string) : M (result unit) :=
  match validateLine to with
  | Err err => mret (Err err)
  | Ok _ => r ← client_cmd c 25 (rcpt_line to);
            mret match r with Err err => Err err | Ok _ => Ok tt end
  end.

(** [Data], and the [Write] and [Close] of the writer it answers.  The writer
    escapes leading dots and ends the message with a dot of its own. *)
Definition client_Data (c : smtpClient) : M (result unit) :=
  r ← client_cmd c 354 "DATA";
  mret match r with Err err => Err err | Ok _ => Ok tt end.

Definition data_Write (c : smtpClient) (message : string) : M (result unit) :=
  a ← smtp_act c (SmtpWrite message);
  mret match a with Broken msg => Err (errors_New msg) | Reply _ _ => Ok tt end.

Definition data_Close (c : smtpClient) : M (result unit) :=
  a ← smtp_act c SmtpDot;
  mret match ReadResponse 250 a with Err err => Err err | Ok _ => Ok tt end.
End client.

Example base64_samples :
  map base64_EncodeToString ["Man"; "Ma"; "M"; ""; "light work."] = ["TWFu"; "TWE="; "TQ=="; ""; "bGlnaHQgd29yay4="].
Proof. vm_compute. reflexivity. Qed.
