(* ===== verification/SampleEnv.v ===== *)
(** * SampleEnv: a concrete environment

    An instance of [Env] in which every law the development relies on is proved,
    so that each theorem with environment hypotheses can be run on an example:
    canonical UUID text, a Redis holding integers, a PostgreSQL that scans rows
    in key order and keeps documents as written, a clock that advances one second
    per tick for a while, and peers given by functions. *)
From Stdlib Require Import Ascii.
From S2P Require Import Prelude GoTime Json Domain World.

(** ** Canonical UUID text *)

(** [w] lower-case hexadecimal digits of [n]. *)
Fixpoint hexw (w : nat) (n : N) : string :=
  match w with
  | O => ""
  | S w' => String (hex_char ((n / 16 ^ N.of_nat w') mod 16)) (hexw w' n)
  end.

Definition sample_uuid_String (u : uuid) : string :=
  let n := uuid_N u in
  hexw 8 (n / 16 ^ 24) +:+ "-" +:+ hexw 4 (n / 16 ^ 20) +:+ "-" +:+ hexw 4 (n / 16 ^ 16) +:+ "-" +:+
  hexw 4 (n / 16 ^ 12) +:+ "-" +:+ hexw 12 n.

Definition hex_val (c : ascii) : option N :=
  let n := N_of_ascii c in
  if ((48 <=? n) && (n <=? 57))%N then Some (n - 48)%N
  else if ((97 <=? n) && (n <=? 102))%N then Some (n - 87)%N
  else None.

Fixpoint strip_dashes (s : string) : string :=
  match s with
  | EmptyString => ""
  | String c s' => if bool_decide (c = "-"%char) then strip_dashes s' else String c (strip_dashes s')
  end.

Fixpoint hex_value (acc : N) (s : string) : option N :=
  match s with
  | EmptyString => Some acc
  | String c s' => d ← hex_val c; hex_value (16 * acc + d) s'
  end.

Definition sample_uuid_Parse (s : string) : option uuid :=
  if (String.length s =? 36)%nat then hex_value 0 (strip_dashes s) ≫= uuid_of_N else None.

Lemma hex_char_ok d : (d < 16)%N → hex_val (hex_char d) = Some d ∧ hex_char d ≠ "-"%char.
Proof.
  intros Hd. destruct d as [|p]; [split; [reflexivity|discriminate]|].
  do 4 (try destruct p as [p|p|]); try lia; split; (reflexivity || discriminate).
Qed.

Lemma hexw_length w n : String.length (hexw w n) = w.
Proof. induction w as [|w IH]; simpl; congruence. Qed.

Lemma strip_hexw w n t : strip_dashes (hexw w n +:+ t) = hexw w n +:+ strip_dashes t.
Proof.
  induction w as [|w IH]; [done|]. cbn [hexw]. rewrite !string_app_cons. cbn [strip_dashes].
  rewrite bool_decide_eq_false_2; [by rewrite IH|]. apply hex_char_ok. by apply N.mod_lt.
Qed.

Lemma hexw_split a b n : hexw a (n / 16 ^ N.of_nat b) +:+ hexw b n = hexw (a + b) n.
Proof.
  induction a as [|a IH]; [done|]. cbn [hexw Nat.add]. rewrite string_app_cons, IH. f_equal. f_equal.
  rewrite N.Div0.div_div, <- N.pow_add_r. do 3 f_equal. lia.
Qed.

Lemma hex_value_hexw w n acc : hex_value acc (hexw w n) = Some (acc * 16 ^ N.of_nat w + n mod 16 ^ N.of_nat w)%N.
Proof.
  revert acc. induction w as [|w IH]; intros acc; cbn [hexw hex_value].
  { simpl. rewrite N.mod_1_r. f_equal. lia. }
  rewrite (proj1 (hex_char_ok _ (N.mod_lt _ 16 ltac:(done)))). simpl. rewrite IH. f_equal.
  rewrite Nat2N.inj_succ, N.pow_succ_r'.
  rewrite (N.mul_comm 16 (16 ^ N.of_nat w)), N.Div0.mod_mul_r. lia.
Qed.

Lemma sample_String_length u : String.length (sample_uuid_String u) = 36.
Proof. unfold sample_uuid_String. rewrite !string_length_app, !hexw_length. done. Qed.

Lemma strip_dash t : strip_dashes ("-" +:+ t) = strip_dashes t.
Proof. done. Qed.

Lemma sample_Parse_String u : sample_uuid_Parse (sample_uuid_String u) = Some u.
Proof.
  unfold sample_uuid_Parse. rewrite sample_String_length. simpl (36 =? 36)%nat. cbv iota.
  assert (strip_dashes (sample_uuid_String u) = hexw 32 (uuid_N u)) as ->.
  { unfold sample_uuid_String. cbv zeta. set (n := uuid_N u).
    rewrite <- (string_app_nil_r (hexw 12 n)).
    repeat (rewrite strip_hexw || rewrite strip_dash). cbn [strip_dashes]. rewrite string_app_nil_r.
    rewrite (hexw_split 4 12), (hexw_split 4 16), (hexw_split 4 20), (hexw_split 8 24). done. }
  rewrite hex_value_hexw. simpl mbind. rewrite N.mul_0_l, N.add_0_l.
  rewrite N.mod_small; [apply uuid_of_N_N|]. destruct u as [n Hn]. exact (proj1 (N.ltb_lt n (2 ^ 128)) Hn).
Qed.

(** ** The host of a URL without user information or port *)

Fixpoint sample_host (s : string) : string :=
  match s with
  | EmptyString => ""
  | String c s' => if bool_decide (c ∈ ["/"; "?"; "#"]%char) then "" else String c (sample_host s')
  end.

(** ** A mail server that offers STARTTLS and accepts everything *)

Definition sample_smtp (e : SmtpEvent) : SmtpAnswer :=
  match se_Act e with
  | SmtpDial _ => Reply 0 ""
  | SmtpGreeting => Reply 220 "mail.example ESMTP"
  | SmtpLine line =>
      if HasPrefix line "EHLO" then
        Reply 250 ("mail.example" +:+ String (ascii_of_N 10) (if se_TLS e then "AUTH PLAIN" else "STARTTLS"))
      else if HasPrefix line "STARTTLS" then Reply 220 "ready"
      else if HasPrefix line "AUTH" then Reply 235 "accepted"
      else if HasPrefix line "DATA" then Reply 354 "go ahead"
      else if HasPrefix line "QUIT" then Reply 221 "bye"
      else Reply 250 "ok"
  | SmtpWrite _ => Reply 0 ""
  | SmtpDot => Reply 250 "queued"
  end.

(** ** The environment *)

Section sample.
(** The peers: fault schedule, HTTP servers and the queue. *)
Context (faults : nat → fault) (http : HttpRequest → result HttpResponse)
  (enqueue : Task → result TaskInfo).

Definition sample_env : Env := {|
  env_now := λ t, (time_Date 2026 3 14 + Z.of_nat (t `min` 1000) * Second)%Z;
  env_uuid := λ t, default uuid_Nil (uuid_of_N (N.of_nat t + 1000));
  env_Int64N := λ _ n, (n / 2)%Z;
  env_rand_bytes := λ _ n, Ok (String.concat "" (replicate n "a"));
  env_fault := faults;
  pg_jsonb := λ s, if bool_decide (s = "") then None else
    match s with String c _ => if bool_decide (c = "{"%char) then Some s else None | _ => None end;
  jsonb := λ j, j;
  heap_order := λ _ l, l;
  env_enqueue := λ _ t, enqueue t;
  env_http := λ _ q, http q;
  env_smtp := λ _, sample_smtp;
  map_order := λ _ l, l;
  url_Hostname := λ u, if HasPrefix u "http" then Ok (sample_host (TrimPrefix u "https://"))
                       else Err (errors_New "missing protocol scheme");
  uuid_String := sample_uuid_String;
  uuid_Parse := sample_uuid_Parse;
  uuid_NewSHA1 := λ u s, default uuid_Nil (uuid_of_N (uuid_N u + N.of_nat (String.length s)));
  hmac_sha256 := λ k m, k +:+ m;
  sha256 := λ s, s;
  bcrypt_Generate := λ _ s, Ok ("hash:" +:+ s);
  bcrypt_Compare := λ h s, bool_decide (h = "hash:" +:+ s);
  redis := gmap string Z;
  redis_value := λ r k, r !! k;
  redis_IncrBy := λ r k n, let v := (default 0 (r !! k) + n)%Z in (v, <[k := v]> r);
  redis_Expire := λ r _ _, r;
  redis_Set := λ r k v _, <[k := v]> r;
  redis_SetNX := λ r k v _, match r !! k with Some _ => (false, r) | None => (true, <[k := v]> r) end
|}.

#[export] Instance sample_uuid_laws : UuidLaws sample_env.
Proof. split; [exact sample_String_length|exact sample_Parse_String]. Qed.

#[export] Instance sample_rand_laws : RandLaws sample_env.
Proof. split. simpl. intros _ n Hn. Z.to_euclidean_division_equations. lia. Qed.

#[export] Instance sample_map_laws : MapLaws sample_env.
Proof. by split. Qed.

#[export] Instance sample_pg_laws : PgLaws sample_env.
Proof.
  split; [done..|]. intros kvs _. exists kvs. split; [done|].
  rewrite <- (list_fmap_id kvs) at 1. apply Permutation_refl'. apply list_fmap_ext. by intros ? [].
Qed.

#[export] Instance sample_redis_laws : RedisLaws sample_env.
Proof.
  split; simpl; try done.
  - intros. case_decide; simplify_map_eq; done.
  - intros. case_decide; simplify_map_eq; done.
  - intros. destruct (r !! k) eqn:Hk; simpl; by rewrite ?bool_decide_eq_true_2, ?bool_decide_eq_false_2.
  - intros r k v d k' _. destruct (r !! k) eqn:Hk; simpl; case_decide; simplify_map_eq; done.
Qed.
End sample.

(** A healthy installation: nothing fails, peers answer 200, tasks are accepted. *)
Definition healthy : Env :=
  sample_env (λ _, Fine) (λ _, Ok (mkHttpResponse 200 "{}")) (λ t, Ok (mkTaskInfo (task_Type t))).

Definition world_of {E : Env} (db : DB) (r : redis) : World := mkWorld E db r [] [] [] [] 0.

Lemma sample_clock faults http enqueue : @clock_sane (sample_env faults http enqueue).
Proof.
  intros n. simpl. set (x := (_ + _)%Z).
  assert (time_day x = 20526)%Z as Hd.
  { unfold time_day, x. change (time_Date 2026 3 14) with (20526 * nsPerDay)%Z.
    rewrite Z.div_add_l by done. rewrite Z.div_small; [done|]. unfold nsPerDay, Hour, Minute, Second. lia. }
  unfold time_Year. rewrite Hd. vm_compute. split; discriminate.
Qed.

Lemma healthy_up : @services_up healthy.
Proof. split; [done|done|apply sample_clock]. Qed.

(** The healthy installation with the given tables. *)
Definition healthy_world (db : DB) : @World healthy := @world_of healthy db (∅ : gmap string Z).

(** An environment with another mail server. *)
Definition with_smtp (E : Env) (smtp : nat → SmtpEvent → SmtpAnswer) : Env := {|
  env_now := @env_now E;
  env_uuid := @env_uuid E;
  env_Int64N := @env_Int64N E;
  env_rand_bytes := @env_rand_bytes E;
  env_fault := @env_fault E;
  pg_jsonb := @pg_jsonb E;
  jsonb := @jsonb E;
  heap_order := @heap_order E;
  env_enqueue := @env_enqueue E;
  env_http := @env_http E;
  env_smtp := smtp;
  map_order := @map_order E;
  url_Hostname := @url_Hostname E;
  uuid_String := @uuid_String E;
  uuid_Parse := @uuid_Parse E;
  uuid_NewSHA1 := @uuid_NewSHA1 E;
  hmac_sha256 := @hmac_sha256 E;
  sha256 := @sha256 E;
  bcrypt_Generate := @bcrypt_Generate E;
  bcrypt_Compare := @bcrypt_Compare E;
  redis := @redis E;
  redis_value := @redis_value E;
  redis_IncrBy := @redis_IncrBy E;
  redis_Expire := @redis_Expire E;
  redis_Set := @redis_Set E;
  redis_SetNX := @redis_SetNX E
|}.
