(* ===== verification/Net.v ===== *)
(** * Net: the parts of Go's package net the SSRF guard is written with

    IP addresses as byte slices, their classification methods, networks,
    [ParseIP], [IP.String], [SplitHostPort] and [JoinHostPort], as the package
    documents and implements them. *)
From Stdlib Require Import Ascii.
From S2P Require Import Prelude Json Hex.

(** ** Addresses *)

(** A [net.IP]: 4 or 16 bytes; any other length is not an address. *)
Abbreviation IP := (list Z).

Definition is_byte (b : Z) : Prop := (0 ≤ b < 256)%Z.
Definition is_bytes (ip : IP) : Prop := Forall is_byte ip.

Definition v4InV6Prefix : IP := [0; 0; 0; 0; 0; 0; 0; 0; 0; 0; 255; 255]%Z.

Definition To4 (ip : IP) : option IP :=
  if (length ip =? 4)%nat then Some ip
  else if (length ip =? 16)%nat && bool_decide (take 12 ip = v4InV6Prefix) then Some (drop 12 ip)
  else None.

Definition IP_Equal (ip x : IP) : bool :=
  if (length ip =? length x)%nat then bool_decide (ip = x)
  else if (length ip =? 4)%nat && (length x =? 16)%nat then bool_decide (x = v4InV6Prefix ++ ip)
  else if (length ip =? 16)%nat && (length x =? 4)%nat then bool_decide (ip = v4InV6Prefix ++ x)
  else false.

Definition IPv4zero : IP := v4InV6Prefix ++ [0; 0; 0; 0]%Z.
Definition IPv6unspecified : IP := replicate 16 0%Z.
Definition IPv6loopback : IP := replicate 15 0%Z ++ [1]%Z.

(** [ip[i]] where the length has been tested. *)
Definition at_ (ip : IP) (i : nat) : Z := default 0%Z (ip !! i).

Definition IsUnspecified (ip : IP) : bool := IP_Equal ip IPv4zero || IP_Equal ip IPv6unspecified.

Definition IsLoopback (ip : IP) : bool :=
  match To4 ip with
  | Some ip4 => (at_ ip4 0 =? 127)%Z
  | None => IP_Equal ip IPv6loopback
  end.

Definition IsPrivate (ip : IP) : bool :=
  match To4 ip with
  | Some ip4 =>
      ((at_ ip4 0 =? 10) || (at_ ip4 0 =? 172) && (Z.land (at_ ip4 1) 0xf0 =? 16) ||
       (at_ ip4 0 =? 192) && (at_ ip4 1 =? 168))%Z
  | None => (length ip =? 16)%nat && (Z.land (at_ ip 0) 0xfe =? 0xfc)%Z
  end.

Definition IsMulticast (ip : IP) : bool :=
  match To4 ip with
  | Some ip4 => (Z.land (at_ ip4 0) 0xf0 =? 0xe0)%Z
  | None => (length ip =? 16)%nat && (at_ ip 0 =? 0xff)%Z
  end.

Definition IsLinkLocalMulticast (ip : IP) : bool :=
  match To4 ip with
  | Some ip4 => ((at_ ip4 0 =? 224) && (at_ ip4 1 =? 0) && (at_ ip4 2 =? 0))%Z
  | None => (length ip =? 16)%nat && ((at_ ip 0 =? 0xff) && (Z.land (at_ ip 1) 0x0f =? 0x02))%Z
  end.

Definition IsLinkLocalUnicast (ip : IP) : bool :=
  match To4 ip with
  | Some ip4 => ((at_ ip4 0 =? 169) && (at_ ip4 1 =? 254))%Z
  | None => (length ip =? 16)%nat && ((at_ ip 0 =? 0xfe) && (Z.land (at_ ip 1) 0xc0 =? 0x80))%Z
  end.

(** ** Networks *)

Record IPNet := mkIPNet { net_IP : IP; net_Mask : list Z }.

(** [CIDRMask(ones, 8 * bytes)]. *)
Fixpoint CIDRMask (ones : Z) (bytes : nat) : list Z :=
  match bytes with
  | O => []
  | S k => (if (8 <=? ones) then 255 else if (ones <=? 0) then 0 else 256 - 2 ^ (8 - ones))%Z
             :: CIDRMask (ones - 8) k
  end.

(** The network of [ParseCIDR] on an address already split into bytes. *)
Definition cidr (ip : IP) (ones : Z) : IPNet :=
  mkIPNet (zip_with Z.land ip (CIDRMask ones (length ip))) (CIDRMask ones (length ip)).

(** The networks [ParseCIDR] yields have an address and a mask of one length. *)
Definition Contains (n : IPNet) (ip : IP) : bool :=
  let ip := default ip (To4 ip) in
  (length ip =? length (net_IP n))%nat &&
  forallb (λ '(nb, m, b), Z.land nb m =? Z.land b m)%Z (zip (zip (net_IP n) (net_Mask n)) ip).

(** ** Text *)

Definition is_digit (c : ascii) : bool := let n := N_of_ascii c in ((48 <=? n) && (n <=? 57))%N.
Definition digit_val (c : ascii) : Z := Z.of_N (N_of_ascii c) - 48.

(** [parseIPv4Fields]: [pos] fields are done, [val] and [digLen] describe the
    current one. *)
Fixpoint parseIPv4Fields (done : IP) (val : Z) (digLen : nat) (s : string) : option IP :=
  match s with
  | EmptyString => if (length done =? 3)%nat && negb (digLen =? 0)%nat then Some (done ++ [val]) else None
  | String c s' =>
      if is_digit c then
        if (digLen =? 1)%nat && (val =? 0)%Z then None
        else let val := (val * 10 + digit_val c)%Z in
             if (255 <? val)%Z then None else parseIPv4Fields done val (S digLen) s'
      else if bool_decide (c = "."%char) then
        if (digLen =? 0)%nat || bool_decide (s' = "") || (length done =? 3)%nat then None
        else parseIPv4Fields (done ++ [val]) 0 0 s'
      else None
  end.

Definition parseIPv4 (s : string) : option IP := parseIPv4Fields [] 0 0 s.

(** One hexadecimal group: its value, the digits read and the rest. *)
Fixpoint hex_group (acc : Z) (off : nat) (s : string) : option (Z * nat * string) :=
  match s with
  | String c s' =>
      match hex_digit c with
      | Some d => if (3 <? off)%nat then None else hex_group (acc * 16 + Z.of_N d) (S off) s'
      | None => Some (acc, off, s)
      end
  | EmptyString => Some (acc, off, s)
  end.

(** The groups of [parseIPv6] with the position of the ellipsis; each round
    consumes input, so that the length of the text is enough fuel. *)
Fixpoint parse_groups (fuel : nat) (ip : IP) (ellipsis : option nat) (s : string) : option (IP * option nat) :=
  match fuel with
  | O => None
  | S fuel =>
      if (16 <=? length ip)%nat then if bool_decide (s = "") then Some (ip, ellipsis) else None
      else
        '(acc, off, rest) ← hex_group 0 0 s;
        if (off =? 0)%nat then None
        else if HasPrefix rest "." then
          if (bool_decide (ellipsis = None) && negb (length ip =? 12)%nat) || (16 <? length ip + 4)%nat then None
          else ip4 ← parseIPv4 s; Some (ip ++ ip4, ellipsis)
        else
          let ip := ip ++ [acc / 256; acc mod 256]%Z in
          match rest with
          | EmptyString => Some (ip, ellipsis)
          | String c rest =>
              if negb (bool_decide (c = ":"%char)) || bool_decide (rest = "") then None
              else if HasPrefix rest ":" then
                if bool_decide (ellipsis = None) then
                  if bool_decide (rest = ":") then Some (ip, Some (length ip))
                  else parse_groups fuel ip (Some (length ip)) (string_drop 1 rest)
                else None
              else parse_groups fuel ip ellipsis rest
          end
  end.

(** Zones are not accepted by [ParseIP]: ["%"] is no part of any group. *)
Definition parseIPv6 (s : string) : option IP :=
  let lead := HasPrefix s "::" in
  let s := if lead then string_drop 2 s else s in
  if lead && bool_decide (s = "") then Some IPv6unspecified
  else
    '(ip, ellipsis) ← parse_groups (S (String.length s)) [] (if lead then Some O else None) s;
    match ellipsis with
    | None => if (length ip =? 16)%nat then Some ip else None
    | Some e => if (length ip <? 16)%nat
                then Some (take e ip ++ replicate (16 - length ip) 0%Z ++ drop e ip) else None
    end.

(** The first of the characters that tell the families apart. *)
Fixpoint first_of (cs : list ascii) (s : string) : option ascii :=
  match s with
  | EmptyString => None
  | String c s' => if bool_decide (c ∈ cs) then Some c else first_of cs s'
  end.

(** [netip.ParseAddr] without zones: 4 or 16 bytes. *)
Definition ParseAddr (s : string) : option IP :=
  match first_of ["."; ":"; "%"]%char s with
  | Some "."%char => parseIPv4 s
  | Some ":"%char => parseIPv6 s
  | _ => None
  end.

(** [ParseIP] answers the 16-byte form, nil when the text is no address. *)
Definition ParseIP (s : string) : option IP :=
  ip ← ParseAddr s; Some (if (length ip =? 4)%nat then v4InV6Prefix ++ ip else ip).

Fixpoint index_byte (c : ascii) (s : string) : option nat :=
  match s with
  | EmptyString => None
  | String d s' => if bool_decide (d = c) then Some O else S <$> index_byte c s'
  end.

(** [dtoi] on a text of digits only. *)
Fixpoint dtoi (acc : Z) (s : string) : option Z :=
  match s with
  | EmptyString => Some acc
  | String c s' => if is_digit c then dtoi (acc * 10 + digit_val c) s' else None
  end.

Definition ParseCIDR (s : string) : result IPNet :=
  let fail := Err (errors_New ("invalid CIDR address: " +:+ s)) in
  match index_byte "/" s with
  | None => fail
  | Some i =>
      match ParseAddr (String.substring 0 i s), dtoi 0 (string_drop (S i) s) with
      | Some ip, Some n =>
          if bool_decide (string_drop (S i) s = "") || (8 * Z.of_nat (length ip) <? n)%Z then fail
          else Ok (cidr ip n)
      | _, _ => fail
      end
  end.

(** The eight groups of a 16-byte address. *)
Fixpoint groups (ip : IP) : list Z :=
  match ip with
  | a :: b :: rest => (a * 256 + b)%Z :: groups rest
  | _ => []
  end.

Fixpoint zeros_at (gs : list Z) : nat :=
  match gs with 0%Z :: gs' => S (zeros_at gs') | _ => O end.

(** The first longest run of at least two zero groups: its start and length. *)
Definition ellipsis_of (gs : list Z) : nat * nat :=
  foldl (λ '(s, l) i, let k := zeros_at (drop i gs) in
           if (2 <=? k)%nat && (l <? k)%nat then (i, k) else (s, l)) (O, O) (seq 0 8).

(** Hexadecimal without leading zeros. *)
Definition appendHex (x : Z) : string :=
  let d i := String (hex_char (Z.to_N (x / 16 ^ i) mod 16)%N) "" in
  (if (4096 <=? x)%Z then d 3%Z else "") +:+ (if (256 <=? x)%Z then d 2%Z else "") +:+
  (if (16 <=? x)%Z then d 1%Z else "") +:+ d 0%Z.

Definition string_v6 (ip : IP) : string :=
  let gs := groups ip in
  let '(s, l) := ellipsis_of gs in
  let hex := map appendHex in
  if (l =? 0)%nat then String.concat ":" (hex gs)
  else String.concat ":" (hex (take s gs)) +:+ "::" +:+ String.concat ":" (hex (drop (s + l) gs)).

Definition string_v4 (ip4 : IP) : string :=
  pretty (at_ ip4 0) +:+ "." +:+ pretty (at_ ip4 1) +:+ "." +:+ pretty (at_ ip4 2) +:+ "." +:+ pretty (at_ ip4 3).

Definition IP_String (ip : IP) : string :=
  match ip with
  | [] => "<nil>"
  | _ => match To4 ip with
         | Some ip4 => string_v4 ip4
         | None => if (length ip =? 16)%nat then string_v6 ip
                   else "?" +:+ String.concat "" (map (λ b, String (hex_char (Z.to_N (b / 16))) (String (hex_char (Z.to_N (b mod 16))) "")) ip)
         end
  end.

(** ** Host and port *)

Fixpoint last_index_byte (c : ascii) (s : string) : option nat :=
  match s with
  | EmptyString => None
  | String d s' => match last_index_byte c s' with
                   | Some i => Some (S i)
                   | None => if bool_decide (d = c) then Some O else None
                   end
  end.

Definition addrErr (hostport why : string) : error := errors_New ("address " +:+ hostport +:+ ": " +:+ why).

Definition SplitHostPort (hostport : string) : result (string * string) :=
  let fail why := Err (addrErr hostport why) in
  match last_index_byte ":" hostport with
  | None => fail "missing port in address"
  | Some i =>
      let tail host j k :=
        if bool_decide (is_Some (index_byte "[" (string_drop j hostport))) then fail "unexpected '[' in address"
        else if bool_decide (is_Some (index_byte "]" (string_drop k hostport))) then fail "unexpected ']' in address"
        else Ok (host, string_drop (S i) hostport) in
      if HasPrefix hostport "[" then
        match index_byte "]" hostport with
        | None => fail "missing ']' in address"
        | Some end_ =>
            if (S end_ =? String.length hostport)%nat then fail "missing port in address"
            else if (S end_ =? i)%nat then tail (String.substring 1 (end_ - 1) hostport) 1%nat (S end_)
            else if HasPrefix (string_drop (S end_) hostport) ":" then fail "too many colons in address"
            else fail "missing port in address"
        end
      else
        let host := String.substring 0 i hostport in
        if bool_decide (is_Some (index_byte ":" host)) then fail "too many colons in address"
        else tail host O O
  end.

Definition JoinHostPort (host port : string) : string :=
  if bool_decide (is_Some (index_byte ":" host)) then "[" +:+ host +:+ "]:" +:+ port
  else host +:+ ":" +:+ port.
