(* ===== verification/Repository.v ===== *)
(** * Repository: internal/repository, the PostgreSQL repositories

    Each method is its SQL as an operation on the tables of [DB], run as one
    round trip ([db_exec], [db_query]) or as a transaction on a copy
    ([tx_begin], [tx_stmt], [tx_commit]).  The constraints are those of
    migrations/: primary keys, UNIQUE, NOT NULL, foreign keys with ON DELETE
    CASCADE, [jsonb] and [int4] columns. *)
From S2P Require Import Prelude GoTime Json Domain World.

(** ** What a statement can violate *)

Inductive violation :=
| UniqueViolation (constraint : string)      (* SQLSTATE 23505 *)
| ForeignKeyViolation (constraint : string)
| NotNullViolation (column : string)
| InvalidText (column : string)
| OutOfRange (column : string).

Definition violation_error (v : violation) : error :=
  errors_New match v with
  | UniqueViolation c => "ERROR: duplicate key value violates unique constraint " +:+ c +:+ " (SQLSTATE 23505)"
  | ForeignKeyViolation c => "ERROR: insert or update violates foreign key constraint " +:+ c +:+ " (SQLSTATE 23503)"
  | NotNullViolation c => "ERROR: null value in column " +:+ c +:+ " violates not-null constraint (SQLSTATE 23502)"
  | InvalidText c => "ERROR: invalid input syntax for type json: " +:+ c +:+ " (SQLSTATE 22P02)"
  | OutOfRange c => "ERROR: integer out of range: " +:+ c +:+ " (SQLSTATE 22003)"
  end.

(** The repositories that turn a unique violation into a validation error. *)
Definition unique_to_validation (v : violation) : error :=
  match v with
  | UniqueViolation c => errorf_s ErrValidationFailed c
  | _ => violation_error v
  end.

Definition in_int4 (z : Z) : bool := bool_decide (- 2 ^ 31 ≤ z < 2 ^ 31)%Z.

(** Checks of an INSERT, in order; the first that fails rejects the row. *)
Fixpoint first_violation (checks : list (bool * violation)) : option violation :=
  match checks with
  | [] => None
  | (ok, v) :: rest => if ok then first_violation rest else Some v
  end.

(** INSERT of a row under its checks: the new tables, or the tables unchanged
    and the error the method makes of the violation. *)
Definition insert_checked (on_violation : violation → error) (checks : DB → list (bool * violation))
    (ins : DB → DB) (db : DB) : result unit * DB :=
  match first_violation (checks db) with
  | Some v => (Err (on_violation v), db)
  | None => (Ok tt, ins db)
  end.

Definition absent {A} (m : gmap uuid A) (k : uuid) : bool := bool_decide (m !! k = None).
Definition present {A} (m : gmap uuid A) (k : uuid) : bool := bool_decide (is_Some (m !! k)).
(** No row of [m] satisfies [p]. *)
Definition no_row {A} (p : A → bool) (m : gmap uuid A) : bool :=
  forallb (λ '(_, x), negb (p x)) (map_to_list m).

(** ** ON DELETE CASCADE *)

Definition del_notifications (p : Notification → bool) (db : DB) : DB :=
  let gone := filter (λ '(_, n), p n = true) (notifications db) in
  set_delivery_metrics (filter (λ '(_, m), gone !! m_NotificationID m = None) (delivery_metrics db))
  (set_delivery_attempts (filter (λ '(_, a), gone !! a_NotificationID a = None) (delivery_attempts db))
  (set_notifications (filter (λ '(_, n), p n = false) (notifications db)) db)).

Definition del_channel_configs (p : ChannelRow → bool) (db : DB) : DB :=
  let gone := filter (λ '(_, c), p c = true) (channel_configs db) in
  del_notifications (λ n, present gone (n_ChannelConfigID n))
    (set_channel_configs (filter (λ '(_, c), p c = false) (channel_configs db)) db).

Definition del_tenant (id : uuid) (db : DB) : DB :=
  let db := del_channel_configs (λ c, bool_decide (cr_TenantID c = id)) db in
  let db := del_notifications (λ n, bool_decide (n_TenantID n = id)) db in
  set_webhook_endpoints (filter (λ '(_, e), e_TenantID e ≠ id) (webhook_endpoints db))
  (set_api_keys (filter (λ '(_, k), k_TenantID k ≠ id) (api_keys db))
  (set_tenant_entitlements (filter (λ '(_, t), ent_TenantID t ≠ id) (tenant_entitlements db))
  (set_tenants (delete id (tenants db)) db))).

(** ** ORDER BY, LIMIT and OFFSET *)

Definition by_desc {A} (key : A → Time) : relation A := λ x y, (key y ≤ key x)%Z.
Definition by_asc {A} (key : A → Z) : relation A := λ x y, (key x ≤ key y)%Z.
#[export] Instance by_desc_dec {A} (key : A → Time) : RelDecision (by_desc key).
Proof. intros x y. unfold by_desc. apply _. Defined.
#[export] Instance by_asc_dec {A} (key : A → Z) : RelDecision (by_asc key).
Proof. intros x y. unfold by_asc. apply _. Defined.

Definition sql_page {A} (limit offset : Z) (rows : list A) : result (list A) :=
  if (limit <? 0)%Z then Err (errors_New "ERROR: LIMIT must not be negative (SQLSTATE 2201W)")
  else if (offset <? 0)%Z then Err (errors_New "ERROR: OFFSET must not be negative (SQLSTATE 2201X)")
  else Ok (take (Z.to_nat limit) (drop (Z.to_nat offset) rows)).

(** SELECT COUNT of the rows that satisfy [p]. *)
Definition sql_count {A} (p : A → bool) (m : gmap uuid A) : Z :=
  Z.of_nat (length (filter (λ '(_, x), p x = true) (map_to_list m))).

(** SELECT key, COUNT of the rows GROUP BY key. *)
Definition sql_group_count {A} (key : A → string) (rows : list A) : gmap string Z :=
  foldr (λ x acc, partial_alter (λ o, Some (1 + default 0 o)%Z) (key x) acc) ∅ rows.

Section repositories.
Context `{E : Env}.

(** ** pg_tenant.go *)

Definition PgTenantRepo_Create (t : Tenant) : M (result unit) :=
  db_exec (insert_checked unique_to_validation
    (λ db, [(absent (tenants db) (t_ID t), UniqueViolation "tenants_pkey");
            (no_row (λ u, bool_decide (t_Slug u = t_Slug t)) (tenants db), UniqueViolation "tenants_slug_key");
            (no_row (λ u, bool_decide (t_APIKey u = t_APIKey t)) (tenants db), UniqueViolation "tenants_api_key_key")])
    (λ db, set_tenants (<[t_ID t := mkTenant (t_ID t) (t_Name t) (t_Slug t) (t_APIKey t) (t_APISecret t)
                               (t_IsActive t) (timestamptz (t_CreatedAt t)) (timestamptz (t_UpdatedAt t))]>
                        (tenants db)) db)).

Definition tenant_not_found : error := errorf_s ErrNotFound "tenant not found".

Definition scanTenant (row : option Tenant) : result Tenant :=
  match row with Some t => Ok t | None => Err tenant_not_found end.

Definition PgTenantRepo_GetByID (id : uuid) : M (result Tenant) :=
  db_query (λ db, scanTenant (tenants db !! id)).

Definition PgTenantRepo_GetBySlug (slug : string) : M (result Tenant) :=
  db_query_at (λ tick db,
    scanTenant (head (filter (λ t, t_Slug t = slug) (pg_rows tick (tenants db))))).

Definition PgTenantRepo_Update (id : uuid) (input : UpdateTenantInput) : M (result Tenant) :=
  db_exec_at (λ tick db,
    match tenants db !! id with
    | None => (Err tenant_not_found, db)
    | Some t =>
        let t' := mkTenant (t_ID t) (default (t_Name t) (uti_Name input)) (t_Slug t) (t_APIKey t)
                    (t_APISecret t) (default (t_IsActive t) (uti_IsActive input))
                    (t_CreatedAt t) (pg_now tick) in
        (Ok t', set_tenants (<[id := t']> (tenants db)) db)
    end).

Definition PgTenantRepo_Delete (id : uuid) : M (result unit) :=
  db_exec (λ db,
    match tenants db !! id with
    | None => (Err tenant_not_found, db)
    | Some _ => (Ok tt, del_tenant id db)
    end).

Definition PgTenantRepo_List (limit offset : Z) : M (result (list Tenant * Z)) :=
  total ←? db_query (λ db, Ok (sql_count (λ _, true) (tenants db)));
  rows ←? db_query_at (λ tick db,
    sql_page limit offset (merge_sort (by_desc t_CreatedAt) (pg_rows tick (tenants db))));
  mret (Ok (rows, total)).

(** ** pg_channel.go *)

Definition marshalDeliveryPrefs (prefs : option DeliveryPreferences) : option json :=
  match prefs with
  | None => None
  | Some p => Some (json_DeliveryPreferences p)
  end.

Definition unmarshalDeliveryPrefs (data : option json) : option DeliveryPreferences :=
  match data with
  | None | Some (JObj []) | Some JNull => None
  | Some j => match dec_DeliveryPreferences zero_DeliveryPreferences j with Ok p => Some p | Err _ => None end
  end.

Definition config_of_row (c : ChannelRow) : ChannelConfig :=
  mkChannelConfig (cr_ID c) (cr_TenantID c) (cr_Channel c) (cr_Name c) (Some (cr_Config c))
    (cr_IsActive c) (unmarshalDeliveryPrefs (cr_DeliveryPrefs c)) (cr_CreatedAt c) (cr_UpdatedAt c).

Definition channel_not_found : error := errorf_s ErrNotFound "channel config not found".

Definition scanConfig (row : option ChannelRow) : result ChannelConfig :=
  match row with Some c => Ok (config_of_row c) | None => Err channel_not_found end.

Definition same_channel_name (tid : uuid) (ch : ChannelType) (name : string) (c : ChannelRow) : bool :=
  bool_decide (cr_TenantID c = tid ∧ cr_Channel c = ch ∧ cr_Name c = name).

Definition PgChannelConfigRepo_Create (cfg : ChannelConfig) : M (result unit) :=
  let prefs := marshalDeliveryPrefs (cc_DeliveryPrefs cfg) in
  db_exec (insert_checked unique_to_validation
    (λ db, [(bool_decide (is_Some (cc_Config cfg)), NotNullViolation "config");
            (absent (channel_configs db) (cc_ID cfg), UniqueViolation "channel_configs_pkey");
            (no_row (same_channel_name (cc_TenantID cfg) (cc_Channel cfg) (cc_Name cfg)) (channel_configs db),
               UniqueViolation "channel_configs_tenant_id_channel_name_key");
            (present (tenants db) (cc_TenantID cfg), ForeignKeyViolation "channel_configs_tenant_id_fkey")])
    (λ db, set_channel_configs
             (<[cc_ID cfg := mkChannelRow (cc_ID cfg) (cc_TenantID cfg) (cc_Channel cfg) (cc_Name cfg)
                               (jsonb (default JNull (cc_Config cfg))) (cc_IsActive cfg) (jsonb <$> prefs)
                               (timestamptz (cc_CreatedAt cfg)) (timestamptz (cc_UpdatedAt cfg))]>
                (channel_configs db)) db)).

Definition PgChannelConfigRepo_GetByID (id : uuid) : M (result ChannelConfig) :=
  db_query (λ db, scanConfig (channel_configs db !! id)).

(** [queryConfigs] on a WHERE clause, newest first. *)
Definition queryConfigs (where_ : ChannelRow → bool) : M (result (list ChannelConfig)) :=
  db_query_at (λ tick db,
    Ok (config_of_row <$> merge_sort (by_desc cr_CreatedAt)
          (filter (λ c, where_ c = true) (pg_rows tick (channel_configs db))))).

Definition PgChannelConfigRepo_ListByTenant (tenantID : uuid) : M (result (list ChannelConfig)) :=
  queryConfigs (λ c, bool_decide (cr_TenantID c = tenantID)).

Definition PgChannelConfigRepo_ListByTenantAndChannel (tenantID : uuid) (ch : ChannelType)
    : M (result (list ChannelConfig)) :=
  queryConfigs (λ c, bool_decide (cr_TenantID c = tenantID ∧ cr_Channel c = ch)).

(** [config] in the input is a pointer to a RawMessage; a nil one is SQL NULL. *)
Definition PgChannelConfigRepo_Update (id tenantID : uuid) (input : UpdateChannelConfigInput)
    : M (result ChannelConfig) :=
  let prefs := marshalDeliveryPrefs (uci_DeliveryPrefs input) in
  db_exec_at (λ tick db,
    match channel_configs db !! id with
    | Some c =>
        if bool_decide (cr_TenantID c = tenantID) then
          let name := default (cr_Name c) (uci_Name input) in
          let c' := mkChannelRow (cr_ID c) (cr_TenantID c) (cr_Channel c) name
                      (from_option jsonb (cr_Config c) (mjoin (uci_Config input)))
                      (default (cr_IsActive c) (uci_IsActive input))
                      (match prefs with Some p => Some (jsonb p) | None => cr_DeliveryPrefs c end)
                      (cr_CreatedAt c) (pg_now tick) in
          if no_row (same_channel_name tenantID (cr_Channel c) name) (delete id (channel_configs db))
          then (Ok (config_of_row c'), set_channel_configs (<[id := c']> (channel_configs db)) db)
          else (Err (violation_error (UniqueViolation "channel_configs_tenant_id_channel_name_key")), db)
        else (Err channel_not_found, db)
    | None => (Err channel_not_found, db)
    end).

Definition PgChannelConfigRepo_Delete (id tenantID : uuid) : M (result unit) :=
  db_exec (λ db,
    let hit := λ c, bool_decide (cr_ID c = id ∧ cr_TenantID c = tenantID) in
    if (sql_count hit (channel_configs db) =? 0)%Z then (Err channel_not_found, db)
    else (Ok tt, del_channel_configs hit db)).

(** ** pg_notification.go *)

Definition notification_not_found : error := errorf_s ErrNotFound "notification not found".

Definition PgNotificationRepo_Create (n : Notification) : M (result unit) :=
  db_exec (insert_checked violation_error
    (λ db, [(in_int4 (n_MaxRetries n), OutOfRange "max_retries");
            (absent (notifications db) (n_ID n), UniqueViolation "notifications_pkey");
            (present (tenants db) (n_TenantID n), ForeignKeyViolation "notifications_tenant_id_fkey");
            (present (channel_configs db) (n_ChannelConfigID n), ForeignKeyViolation "notifications_channel_config_id_fkey")])
    (λ db, set_notifications
             (<[n_ID n := mkNotification (n_ID n) (n_TenantID n) (n_ChannelConfigID n) (n_Channel n)
                            (n_Subject n) (n_Body n) (jsonb <$> n_Metadata n) (n_Status n)
                            None 0 (n_MaxRetries n) None None None
                            (timestamptz (n_CreatedAt n)) (timestamptz (n_UpdatedAt n))]>
                (notifications db)) db)).

Definition PgNotificationRepo_GetByID (id : uuid) : M (result Notification) :=
  db_query (λ db,
    match notifications db !! id with Some n => Ok n | None => Err notification_not_found end).

(** UPDATE of the row [id] by [g]; no row is the not-found error. *)
Definition update_notification (id : uuid) (g : Notification → Notification) (db : DB) : result unit * DB :=
  match notifications db !! id with
  | Some n => (Ok tt, set_notifications (<[id := g n]> (notifications db)) db)
  | None => (Err notification_not_found, db)
  end.

Definition PgNotificationRepo_UpdateStatus (id : uuid) (status : NotificationStatus)
    (lastError : option string) : M (result unit) :=
  now ← time_Now;
  db_exec (update_notification id (λ n,
    mkNotification (n_ID n) (n_TenantID n) (n_ChannelConfigID n) (n_Channel n) (n_Subject n) (n_Body n)
      (n_Metadata n) status (n_AsynqTaskID n) (n_RetryCount n) (n_MaxRetries n) lastError
      (n_DeliveredAt n) (n_ProviderMsgID n) (n_CreatedAt n) (timestamptz now))).

Definition PgNotificationRepo_SetAsynqTaskID (id : uuid) (taskID : string) : M (result unit) :=
  now ← time_Now;
  db_exec (update_notification id (λ n,
    mkNotification (n_ID n) (n_TenantID n) (n_ChannelConfigID n) (n_Channel n) (n_Subject n) (n_Body n)
      (n_Metadata n) (n_Status n) (Some taskID) (n_RetryCount n) (n_MaxRetries n) (n_LastError n)
      (n_DeliveredAt n) (n_ProviderMsgID n) (n_CreatedAt n) (timestamptz now))).

Definition PgNotificationRepo_SetProviderMsgID (id : uuid) (providerMsgID : string) : M (result unit) :=
  now ← time_Now;
  db_exec (update_notification id (λ n,
    mkNotification (n_ID n) (n_TenantID n) (n_ChannelConfigID n) (n_Channel n) (n_Subject n) (n_Body n)
      (n_Metadata n) (n_Status n) (n_AsynqTaskID n) (n_RetryCount n) (n_MaxRetries n) (n_LastError n)
      (n_DeliveredAt n) (Some providerMsgID) (n_CreatedAt n) (timestamptz now))).

Definition PgNotificationRepo_MarkDelivered (id : uuid) : M (result unit) :=
  now ← time_Now;
  db_exec (update_notification id (λ n,
    mkNotification (n_ID n) (n_TenantID n) (n_ChannelConfigID n) (n_Channel n) (n_Subject n) (n_Body n)
      (n_Metadata n) "delivered" (n_AsynqTaskID n) (n_RetryCount n) (n_MaxRetries n) (n_LastError n)
      (Some (timestamptz now)) (n_ProviderMsgID n) (n_CreatedAt n) (timestamptz now))).

(** [retry_count + 1] past the [int4] range is an error. *)
Definition PgNotificationRepo_IncrementRetry (id : uuid) (lastError : string) : M (result unit) :=
  now ← time_Now;
  db_exec (λ db,
    if from_option (λ n, in_int4 (n_RetryCount n + 1)) true (notifications db !! id) then
      update_notification id (λ n,
        mkNotification (n_ID n) (n_TenantID n) (n_ChannelConfigID n) (n_Channel n) (n_Subject n) (n_Body n)
          (n_Metadata n) (n_Status n) (n_AsynqTaskID n) (n_RetryCount n + 1) (n_MaxRetries n)
          (Some lastError) (n_DeliveredAt n) (n_ProviderMsgID n) (n_CreatedAt n) (timestamptz now)) db
    else (Err (violation_error (OutOfRange "retry_count")), db)).

Definition filter_where (f : NotificationFilter) (n : Notification) : bool :=
  bool_decide (n_TenantID n = nf_TenantID f) &&
  from_option (λ s, bool_decide (n_Status n = s)) true (nf_Status f) &&
  from_option (λ c, bool_decide (n_Channel n = c)) true (nf_Channel f).

Definition PgNotificationRepo_List (f : NotificationFilter) : M (result (list Notification * Z)) :=
  total ←? db_query (λ db, Ok (sql_count (filter_where f) (notifications db)));
  let limit := if (nf_Limit f <=? 0)%Z then 20%Z else nf_Limit f in
  let offset := if (nf_Offset f <? 0)%Z then 0%Z else nf_Offset f in
  rows ←? db_query_at (λ tick db,
    sql_page limit offset (merge_sort (by_desc n_CreatedAt)
      (filter (λ n, filter_where f n = true) (pg_rows tick (notifications db)))));
  mret (Ok (rows, total)).

Definition in_window (tenantID : uuid) (from to : Time) (n : Notification) : bool :=
  bool_decide (n_TenantID n = tenantID ∧ (timestamptz from ≤ n_CreatedAt n < timestamptz to)%Z).

Definition PgNotificationRepo_UsageByTenant (tenantID : uuid) (from to : Time) : M (result UsageReport) :=
  counts ←? db_query (λ db,
    Ok (sql_count (in_window tenantID from to) (notifications db),
        sql_count (λ n, in_window tenantID from to n && bool_decide (n_Status n = "delivered")) (notifications db),
        sql_count (λ n, in_window tenantID from to n && bool_decide (n_Status n = "failed")) (notifications db)));
  byChannel ←? db_query (λ db,
    Ok (sql_group_count cr_Channel
          (omap (λ n, channel_configs db !! n_ChannelConfigID n)
             (filter (λ n, in_window tenantID from to n = true) (map_to_list (notifications db)).*2))));
  mret (Ok (mkUsageReport counts.1.1 counts.1.2 counts.2 byChannel)).

Definition older_than (tenantID : uuid) (cutoff : Time) (n : Notification) : bool :=
  bool_decide (n_TenantID n = tenantID ∧ (n_CreatedAt n < timestamptz cutoff)%Z).

Definition PgNotificationRepo_DeleteOlderThan (tenantID : uuid) (cutoff : Time) : M (result Z) :=
  db ←? tx_begin;
  let old := filter (λ '(_, n), older_than tenantID cutoff n = true) (notifications db) in
  let db := set_delivery_attempts
    (filter (λ '(_, a), old !! a_NotificationID a = None) (delivery_attempts db)) db in
  _ ←? tx_stmt (Ok tt);
  let db := set_delivery_metrics
    (filter (λ '(_, m), old !! m_NotificationID m = None) (delivery_metrics db)) db in
  _ ←? tx_stmt (Ok tt);
  n ←? tx_stmt (Ok (sql_count (older_than tenantID cutoff) (notifications db)));
  let db := del_notifications (older_than tenantID cutoff) db in
  _ ←? tx_commit db;
  mret (Ok n).

Definition PgNotificationRepo_CountByStatus : M (result (gmap string Z)) :=
  db_query (λ db, Ok (sql_group_count n_Status (map_to_list (notifications db)).*2)).

(** ** pg_delivery_attempt.go *)

Definition PgDeliveryAttemptRepo_Create (a : DeliveryAttempt) : M (result unit) :=
  db_exec (insert_checked violation_error
    (λ db, [(from_option (λ r, bool_decide (is_Some (pg_jsonb r))) true (a_ProviderResponse a), InvalidText "provider_response");
            (in_int4 (a_AttemptNumber a), OutOfRange "attempt_number");
            (in_int4 (a_DurationMs a), OutOfRange "duration_ms");
            (absent (delivery_attempts db) (a_ID a), UniqueViolation "delivery_attempts_pkey");
            (present (notifications db) (a_NotificationID a), ForeignKeyViolation "delivery_attempts_notification_id_fkey")])
    (λ db, set_delivery_attempts
             (<[a_ID a := mkDeliveryAttempt (a_ID a) (a_NotificationID a) (a_AttemptNumber a) (a_Status a)
                            (a_ProviderResponse a ≫= pg_jsonb) (a_ErrorMessage a) (a_DurationMs a)
                            (timestamptz (a_AttemptedAt a))]>
                (delivery_attempts db)) db)).

Definition PgDeliveryAttemptRepo_ListByNotification (notificationID : uuid) : M (result (list DeliveryAttempt)) :=
  db_query_at (λ tick db,
    Ok (merge_sort (by_asc a_AttemptNumber)
          (filter (λ a, a_NotificationID a = notificationID) (pg_rows tick (delivery_attempts db))))).

(** ** pg_delivery_metric.go *)

(** On a conflict the row keeps its own id. *)
Definition PgDeliveryMetricRepo_Upsert (m : DeliveryMetric) : M (result unit) :=
  on_err (errorf_w "upsert delivery metric") (db_exec (insert_checked violation_error
    (λ db, [(present (delivery_metrics db) (m_NotificationID m) ||
             no_row (λ x, bool_decide (m_ID x = m_ID m)) (delivery_metrics db), UniqueViolation "delivery_metrics_pkey");
            (present (notifications db) (m_NotificationID m), ForeignKeyViolation "delivery_metrics_notification_id_fkey")])
    (λ db, set_delivery_metrics
             (<[m_NotificationID m := mkDeliveryMetric
                  (from_option m_ID (m_ID m) (delivery_metrics db !! m_NotificationID m)) (m_NotificationID m)
                  (m_ProviderMsgID m) (timestamptz <$> m_DeliveredAt m) (timestamptz <$> m_ReadAt m)
                  (jsonb <$> m_Interactions m) (timestamptz (m_CollectedAt m))]>
                (delivery_metrics db)) db))).

Definition PgDeliveryMetricRepo_GetByNotificationID (notificationID : uuid) : M (result DeliveryMetric) :=
  r ← db_query (λ db, Ok (delivery_metrics db !! notificationID));
  mret match r with
       | Ok (Some m) => Ok m
       | Ok None => Err (errorf_s ErrNotFound "delivery metric not found")
       | Err e => Err (errorf_w "get delivery metric" e)
       end.

(** ** pg_entitlement_repo.go *)

Definition PgEntitlementRepo_Upsert (e : Entitlements) : M (result unit) :=
  db_exec_at (λ tick, insert_checked violation_error
    (λ db, [(in_int4 (ent_APIKeyLimit e), OutOfRange "api_key_limit");
            (in_int4 (ent_RetentionDays e), OutOfRange "retention_days");
            (present (tenants db) (ent_TenantID e), ForeignKeyViolation "tenant_entitlements_tenant_id_fkey")])
    (λ db, set_tenant_entitlements
             (<[ent_TenantID e := mkEntitlements (ent_TenantID e) (ent_PlanCode e) (ent_MessageLimit e)
                  (ent_AllowedChannels e) (ent_APIKeyLimit e) (ent_RetentionDays e)
                  (timestamptz (ent_PeriodStart e)) (timestamptz (ent_PeriodEnd e)) (pg_now tick)]>
                (tenant_entitlements db)) db)).

Definition PgEntitlementRepo_GetByTenantID (tenantID : uuid) : M (result Entitlements) :=
  db_query (λ db,
    match tenant_entitlements db !! tenantID with
    | Some e => Ok e
    | None => Err (sentinel_error ErrNotFound)
    end).

Definition PgEntitlementRepo_ListAll : M (result (list Entitlements)) :=
  db_query_at (λ tick db,
    Ok (merge_sort (by_asc (λ e, Z.of_N (uuid_N (ent_TenantID e)))) (pg_rows tick (tenant_entitlements db)))).

(** ** pg_apikey_repo.go *)

Definition insert_api_key (k : APIKey) : DB → result unit * DB :=
  insert_checked violation_error
    (λ db, [(absent (api_keys db) (k_ID k), UniqueViolation "api_keys_pkey");
            (no_row (λ x, bool_decide (k_APIKey x = k_APIKey k)) (api_keys db), UniqueViolation "api_keys_api_key_key");
            (present (tenants db) (k_TenantID k), ForeignKeyViolation "api_keys_tenant_id_fkey")])
    (λ db, set_api_keys (<[k_ID k := mkAPIKey (k_ID k) (k_TenantID k) (k_APIKey k) (k_APISecretHash k)
                               (k_Label k) (timestamptz (k_CreatedAt k)) None]> (api_keys db)) db).

Definition PgAPIKeyRepo_Create (k : APIKey) : M (result unit) := db_exec (insert_api_key k).

Definition PgAPIKeyRepo_GetByAPIKey (apiKey : string) : M (result APIKey) :=
  db_query_at (λ tick db,
    match head (filter (λ k, k_APIKey k = apiKey) (pg_rows tick (api_keys db))) with
    | Some k => Ok k
    | None => Err (sentinel_error ErrNotFound)
    end).

Definition PgAPIKeyRepo_ListByTenant (tenantID : uuid) : M (result (list APIKey)) :=
  db_query_at (λ tick db,
    Ok (merge_sort (by_asc k_CreatedAt) (filter (λ k, k_TenantID k = tenantID) (pg_rows tick (api_keys db))))).

Definition PgAPIKeyRepo_Revoke (id tenantID : uuid) : M (result unit) :=
  db_exec_at (λ tick db,
    match api_keys db !! id with
    | Some k =>
        if bool_decide (k_TenantID k = tenantID ∧ k_RevokedAt k = None) then
          (Ok tt, set_api_keys (<[id := mkAPIKey (k_ID k) (k_TenantID k) (k_APIKey k) (k_APISecretHash k)
                                         (k_Label k) (k_CreatedAt k) (Some (pg_now tick))]> (api_keys db)) db)
        else (Err (sentinel_error ErrNotFound), db)
    | None => (Err (sentinel_error ErrNotFound), db)
    end).

Definition active_key_of (tenantID : uuid) (k : APIKey) : bool :=
  bool_decide (k_TenantID k = tenantID ∧ k_RevokedAt k = None).

(** [SELECT id FROM tenants WHERE id = $1 FOR UPDATE] *)
Definition lock_tenant (tenantID : uuid) (db : DB) : result uuid :=
  match tenants db !! tenantID with
  | Some _ => Ok tenantID
  | None => Err (sentinel_error ErrNotFound)
  end.

Definition PgAPIKeyRepo_CreateWithinLimit (k : APIKey) (limit : Z) : M (result unit) :=
  db ←? tx_begin;
  _ ←? tx_stmt (lock_tenant (k_TenantID k) db);
  active ←? tx_stmt (Ok (sql_count (active_key_of (k_TenantID k)) (api_keys db)));
  if (limit <=? active)%Z then mret (Err (sentinel_error ErrKeyLimitReached))
  else
    _ ←? tx_stmt (insert_api_key k db).1;
    tx_commit (insert_api_key k db).2.

(** ** pg_webhook_endpoint.go *)

Definition endpoint_not_found : error := errorf_s ErrNotFound "webhook endpoint not found".

Definition insert_webhook_endpoint (e : WebhookEndpoint) : DB → result unit * DB :=
  insert_checked violation_error
    (λ db, [(absent (webhook_endpoints db) (e_ID e), UniqueViolation "webhook_endpoints_pkey");
            (present (tenants db) (e_TenantID e), ForeignKeyViolation "webhook_endpoints_tenant_id_fkey")])
    (λ db, set_webhook_endpoints
             (<[e_ID e := mkWebhookEndpoint (e_ID e) (e_TenantID e) (e_URL e) (e_Secret e) (e_Events e)
                            (e_IsActive e) (timestamptz (e_CreatedAt e))]> (webhook_endpoints db)) db).

Definition endpoint_of (tenantID : uuid) (e : WebhookEndpoint) : bool := bool_decide (e_TenantID e = tenantID).

Definition PgWebhookEndpointRepo_CreateWithinLimit (e : WebhookEndpoint) (limit : Z) : M (result unit) :=
  db ←? tx_begin;
  _ ←? tx_stmt (lock_tenant (e_TenantID e) db);
  count ←? tx_stmt (Ok (sql_count (endpoint_of (e_TenantID e)) (webhook_endpoints db)));
  if (limit <=? count)%Z then mret (Err (sentinel_error ErrWebhookLimitReached))
  else
    _ ←? tx_stmt (insert_webhook_endpoint e db).1;
    tx_commit (insert_webhook_endpoint e db).2.

Definition scanWebhookEndpoint (row : option WebhookEndpoint) : result WebhookEndpoint :=
  match row with Some e => Ok e | None => Err endpoint_not_found end.

Definition PgWebhookEndpointRepo_GetByID (id : uuid) : M (result WebhookEndpoint) :=
  db_query (λ db, scanWebhookEndpoint (webhook_endpoints db !! id)).

Definition PgWebhookEndpointRepo_ListByTenant (tenantID : uuid) : M (result (list WebhookEndpoint)) :=
  db_query_at (λ tick db,
    Ok (merge_sort (by_asc e_CreatedAt) (filter (λ e, e_TenantID e = tenantID) (pg_rows tick (webhook_endpoints db))))).

Definition PgWebhookEndpointRepo_ListActiveByTenantAndEvent (tenantID : uuid) (eventType : WebhookEventType)
    : M (result (list WebhookEndpoint)) :=
  db_query_at (λ tick db,
    Ok (filter (λ e, e_TenantID e = tenantID ∧ e_IsActive e = true ∧ eventType ∈ e_Events e)
          (pg_rows tick (webhook_endpoints db)))).

Definition PgWebhookEndpointRepo_Update (id tenantID : uuid) (input : UpdateWebhookEndpointInput)
    : M (result WebhookEndpoint) :=
  db_exec (λ db,
    match webhook_endpoints db !! id with
    | Some e =>
        if bool_decide (e_TenantID e = tenantID) then
          let e' := mkWebhookEndpoint (e_ID e) (e_TenantID e) (default (e_URL e) (uwi_URL input)) (e_Secret e)
                      (default (e_Events e) (uwi_Events input)) (default (e_IsActive e) (uwi_IsActive input))
                      (e_CreatedAt e) in
          (Ok e', set_webhook_endpoints (<[id := e']> (webhook_endpoints db)) db)
        else (Err endpoint_not_found, db)
    | None => (Err endpoint_not_found, db)
    end).

Definition PgWebhookEndpointRepo_Delete (id tenantID : uuid) : M (result unit) :=
  db_exec (λ db,
    match webhook_endpoints db !! id with
    | Some e =>
        if bool_decide (e_TenantID e = tenantID)
        then (Ok tt, set_webhook_endpoints (delete id (webhook_endpoints db)) db)
        else (Err endpoint_not_found, db)
    | None => (Err endpoint_not_found, db)
    end).
End repositories.
