(* ===== verification/Integrity.v ===== *)
(** * Integrity: what the repositories keep true of the tables

    [db_ok] is the schema's contract (keys, uniqueness, foreign keys).  Every
    writing method preserves it, whatever round trips fail, also across
    cascading deletes and the hand-written retention transaction. *)
From S2P Require Import Prelude GoTime Json Domain World Repository.

(** ** The contract *)

Definition keyed {A} (key : A → uuid) (m : gmap uuid A) : Prop := map_Forall (λ k x, key x = k) m.
Definition refers {A B} (ref : A → uuid) (m : gmap uuid A) (target : gmap uuid B) : Prop :=
  map_Forall (λ _ x, is_Some (target !! ref x)) m.
Definition unique_on {A K} (key : A → K) (m : gmap uuid A) : Prop :=
  ∀ k1 k2 x1 x2, m !! k1 = Some x1 → m !! k2 = Some x2 → key x1 = key x2 → k1 = k2.

Record db_ok (db : DB) : Prop := mkDbOk {
  ok_tenant_key : keyed t_ID (tenants db);
  ok_channel_key : keyed cr_ID (channel_configs db);
  ok_notification_key : keyed n_ID (notifications db);
  ok_attempt_key : keyed a_ID (delivery_attempts db);
  ok_metric_key : keyed m_NotificationID (delivery_metrics db);
  ok_entitlement_key : keyed ent_TenantID (tenant_entitlements db);
  ok_apikey_key : keyed k_ID (api_keys db);
  ok_endpoint_key : keyed e_ID (webhook_endpoints db);
  ok_slug : unique_on t_Slug (tenants db);
  ok_tenant_apikey : unique_on t_APIKey (tenants db);
  ok_channel_name : unique_on (λ c, (cr_TenantID c, cr_Channel c, cr_Name c)) (channel_configs db);
  ok_apikey : unique_on k_APIKey (api_keys db);
  ok_channel_tenant : refers cr_TenantID (channel_configs db) (tenants db);
  ok_notification_tenant : refers n_TenantID (notifications db) (tenants db);
  ok_notification_channel : refers n_ChannelConfigID (notifications db) (channel_configs db);
  ok_attempt_notification : refers a_NotificationID (delivery_attempts db) (notifications db);
  ok_metric_notification : refers m_NotificationID (delivery_metrics db) (notifications db);
  ok_entitlement_tenant : refers ent_TenantID (tenant_entitlements db) (tenants db);
  ok_apikey_tenant : refers k_TenantID (api_keys db) (tenants db);
  ok_endpoint_tenant : refers e_TenantID (webhook_endpoints db) (tenants db)
}.

(** ** Tables under insertion, update and filtering *)

Section tables.
Context {A : Type}.
Implicit Types m : gmap uuid A.

Lemma keyed_insert key m k x : key x = k → keyed key m → keyed key (<[k := x]> m).
Proof. intros. by apply map_Forall_insert_2. Qed.

Lemma keyed_filter key (P : uuid * A → Prop) `{∀ x, Decision (P x)} m : keyed key m → keyed key (filter P m).
Proof. intros Hm k x [? _]%map_lookup_filter_Some. by apply Hm. Qed.

Lemma keyed_delete key m k : keyed key m → keyed key (delete k m).
Proof. apply map_Forall_delete. Qed.

Lemma refers_insert {B} ref m (t : gmap uuid B) k x :
  is_Some (t !! ref x) → refers ref m t → refers ref (<[k := x]> m) t.
Proof. intros. by apply map_Forall_insert_2. Qed.

(** Growing or overwriting the referenced table keeps references valid. *)
Lemma refers_insert_target {B} ref m (t : gmap uuid B) k y :
  refers ref m t → refers ref m (<[k := y]> t).
Proof.
  intros Hm j x Hj. destruct (Hm j x Hj) as [z Hz].
  rewrite lookup_insert_is_Some'. eauto.
Qed.

Lemma refers_filter {B} ref (P : uuid * A → Prop) `{∀ x, Decision (P x)} m (t : gmap uuid B) :
  refers ref m t → refers ref (filter P m) t.
Proof. intros Hm k x [? _]%map_lookup_filter_Some. by eapply Hm. Qed.

Lemma refers_delete {B} ref m (t : gmap uuid B) k : refers ref m t → refers ref (delete k m) t.
Proof. apply map_Forall_delete. Qed.

(** Removing rows from the referenced table is safe when what is left refers
    to what is left. *)
Lemma refers_shrink {B} ref (P : uuid * A → Prop) `{∀ x, Decision (P x)} m (t t' : gmap uuid B) :
  refers ref m t →
  (∀ k x, m !! k = Some x → P (k, x) → is_Some (t !! ref x) → is_Some (t' !! ref x)) →
  refers ref (filter P m) t'.
Proof. intros Hm Hs k x [Hk HP]%map_lookup_filter_Some. eapply Hs; eauto. Qed.

Lemma unique_filter {K} (key : A → K) (P : uuid * A → Prop) `{∀ x, Decision (P x)} m :
  unique_on key m → unique_on key (filter P m).
Proof.
  intros Hm k1 k2 x1 x2 [H1 _]%map_lookup_filter_Some [H2 _]%map_lookup_filter_Some. by eapply Hm.
Qed.

Lemma unique_delete {K} (key : A → K) m k : unique_on key m → unique_on key (delete k m).
Proof. intros Hm k1 k2 x1 x2 [_ H1]%lookup_delete_Some [_ H2]%lookup_delete_Some. by eapply Hm. Qed.

Lemma unique_insert {K} (key : A → K) m k x :
  (∀ k' y, k' ≠ k → m !! k' = Some y → key y ≠ key x) →
  unique_on key m → unique_on key (<[k := x]> m).
Proof.
  intros Hx Hm k1 k2 x1 x2 [[<- <-]|[? H1]]%lookup_insert_Some [[<- <-]|[? H2]]%lookup_insert_Some Hk;
    [done| | |by eapply Hm]; exfalso; [eapply (Hx k2 x2)|eapply (Hx k1 x1)]; eauto.
Qed.

(** Updating a row in a way that keeps its key. *)
Lemma unique_update {K} (key : A → K) m k x y :
  m !! k = Some x → key y = key x → unique_on key m → unique_on key (<[k := y]> m).
Proof.
  intros Hk Hy Hm. apply unique_insert; [|done]. intros k' z Hne Hz Heq. apply Hne.
  rewrite Hy in Heq. by eapply Hm.
Qed.

Lemma no_row_spec (p : A → bool) m : no_row p m = true ↔ ∀ k x, m !! k = Some x → p x = false.
Proof.
  unfold no_row. rewrite forallb_forall. split.
  - intros H k x Hk. apply elem_of_map_to_list, list_elem_of_In, H in Hk. by apply negb_true_iff.
  - intros H [k x] Hk. apply list_elem_of_In, elem_of_map_to_list in Hk.
    apply negb_true_iff. by eapply H.
Qed.
End tables.

Lemma first_violation_None checks :
  first_violation checks = None ↔ Forall (λ c, c.1 = true) checks.
Proof.
  induction checks as [|[[] v] cs IH]; simpl; [by split| |].
  - rewrite IH, Forall_cons. naive_solver.
  - rewrite Forall_cons. naive_solver.
Qed.

(** An INSERT preserves [P] when the accepted row does. *)
Lemma insert_checked_keeps (P : DB → Prop) h checks ins db :
  (P db → Forall (λ c, c.1 = true) (checks db) → P (ins db)) →
  P db → P (insert_checked h checks ins db).2.
Proof.
  intros Hi HP. unfold insert_checked.
  destruct (first_violation (checks db)) eqn:Hc; [done|]. apply Hi; [done|].
  by apply first_violation_None.
Qed.

Create HintDb tables.
#[export] Hint Resolve keyed_insert keyed_filter keyed_delete refers_insert refers_insert_target
  refers_filter refers_delete unique_filter unique_delete unique_update : tables.

(** Splits the contract into its clauses and closes the framed ones. *)
Ltac db_clauses H :=
  destruct H; constructor; simpl; eauto 3 with tables.

(** Turns the checks of an INSERT into hypotheses. *)
Ltac checks_true H :=
  repeat match type of H with
  | Forall _ (_ :: _) => let h := fresh "Hc" in apply Forall_cons in H as [h H]; simpl in h
  end; clear H;
  repeat match goal with
  | h : present _ _ = true |- _ => apply bool_decide_eq_true in h
  | h : absent _ _ = true |- _ => apply bool_decide_eq_true in h
  | h : no_row _ _ = true |- _ => rewrite no_row_spec in h
  end.

(** ** Cascading deletes *)

(** The children of the notifications that remain are kept with them. *)
Lemma del_notifications_children {A} (ref : A → uuid) (m : gmap uuid A) p (ns : gmap uuid Notification) :
  refers ref m ns →
  refers ref (filter (λ '(_, a), filter (λ '(_, n), p n = true) ns !! ref a = None) m)
    (filter (λ '(_, n), p n = false) ns).
Proof.
  intros H. eapply refers_shrink; [exact H|].
  intros k x Hk Hn [n Hx]. exists n. apply map_lookup_filter_Some. split; [done|].
  destruct (p n) eqn:Hp; [|done]. exfalso.
  apply map_lookup_filter_None in Hn as [Hn|Hn]; [congruence|]. by destruct (Hn _ Hx).
Qed.
#[export] Hint Resolve del_notifications_children : tables.

Lemma del_notifications_ok p db : db_ok db → db_ok (del_notifications p db).
Proof. intros H. db_clauses H. Qed.

Lemma del_channel_configs_ok p db : db_ok db → db_ok (del_channel_configs p db).
Proof.
  intros H. db_clauses H. eapply refers_shrink; [eassumption|].
  intros k x Hk Hn [c Hx]. exists c. apply map_lookup_filter_Some. split; [done|].
  destruct (p c) eqn:Hp; [|done]. exfalso.
  apply bool_decide_eq_false in Hn. apply Hn. exists c. by apply map_lookup_filter_Some.
Qed.

Lemma refers_delete_target {A B} (ref : A → uuid) (P : uuid * A → Prop) `{∀ x, Decision (P x)}
    (m : gmap uuid A) (t : gmap uuid B) id :
  (∀ k x, P (k, x) → ref x ≠ id) → refers ref m t → refers ref (filter P m) (delete id t).
Proof.
  intros HP Hm. eapply refers_shrink; [exact Hm|]. intros k x _ Hx Hs.
  rewrite lookup_delete_ne; [done|]. intros ->. by eapply (HP k x).
Qed.

Lemma del_tenant_ok id db : db_ok db → db_ok (del_tenant id db).
Proof.
  intros H. unfold del_tenant.
  assert (∀ k c, channel_configs (del_channel_configs (λ c, bool_decide (cr_TenantID c = id)) db) !! k = Some c →
    cr_TenantID c ≠ id) as Hc.
  { intros k c [_ Hc%bool_decide_eq_false]%map_lookup_filter_Some. done. }
  apply (del_channel_configs_ok (λ c, bool_decide (cr_TenantID c = id))) in H.
  apply (del_notifications_ok (λ n, bool_decide (n_TenantID n = id))) in H.
  revert H Hc. generalize (del_channel_configs (λ c, bool_decide (cr_TenantID c = id)) db).
  clear db. intros db H Hc. destruct H. constructor; simpl in *; eauto 3 with tables.
  all: try (apply refers_delete_target; [naive_solver|done]).
  - intros k c Hk. rewrite lookup_delete_ne; [by eapply ok_channel_tenant0|].
    intros Heq. by apply (Hc k c).
  - intros k n Hk. rewrite lookup_delete_ne; [by eapply ok_notification_tenant0|].
    apply map_lookup_filter_Some in Hk as [_ Hk%bool_decide_eq_false]. done.
Qed.

(** ** Every writing method *)

(** Computations that preserve a property of the tables. *)
Definition preserves `{E : Env} {A} (P : DB → Prop) (m : M A) : Prop :=
  keeps (λ w w', P (w_db w) → P (w_db w')) m.

#[export] Instance preserves_preorder `{E : Env} (P : DB → Prop) :
  PreOrder (λ w w' : World, P (w_db w) → P (w_db w')).
Proof. split; [by intros w|]. intros x y z; eauto. Qed.

Section writers.
Context `{E : Env} (P : DB → Prop).

Lemma preserves_exec {A} (f : DB → result A * DB) :
  (∀ db, P db → P (f db).2) → preserves P (db_exec f).
Proof. intros H w HP. unfold db_exec. destruct (env_fault _); simpl; auto. Qed.

Lemma preserves_exec_at {A} (f : nat → DB → result A * DB) :
  (∀ t db, P db → P (f t db).2) → preserves P (db_exec_at f).
Proof. intros H w. apply (preserves_exec (f (w_tick w))), H. Qed.

(** A transaction starts from the current tables and installs its copy. *)
Lemma preserves_tx {A} (k : DB → M (result A)) :
  (∀ db, P db → preserves P (k db)) → preserves P (try_bind tx_begin k).
Proof.
  intros H w HP. unfold try_bind, tx_begin, tx_stmt, mbind, ST_bind.
  destruct (env_fault _); simpl; [|done..]. by apply H.
Qed.

Lemma preserves_commit db : P db → preserves P (tx_commit db).
Proof. intros H. by apply preserves_exec. Qed.

Lemma preserves_same {A} (m : M A) : keeps (same w_db) m → preserves P m.
Proof. intros H w HP. by rewrite (H w). Qed.
End writers.

Section db_ok_writers.
Context `{E : Env}.

(** Setting columns of a notification other than its keys. *)
Lemma update_notification_ok id g db :
  (∀ n, n_ID (g n) = n_ID n ∧ n_TenantID (g n) = n_TenantID n ∧ n_ChannelConfigID (g n) = n_ChannelConfigID n) →
  db_ok db → db_ok (update_notification id g db).2.
Proof.
  intros Hg H. unfold update_notification. destruct (notifications db !! id) as [n|] eqn:Hn; [|done].
  destruct (Hg n) as (H1 & H2 & H3). simpl. db_clauses H.
  - apply keyed_insert; [|done]. rewrite H1. simpl; by eapply ok_notification_key0.
  - apply refers_insert; [|done]. rewrite H2. by eapply ok_notification_tenant0.
  - apply refers_insert; [|done]. rewrite H3. by eapply ok_notification_channel0.
Qed.

Lemma insert_api_key_ok k db : db_ok db → db_ok (insert_api_key k db).2.
Proof.
  apply insert_checked_keeps. intros H Hc. checks_true Hc. db_clauses H.
  apply unique_insert; [|done]. intros k' y _ Hy. simpl. by eapply bool_decide_eq_false, Hc1.
Qed.

Lemma insert_webhook_endpoint_ok e db : db_ok db → db_ok (insert_webhook_endpoint e db).2.
Proof. apply insert_checked_keeps. intros H Hc. checks_true Hc. db_clauses H. Qed.

Hint Resolve del_notifications_ok del_channel_configs_ok del_tenant_ok : tables.
Hint Resolve log_db Now_db tx_stmt_db : keeps.

(** A statement after a clock reading. *)
Lemma preserves_now {A} (f : Time → M A) :
  (∀ t, preserves db_ok (f t)) → preserves db_ok (now ← time_Now; f now).
Proof. intros H. apply keeps_bind; [apply _| |done]. apply preserves_same, Now_db. Qed.

Lemma preserves_tx_stmt {A B} (r : result A) (k : A → M (result B)) :
  (∀ a, preserves db_ok (k a)) → preserves db_ok (try_bind (tx_stmt r) k).
Proof. intros H. apply keeps_try; [apply _| |done]. apply preserves_same, tx_stmt_db. Qed.

Lemma PgTenantRepo_Create_ok t : preserves db_ok (PgTenantRepo_Create t).
Proof.
  apply preserves_exec. intros db. apply insert_checked_keeps. intros H Hc. checks_true Hc.
  db_clauses H; apply unique_insert; try done; intros k y _ Hy; simpl;
    by eapply bool_decide_eq_false; eauto.
Qed.

Lemma PgTenantRepo_Update_ok id input : preserves db_ok (PgTenantRepo_Update id input).
Proof.
  apply preserves_exec_at. intros tick db H. destruct (tenants db !! id) as [t|] eqn:Ht; [|done].
  simpl. db_clauses H. apply keyed_insert; [|done]. simpl. by eapply ok_tenant_key0.
Qed.

Lemma PgTenantRepo_Delete_ok id : preserves db_ok (PgTenantRepo_Delete id).
Proof. apply preserves_exec. intros db H. case_match; simpl; auto with tables. Qed.

Lemma PgChannelConfigRepo_Create_ok cfg : preserves db_ok (PgChannelConfigRepo_Create cfg).
Proof.
  apply preserves_exec. intros db. apply insert_checked_keeps. intros H Hc. checks_true Hc.
  db_clauses H. apply unique_insert; [|done].
  intros k y _ Hy%Hc2 [= ? ? ?]. apply bool_decide_eq_false in Hy. by apply Hy.
Qed.

Lemma PgChannelConfigRepo_Update_ok id tid input : preserves db_ok (PgChannelConfigRepo_Update id tid input).
Proof.
  apply preserves_exec_at. intros tick db H.
  destruct (channel_configs db !! id) as [c|] eqn:Hc; [|done].
  case_bool_decide as Ht; [subst tid|done]. cbv zeta.
  destruct (no_row _ _) eqn:Hn; [|done]. rewrite no_row_spec in Hn. simpl. db_clauses H.
  - apply keyed_insert; [|done]. simpl; by eapply ok_channel_key0.
  - apply unique_insert; [|done]. intros k' y Hne Hy [= ? ? ?].
    assert (delete id (channel_configs db) !! k' = Some y) as Hy' by (by rewrite lookup_delete_ne).
    apply Hn, bool_decide_eq_false in Hy'. by apply Hy'.
  - apply refers_insert; [|done]. simpl; by eapply ok_channel_tenant0.
Qed.

Lemma PgChannelConfigRepo_Delete_ok id tid : preserves db_ok (PgChannelConfigRepo_Delete id tid).
Proof. apply preserves_exec. intros db H. cbv zeta. destruct (_ =? _)%Z; simpl; auto with tables. Qed.

Lemma PgNotificationRepo_Create_ok n : preserves db_ok (PgNotificationRepo_Create n).
Proof.
  apply preserves_exec. intros db. apply insert_checked_keeps. intros H Hc. checks_true Hc. db_clauses H.
Qed.

Lemma PgNotificationRepo_UpdateStatus_ok id st e : preserves db_ok (PgNotificationRepo_UpdateStatus id st e).
Proof. apply preserves_now. intros. apply preserves_exec. intros. by apply update_notification_ok. Qed.
Lemma PgNotificationRepo_SetAsynqTaskID_ok id i : preserves db_ok (PgNotificationRepo_SetAsynqTaskID id i).
Proof. apply preserves_now. intros. apply preserves_exec. intros. by apply update_notification_ok. Qed.
Lemma PgNotificationRepo_SetProviderMsgID_ok id i : preserves db_ok (PgNotificationRepo_SetProviderMsgID id i).
Proof. apply preserves_now. intros. apply preserves_exec. intros. by apply update_notification_ok. Qed.
Lemma PgNotificationRepo_MarkDelivered_ok id : preserves db_ok (PgNotificationRepo_MarkDelivered id).
Proof. apply preserves_now. intros. apply preserves_exec. intros. by apply update_notification_ok. Qed.
Lemma PgNotificationRepo_IncrementRetry_ok id e : preserves db_ok (PgNotificationRepo_IncrementRetry id e).
Proof.
  apply preserves_now. intros. apply preserves_exec. intros db H.
  destruct (from_option _ _ _); [|done]. by apply update_notification_ok.
Qed.

Lemma PgNotificationRepo_DeleteOlderThan_ok tid cutoff :
  preserves db_ok (PgNotificationRepo_DeleteOlderThan tid cutoff).
Proof.
  apply preserves_tx. intros db H. repeat (apply preserves_tx_stmt; intros ?).
  apply keeps_try; [apply _| |intros; apply keeps_ret, _].
  apply preserves_commit, del_notifications_ok. db_clauses H.
Qed.

Lemma PgDeliveryAttemptRepo_Create_ok a : preserves db_ok (PgDeliveryAttemptRepo_Create a).
Proof.
  apply preserves_exec. intros db. apply insert_checked_keeps. intros H Hc. checks_true Hc. db_clauses H.
Qed.

Lemma PgDeliveryMetricRepo_Upsert_ok m : preserves db_ok (PgDeliveryMetricRepo_Upsert m).
Proof.
  apply keeps_on_err, preserves_exec. intros db. apply insert_checked_keeps.
  intros H Hc. checks_true Hc. db_clauses H.
Qed.

Lemma PgEntitlementRepo_Upsert_ok e : preserves db_ok (PgEntitlementRepo_Upsert e).
Proof.
  apply preserves_exec_at. intros tick db. apply insert_checked_keeps. intros H Hc. checks_true Hc.
  db_clauses H.
Qed.

Lemma PgAPIKeyRepo_Create_ok k : preserves db_ok (PgAPIKeyRepo_Create k).
Proof. apply preserves_exec. intros. by apply insert_api_key_ok. Qed.

Lemma PgAPIKeyRepo_Revoke_ok id tid : preserves db_ok (PgAPIKeyRepo_Revoke id tid).
Proof.
  apply preserves_exec_at. intros tick db H. destruct (api_keys db !! id) as [k|] eqn:Hk; [|done].
  case_bool_decide; [|done]. simpl. db_clauses H.
  - apply keyed_insert; [|done]. simpl; by eapply ok_apikey_key0.
  - apply refers_insert; [|done]. simpl; by eapply ok_apikey_tenant0.
Qed.

Lemma PgAPIKeyRepo_CreateWithinLimit_ok k limit : preserves db_ok (PgAPIKeyRepo_CreateWithinLimit k limit).
Proof.
  apply preserves_tx. intros db H. do 2 (apply preserves_tx_stmt; intros ?).
  destruct (_ <=? _)%Z; [apply keeps_ret, _|]. apply preserves_tx_stmt. intros ?.
  by apply preserves_commit, insert_api_key_ok.
Qed.

Lemma PgWebhookEndpointRepo_CreateWithinLimit_ok e limit :
  preserves db_ok (PgWebhookEndpointRepo_CreateWithinLimit e limit).
Proof.
  apply preserves_tx. intros db H. do 2 (apply preserves_tx_stmt; intros ?).
  destruct (_ <=? _)%Z; [apply keeps_ret, _|]. apply preserves_tx_stmt. intros ?.
  by apply preserves_commit, insert_webhook_endpoint_ok.
Qed.

Lemma PgWebhookEndpointRepo_Update_ok id tid input : preserves db_ok (PgWebhookEndpointRepo_Update id tid input).
Proof.
  apply preserves_exec. intros db H. destruct (webhook_endpoints db !! id) as [e|] eqn:He; [|done].
  case_bool_decide; [|done]. simpl. db_clauses H.
  - apply keyed_insert; [|done]. simpl; by eapply ok_endpoint_key0.
  - apply refers_insert; [|done]. simpl; by eapply ok_endpoint_tenant0.
Qed.

Lemma PgWebhookEndpointRepo_Delete_ok id tid : preserves db_ok (PgWebhookEndpointRepo_Delete id tid).
Proof. apply preserves_exec. intros db H. repeat case_match; simpl; try done. db_clauses H. Qed.
End db_ok_writers.

#[export] Hint Resolve PgTenantRepo_Create_ok PgTenantRepo_Update_ok PgTenantRepo_Delete_ok
  PgChannelConfigRepo_Create_ok PgChannelConfigRepo_Update_ok PgChannelConfigRepo_Delete_ok
  PgNotificationRepo_Create_ok PgNotificationRepo_UpdateStatus_ok PgNotificationRepo_SetAsynqTaskID_ok
  PgNotificationRepo_SetProviderMsgID_ok PgNotificationRepo_MarkDelivered_ok
  PgNotificationRepo_IncrementRetry_ok PgNotificationRepo_DeleteOlderThan_ok
  PgDeliveryAttemptRepo_Create_ok PgDeliveryMetricRepo_Upsert_ok PgEntitlementRepo_Upsert_ok
  PgAPIKeyRepo_Create_ok PgAPIKeyRepo_Revoke_ok PgAPIKeyRepo_CreateWithinLimit_ok
  PgWebhookEndpointRepo_CreateWithinLimit_ok PgWebhookEndpointRepo_Update_ok
  PgWebhookEndpointRepo_Delete_ok : db_ok.

(** ** Runs of the repositories *)

Section runs.
Context `{E : Env}.

(** One writing call, with any arguments, or anything else that leaves the
    tables alone (reads, the queue, HTTP). *)
Inductive repo_step : World → World → Prop :=
| step_tenant_create t w : repo_step w (PgTenantRepo_Create t w).2
| step_tenant_update id i w : repo_step w (PgTenantRepo_Update id i w).2
| step_tenant_delete id w : repo_step w (PgTenantRepo_Delete id w).2
| step_channel_create c w : repo_step w (PgChannelConfigRepo_Create c w).2
| step_channel_update id tid i w : repo_step w (PgChannelConfigRepo_Update id tid i w).2
| step_channel_delete id tid w : repo_step w (PgChannelConfigRepo_Delete id tid w).2
| step_notification_create n w : repo_step w (PgNotificationRepo_Create n w).2
| step_notification_status id st e w : repo_step w (PgNotificationRepo_UpdateStatus id st e w).2
| step_notification_task id t w : repo_step w (PgNotificationRepo_SetAsynqTaskID id t w).2
| step_notification_msg id m w : repo_step w (PgNotificationRepo_SetProviderMsgID id m w).2
| step_notification_delivered id w : repo_step w (PgNotificationRepo_MarkDelivered id w).2
| step_notification_retry id e w : repo_step w (PgNotificationRepo_IncrementRetry id e w).2
| step_notification_purge tid c w : repo_step w (PgNotificationRepo_DeleteOlderThan tid c w).2
| step_attempt_create a w : repo_step w (PgDeliveryAttemptRepo_Create a w).2
| step_metric_upsert m w : repo_step w (PgDeliveryMetricRepo_Upsert m w).2
| step_entitlement_upsert e w : repo_step w (PgEntitlementRepo_Upsert e w).2
| step_key_create k w : repo_step w (PgAPIKeyRepo_Create k w).2
| step_key_create_limit k l w : repo_step w (PgAPIKeyRepo_CreateWithinLimit k l w).2
| step_key_revoke id tid w : repo_step w (PgAPIKeyRepo_Revoke id tid w).2
| step_endpoint_create e l w : repo_step w (PgWebhookEndpointRepo_CreateWithinLimit e l w).2
| step_endpoint_update id tid i w : repo_step w (PgWebhookEndpointRepo_Update id tid i w).2
| step_endpoint_delete id tid w : repo_step w (PgWebhookEndpointRepo_Delete id tid w).2
| step_other w w' : w_db w' = w_db w → repo_step w w'.

Lemma repo_step_ok w w' : repo_step w w' → db_ok (w_db w) → db_ok (w_db w').
Proof.
  destruct 1 as [ | | | | | | | | | | | | | | | | | | | | | |w w' Heq]; [..|by rewrite Heq].
  all: match goal with |- _ → db_ok (w_db (?m ?w).2) =>
         enough (preserves db_ok m) as Hm by (apply Hm); eauto with db_ok end.
Qed.

(** The tables of a freshly migrated database. *)
Definition empty_db : DB := mkDB ∅ ∅ ∅ ∅ ∅ ∅ ∅ ∅.

Lemma empty_db_ok : db_ok empty_db.
Proof. constructor; simpl; try apply map_Forall_empty; intros ??????; simplify_map_eq. Qed.
End runs.
