(* ===== verification/Tasks.v ===== *)
(** * Tasks: the asynq tasks of internal/worker and their retry delays

    tasks.go, webhook_event_task.go, webhook_event_retry_delay.go and the
    [retryDelay] closure of cmd/worker/main.go.  Payloads travel through Redis as
    JSON: [json_*] is [json.Marshal], [dec_*] is [json.Unmarshal]. *)
From S2P Require Import Prelude GoTime Json Domain World.

(** ** Payloads *)

Record NotificationDeliverPayload := mkNotificationDeliverPayload {
  p_NotificationID : uuid;
  p_TenantID : uuid;
  p_ChannelType : string;
  p_ChannelConfigID : uuid;
  p_Subject : string;
  p_Body : string;
  p_Metadata : RawMessage;
  p_DeliveryPrefs : option DeliveryPreferences
}.

Record WebhookEventData := mkWebhookEventData {
  wd_NotificationID : uuid;
  wd_ChannelConfigID : uuid;
  wd_Channel : string;
  wd_Status : string;
  wd_Attempts : Z;
  wd_Metadata : RawMessage
}.

Record WebhookEventPayload := mkWebhookEventPayload {
  we_ID : string;
  we_Type : string;
  we_CreatedAt : Time;
  we_Data : WebhookEventData
}.

Record WebhookEventTaskPayload := mkWebhookEventTaskPayload {
  wt_EndpointID : uuid;
  wt_Event : WebhookEventPayload
}.

Definition TypeNotificationDeliver : string := "notification:deliver".
Definition TypeWebhookEvent : string := "webhook:event".
Definition TypeRetentionPurge : string := "retention:purge".
Definition TypeUsageReconcile : string := "usage:reconcile".
Definition queueWebhooks : string := "webhooks".
Definition webhookEventMaxRetry : Z := 8.
Definition webhookEventMinRetryDelay : Duration := 2 * Minute.
Definition webhookEventMaxRetryDelay : Duration := 2 * Hour.

Definition queueForPriority (priority : string) : string :=
  if bool_decide (priority = "critical") then "critical"
  else if bool_decide (priority = "low") then "low"
  else "notifications".

Section tasks.
Context `{E : Env}.

(** *** JSON forms of UUIDs, timestamps and raw messages *)

Definition json_uuid (u : uuid) : json := JStr (uuid_String u).
Definition dec_uuid : decoder uuid := λ cur v,
  match v with
  | JStr s => match uuid_Parse s with Some u => Ok u | None => Err (errors_New "invalid UUID") end
  | JNull => Ok cur
  | _ => Err type_error
  end.

(** A nil [json.RawMessage] is written as [null]. *)
Definition json_raw (r : RawMessage) : json := default JNull r.

(** [time.Time.MarshalJSON] refuses years outside [0,9999]. *)
Definition json_time (t : Time) : result json :=
  if bool_decide (0 ≤ time_Year t ≤ 9999)%Z then Ok (JStr (rfc3339nano t))
  else Err (errors_New "Time.MarshalJSON: year outside of range [0,9999]").
Definition dec_time : decoder Time := λ cur v,
  match v with
  | JStr s => match parse_rfc3339 s with Some t => Ok t | None => Err (errors_New "parsing time") end
  | JNull => Ok cur
  | _ => Err (errors_New "Time.UnmarshalJSON: input is not a JSON string")
  end.

(** *** notification:deliver *)

Definition json_NotificationDeliverPayload (p : NotificationDeliverPayload) : json := JObj
  ([("notification_id", json_uuid (p_NotificationID p));
    ("tenant_id", json_uuid (p_TenantID p));
    ("channel_type", JStr (p_ChannelType p));
    ("channel_config_id", json_uuid (p_ChannelConfigID p));
    ("subject", JStr (p_Subject p));
    ("body", JStr (p_Body p));
    ("metadata", json_raw (p_Metadata p))] ++
   match p_DeliveryPrefs p with None => [] | Some d => [("delivery_prefs", json_DeliveryPreferences d)] end).

Definition dec_NotificationDeliverPayload (j : json) : result NotificationDeliverPayload :=
  kvs <-? json_object j;
  nid <-? field dec_uuid "notification_id" uuid_Nil kvs;
  tid <-? field dec_uuid "tenant_id" uuid_Nil kvs;
  ct <-? field dec_string "channel_type" "" kvs;
  cid <-? field dec_uuid "channel_config_id" uuid_Nil kvs;
  subject <-? field dec_string "subject" "" kvs;
  body <-? field dec_string "body" "" kvs;
  meta <-? field dec_raw "metadata" None kvs;
  prefs <-? field (dec_ptr dec_DeliveryPreferences zero_DeliveryPreferences) "delivery_prefs" None kvs;
  Ok (mkNotificationDeliverPayload nid tid ct cid subject body meta prefs).

Definition notif_task_id (id : uuid) : string := "notif:" +:+ uuid_String id.

Definition NewNotificationDeliverTask (p : NotificationDeliverPayload) (opts : list asynq_Option) : Task :=
  let payload := json_NotificationDeliverPayload p in
  let queue := match p_DeliveryPrefs p with
               | Some d => if bool_decide (dp_Priority d = "") then "notifications"
                           else queueForPriority (dp_Priority d)
               | None => "notifications"
               end in
  let maxRetry := match p_DeliveryPrefs p with
                  | Some d => default 5%Z (dp_MaxRetries d)
                  | None => 5%Z
                  end in
  let defaultOpts := [Queue queue; MaxRetry maxRetry; TaskID (notif_task_id (p_NotificationID p));
                      Timeout (30 * Second)] in
  NewTask TypeNotificationDeliver payload (defaultOpts ++ opts).

(** *** webhook:event *)

Definition json_WebhookEventData (d : WebhookEventData) : json := JObj
  [("notification_id", json_uuid (wd_NotificationID d));
   ("channel_config_id", json_uuid (wd_ChannelConfigID d));
   ("channel", JStr (wd_Channel d));
   ("status", JStr (wd_Status d));
   ("attempts", JInt (wd_Attempts d));
   ("metadata", json_raw (wd_Metadata d))].

Definition json_WebhookEventPayload (e : WebhookEventPayload) : result json :=
  created <-? json_time (we_CreatedAt e);
  Ok (JObj [("id", JStr (we_ID e)); ("type", JStr (we_Type e)); ("created_at", created);
            ("data", json_WebhookEventData (we_Data e))]).

Definition json_WebhookEventTaskPayload (p : WebhookEventTaskPayload) : result json :=
  event <-? json_WebhookEventPayload (wt_Event p);
  Ok (JObj [("endpoint_id", json_uuid (wt_EndpointID p)); ("event", event)]).

Definition zero_WebhookEventData : WebhookEventData := mkWebhookEventData uuid_Nil uuid_Nil "" "" 0 None.
Definition zero_WebhookEventPayload : WebhookEventPayload :=
  mkWebhookEventPayload "" "" time_zero zero_WebhookEventData.

Definition dec_WebhookEventData : decoder WebhookEventData := λ cur j,
  kvs <-? json_object j;
  nid <-? field dec_uuid "notification_id" (wd_NotificationID cur) kvs;
  cid <-? field dec_uuid "channel_config_id" (wd_ChannelConfigID cur) kvs;
  ch <-? field dec_string "channel" (wd_Channel cur) kvs;
  st <-? field dec_string "status" (wd_Status cur) kvs;
  n <-? field dec_int "attempts" (wd_Attempts cur) kvs;
  meta <-? field dec_raw "metadata" (wd_Metadata cur) kvs;
  Ok (mkWebhookEventData nid cid ch st n meta).

Definition dec_WebhookEventPayload : decoder WebhookEventPayload := λ cur j,
  kvs <-? json_object j;
  id <-? field dec_string "id" (we_ID cur) kvs;
  ty <-? field dec_string "type" (we_Type cur) kvs;
  created <-? field dec_time "created_at" (we_CreatedAt cur) kvs;
  data <-? field dec_WebhookEventData "data" (we_Data cur) kvs;
  Ok (mkWebhookEventPayload id ty created data).

Definition dec_WebhookEventTaskPayload (j : json) : result WebhookEventTaskPayload :=
  kvs <-? json_object j;
  eid <-? field dec_uuid "endpoint_id" uuid_Nil kvs;
  event <-? field dec_WebhookEventPayload "event" zero_WebhookEventPayload kvs;
  Ok (mkWebhookEventTaskPayload eid event).

Definition webhook_task_id (eventID : string) (endpointID : uuid) : string :=
  "webhookevent:" +:+ eventID +:+ ":" +:+ uuid_String endpointID.

Definition NewWebhookEventTask (p : WebhookEventTaskPayload) : result Task :=
  payload <-? map_err (errorf_w "marshal payload") (json_WebhookEventTaskPayload p);
  Ok (NewTask TypeWebhookEvent payload
        [Queue queueWebhooks; MaxRetry webhookEventMaxRetry;
         TaskID (webhook_task_id (we_ID (wt_Event p)) (wt_EndpointID p));
         Timeout (30 * Second)]).

(** ** Retry delays *)

(** [1 << uint(n)] at type int64. *)
Definition shl1 (n : Z) : Z :=
  if bool_decide (0 ≤ n < 64)%Z then wrap64 (2 ^ n) else 0%Z.

Definition jitter (base : Duration) : M Duration :=
  let fifth := (base /t 5)%Z in
  if (fifth <=? 0)%Z then mret 0%Z else rand_Int64N fifth.

Definition WebhookEventRetryDelay (n : Z) : M Duration :=
  let base := wrap64 (webhookEventMinRetryDelay * shl1 n) in
  let base := if (webhookEventMaxRetryDelay <? base)%Z then webhookEventMaxRetryDelay else base in
  j ← jitter base;
  let delay := wrap64 (base + j) in
  mret (if (webhookEventMaxRetryDelay <? delay)%Z then webhookEventMaxRetryDelay else delay).

(** A computation that may panic answers [None]. *)
Definition RetryDelayForTask (defaultDelay : Z → M (option Duration)) (n : Z) (t : Task)
    : M (option Duration) :=
  if bool_decide (task_Type t = TypeWebhookEvent)
  then Some <$> WebhookEventRetryDelay n
  else defaultDelay n.

(** [rand.Int64N] panics when its argument is not positive. *)
Definition rand_Int64N_checked (n : Z) : M (option Z) :=
  if (n <=? 0)%Z then mret None else Some <$> rand_Int64N n.

(** The closure of cmd/worker/main.go, with the configured bounds. *)
Definition worker_retryDelay (MinRetryDelay MaxRetryDelay : Duration) (n : Z) : M (option Duration) :=
  let base := wrap64 (MinRetryDelay * shl1 n) in
  let base := if (MaxRetryDelay <? base)%Z then MaxRetryDelay else base in
  j ← rand_Int64N_checked (base /t 5);
  mret ((λ j, wrap64 (base + j)) <$> j).
End tasks.

(** The delays configured by default (internal/config/config.go). *)
Definition default_MinRetryDelay : Duration := 15 * Second.
Definition default_MaxRetryDelay : Duration := 30 * Minute.

(** ** Lemmas *)

Section task_lemmas.
Context {E : Env} {UL : UuidLaws E}.

Lemma dec_json_uuid cur u : dec_uuid cur (json_uuid u) = Ok u.
Proof. unfold dec_uuid, json_uuid. by rewrite uuid_Parse_String. Qed.

Lemma dec_json_time cur t j : json_time t = Ok j → dec_time cur j = Ok t.
Proof.
  unfold json_time. case_bool_decide; [|done]. intros [= <-]. simpl. by rewrite parse_rfc3339_format.
Qed.

(** The deliver payload survives Redis, except that absent metadata comes back
    as the document [null]. *)
Lemma dec_json_NotificationDeliverPayload p :
  (∀ d, p_DeliveryPrefs p = Some d → prefs_in_range d) →
  dec_NotificationDeliverPayload (json_NotificationDeliverPayload p) =
    Ok (mkNotificationDeliverPayload (p_NotificationID p) (p_TenantID p) (p_ChannelType p)
          (p_ChannelConfigID p) (p_Subject p) (p_Body p) (Some (json_raw (p_Metadata p)))
          (p_DeliveryPrefs p)).
Proof.
  destruct p as [nid tid ct cid subj body meta prefs]. simpl. intros Hr.
  unfold dec_NotificationDeliverPayload, json_NotificationDeliverPayload.
  cbn [json_object rbind p_NotificationID p_TenantID p_ChannelType p_ChannelConfigID p_Subject p_Body p_Metadata p_DeliveryPrefs].
  destruct prefs as [d|]; cbn [app field]; json_fields; rewrite !dec_json_uuid; json_fields; [|done].
  unfold dec_ptr. simpl default. rewrite dec_json_DeliveryPreferences by eauto. done.
Qed.

Lemma dec_json_WebhookEventData cur d :
  in_int64 (wd_Attempts d) →
  dec_WebhookEventData cur (json_WebhookEventData d) =
    Ok (mkWebhookEventData (wd_NotificationID d) (wd_ChannelConfigID d) (wd_Channel d) (wd_Status d)
          (wd_Attempts d) (Some (json_raw (wd_Metadata d)))).
Proof.
  destruct d as [nid cid ch st n meta]. simpl. intros Hn.
  unfold dec_WebhookEventData, json_WebhookEventData. cbn [json_object rbind field].
  json_fields. rewrite !dec_json_uuid. json_fields. unfold dec_int.
  rewrite bool_decide_eq_true_2 by done. done.
Qed.

Lemma dec_json_WebhookEventTaskPayload p j :
  in_int64 (wd_Attempts (we_Data (wt_Event p))) →
  json_WebhookEventTaskPayload p = Ok j →
  dec_WebhookEventTaskPayload j =
    Ok (mkWebhookEventTaskPayload (wt_EndpointID p)
          (mkWebhookEventPayload (we_ID (wt_Event p)) (we_Type (wt_Event p)) (we_CreatedAt (wt_Event p))
             (let d := we_Data (wt_Event p) in
              mkWebhookEventData (wd_NotificationID d) (wd_ChannelConfigID d) (wd_Channel d) (wd_Status d)
                (wd_Attempts d) (Some (json_raw (wd_Metadata d)))))).
Proof.
  destruct p as [eid [id ty created d]]. simpl. intros Hn.
  unfold json_WebhookEventTaskPayload, json_WebhookEventPayload. simpl.
  destruct (json_time created) as [jt|] eqn:Ht; [|done]. simpl. intros [= <-].
  unfold dec_WebhookEventTaskPayload. cbn [json_object rbind field]. json_fields. rewrite dec_json_uuid. json_fields.
  unfold dec_WebhookEventPayload. cbn [json_object rbind field]. json_fields.
  rewrite (dec_json_time _ _ _ Ht). json_fields. by rewrite dec_json_WebhookEventData.
Qed.

#[export] Instance notif_task_id_inj : Inj (=) (=) notif_task_id.
Proof. intros u v H. apply string_app_inj_r in H. by apply uuid_String_inj. Qed.
End task_lemmas.

Lemma string_app_inj_r_len (s1 s2 t1 t2 : string) :
  String.length t1 = String.length t2 → s1 +:+ t1 = s2 +:+ t2 → s1 = s2 ∧ t1 = t2.
Proof.
  intros Ht Heq. apply string_app_inj_len; [|done].
  apply (f_equal String.length) in Heq. rewrite !string_length_app in Heq. lia.
Qed.

Lemma webhook_task_id_inj {E : Env} {UL : UuidLaws E} id1 id2 e1 e2 :
  webhook_task_id id1 e1 = webhook_task_id id2 e2 → id1 = id2 ∧ e1 = e2.
Proof.
  unfold webhook_task_id. intros H%string_app_inj_r. rewrite <- !string_app_assoc in H.
  apply string_app_inj_r_len in H as [H1 H2]; [|by rewrite !uuid_String_length].
  apply uuid_String_inj in H2. apply string_app_inj_r_len in H1 as [-> _]; done.
Qed.

(** *** Delays *)

Lemma shl1_small n : (0 ≤ n < 63)%Z → shl1 n = (2 ^ n)%Z.
Proof.
  intros Hn. unfold shl1. rewrite bool_decide_eq_true_2 by lia. apply wrap64_id.
  pose proof (Z.pow_pos_nonneg 2 n). pose proof (Z.pow_le_mono_r 2 n 62).
  unfold in_int64, int64_min, int64_max. lia.
Qed.

Section delays.
Context {E : Env} {RL : RandLaws E}.

Lemma jitter_range base w : (0 ≤ base)%Z → (0 ≤ (jitter base w).1 ≤ base /t 5)%Z.
Proof.
  intros Hb. unfold jitter. pose proof (Z.quot_pos base 5 Hb).
  destruct (Z.leb_spec (base /t 5) 0); simpl; [lia|].
  pose proof (env_Int64N_range (w_tick w) (base /t 5)). lia.
Qed.

(** The curve before jitter. *)
Definition backoff (lo hi n : Z) : Z := Z.min (lo * 2 ^ n) hi.

Lemma backoff_pos lo hi n : (0 < lo)%Z → (0 < hi)%Z → (0 ≤ n)%Z → (0 < backoff lo hi n)%Z.
Proof. unfold backoff. intros. pose proof (Z.pow_pos_nonneg 2 n). nia. Qed.

Lemma capped_base lo hi n :
  (0 ≤ n < 63)%Z → in_int64 (lo * 2 ^ n) →
  (if (hi <? wrap64 (lo * shl1 n))%Z then hi else wrap64 (lo * shl1 n)) = backoff lo hi n.
Proof.
  intros Hn Hi. rewrite shl1_small, wrap64_id by done. unfold backoff.
  destruct (Z.ltb_spec hi (lo * 2 ^ n)); lia.
Qed.

Lemma WebhookEventRetryDelay_range n w :
  (0 ≤ n ≤ 26)%Z →
  let b := backoff webhookEventMinRetryDelay webhookEventMaxRetryDelay n in
  (b ≤ (WebhookEventRetryDelay n w).1 ≤ Z.min (b + b /t 5) webhookEventMaxRetryDelay)%Z.
Proof.
  intros Hn. cbv zeta. unfold WebhookEventRetryDelay. cbv zeta.
  assert (0 < 2 ^ n ≤ 2 ^ 26)%Z as Hp.
  { split; [by apply Z.pow_pos_nonneg; lia|]. apply Z.pow_le_mono_r; lia. }
  rewrite capped_base; [|lia|unfold in_int64, int64_min, int64_max, webhookEventMinRetryDelay, Minute, Second; lia].
  set (b := backoff _ _ _).
  assert (0 < b ≤ webhookEventMaxRetryDelay)%Z as Hb.
  { split; [apply backoff_pos; [done..|lia]|]. unfold b, backoff. lia. }
  unfold mbind, ST_bind. pose proof (jitter_range b w ltac:(lia)) as Hj.
  destruct (jitter b w) as [j w1]. simpl in *.
  rewrite wrap64_id.
  2: { unfold in_int64, int64_min, int64_max, webhookEventMaxRetryDelay, Hour, Minute, Second in *.
       pose proof (Z.quot_le_upper_bound b 5 b). lia. }
  destruct (Z.ltb_spec webhookEventMaxRetryDelay (b + j)); lia.
Qed.

Lemma worker_retryDelay_range lo hi n w :
  (5 ≤ lo)%Z → (5 ≤ hi)%Z → (0 ≤ n < 63)%Z → in_int64 (lo * 2 ^ n) → in_int64 (hi + hi) →
  let b := backoff lo hi n in
  ∃ d, (worker_retryDelay lo hi n w).1 = Some d ∧ (b ≤ d < b + b /t 5)%Z.
Proof.
  intros Hlo Hhi Hn Hi Hh. cbv zeta. unfold worker_retryDelay. cbv zeta.
  rewrite capped_base by done. set (b := backoff lo hi n).
  assert (5 ≤ b ≤ hi)%Z as Hb.
  { unfold b, backoff. pose proof (Z.pow_pos_nonneg 2 n). nia. }
  assert (0 < b /t 5 ≤ b)%Z as Hq.
  { split; [apply Z.quot_str_pos; lia|]. apply Z.quot_le_upper_bound; lia. }
  unfold rand_Int64N_checked. destruct (Z.leb_spec (b /t 5) 0); [lia|].
  unfold mbind, ST_bind, fmap, ST_fmap. simpl. eexists; split; [done|].
  pose proof (env_Int64N_range (w_tick w) (b /t 5)) as Hr.
  rewrite wrap64_id; [lia|]. unfold in_int64, int64_min, int64_max in *. lia.
Qed.
End delays.
