(* ===== verification/Provider.v ===== *)
(** * Provider: the interface of the channel backends and their registry

    provider.go and registry.go of internal/provider. *)
From S2P Require Import Prelude GoTime Json Domain World.

Record SendRequest := mkSendRequest {
  sq_NotificationID : uuid;
  sq_Subject : string;
  sq_Body : string;
  sq_Metadata : RawMessage;
  sq_FormatMode : string
}.

(** [sr_ProviderData] holds the provider's raw bytes, [None] for nil. *)
Record SendResponse := mkSendResponse {
  sr_Success : bool;
  sr_ProviderMsgID : string;
  sr_ProviderData : option string;
  sr_ErrorMessage : string;
  sr_Permanent : bool
}.

Record DeliveryMetrics := mkDeliveryMetrics {
  dm_ProviderMsgID : string;
  dm_DeliveredAt : option Time;
  dm_ReadAt : option Time;
  dm_Interactions : RawMessage
}.

Definition CapReadReceipts : string := "read_receipts".
Definition CapDeliveryStatus : string := "delivery_status".
Definition CapClickTracking : string := "click_tracking".

(** The methods of the Go interface. *)
Record Provider `{E : Env} := mkProvider {
  pr_Type : string;
  pr_Capabilities : list string;
  pr_Send : RawMessage → SendRequest → M (result SendResponse);
  pr_FetchMetrics : RawMessage → string → M (result DeliveryMetrics);
  pr_ValidateConfig : RawMessage → result unit
}.

Section registry.
Context `{E : Env}.

Definition Registry : Type := gmap string Provider.

Definition NewRegistry : Registry := ∅.

Definition Registry_Register (r : Registry) (p : Provider) : Registry := <[pr_Type p := p]> r.

Definition Registry_Get (r : Registry) (channelType : string) : result Provider :=
  match r !! channelType with
  | Some p => Ok p
  | None => Err (errorf_s ErrUnsupportedChannel ("no provider registered for channel type: " +:+ channelType))
  end.

(** A provider talks to its backend only: it neither writes the tables nor
    enqueues tasks, and leaves retrying to the dispatcher. *)
Class ProviderLaws (p : Provider) : Prop := {
  Send_keeps_db cfg q : keeps (same w_db) (pr_Send p cfg q);
  Send_keeps_tasks cfg q : keeps (same w_tasks) (pr_Send p cfg q);
  Send_no_skip cfg q w e : (pr_Send p cfg q w).1 = Err e → errors_Is e SkipRetry = false
}.

Definition registry_ok (r : Registry) : Prop :=
  map_Forall (λ ty p, pr_Type p = ty ∧ ProviderLaws p) r.

Lemma NewRegistry_ok : registry_ok NewRegistry.
Proof. apply map_Forall_empty. Qed.

Lemma Register_ok r p : ProviderLaws p → registry_ok r → registry_ok (Registry_Register r p).
Proof. intros. by apply map_Forall_insert_2. Qed.

Lemma Get_Register r p ty :
  Registry_Get (Registry_Register r p) ty =
    if bool_decide (pr_Type p = ty) then Ok p else Registry_Get r ty.
Proof.
  unfold Registry_Get, Registry_Register. case_bool_decide as H.
  - subst ty. assert (<[pr_Type p := p]> r !! pr_Type p = Some p) as -> by apply (lookup_insert_eq (M:=gmap string)).
    done.
  - assert (<[pr_Type p := p]> r !! ty = r !! ty) as -> by (by apply (lookup_insert_ne (M:=gmap string))). done.
Qed.
End registry.

#[export] Hint Resolve Send_keeps_db Send_keeps_tasks : keeps.
