(* ===== verification/Samples.v ===== *)
(** * Samples: small concrete databases and providers

    One tenant with a Discord channel, a pending notification and two webhook
    endpoints, and providers that give a fixed answer. *)
From S2P Require Import Prelude GoTime Json Domain World Repository Integrity SampleEnv Tasks Provider.

Definition id_tenant : uuid := mkUuid 1 eq_refl.
Definition id_channel : uuid := mkUuid 2 eq_refl.
Definition id_notification : uuid := mkUuid 3 eq_refl.
Definition id_endpoint : uuid := mkUuid 4 eq_refl.
Definition id_endpoint2 : uuid := mkUuid 5 eq_refl.
Definition id_key : uuid := mkUuid 6 eq_refl.

Definition sample_now : Time := time_Date 2026 3 14.

Definition sample_tenant : Tenant :=
  mkTenant id_tenant "Acme" "acme" "nk_1" "hash" true sample_now sample_now.
Definition sample_channel : ChannelRow :=
  mkChannelRow id_channel id_tenant ChannelDiscord "alerts" (JObj [("webhook_url", JStr "https://discord.com/api/webhooks/1")])
    true None sample_now sample_now.
Definition sample_notification : Notification :=
  mkNotification id_notification id_tenant id_channel ChannelDiscord None "hello" None StatusPending None 0 5
    None None None sample_now sample_now.
Definition sample_endpoint (id : uuid) (events : list string) : WebhookEndpoint :=
  mkWebhookEndpoint id id_tenant "https://example.com/hook" "whsec" events true sample_now.

Definition sample_db : DB :=
  mkDB {[id_tenant := sample_tenant]} {[id_channel := sample_channel]} {[id_notification := sample_notification]}
    ∅ ∅ ∅ ∅ {[id_endpoint := sample_endpoint id_endpoint [WebhookEventDelivered; WebhookEventFailed]]}.

Lemma unique_singleton {A K} (key : A → K) (i : uuid) (x : A) : unique_on key ({[i := x]} : gmap uuid A).
Proof. intros k1 k2 x1 x2 [-> _]%lookup_singleton_Some [-> _]%lookup_singleton_Some. done. Qed.
Lemma unique_empty {A K} (key : A → K) : unique_on key (∅ : gmap uuid A).
Proof. intros k1 k2 x1 x2 H. by rewrite lookup_empty in H. Qed.

Lemma sample_db_ok : db_ok sample_db.
Proof.
  constructor; simpl; try apply unique_singleton; try apply unique_empty; try apply map_Forall_empty.
  all: apply map_Forall_singleton; try done; simpl; rewrite lookup_singleton_eq; eauto.
Qed.

Section sample_providers.
Context `{E : Env}.

(** A backend that always gives the same answer. *)
Definition fixed_provider (type : string) (answer : result SendResponse) : Provider :=
  mkProvider _ type [] (λ _ _, mret answer) (λ _ _, mret (Err (sentinel_error ErrMetricsNotSupported)))
    (λ _, Ok tt).

Lemma fixed_provider_laws type answer :
  (∀ e, answer = Err e → errors_Is e SkipRetry = false) → ProviderLaws (fixed_provider type answer).
Proof. intros H. split; [by intros ?? w|by intros ?? w|]. intros ?? w e He. by apply H. Qed.

Definition sample_registry (answer : result SendResponse) : Registry :=
  Registry_Register NewRegistry (fixed_provider ChannelDiscord answer).

Lemma sample_registry_ok answer :
  (∀ e, answer = Err e → errors_Is e SkipRetry = false) → registry_ok (sample_registry answer).
Proof. intros H. apply Register_ok; [by apply fixed_provider_laws|apply NewRegistry_ok]. Qed.
End sample_providers.

Definition sample_payload : NotificationDeliverPayload :=
  mkNotificationDeliverPayload id_notification id_tenant ChannelDiscord id_channel "" "hello" None None.

Definition rejected : result SendResponse := Ok (mkSendResponse false "" (Some "{}") "rate limited" false).
Definition accepted : result SendResponse := Ok (mkSendResponse true "msg-1" (Some "{}") "" false).
(** Discord answers 204 with an empty body. *)
Definition accepted_empty : result SendResponse := Ok (mkSendResponse true "" (Some "") "" false).
