(* ===== verification/RepositoryProps.v ===== *)
(** * RepositoryProps: the properties of the PostgreSQL repositories *)
From S2P Require Import Prelude GoTime Json Domain World Repository Integrity SampleEnv Tasks Provider.
From S2P Require Import Samples.

(** ** Delivery preferences in their [jsonb] column *)

(** What a reader gets back: an empty block is stored as an absent one. *)
Definition stored_prefs (p : option DeliveryPreferences) : option DeliveryPreferences :=
  match p with
  | Some (mkDeliveryPreferences "" None "") => None
  | _ => p
  end.

Section prefs.
Context {E : Env} {PL : PgLaws E}.

Lemma marshal_prefs_keys p : ∃ kvs,
  json_DeliveryPreferences p = JObj kvs ∧
  kvs.*1 `sublist_of` ["priority"; "max_retries"; "format_mode"] ∧
  Forall (λ kv, is_scalar kv.2 = true) kvs ∧
  (kvs = [] → stored_prefs (Some p) = None) ∧
  (kvs ≠ [] → stored_prefs (Some p) = Some p).
Proof.
  destruct p as [prio mr fmt]; simpl. unfold json_DeliveryPreferences; simpl. eexists; split; [done|].
  case_bool_decide; case_bool_decide; destruct mr; subst; simpl.
  all: split_and!; try (by repeat constructor); try done.
  all: intros; repeat case_match; done.
Qed.

Lemma jsonb_members kvs :
  NoDup kvs.*1 → Forall (λ kv, is_scalar kv.2 = true) kvs →
  ∃ kvs', jsonb (JObj kvs) = JObj kvs' ∧ kvs' ≡ₚ kvs.
Proof.
  intros Hnd Hs. destruct (jsonb_object kvs Hnd) as (kvs' & -> & Hp). exists kvs'. split; [done|].
  rewrite Hp. apply Permutation_refl'. clear Hp Hnd. induction Hs as [|[k v] l Hv _ IH]; [done|].
  csimpl. f_equal; [|done]. f_equal. by apply jsonb_scalar.
Qed.

Lemma decode_prefs_perm cur kvs kvs' :
  kvs' ≡ₚ kvs → kvs.*1 `sublist_of` ["priority"; "max_retries"; "format_mode"] →
  dec_DeliveryPreferences cur (JObj kvs') = dec_DeliveryPreferences cur (JObj kvs).
Proof.
  intros Hp Hs. unfold dec_DeliveryPreferences. simpl.
  assert (NoDup (ToLower ∘ fst <$> kvs')) as Hnd.
  { rewrite Hp, list_fmap_compose. eapply sublist_NoDup; [|apply fmap_sublist, Hs].
    by apply (bool_decide_unpack _). }
  by rewrite !(field_perm _ _ _ kvs' kvs Hp Hnd).
Qed.

Lemma unmarshal_marshal_prefs p :
  (∀ x, p = Some x → prefs_in_range x) →
  unmarshalDeliveryPrefs (jsonb <$> marshalDeliveryPrefs p) = stored_prefs p.
Proof.
  intros Hn. destruct p as [p|]; [|done].
  destruct (marshal_prefs_keys p) as (kvs & Hm & Hsub & Hsc & Hnil & Hcons).
  cbn [marshalDeliveryPrefs fmap option_fmap option_map]. rewrite Hm.
  destruct (jsonb_members kvs) as (kvs' & -> & Hp); [|done|].
  { eapply sublist_NoDup; [|exact Hsub]. by apply (bool_decide_unpack _). }
  destruct kvs' as [|kv l].
  { apply Permutation_nil_l in Hp. by rewrite Hnil. }
  rewrite Hcons by (intros ->; by apply Permutation_nil_r in Hp).
  cbn [unmarshalDeliveryPrefs]. rewrite (decode_prefs_perm _ kvs) by done.
  rewrite <- Hm. by rewrite dec_json_DeliveryPreferences by eauto.
Qed.
End prefs.

(** The preferences of a stored channel are in range, whatever the column holds. *)
Lemma config_prefs_range c d : cc_DeliveryPrefs (config_of_row c) = Some d → prefs_in_range d.
Proof.
  simpl. unfold unmarshalDeliveryPrefs. intros H.
  destruct (cr_DeliveryPrefs c) as [j|]; [|done].
  destruct (dec_DeliveryPreferences zero_DeliveryPreferences j) as [p|] eqn:Hd.
  - assert (p = d) as -> by (destruct j as [| | | | | |[|? ?]]; congruence). by eapply dec_DeliveryPreferences_range.
  - destruct j as [| | | | | |[|? ?]]; congruence.
Qed.

(** ** Entitlements with the free plan as a default *)

(** The entitlements a tenant runs under: its row, or the free plan of some
    clock reading. *)
Definition entitled `{E : Env} (db : DB) (tid : uuid) (ent : Entitlements) : Prop :=
  match tenant_entitlements db !! tid with
  | Some row => ent = row
  | None => ∃ tick, ent = FreeDefaults tid (env_now tick)
  end.

Section entitlements.
Context {E : Env}.

(** Whatever fails, a plan that is answered is the tenant's. *)
Lemma EntitlementsOrFree_outcome tid w :
  ∃ r w', EntitlementsOrFree PgEntitlementRepo_GetByTenantID time_Now tid w = (r, w') ∧
    w_db w' = w_db w ∧ w_redis w' = w_redis w ∧ w_tasks w' = w_tasks w ∧
    ∀ ent, r = Ok ent → entitled (w_db w) tid ent.
Proof.
  unfold EntitlementsOrFree, PgEntitlementRepo_GetByTenantID, db_query, db_exec, entitled. rewrite ST_bind_run.
  destruct (env_fault _); [|by eexists _, _..].
  simpl. destruct (tenant_entitlements (w_db w) !! tid) as [row|] eqn:Hr; simpl.
  - eexists _, _. split_and!; [done..|]. by intros ent [= ->].
  - rewrite ST_bind_run. eexists _, _. split_and!; [done..|]. intros ent [= <-]. by eexists.
Qed.

Context (Hf : no_faults).

Lemma EntitlementsOrFree_fine tid w :
  ∃ ent w', EntitlementsOrFree PgEntitlementRepo_GetByTenantID time_Now tid w = (Ok ent, w') ∧
    w_db w' = w_db w ∧ w_redis w' = w_redis w ∧
    match tenant_entitlements (w_db w) !! tid with
    | Some row => ent = row
    | None => ∃ tick, ent = FreeDefaults tid (env_now tick)
    end.
Proof.
  unfold EntitlementsOrFree, PgEntitlementRepo_GetByTenantID. rewrite ST_bind_run, db_query_fine by done. simpl.
  destruct (tenant_entitlements (w_db w) !! tid) as [row|] eqn:Hr; simpl; [by eexists _, _|].
  rewrite ST_bind_run. eexists _, _. split; [done|]. split_and!; [done..|]. by eexists.
Qed.
End entitlements.

(** ** Counting rows *)

Lemma sql_count_insert {A} (p : A → bool) (m : gmap uuid A) k x :
  m !! k = None → sql_count p (<[k := x]> m) = (sql_count p m + if p x then 1 else 0)%Z.
Proof.
  intros Hk. unfold sql_count. rewrite map_to_list_insert by done. rewrite filter_cons.
  case_decide as Hp; simpl in Hp |- *; [rewrite Hp|rewrite (not_true_is_false _ Hp)]; simpl; lia.
Qed.

Lemma sql_count_nonneg {A} (p : A → bool) (m : gmap uuid A) : (0 ≤ sql_count p m)%Z.
Proof. unfold sql_count. lia. Qed.

(** ** Check-then-insert transactions *)

Section within_limit.
Context `{E : Env} (tid : uuid) (count : DB → Z) (limit : Z) (full : sentinel)
  (ins : DB → result unit * DB).

(** The transaction of the two [CreateWithinLimit] methods. *)
Definition within_limit : M (result unit) :=
  db ←? tx_begin;
  _ ←? tx_stmt (lock_tenant tid db);
  n ←? tx_stmt (Ok (count db));
  if (limit <=? n)%Z then mret (Err (sentinel_error full))
  else _ ←? tx_stmt (ins db).1; tx_commit (ins db).2.

(** Nothing is written, or the row is written below the limit. *)
Lemma within_limit_outcome w :
  (w_db (within_limit w).2 = w_db w ∧ is_Ok (within_limit w).1 = false) ∨
  (is_Some (tenants (w_db w) !! tid) ∧ (count (w_db w) < limit)%Z ∧ (ins (w_db w)).1 = Ok tt ∧
   w_db (within_limit w).2 = (ins (w_db w)).2).
Proof.
  unfold within_limit, tx_begin, tx_stmt, tx_commit, db_exec, try_bind, mbind, ST_bind, lock_tenant.
  destruct (env_fault _); simpl; [|by left..].
  destruct (env_fault _); simpl; [|by left..].
  destruct (tenants _ !! _) eqn:Ht; simpl; [|by left].
  destruct (env_fault _); simpl; [|by left..].
  destruct (Z.leb_spec limit (count (w_db w))); simpl; [by left|].
  destruct (env_fault _); simpl; [|by left..].
  destruct (ins (w_db w)) as [[[]|] db']; simpl; [|by left].
  destruct (env_fault _); simpl; [by right; eauto|by left|by right; eauto].
Qed.

(** Without failures the answer says which: not found, limit reached, the
    insert's own error, or success. *)
Lemma within_limit_fine w :
  no_faults →
  (within_limit w).1 =
    match tenants (w_db w) !! tid with
    | None => Err (sentinel_error ErrNotFound)
    | Some _ => if (limit <=? count (w_db w))%Z then Err (sentinel_error full) else (ins (w_db w)).1
    end.
Proof.
  intros Hf. unfold within_limit, tx_begin, tx_stmt, tx_commit, try_bind, mbind, ST_bind, lock_tenant.
  rewrite !Hf; simpl. destruct (tenants _ !! _); [|done]. rewrite !Hf; simpl.
  destruct (_ <=? _)%Z; [done|]. rewrite !Hf.
  destruct (ins (w_db w)) as [[[]|] db']; [|done]. simpl. by rewrite db_exec_fine.
Qed.
End within_limit.

Lemma insert_checked_Ok h checks ins db u :
  (insert_checked h checks ins db).1 = Ok u →
  (insert_checked h checks ins db).2 = ins db ∧ Forall (λ c, c.1 = true) (checks db).
Proof.
  unfold insert_checked. destruct (first_violation _) eqn:Hv; simpl; [done|].
  intros _. split; [done|]. by apply first_violation_None.
Qed.

(** Keys of a tenant that are not revoked. *)
Definition active_keys `{E : Env} (tid : uuid) (w : World) : Z := sql_count (active_key_of tid) (api_keys (w_db w)).
Definition endpoints_of `{E : Env} (tid : uuid) (w : World) : Z := sql_count (endpoint_of tid) (webhook_endpoints (w_db w)).

Section caps.
Context `{E : Env}.

Lemma insert_api_key_count k tid db :
  (insert_api_key k db).1 = Ok tt →
  sql_count (active_key_of tid) (api_keys (insert_api_key k db).2) =
    (sql_count (active_key_of tid) (api_keys db) + if bool_decide (k_TenantID k = tid) then 1 else 0)%Z.
Proof.
  intros H. destruct (insert_checked_Ok _ _ _ _ _ H) as [Heq Hc]. unfold insert_api_key at 1.
  rewrite Heq. checks_true Hc. simpl. rewrite sql_count_insert by done. f_equal.
  unfold active_key_of; simpl. repeat case_bool_decide; naive_solver.
Qed.

Lemma insert_webhook_endpoint_count e tid db :
  (insert_webhook_endpoint e db).1 = Ok tt →
  sql_count (endpoint_of tid) (webhook_endpoints (insert_webhook_endpoint e db).2) =
    (sql_count (endpoint_of tid) (webhook_endpoints db) + if bool_decide (e_TenantID e = tid) then 1 else 0)%Z.
Proof.
  intros H. destruct (insert_checked_Ok _ _ _ _ _ H) as [Heq Hc]. unfold insert_webhook_endpoint at 1.
  rewrite Heq. checks_true Hc. simpl. by rewrite sql_count_insert.
Qed.
End caps.

(** ** The retention transaction *)

Section purge.
Context `{E : Env}.

(** What remains after a purge of [tid] before [cutoff]. *)
Definition purged (tid : uuid) (cutoff : Time) (db : DB) : DB :=
  del_notifications (older_than tid cutoff) db.

Lemma filter_gone_idemp {A} (ref : A → uuid) (gone : gmap uuid Notification) (m : gmap uuid A) :
  filter (λ '(_, a), gone !! ref a = None) (filter (λ '(_, a), gone !! ref a = None) m) =
  filter (λ '(_, a), gone !! ref a = None) m.
Proof.
  apply map_eq. intros i. apply option_eq. intros x. rewrite !map_lookup_filter_Some. naive_solver.
Qed.

(** The explicit deletion of the child rows agrees with the cascade. *)
Lemma purge_children_first tid cutoff db :
  let old := filter (λ '(_, n), older_than tid cutoff n = true) (notifications db) in
  purged tid cutoff
    (set_delivery_metrics (filter (λ '(_, m), old !! m_NotificationID m = None) (delivery_metrics db))
    (set_delivery_attempts (filter (λ '(_, a), old !! a_NotificationID a = None) (delivery_attempts db)) db)) =
  purged tid cutoff db.
Proof.
  cbv zeta. unfold purged, del_notifications, set_delivery_metrics, set_delivery_attempts, set_notifications.
  cbv zeta. simpl. by rewrite !filter_gone_idemp.
Qed.

Lemma DeleteOlderThan_outcome tid cutoff w :
  let r := PgNotificationRepo_DeleteOlderThan tid cutoff w in
  (w_db r.2 = w_db w ∧ is_Ok r.1 = false) ∨
  (w_db r.2 = purged tid cutoff (w_db w) ∧
   (is_Ok r.1 = true → r.1 = Ok (sql_count (older_than tid cutoff) (notifications (w_db w))))).
Proof.
  cbv zeta. unfold PgNotificationRepo_DeleteOlderThan.
  rewrite <- (purge_children_first tid cutoff (w_db w)).
  unfold tx_begin, tx_stmt, tx_commit, db_exec, try_bind, mbind, ST_bind.
  do 5 (destruct (env_fault _); simpl; [|by (left + (right; split; [|done]))..]).
  by right.
Qed.

Lemma DeleteOlderThan_fine tid cutoff w :
  no_faults → is_Ok (PgNotificationRepo_DeleteOlderThan tid cutoff w).1 = true.
Proof.
  intros Hf. unfold PgNotificationRepo_DeleteOlderThan, tx_begin, tx_stmt, tx_commit, db_exec, try_bind, mbind, ST_bind.
  repeat (rewrite Hf; simpl). done.
Qed.
End purge.

(** * Claims *)


(** A channel configuration that was created reads back equal, up to the normal form of its JSON columns and the
    microsecond resolution of its timestamps. *)
Theorem channel_config_roundtrip `{E : Env} {PL : PgLaws E} cfg w :
  no_faults →
  (∀ x, cc_DeliveryPrefs cfg = Some x → prefs_in_range x) →
  (PgChannelConfigRepo_Create cfg w).1 = Ok tt →
  (PgChannelConfigRepo_GetByID (cc_ID cfg) (PgChannelConfigRepo_Create cfg w).2).1 =
    Ok (mkChannelConfig (cc_ID cfg) (cc_TenantID cfg) (cc_Channel cfg) (cc_Name cfg)
          (jsonb <$> cc_Config cfg) (cc_IsActive cfg) (stored_prefs (cc_DeliveryPrefs cfg))
          (timestamptz (cc_CreatedAt cfg)) (timestamptz (cc_UpdatedAt cfg))).
Proof.
  intros Hf Hn Hc. unfold PgChannelConfigRepo_Create in *. rewrite db_exec_fine in * by done.
  apply insert_checked_Ok in Hc as [Heq Hc]. unfold PgChannelConfigRepo_GetByID.
  rewrite db_query_fine by done. simpl w_db. rewrite Heq. checks_true Hc.
  simpl. rewrite lookup_insert_eq. simpl. unfold config_of_row; simpl.
  rewrite unmarshal_marshal_prefs by done.
  apply bool_decide_eq_true in Hc0. destruct Hc0 as [j Hj]. by rewrite Hj.
Qed.

(** Creating an API key within a limit, whatever fails, changes no other tenant's number of active keys and
    raises the tenant's by at most one and never above the limit; when it reports success it is exactly one
    more. *)
Theorem api_key_cap `{E : Env} k limit w tid :
  let w' := (PgAPIKeyRepo_CreateWithinLimit k limit w).2 in
  (active_keys tid w' = active_keys tid w ∨
   tid = k_TenantID k ∧ active_keys tid w' = active_keys tid w + 1 ∧ active_keys tid w' ≤ limit)%Z ∧
  (is_Ok (PgAPIKeyRepo_CreateWithinLimit k limit w).1 = true →
   active_keys (k_TenantID k) w' = active_keys (k_TenantID k) w + 1)%Z.
Proof.
  cbv zeta. unfold active_keys.
  destruct (within_limit_outcome (k_TenantID k) (λ db, sql_count (active_key_of (k_TenantID k)) (api_keys db))
    limit ErrKeyLimitReached (insert_api_key k) w) as [[Hw He]|(_ & Hlt & Hi & Hw)].
  all: change (within_limit _ _ _ _ _ w) with (PgAPIKeyRepo_CreateWithinLimit k limit w) in *; rewrite Hw.
  { split; [by left|]. intros Hok. congruence. }
  rewrite !insert_api_key_count by done. rewrite (bool_decide_eq_true_2 (k_TenantID k = k_TenantID k)) by done.
  split; [|lia].
  case_bool_decide as Ht; [right; subst tid; split; [done|lia]|left; lia].
Qed.

(** Creating a webhook endpoint within a limit, whatever fails, never takes a tenant above the limit, and with
    the database up its answer is exactly determined: not found, limit reached, duplicate id or success, in this
    order. *)
Theorem webhook_endpoint_cap `{E : Env} e limit w tid :
  let w' := (PgWebhookEndpointRepo_CreateWithinLimit e limit w).2 in
  (endpoints_of tid w' = endpoints_of tid w ∨
   tid = e_TenantID e ∧ endpoints_of tid w' = endpoints_of tid w + 1 ∧ endpoints_of tid w' ≤ limit)%Z ∧
  (no_faults →
   (PgWebhookEndpointRepo_CreateWithinLimit e limit w).1 =
     if present (tenants (w_db w)) (e_TenantID e)
     then if (limit <=? endpoints_of (e_TenantID e) w)%Z then Err (sentinel_error ErrWebhookLimitReached)
          else if absent (webhook_endpoints (w_db w)) (e_ID e) then Ok tt
          else Err (violation_error (UniqueViolation "webhook_endpoints_pkey"))
     else Err (sentinel_error ErrNotFound)).
Proof.
  cbv zeta. unfold endpoints_of. set (count := λ db, sql_count (endpoint_of (e_TenantID e)) (webhook_endpoints db)).
  pose proof (within_limit_outcome (e_TenantID e) count limit ErrWebhookLimitReached (insert_webhook_endpoint e) w) as Ho.
  pose proof (within_limit_fine (e_TenantID e) count limit ErrWebhookLimitReached (insert_webhook_endpoint e) w) as Hf.
  change (within_limit _ _ _ _ _ w) with (PgWebhookEndpointRepo_CreateWithinLimit e limit w) in *.
  split.
  - destruct Ho as [[-> _]|(_ & Hlt & Hi & ->)]; [by left|].
    rewrite insert_webhook_endpoint_count by done. unfold count in Hlt.
    case_bool_decide as Ht; [right; subst tid; split; [done|lia]|left; lia].
  - intros Hff. rewrite (Hf Hff). unfold present. clear.
    destruct (tenants (w_db w) !! e_TenantID e) as [t|] eqn:Ht; simpl; [|done].
    destruct (_ <=? _)%Z; [done|]. unfold insert_webhook_endpoint, insert_checked. simpl.
    unfold present. rewrite Ht. simpl. by destruct (absent _ _).
Qed.

(** A purge happens as a whole or not at all, and reports the number of notifications it removed. *)
Theorem purge_atomic `{E : Env} tid cutoff w :
  let r := PgNotificationRepo_DeleteOlderThan tid cutoff w in
  (w_db r.2 = w_db w ∧ is_Ok r.1 = false ∨
   w_db r.2 = del_notifications (older_than tid cutoff) (w_db w) ∧
   (is_Ok r.1 = true → r.1 = Ok (sql_count (older_than tid cutoff) (notifications (w_db w))))) ∧
  (no_faults → is_Ok r.1 = true).
Proof. split; [apply DeleteOlderThan_outcome|apply DeleteOlderThan_fine]. Qed.

(** * Witnesses *)

Section witnesses.
#[local] Existing Instance healthy.


Definition sample_config : ChannelConfig :=
mkChannelConfig (mkUuid 20 eq_refl) id_tenant ChannelSlack "ops" (Some (JObj [("url", JStr "https://hooks.slack.com/1")]))
  true (Some (mkDeliveryPreferences "critical" (Some 3%Z) "")) sample_now sample_now.

Lemma channel_config_roundtrip_witness :
let w := healthy_world sample_db in
(PgChannelConfigRepo_Create sample_config w).1 = Ok tt ∧
(PgChannelConfigRepo_GetByID (mkUuid 20 eq_refl) (PgChannelConfigRepo_Create sample_config w).2).1 = Ok sample_config.
Proof.
cbv zeta. assert ((PgChannelConfigRepo_Create sample_config (healthy_world sample_db)).1 = Ok tt) as H
  by (vm_compute; reflexivity).
split; [exact H|].
refine (channel_config_roundtrip sample_config (healthy_world sample_db) (λ _, eq_refl) _ H).
intros x Hx. injection Hx as <-. intros n Hn. injection Hn as <-. split; discriminate.
Defined.

Definition sample_key : APIKey := mkAPIKey id_key id_tenant "nk_2" "hash" "ci" sample_now None.

Lemma api_key_cap_witness :
let w := healthy_world sample_db in
is_Ok (PgAPIKeyRepo_CreateWithinLimit sample_key 1 w).1 = true ∧
active_keys id_tenant (PgAPIKeyRepo_CreateWithinLimit sample_key 1 w).2 = (active_keys id_tenant w + 1)%Z.
Proof.
cbv zeta. assert (is_Ok (PgAPIKeyRepo_CreateWithinLimit sample_key 1 (healthy_world sample_db)).1 = true) as H
  by (vm_compute; reflexivity).
split; [exact H|]. exact (proj2 (api_key_cap sample_key 1 (healthy_world sample_db) id_tenant) H).
Defined.

Lemma webhook_endpoint_cap_witness :
(PgWebhookEndpointRepo_CreateWithinLimit (sample_endpoint id_endpoint2 [WebhookEventFailed]) 1
   (healthy_world sample_db)).1 = Err (sentinel_error ErrWebhookLimitReached).
Proof.
rewrite (proj2 (webhook_endpoint_cap (sample_endpoint id_endpoint2 [WebhookEventFailed]) 1 (healthy_world sample_db)
  id_tenant) (λ _, eq_refl)).
vm_compute. reflexivity.
Defined.

Lemma purge_atomic_witness :
is_Ok (PgNotificationRepo_DeleteOlderThan id_tenant sample_now (healthy_world sample_db)).1 = true.
Proof. exact (proj2 (purge_atomic id_tenant sample_now (healthy_world sample_db)) (λ _, eq_refl)). Defined.
End witnesses.
