(* ===== verification/Emitter.v ===== *)
(** * Emitter: status events for tenants' webhook endpoints

    webhook_event_emitter.go and webhook_event_enqueuer.go.  [TaskEnqueuer] and
    [TerminalEventEmitter] are the interfaces the emitter needs of the queue and
    the dispatcher needs of the emitter; the implementations discharge them. *)
From S2P Require Import Prelude GoTime Json Domain World Repository Integrity Tasks.

Record EmitParams := mkEmitParams {
  ep_TenantID : uuid;
  ep_NotificationID : uuid;
  ep_ChannelConfigID : uuid;
  ep_Channel : string;
  ep_EventType : WebhookEventType;
  ep_Attempts : Z;
  ep_Metadata : RawMessage
}.

Definition defaultMetadata (metadata : RawMessage) : RawMessage :=
  match metadata with
  | None => Some (JObj [])
  | Some m => Some m
  end.

Definition eventStatusForType (eventType : WebhookEventType) : string :=
  if bool_decide (eventType = WebhookEventDelivered) then "delivered"
  else if bool_decide (eventType = WebhookEventFailed) then "failed"
  else eventType.

(** 2b5b1e0a-6a8a-4c1e-9c2a-2b6b6a8a4c1e *)
Definition webhookEventNamespace : uuid := mkUuid 0x2b5b1e0a6a8a4c1e9c2a2b6b6a8a4c1e eq_refl.

Section emitter.
Context `{E : Env}.

Definition webhookEventID (notificationID : uuid) (eventType : WebhookEventType) : string :=
  let data := uuid_String notificationID +:+ ":" +:+ eventType in
  "evt_" +:+ uuid_String (uuid_NewSHA1 webhookEventNamespace data).

(** The payload of [buildWebhookEventTaskPayload] for the clock reading [now]. *)
Definition webhook_event_payload (now : Time) (endpointID : uuid) (params : EmitParams) : WebhookEventTaskPayload :=
  mkWebhookEventTaskPayload endpointID
    (mkWebhookEventPayload
       (webhookEventID (ep_NotificationID params) (ep_EventType params))
       (ep_EventType params)
       now
       (mkWebhookEventData (ep_NotificationID params) (ep_ChannelConfigID params) (ep_Channel params)
          (eventStatusForType (ep_EventType params)) (ep_Attempts params)
          (defaultMetadata (ep_Metadata params)))).

Definition buildWebhookEventTaskPayload (endpointID : uuid) (params : EmitParams) : M WebhookEventTaskPayload :=
  now ← time_Now;
  mret (webhook_event_payload now endpointID params).

Section Emit.
Context (Enqueue : WebhookEventTaskPayload → M (result unit)).

(** The loop over the endpoints, with [firstErr]. *)
Fixpoint emit_loop (params : EmitParams) (firstErr : option error) (endpoints : list WebhookEndpoint)
    : M (option error) :=
  match endpoints with
  | [] => mret firstErr
  | endpoint :: rest =>
      task ← buildWebhookEventTaskPayload (e_ID endpoint) params;
      r ← Enqueue task;
      match r with
      | Ok _ => emit_loop params firstErr rest
      | Err err =>
          _ ← log "failed to enqueue webhook event delivery";
          emit_loop params (match firstErr with None => Some err | Some _ => firstErr end) rest
      end
  end.

Definition WebhookEventEmitter_Emit (params : EmitParams) : M (result unit) :=
  endpoints ←? PgWebhookEndpointRepo_ListActiveByTenantAndEvent (ep_TenantID params) (ep_EventType params);
  firstErr ← emit_loop params None endpoints;
  mret match firstErr with None => Ok tt | Some err => Err err end.
End Emit.

(** webhook_event_enqueuer.go *)
Definition AsynqWebhookEventEnqueuer_Enqueue (p : WebhookEventTaskPayload) : M (result unit) :=
  match NewWebhookEventTask p with
  | Err err => mret (Err err)
  | Ok task =>
      r ← EnqueueContext task;
      mret match r with Ok _ => Ok tt | Err err => Err err end
  end.
End emitter.

(** ** The interfaces *)

(** What the emitter is promised: an accepted payload becomes the one new task,
    nothing else changes, and a refused one leaves the queue alone. *)
Class TaskEnqueuer `{E : Env} (Enqueue : WebhookEventTaskPayload → M (result unit)) : Prop := {
  Enqueue_keeps_db p : keeps (same w_db) (Enqueue p);
  Enqueue_keeps_redis p : keeps (same w_redis) (Enqueue p);
  Enqueue_keeps_http p : keeps (same w_http) (Enqueue p);
  Enqueue_adds p w :
    match (Enqueue p w).1 with
    | Ok _ => ∃ t, NewWebhookEventTask p = Ok t ∧ w_tasks (Enqueue p w).2 = w_tasks w ++ [t]
    | Err _ => w_tasks (Enqueue p w).2 = w_tasks w
    end;
  Enqueue_up p w : queue_accepts → is_Ok (NewWebhookEventTask p) = true → is_Ok (Enqueue p w).1 = true
}.

(** A task that carries the event [params] to the endpoint [eid]. *)
Definition event_task `{E : Env} (params : EmitParams) (eid : uuid) (t : Task) : Prop :=
  ∃ now, NewWebhookEventTask (webhook_event_payload now eid params) = Ok t.

(** The endpoints an event goes to. *)
Definition subscribed (params : EmitParams) (db : DB) (eid : uuid) : Prop :=
  ∃ e, webhook_endpoints db !! eid = Some e ∧ e_TenantID e = ep_TenantID params ∧
       SubscribesTo e (ep_EventType params) = true.

(** What the dispatcher and the error handler are promised: an emission only adds
    tasks, at most one for each subscribed endpoint and none for others; when it
    reports no error every subscribed endpoint got its task. *)
Class TerminalEventEmitter `{E : Env} (Emit : EmitParams → M (result unit)) : Prop := {
  Emit_keeps_db p : keeps (same w_db) (Emit p);
  Emit_keeps_redis p : keeps (same w_redis) (Emit p);
  Emit_keeps_http p : keeps (same w_http) (Emit p);
  Emit_adds p w : db_ok (w_db w) →
    ∃ eids ts, w_tasks (Emit p w).2 = w_tasks w ++ ts ∧ Forall2 (event_task p) eids ts ∧ NoDup eids ∧
      (∀ eid, eid ∈ eids → subscribed p (w_db w) eid) ∧
      (is_Ok (Emit p w).1 = true → ∀ eid, subscribed p (w_db w) eid → eid ∈ eids);
  Emit_up p w : services_up → is_Ok (Emit p w).1 = true
}.

#[export] Hint Resolve Enqueue_keeps_db Enqueue_keeps_redis Enqueue_keeps_http
  Emit_keeps_db Emit_keeps_redis Emit_keeps_http : keeps.

(** ** The implementations *)

Section emitter_laws.
Context `{E : Env}.

#[export] Instance AsynqWebhookEventEnqueuer_laws : TaskEnqueuer AsynqWebhookEventEnqueuer_Enqueue.
Proof.
  split; unfold AsynqWebhookEventEnqueuer_Enqueue.
  1-3: intros p; keeps_auto.
  - intros p w. destruct (NewWebhookEventTask p) as [t|e] eqn:Ht; [|done].
    unfold mbind, ST_bind, EnqueueContext. destruct (env_enqueue _ _); simpl; eauto.
  - intros p w Hq Ht. destruct (NewWebhookEventTask p) as [t|e]; [|done].
    specialize (Hq (w_tick w) t). unfold mbind, ST_bind, EnqueueContext. by destruct (env_enqueue _ _).
Qed.

Context (Enqueue : WebhookEventTaskPayload → M (result unit)) `{!TaskEnqueuer Enqueue}.

Lemma emit_loop_keeps {X} (f : World → X) params ferr eps :
  (∀ p, keeps (same f) (Enqueue p)) → (∀ m, keeps (same f) (log m)) → keeps (same f) time_Now →
  keeps (same f) (emit_loop Enqueue params ferr eps).
Proof.
  intros HE Hl Hn. revert ferr. induction eps as [|e eps IH]; intros ferr; simpl; [keeps_auto|].
  unfold buildWebhookEventTaskPayload. keeps_auto.
Qed.

(** Every endpoint is tried once, in order; the reported error is the first. *)
Lemma emit_loop_adds params ferr eps w : ∃ es ts,
  w_tasks (emit_loop Enqueue params ferr eps w).2 = w_tasks w ++ ts ∧
  Forall2 (λ e, event_task params (e_ID e)) es ts ∧ es `sublist_of` eps ∧
  ((emit_loop Enqueue params ferr eps w).1 = None → es = eps ∧ ferr = None).
Proof.
  revert ferr w. induction eps as [|e eps IH]; intros ferr w.
  { exists [], []. simpl. rewrite app_nil_r. naive_solver. }
  cbn [emit_loop]. unfold buildWebhookEventTaskPayload, time_Now. unfold mbind, ST_bind, mret, ST_ret.
  set (p := webhook_event_payload _ _ _).
  pose proof (Enqueue_adds p (next_tick w)) as HE.
  destruct (Enqueue p (next_tick w)) as [[u|err] w1]; simpl in HE.
  - destruct HE as (t & Ht & Hw1). destruct (IH ferr w1) as (es & ts & Hw & Hf & Hs & Hn).
    exists (e :: es), (t :: ts). rewrite Hw, Hw1, <- app_assoc. split_and!; [done| | |].
    + constructor; [|done]. eexists. exact Ht.
    + by constructor.
    + intros H. destruct (Hn H) as [-> ->]. done.
  - destruct (IH (match ferr with None => Some err | Some _ => ferr end) (log "failed to enqueue webhook event delivery" w1).2)
      as (es & ts & Hw & Hf & Hs & Hn).
    exists es, ts. simpl in *. rewrite Hw, HE. split_and!; [done|done|by constructor|].
    intros H. destruct (Hn H) as [_ Hfe]. by destruct ferr.
Qed.

Lemma webhook_event_task_built now eid params :
  (0 ≤ time_Year now ≤ 9999)%Z → is_Ok (NewWebhookEventTask (webhook_event_payload now eid params)) = true.
Proof.
  intros Hy. unfold NewWebhookEventTask, json_WebhookEventTaskPayload, json_WebhookEventPayload, json_time. simpl.
  by rewrite bool_decide_eq_true_2.
Qed.

Lemma emit_loop_up params eps w :
  queue_accepts → clock_sane → (emit_loop Enqueue params None eps w).1 = None.
Proof.
  intros Hq Hc. revert w. induction eps as [|e eps IH]; intros w; [done|]. cbn [emit_loop].
  unfold buildWebhookEventTaskPayload, time_Now, mbind, ST_bind, mret, ST_ret.
  pose proof (Enqueue_up (webhook_event_payload (env_now (w_tick w)) (e_ID e) params) (next_tick w) Hq
    (webhook_event_task_built _ _ _ (Hc _))) as Hok.
  destruct (Enqueue _ _) as [[]]; [|done]. apply IH.
Qed.

Lemma subscribed_rows {PL : PgLaws E} tid ty tick db e :
  db_ok db →
  e ∈ filter (λ e, e_TenantID e = tid ∧ e_IsActive e = true ∧ ty ∈ e_Events e) (pg_rows tick (webhook_endpoints db)) ↔
  webhook_endpoints db !! e_ID e = Some e ∧ e_TenantID e = tid ∧ SubscribesTo e ty = true.
Proof.
  intros H. rewrite list_elem_of_filter, elem_of_pg_rows, SubscribesTo_spec. split.
  - intros [(? & ? & ?) [k Hk]]. pose proof (ok_endpoint_key _ H k e Hk) as Hid. simpl in Hid. by subst k.
  - naive_solver.
Qed.

Lemma rows_NoDup {PL : PgLaws E} tick db :
  db_ok db → NoDup (e_ID <$> pg_rows tick (webhook_endpoints db)).
Proof.
  intros H. rewrite pg_rows_perm, <- list_fmap_compose.
  assert (e_ID ∘ snd <$> map_to_list (webhook_endpoints db) = (map_to_list (webhook_endpoints db)).*1) as ->.
  { apply list_fmap_ext. intros i [k e] Hi. simpl. apply (ok_endpoint_key _ H).
    apply elem_of_map_to_list. by eapply list_elem_of_lookup_2. }
  apply NoDup_fst_map_to_list.
Qed.

#[export] Instance WebhookEventEmitter_laws {PL : PgLaws E} : TerminalEventEmitter (WebhookEventEmitter_Emit Enqueue).
Proof.
  split; unfold WebhookEventEmitter_Emit, PgWebhookEndpointRepo_ListActiveByTenantAndEvent.
  1-3: intros p; apply keeps_try; [apply _|eauto with keeps|intros eps]; apply keeps_bind;
    [apply _|apply emit_loop_keeps; eauto with keeps|intros; apply keeps_ret, _].
  - intros p w Hok. unfold try_bind, mbind, ST_bind, db_query_at, db_exec_at, db_exec.
    set (rows := filter _ _).
    destruct (env_fault (w_tick w)); simpl.
    2, 3: exists [], []; simpl; rewrite app_nil_r; split_and!; [done|constructor|constructor|set_solver|done].
    destruct (emit_loop_adds p None rows (set_db (w_db w) (next_tick w))) as (es & ts & Hw & Hf & Hs & Hn).
    destruct (emit_loop _ _ _ _ _) as [r w'] eqn:Hr. simpl in *.
    exists (e_ID <$> es), ts. split_and!; [done|by apply Forall2_fmap_l| | |].
    + eapply sublist_NoDup; [|by apply fmap_sublist].
      eapply sublist_NoDup; [by apply (rows_NoDup (w_tick w))|]. apply fmap_sublist, sublist_filter.
    + intros eid (e & -> & He)%list_elem_of_fmap. eapply elem_of_sublist in He; [|exact Hs].
      apply subscribed_rows in He as (? & ? & ?); [|done]. by exists e.
    + intros Hk eid (e & He & Ht & Hsub). assert (r = None) as -> by (by destruct r).
      destruct (Hn eq_refl) as [-> _]. pose proof (ok_endpoint_key _ Hok _ _ He) as Hid. simpl in Hid. subst eid.
      apply list_elem_of_fmap. exists e. split; [done|]. by apply subscribed_rows.
  - intros p w [Hf Hq Hc]. unfold try_bind, mbind, ST_bind, db_query_at, db_exec_at. rewrite db_exec_fine by done.
    simpl. set (w1 := set_db _ _). set (rows := filter _ _).
    pose proof (emit_loop_up p rows w1 Hq Hc) as Hn. destruct (emit_loop _ _ _ _ _). simpl in Hn. by subst.
Qed.
End emitter_laws.

(** An emission as the queue sees it: one task for each subscribed endpoint. *)
Definition fanout `{E : Env} (params : EmitParams) (db : DB) (ts : list Task) : Prop :=
  ∃ eids, Forall2 (event_task params) eids ts ∧ NoDup eids ∧ ∀ eid, eid ∈ eids ↔ subscribed params db eid.

Lemma Emit_fanout `{E : Env} (Emit : EmitParams → M (result unit)) `{!TerminalEventEmitter Emit} p w :
  services_up → db_ok (w_db w) →
  ∃ ts, w_tasks (Emit p w).2 = w_tasks w ++ ts ∧ fanout p (w_db w) ts.
Proof.
  intros Hup Hok. destruct (Emit_adds p w Hok) as (eids & ts & Hw & Hf & Hnd & Hs & Hall).
  exists ts. split; [done|]. exists eids. split_and!; [done..|]. intros eid. split; [apply Hs|].
  by apply Hall, Emit_up.
Qed.
