(* ===== verification/Dispatcher.v ===== *)
(** * Dispatcher: delivering a notification, and giving up on one

    dispatcher.go and error_handler.go of internal/worker: the handler of
    notification:deliver tasks and asynq's error handler, over the repositories,
    the provider registry and an event emitter. *)
From S2P Require Import Prelude GoTime Json Domain World Repository Integrity Tasks Emitter Provider.

(** What asynq puts in the context of a handler call. *)
Record TaskCtx := mkTaskCtx { ctx_RetryCount : Z; ctx_MaxRetry : Z }.

Section dispatcher.
Context `{E : Env} (registry : Registry) (Emit : EmitParams → M (result unit)).

Definition buildSendRequest (p : NotificationDeliverPayload) (channelCfg : ChannelConfig) : SendRequest :=
  let prefs := match cc_DeliveryPrefs channelCfg with
               | None => p_DeliveryPrefs p
               | Some d => Some d
               end in
  let formatMode := match prefs with
                    | Some d => if bool_decide (dp_FormatMode d = "") then "" else dp_FormatMode d
                    | None => ""
                    end in
  mkSendRequest (p_NotificationID p) (p_Subject p) (p_Body p) (p_Metadata p) formatMode.

Definition emitTerminalEvent (p : NotificationDeliverPayload) (eventType : WebhookEventType) (attempts : Z) : M unit :=
  log_err (Emit (mkEmitParams (p_TenantID p) (p_NotificationID p) (p_ChannelConfigID p) (p_ChannelType p)
                   eventType attempts (p_Metadata p)))
    "failed to emit webhook status event".

Definition createInitialDeliveryMetric (notifID : uuid) (providerMsgID : string) : M unit :=
  now ← time_Now;
  id ← uuid_New;
  log_err (PgDeliveryMetricRepo_Upsert (mkDeliveryMetric id notifID providerMsgID None None None now))
    "failed to create initial delivery metric".

(** The attempt record under construction; [status], [response] and [message]
    are filled in by the three outcomes. *)
Definition fill_attempt (a : DeliveryAttempt) (status : AttemptStatus) (response message : option string) : DeliveryAttempt :=
  mkDeliveryAttempt (a_ID a) (a_NotificationID a) (a_AttemptNumber a) status response message
    (a_DurationMs a) (a_AttemptedAt a).

Definition handleDeliveryError (attempt : DeliveryAttempt) (notifID : uuid) (err : error) : M (result unit) :=
  let errMsg := err_Error err in
  let attempt := fill_attempt attempt AttemptFailure (a_ProviderResponse attempt) (Some errMsg) in
  _ ← log_err (PgDeliveryAttemptRepo_Create attempt) "failed to record delivery attempt";
  _ ← log_err (PgNotificationRepo_IncrementRetry notifID errMsg) "failed to increment retry count";
  _ ← log_err (PgNotificationRepo_UpdateStatus notifID StatusRetrying (Some errMsg))
        "failed to update notification status to retrying";
  _ ← log "delivery failed (transport)";
  mret (Err err).

Definition handlePermanentProviderFailure (p : NotificationDeliverPayload) (resp : SendResponse)
    (attemptNumber : Z) : M (result unit) :=
  _ ← log_err (PgNotificationRepo_IncrementRetry (p_NotificationID p) (sr_ErrorMessage resp))
        "failed to increment retry count";
  _ ← log_err (PgNotificationRepo_UpdateStatus (p_NotificationID p) StatusFailed (Some (sr_ErrorMessage resp)))
        "failed to update notification status to failed";
  _ ← emitTerminalEvent p WebhookEventFailed attemptNumber;
  _ ← log "delivery failed permanently (provider)";
  mret (Err (errorf_m ("provider error: " +:+ sr_ErrorMessage resp) SkipRetry)).

Definition handleProviderFailure (attempt : DeliveryAttempt) (p : NotificationDeliverPayload)
    (resp : SendResponse) (attemptNumber : Z) : M (result unit) :=
  let attempt := fill_attempt attempt AttemptFailure (sr_ProviderData resp) (Some (sr_ErrorMessage resp)) in
  _ ← log_err (PgDeliveryAttemptRepo_Create attempt) "failed to record delivery attempt";
  if sr_Permanent resp then handlePermanentProviderFailure p resp attemptNumber
  else
    _ ← log_err (PgNotificationRepo_IncrementRetry (p_NotificationID p) (sr_ErrorMessage resp))
          "failed to increment retry count";
    _ ← log_err (PgNotificationRepo_UpdateStatus (p_NotificationID p) StatusRetrying (Some (sr_ErrorMessage resp)))
          "failed to update notification status to retrying";
    _ ← log "delivery failed (provider)";
    mret (Err (errors_New ("provider error: " +:+ sr_ErrorMessage resp))).

Definition recordSuccessfulDelivery (attempt : DeliveryAttempt) (p : NotificationDeliverPayload)
    (resp : SendResponse) (attemptNumber : Z) : M unit :=
  let attempt := fill_attempt attempt AttemptSuccess (sr_ProviderData resp) (a_ErrorMessage attempt) in
  _ ← log_err (PgDeliveryAttemptRepo_Create attempt) "failed to record delivery attempt";
  _ ← log_err (PgNotificationRepo_MarkDelivered (p_NotificationID p)) "failed to mark notification as delivered";
  _ ← (if bool_decide (sr_ProviderMsgID resp = "") then mret tt
       else _ ← log_err (PgNotificationRepo_SetProviderMsgID (p_NotificationID p) (sr_ProviderMsgID resp))
                  "failed to store provider message ID";
            createInitialDeliveryMetric (p_NotificationID p) (sr_ProviderMsgID resp));
  _ ← emitTerminalEvent p WebhookEventDelivered attemptNumber;
  log "notification delivered".

Definition HandleNotificationDeliver (ctx : TaskCtx) (t : Task) : M (result unit) :=
  match dec_NotificationDeliverPayload (task_Payload t) with
  | Err err => mret (Err (errorf_ws "unmarshal payload" err SkipRetry))
  | Ok p =>
      let attemptNumber := (ctx_RetryCount ctx + 1)%Z in
      _ ← log_err (PgNotificationRepo_UpdateStatus (p_NotificationID p) StatusProcessing None)
            "failed to update notification status to processing";
      channelCfg ← PgChannelConfigRepo_GetByID (p_ChannelConfigID p);
      match channelCfg with
      | Err err =>
          _ ← log "failed to fetch channel config";
          mret (Err (errorf_ws "fetch channel config" err SkipRetry))
      | Ok channelCfg =>
          match Registry_Get registry (p_ChannelType p) with
          | Err err =>
              _ ← log "no provider for channel type";
              mret (Err (errorf_ws "no provider" err SkipRetry))
          | Ok prov =>
              let sendReq := buildSendRequest p channelCfg in
              start ← time_Now;
              r ← pr_Send prov (cc_Config channelCfg) sendReq;
              finish ← time_Now;
              let durationMs := ((finish - start) /t Millisecond)%Z in
              id ← uuid_New;
              attemptedAt ← time_Now;
              let attempt := mkDeliveryAttempt id (p_NotificationID p) attemptNumber "" None None
                               durationMs attemptedAt in
              match r with
              | Err err => handleDeliveryError attempt (p_NotificationID p) err
              | Ok resp =>
                  if negb (sr_Success resp) then handleProviderFailure attempt p resp attemptNumber
                  else
                    _ ← recordSuccessfulDelivery attempt p resp attemptNumber;
                    mret (Ok tt)
              end
          end
      end
  end.

(** ** error_handler.go *)

Definition retriedCount (ctx : TaskCtx) : Z := ctx_RetryCount ctx.

Definition handleWebhookEventRetriesExhausted (task : Task) (err : error) : M unit :=
  match dec_WebhookEventTaskPayload (task_Payload task) with
  | Err _ => mret tt
  | Ok _ => log "webhook event delivery permanently failed — dropped"
  end.

Definition handleNotificationRetriesExhausted (ctx : TaskCtx) (task : Task) (err : error) : M unit :=
  match dec_NotificationDeliverPayload (task_Payload task) with
  | Err _ => mret tt
  | Ok p =>
      let errMsg := err_Error err in
      _ ← log_err (PgNotificationRepo_UpdateStatus (p_NotificationID p) StatusFailed (Some errMsg))
            "failed to mark notification as permanently failed";
      _ ← log "notification permanently failed — moved to dead letter";
      if errors_Is err SkipRetry then mret tt
      else
        log_err (Emit (mkEmitParams (p_TenantID p) (p_NotificationID p) (p_ChannelConfigID p) (p_ChannelType p)
                         WebhookEventFailed (retriedCount ctx + 1) (p_Metadata p)))
          "failed to emit webhook status event"
  end.

Definition HandleError (ctx : TaskCtx) (task : Task) (err : error) : M unit :=
  let retried := ctx_RetryCount ctx in
  let maxRetry := ctx_MaxRetry ctx in
  _ ← log "task processing error";
  if (retried <? maxRetry)%Z then mret tt
  else if bool_decide (task_Type task = TypeNotificationDeliver)
  then handleNotificationRetriesExhausted ctx task err
  else if bool_decide (task_Type task = TypeWebhookEvent)
  then handleWebhookEventRetriesExhausted task err
  else mret tt.
End dispatcher.
