(* ===== verification/DispatcherFacts.v ===== *)
(** * DispatcherFacts: what one call of the deliver handler does

    [outcome] abstracts the answer of a provider, [attempt_view] is the
    specification of an attempt as seen in the notification row, and
    [HandleNotificationDeliver] refines it. *)
From S2P Require Import Prelude GoTime Json Domain World Repository Integrity Tasks Emitter Provider.
From S2P Require Import Dispatcher.

(** ** The abstract attempt *)

Inductive outcome :=
| Delivered
| Transient (msg : string)
| Permanent (msg : string).

Definition outcome_of (r : result SendResponse) : outcome :=
  match r with
  | Err e => Transient (err_Error e)
  | Ok resp =>
      if sr_Success resp then Delivered
      else if sr_Permanent resp then Permanent (sr_ErrorMessage resp)
      else Transient (sr_ErrorMessage resp)
  end.

(** Status, retry count and last error of a notification. *)
Definition nview : Type := string * Z * option string.

(** The [int4] counter. *)
Definition bump (r : Z) : Z := if in_int4 (r + 1) then (r + 1)%Z else r.

Definition attempt_view (o : outcome) (v : nview) : nview :=
  let '(_, r, _) := v in
  match o with
  | Delivered => (StatusDelivered, r, None)
  | Transient msg => (StatusRetrying, bump r, Some msg)
  | Permanent msg => (StatusFailed, bump r, Some msg)
  end.

(** What the handler answers asynq. *)
Definition attempt_result (r : result SendResponse) : result unit :=
  match r with
  | Err e => Err e
  | Ok resp =>
      if sr_Success resp then Ok tt
      else if sr_Permanent resp then Err (errorf_m ("provider error: " +:+ sr_ErrorMessage resp) SkipRetry)
      else Err (errors_New ("provider error: " +:+ sr_ErrorMessage resp))
  end.

(** The event an attempt makes due at once. *)
Definition attempt_event (o : outcome) : option WebhookEventType :=
  match o with
  | Delivered => Some WebhookEventDelivered
  | Transient _ => None
  | Permanent _ => Some WebhookEventFailed
  end.

Definition event_of (p : NotificationDeliverPayload) (ty : WebhookEventType) (attempts : Z) : EmitParams :=
  mkEmitParams (p_TenantID p) (p_NotificationID p) (p_ChannelConfigID p) (p_ChannelType p) ty attempts (p_Metadata p).

(** The tables a delivery never writes. *)
Definition config_tables (db : DB) :=
  (tenants db, channel_configs db, tenant_entitlements db, api_keys db, webhook_endpoints db).

Section facts.
Context `{E : Env}.

Definition config_of (w : World) := config_tables (w_db w).
Definition notifications_of (w : World) := notifications (w_db w).

(** ** Frames of the repository calls *)

Lemma exec_same {A X} (T : DB → X) (f : DB → result A * DB) :
  (∀ db, T (f db).2 = T db) → keeps (same (T ∘ w_db)) (db_exec f).
Proof. intros H w. unfold same, db_exec. destruct (env_fault _); simpl; auto. Qed.

Lemma now_exec_same {A X} (T : DB → X) (f : Time → DB → result A * DB) :
  (∀ t db, T (f t db).2 = T db) → keeps (same (T ∘ w_db)) (now ← time_Now; db_exec (f now)).
Proof. intros H. apply keeps_bind; [apply _|by intros w|]. intros. by apply exec_same. Qed.

Lemma update_notification_config id g db : config_tables (update_notification id g db).2 = config_tables db.
Proof. unfold update_notification. by case_match. Qed.

Lemma UpdateStatus_config id st e : keeps (same config_of) (PgNotificationRepo_UpdateStatus id st e).
Proof. apply (now_exec_same config_tables). intros. apply update_notification_config. Qed.
Lemma SetProviderMsgID_config id m : keeps (same config_of) (PgNotificationRepo_SetProviderMsgID id m).
Proof. apply (now_exec_same config_tables). intros. apply update_notification_config. Qed.
Lemma MarkDelivered_config id : keeps (same config_of) (PgNotificationRepo_MarkDelivered id).
Proof. apply (now_exec_same config_tables). intros. apply update_notification_config. Qed.
Lemma IncrementRetry_config id e : keeps (same config_of) (PgNotificationRepo_IncrementRetry id e).
Proof. apply (now_exec_same config_tables). intros. destruct (from_option _ _ _); [apply update_notification_config|done]. Qed.
Lemma AttemptCreate_config a : keeps (same config_of) (PgDeliveryAttemptRepo_Create a).
Proof. apply (exec_same config_tables). intros. unfold insert_checked. by destruct (first_violation _). Qed.
Lemma MetricUpsert_config m : keeps (same config_of) (PgDeliveryMetricRepo_Upsert m).
Proof. apply keeps_on_err, (exec_same config_tables). intros. unfold insert_checked. by destruct (first_violation _). Qed.
Lemma AttemptCreate_notifications a : keeps (same notifications_of) (PgDeliveryAttemptRepo_Create a).
Proof. apply (exec_same notifications). intros. unfold insert_checked. by destruct (first_violation _). Qed.
Lemma MetricUpsert_notifications m : keeps (same notifications_of) (PgDeliveryMetricRepo_Upsert m).
Proof. apply keeps_on_err, (exec_same notifications). intros. unfold insert_checked. by destruct (first_violation _). Qed.

(** Keeping the tables keeps every observation of them. *)
Lemma same_db {A X} (T : World → X) (m : M A) :
  (∀ w w', w_db w' = w_db w → T w' = T w) → keeps (same w_db) m → keeps (same T) m.
Proof. intros HT Hm w. apply HT, Hm. Qed.
Lemma same_db_config {A} (m : M A) : keeps (same w_db) m → keeps (same config_of) m.
Proof. apply same_db. unfold config_of. congruence. Qed.
Lemma same_db_notifications {A} (m : M A) : keeps (same w_db) m → keeps (same notifications_of) m.
Proof. apply same_db. unfold notifications_of. congruence. Qed.

(** ** Effects on the notification row *)

Context (nid : uuid).

Definition view (w : World) : option nview :=
  (λ n, (n_Status n, n_RetryCount n, n_LastError n)) <$> notifications (w_db w) !! nid.

Definition effect {A} (m : M A) (g : nview → nview) : Prop := ∀ w, view (m w).2 = g <$> view w.

Lemma effect_bind {A B} (m : M A) (f : A → M B) g h :
  effect m g → (∀ a, effect (f a) h) → effect (m ≫= f) (h ∘ g).
Proof.
  intros Hm Hf w. unfold mbind, ST_bind. specialize (Hm w). destruct (m w) as [a w'].
  rewrite Hf. simpl in *. rewrite Hm. by destruct (view w).
Qed.

Lemma effect_same {A} (m : M A) : keeps (same notifications_of) m → effect m id.
Proof.
  intros H w. unfold view. specialize (H w). unfold same, notifications_of in H. rewrite H.
  by destruct (notifications _ !! nid).
Qed.

(** A step that leaves the row alone before or after the others. *)
Lemma effect_skip {A B} (m : M A) (f : A → M B) h :
  keeps (same notifications_of) m → (∀ a, effect (f a) h) → effect (m ≫= f) h.
Proof. intros Hm Hf. exact (effect_bind m f id h (effect_same m Hm) Hf). Qed.

Lemma effect_log_err {A} (m : M (result A)) msg g : effect m g → effect (log_err m msg) g.
Proof. intros H w. destruct (log_err_state m msg w) as [->| ->]; apply H. Qed.

Lemma effect_update (f : Time → Notification → Notification) g :
  no_faults →
  (∀ t n, (n_Status (f t n), n_RetryCount (f t n), n_LastError (f t n)) =
          g (n_Status n, n_RetryCount n, n_LastError n)) →
  effect (now ← time_Now; db_exec (update_notification nid (f now))) g.
Proof.
  intros Hf Hg w. unfold mbind, ST_bind, time_Now. rewrite db_exec_fine by done. unfold view; simpl.
  unfold update_notification. destruct (notifications (w_db w) !! nid) as [n|] eqn:Hn; simpl.
  - rewrite lookup_insert_eq. simpl. by rewrite Hg.
  - by rewrite Hn.
Qed.

Lemma UpdateStatus_effect st e :
  no_faults → effect (PgNotificationRepo_UpdateStatus nid st e) (λ '(_, r, _), (st, r, e)).
Proof. intros. by apply effect_update. Qed.

Lemma MarkDelivered_effect :
  no_faults → effect (PgNotificationRepo_MarkDelivered nid) (λ '(_, r, e), (StatusDelivered, r, e)).
Proof. intros. by apply effect_update. Qed.

Lemma SetProviderMsgID_effect m :
  no_faults → effect (PgNotificationRepo_SetProviderMsgID nid m) id.
Proof. intros. by apply effect_update. Qed.

Lemma IncrementRetry_effect e :
  no_faults → effect (PgNotificationRepo_IncrementRetry nid e)
    (λ '(s, r, e0), if in_int4 (r + 1) then (s, r + 1, Some e)%Z else (s, r, e0)).
Proof.
  intros Hf w. unfold PgNotificationRepo_IncrementRetry, mbind, ST_bind, time_Now.
  rewrite db_exec_fine by done. unfold view; simpl.
  destruct (notifications (w_db w) !! nid) as [n|] eqn:Hn; simpl.
  - destruct (in_int4 _) eqn:Hr; simpl.
    + unfold update_notification. rewrite Hn. simpl. by rewrite lookup_insert_eq.
    + by rewrite Hn.
  - unfold update_notification. rewrite Hn. simpl. by rewrite Hn.
Qed.
End facts.

#[export] Hint Resolve UpdateStatus_config SetProviderMsgID_config MarkDelivered_config IncrementRetry_config
  AttemptCreate_config MetricUpsert_config AttemptCreate_notifications MetricUpsert_notifications : keeps.
#[export] Hint Resolve same_db_config same_db_notifications : keeps.

Section handler.
Context `{E : Env} (registry : Registry) (Emit : EmitParams → M (result unit)) `{!TerminalEventEmitter Emit}.

(** Repository calls do not enqueue. *)
Lemma UpdateStatus_tasks id st e : keeps (same w_tasks) (PgNotificationRepo_UpdateStatus id st e).
Proof. unfold PgNotificationRepo_UpdateStatus. keeps_auto. Qed.
Lemma SetProviderMsgID_tasks id m : keeps (same w_tasks) (PgNotificationRepo_SetProviderMsgID id m).
Proof. unfold PgNotificationRepo_SetProviderMsgID. keeps_auto. Qed.
Lemma MarkDelivered_tasks id : keeps (same w_tasks) (PgNotificationRepo_MarkDelivered id).
Proof. unfold PgNotificationRepo_MarkDelivered. keeps_auto. Qed.
Lemma IncrementRetry_tasks id e : keeps (same w_tasks) (PgNotificationRepo_IncrementRetry id e).
Proof. unfold PgNotificationRepo_IncrementRetry. keeps_auto. Qed.
Lemma AttemptCreate_tasks a : keeps (same w_tasks) (PgDeliveryAttemptRepo_Create a).
Proof. unfold PgDeliveryAttemptRepo_Create. keeps_auto. Qed.
Lemma MetricUpsert_tasks m : keeps (same w_tasks) (PgDeliveryMetricRepo_Upsert m).
Proof. unfold PgDeliveryMetricRepo_Upsert. keeps_auto. Qed.
Lemma createInitialDeliveryMetric_tasks id m : keeps (same w_tasks) (createInitialDeliveryMetric id m).
Proof. unfold createInitialDeliveryMetric. pose proof MetricUpsert_tasks. keeps_auto. Qed.
Lemma createInitialDeliveryMetric_notifications id m : keeps (same notifications_of) (createInitialDeliveryMetric id m).
Proof. unfold createInitialDeliveryMetric. keeps_auto. Qed.

Lemma preserves_db {A} (m : M A) : keeps (same w_db) m → preserves db_ok m.
Proof. apply preserves_same. Qed.

Create HintDb worker.

(** A computation of the worker: keeps the contract and the configuration. *)
Definition worker_ok {A} (m : M A) : Prop := preserves db_ok m ∧ keeps (same config_of) m.

Lemma worker_ok_ret {A} (a : A) : worker_ok (mret a).
Proof. split; apply keeps_ret; apply _. Qed.
Lemma worker_ok_bind {A B} (m : M A) (f : A → M B) : worker_ok m → (∀ a, worker_ok (f a)) → worker_ok (m ≫= f).
Proof. intros [H1 H2] Hf. split; (apply keeps_bind; [apply _|done|]); intros a; apply Hf. Qed.
Lemma worker_ok_db {A} (m : M A) : keeps (same w_db) m → worker_ok m.
Proof. intros H. split; [by apply preserves_db|by apply same_db_config]. Qed.
Lemma worker_ok_log_err {A} (m : M (result A)) msg : worker_ok m → worker_ok (log_err m msg).
Proof.
  intros H. unfold log_err. apply worker_ok_bind; [done|]. intros []; [apply worker_ok_ret|].
  apply worker_ok_db, log_db.
Qed.

(** Steps through a handler whose calls are [worker_ok]. *)
Ltac worker_step :=
  lazymatch goal with
  | |- worker_ok (mbind _ _) => apply worker_ok_bind; [|intros ?]
  | |- worker_ok (log_err _ _) => apply worker_ok_log_err
  | |- worker_ok (mret _) => apply worker_ok_ret
  | |- worker_ok (match ?x with _ => _ end) => destruct x
  | |- worker_ok _ => first [ solve [auto with worker] | solve [split; eauto with db_ok keeps]
                            | solve [apply worker_ok_db; eauto with keeps] ]
  end.

Lemma createInitialDeliveryMetric_ok id m : worker_ok (createInitialDeliveryMetric id m).
Proof. unfold createInitialDeliveryMetric. repeat worker_step. Qed.

Lemma emitTerminalEvent_ok p ty n : worker_ok (emitTerminalEvent Emit p ty n).
Proof. unfold emitTerminalEvent. repeat worker_step. Qed.

Hint Resolve createInitialDeliveryMetric_ok emitTerminalEvent_ok : worker.

Lemma handleDeliveryError_ok a id e : worker_ok (handleDeliveryError a id e).
Proof. unfold handleDeliveryError. repeat worker_step. Qed.

Lemma handleProviderFailure_ok a p resp n : worker_ok (handleProviderFailure Emit a p resp n).
Proof.
  unfold handleProviderFailure, handlePermanentProviderFailure.
  repeat worker_step.
Qed.

Lemma recordSuccessfulDelivery_ok a p resp n : worker_ok (recordSuccessfulDelivery Emit a p resp n).
Proof. unfold recordSuccessfulDelivery. repeat worker_step. Qed.

Hint Resolve handleDeliveryError_ok handleProviderFailure_ok recordSuccessfulDelivery_ok : worker.

Lemma HandleNotificationDeliver_ok ctx t :
  registry_ok registry → worker_ok (HandleNotificationDeliver registry Emit ctx t).
Proof.
  intros Hr. unfold HandleNotificationDeliver, Registry_Get.
  destruct (dec_NotificationDeliverPayload _) as [p|]; [|apply worker_ok_ret].
  destruct (registry !! p_ChannelType p) as [prov|] eqn:Hp; [destruct (Hr _ _ Hp) as [_ HL]|].
  all: repeat worker_step.
Qed.

Lemma HandleError_ok ctx t e : worker_ok (HandleError Emit ctx t e).
Proof.
  unfold HandleError, handleNotificationRetriesExhausted, handleWebhookEventRetriesExhausted.
  repeat worker_step.
Qed.
End handler.

(** ** Refinement of the abstract attempt *)

Lemma subscribed_config p db db' eid :
  config_tables db' = config_tables db → subscribed p db' eid ↔ subscribed p db eid.
Proof. unfold config_tables, subscribed. intros [= _ _ _ _ ->]. done. Qed.

Lemma fanout_config `{E : Env} p db db' ts :
  config_tables db' = config_tables db → fanout p db' ts → fanout p db ts.
Proof.
  intros Hc (eids & Hf & Hn & Hs). exists eids. split_and!; [done..|]. intros eid.
  rewrite Hs. by apply subscribed_config.
Qed.

Section refinement.
Context `{E : Env} (registry : Registry) (Emit : EmitParams → M (result unit)) `{!TerminalEventEmitter Emit}.
Context (Hup : services_up).

Local Lemma nofault : no_faults. Proof. apply Hup. Qed.
Hint Resolve nofault : core.

Lemma effect_ext {A} nid (m : M A) g h : (∀ v, g v = h v) → effect nid m g → effect nid m h.
Proof. intros Hgh Hm w. rewrite Hm. destruct (view nid w); simpl; [by rewrite Hgh|done]. Qed.

(** What the steps of a computation do to the notification row and the queue:
    the row is mapped by [g], and the tasks [T] allows are added. *)
Definition does {A} (nid : uuid) (m : M A) (g : nview → nview) (T : DB → list Task → Prop) : Prop :=
  worker_ok m ∧ effect nid m g ∧
  ∀ w, db_ok (w_db w) → ∃ ts, w_tasks (m w).2 = w_tasks w ++ ts ∧ T (w_db w) ts.

Definition no_tasks (_ : DB) (ts : list Task) : Prop := ts = [].

Lemma does_quiet {A} nid (m : M A) g :
  worker_ok m → effect nid m g → keeps (same w_tasks) m → does nid m g no_tasks.
Proof. intros Hw Hg Ht. split_and!; [done..|]. intros w _. exists []. rewrite app_nil_r. split; [apply Ht|done]. Qed.

Lemma does_id {A} nid (m : M A) :
  keeps (same w_db) m → keeps (same w_tasks) m → does nid m id no_tasks.
Proof. intros Hd Ht. apply does_quiet; [by apply worker_ok_db| |done]. apply effect_same. eauto with keeps. Qed.

(** Quiet first, then [T]. *)
Lemma does_bind {A B} nid (m : M A) (f : A → M B) g h T :
  (∀ db db' ts, config_tables db' = config_tables db → T db' ts → T db ts) →
  does nid m g no_tasks → (∀ a, does nid (f a) h T) → does nid (m ≫= f) (h ∘ g) T.
Proof.
  intros HT (Hw & Hg & Ht) Hf. split_and!.
  - apply worker_ok_bind; [done|]. apply Hf.
  - apply effect_bind; [done|]. apply Hf.
  - intros w Hok. destruct Hw as [Hw1 Hw2]. specialize (Hw1 w Hok). specialize (Hw2 w).
    destruct (Ht w Hok) as (ts0 & Hts0 & ->). unfold mbind, ST_bind. destruct (m w) as [a w1]; simpl in *.
    destruct (Hf a) as (_ & _ & Hfa). destruct (Hfa w1 Hw1) as (ts & Hts & HTs).
    exists ts. rewrite Hts, Hts0, app_nil_r. split; [done|]. by eapply HT.
Qed.

Lemma does_seq {A B} nid (m : M A) (f : A → M B) g h T :
  does nid m g T → (∀ a, does nid (f a) h no_tasks) → does nid (m ≫= f) (h ∘ g) T.
Proof.
  intros (Hw & Hg & Ht) Hf. split_and!.
  - apply worker_ok_bind; [done|]. apply Hf.
  - apply effect_bind; [done|]. apply Hf.
  - intros w Hok. destruct Hw as [Hw1 _]. specialize (Hw1 w Hok).
    destruct (Ht w Hok) as (ts & Hts & HTs). unfold mbind, ST_bind. destruct (m w) as [a w1]; simpl in *.
    destruct (Hf a) as (_ & _ & Hfa). destruct (Hfa w1 Hw1) as (ts' & Hts' & ->).
    exists ts. by rewrite Hts', Hts, app_nil_r.
Qed.

Lemma does_ext {A} nid (m : M A) g h T : (∀ v, g v = h v) → does nid m g T → does nid m h T.
Proof. intros H (? & ? & ?). split_and!; [done|by eapply effect_ext|done]. Qed.

Lemma no_tasks_stable db db' ts : config_tables db' = config_tables db → no_tasks db' ts → no_tasks db ts.
Proof. done. Qed.

(** Steps that leave the row alone before or after. *)
Lemma does_skip {A B} nid (m : M A) (f : A → M B) h T :
  (∀ db db' ts, config_tables db' = config_tables db → T db' ts → T db ts) →
  does nid m id no_tasks → (∀ a, does nid (f a) h T) → does nid (m ≫= f) h T.
Proof. intros HT Hm Hf. exact (does_bind nid m f id h T HT Hm Hf). Qed.

Lemma does_then {A B} nid (m : M A) (f : A → M B) g T :
  does nid m g T → (∀ a, does nid (f a) id no_tasks) → does nid (m ≫= f) g T.
Proof. intros Hm Hf. exact (does_seq nid m f g id T Hm Hf). Qed.

Lemma does_ret {A} nid (a : A) : does nid (mret a) id no_tasks.
Proof. apply does_id; apply keeps_ret; apply _. Qed.

Lemma does_log nid msg : does nid (log msg) id no_tasks.
Proof. apply does_id; eauto with keeps. Qed.

(** The repository calls of the handler. *)
Lemma does_log_err {A} nid (m : M (result A)) msg g :
  worker_ok m → effect nid m g → keeps (same w_tasks) m → does nid (log_err m msg) g no_tasks.
Proof.
  intros Hw Hg Ht. apply does_quiet; [by apply worker_ok_log_err|by apply effect_log_err|].
  apply keeps_log_err; [apply _|done|apply log_tasks].
Qed.

Lemma does_UpdateStatus nid st e msg :
  does nid (log_err (PgNotificationRepo_UpdateStatus nid st e) msg) (λ '(_, r, _), (st, r, e)) no_tasks.
Proof.
  apply does_log_err; [split; eauto with db_ok keeps|by apply UpdateStatus_effect|apply UpdateStatus_tasks].
Qed.

Lemma does_IncrementRetry nid e msg :
  does nid (log_err (PgNotificationRepo_IncrementRetry nid e) msg)
    (λ '(s, r, e0), if in_int4 (r + 1) then (s, r + 1, Some e)%Z else (s, r, e0)) no_tasks.
Proof.
  apply does_log_err; [split; eauto with db_ok keeps|by apply IncrementRetry_effect|apply IncrementRetry_tasks].
Qed.

Lemma does_MarkDelivered nid msg :
  does nid (log_err (PgNotificationRepo_MarkDelivered nid) msg) (λ '(_, r, e), (StatusDelivered, r, e)) no_tasks.
Proof.
  apply does_log_err; [split; eauto with db_ok keeps|by apply MarkDelivered_effect|apply MarkDelivered_tasks].
Qed.

Lemma does_SetProviderMsgID nid m msg :
  does nid (log_err (PgNotificationRepo_SetProviderMsgID nid m) msg) id no_tasks.
Proof.
  apply does_log_err; [split; eauto with db_ok keeps|by apply SetProviderMsgID_effect|apply SetProviderMsgID_tasks].
Qed.

Lemma does_AttemptCreate nid a msg : does nid (log_err (PgDeliveryAttemptRepo_Create a) msg) id no_tasks.
Proof.
  apply does_log_err; [split; eauto with db_ok keeps|apply effect_same; eauto with keeps|apply AttemptCreate_tasks].
Qed.

Lemma does_metric nid m : does nid (createInitialDeliveryMetric nid m) id no_tasks.
Proof.
  apply does_quiet; [apply createInitialDeliveryMetric_ok| |apply createInitialDeliveryMetric_tasks].
  apply effect_same, createInitialDeliveryMetric_notifications.
Qed.

Lemma does_Emit nid params msg : does nid (log_err (Emit params) msg) id (fanout params).
Proof.
  split_and!.
  - apply worker_ok_log_err, worker_ok_db, Emit_keeps_db.
  - apply effect_log_err, effect_same. eauto with keeps.
  - intros w Hok. destruct (Emit_fanout Emit params w Hup Hok) as (ts & Hts & Hf).
    exists ts. split; [|done]. by destruct (log_err_state (Emit params) msg w) as [->| ->].
Qed.

(** The answer of a computation, whatever the world. *)
Definition answers {A} (m : M A) (x : A) : Prop := ∀ w, (m w).1 = x.
Lemma answers_bind {A B} (m : M A) (f : A → M B) x : (∀ a, answers (f a) x) → answers (m ≫= f) x.
Proof. intros H w. unfold mbind, ST_bind. destruct (m w) as [a w']. apply H. Qed.
Lemma answers_ret {A} (x : A) : answers (mret x) x.
Proof. by intros w. Qed.

Ltac does_step :=
  lazymatch goal with
  | |- does _ (mbind _ _) _ no_tasks => eapply does_bind; [exact no_tasks_stable| |intros ?]
  | |- does _ (log _) _ _ => apply does_log
  | |- does _ (mret _) _ _ => apply does_ret
  | |- does _ (log_err (PgNotificationRepo_UpdateStatus _ _ _) _) _ _ => apply does_UpdateStatus
  | |- does _ (log_err (PgNotificationRepo_IncrementRetry _ _) _) _ _ => apply does_IncrementRetry
  | |- does _ (log_err (PgNotificationRepo_MarkDelivered _) _) _ _ => apply does_MarkDelivered
  | |- does _ (log_err (PgNotificationRepo_SetProviderMsgID _ _) _) _ _ => apply does_SetProviderMsgID
  | |- does _ (log_err (PgDeliveryAttemptRepo_Create _) _) _ _ => apply does_AttemptCreate
  | |- does _ (createInitialDeliveryMetric _ _) _ _ => apply does_metric
  end.

Lemma does_handleDeliveryError nid a e :
  does nid (handleDeliveryError a nid e) (attempt_view (Transient (err_Error e))) no_tasks.
Proof.
  unfold handleDeliveryError. eapply does_ext; [|repeat does_step].
  intros [[s r] e0]. simpl. unfold bump. by destruct (in_int4 _).
Qed.

Lemma does_handleProviderFailure_transient nid a p resp n :
  p_NotificationID p = nid → sr_Permanent resp = false →
  does nid (handleProviderFailure Emit a p resp n) (attempt_view (Transient (sr_ErrorMessage resp))) no_tasks.
Proof.
  intros <- Hp. unfold handleProviderFailure. rewrite Hp. eapply does_ext; [|repeat does_step].
  intros [[s r] e0]. simpl. unfold bump. by destruct (in_int4 _).
Qed.

Lemma does_handleProviderFailure_permanent nid a p resp n :
  p_NotificationID p = nid → sr_Permanent resp = true →
  does nid (handleProviderFailure Emit a p resp n) (attempt_view (Permanent (sr_ErrorMessage resp)))
    (fanout (event_of p WebhookEventFailed n)).
Proof.
  intros <- Hp. unfold handleProviderFailure, handlePermanentProviderFailure. rewrite Hp.
  eapply does_ext; [|eapply does_bind; [apply fanout_config|does_step|intros _];
    eapply does_bind; [apply fanout_config|does_step|intros _];
    eapply does_bind; [apply fanout_config|does_step|intros _];
    eapply does_seq; [apply does_Emit|intros _; repeat does_step]].
  intros [[s r] e0]. simpl. unfold bump. by destruct (in_int4 _).
Qed.

Lemma does_recordSuccessfulDelivery nid a p resp n :
  p_NotificationID p = nid →
  does nid (recordSuccessfulDelivery Emit a p resp n) (λ '(_, r, e), (StatusDelivered, r, e))
    (fanout (event_of p WebhookEventDelivered n)).
Proof.
  intros <-. unfold recordSuccessfulDelivery.
  eapply does_ext; [|eapply does_bind; [apply fanout_config|does_step|intros _];
    eapply does_bind; [apply fanout_config|does_step|intros _];
    eapply does_bind; [apply fanout_config| |intros _];
    [|eapply does_seq; [apply does_Emit|intros _; repeat does_step]]].
  2: { case_bool_decide; [does_step|]. eapply does_ext; [|repeat does_step]. by intros [[s r] e0]. }
  by intros [[s r] e0].
Qed.

(** The handler after the provider's answer [r]. *)
Definition after_send (p : NotificationDeliverPayload) (n : Z) (start : Time) (r : result SendResponse)
    : M (result unit) :=
  finish ← time_Now;
  let durationMs := ((finish - start) /t Millisecond)%Z in
  id ← uuid_New;
  attemptedAt ← time_Now;
  let attempt := mkDeliveryAttempt id (p_NotificationID p) n "" None None durationMs attemptedAt in
  match r with
  | Err err => handleDeliveryError attempt (p_NotificationID p) err
  | Ok resp =>
      if negb (sr_Success resp) then handleProviderFailure Emit attempt p resp n
      else _ ← recordSuccessfulDelivery Emit attempt p resp n; mret (Ok tt)
  end.

(** The tasks due after an attempt. *)
Definition attempt_tasks (p : NotificationDeliverPayload) (n : Z) (o : outcome) : DB → list Task → Prop :=
  match attempt_event o with
  | None => no_tasks
  | Some ty => fanout (event_of p ty n)
  end.

Lemma attempt_tasks_stable p n o db db' ts :
  config_tables db' = config_tables db → attempt_tasks p n o db' ts → attempt_tasks p n o db ts.
Proof. unfold attempt_tasks. destruct (attempt_event o); [apply fanout_config|done]. Qed.

Lemma after_send_answers p n start r : answers (after_send p n start r) (attempt_result r).
Proof.
  unfold after_send. do 3 (apply answers_bind; intros ?). destruct r as [resp|err]; simpl.
  - destruct (sr_Success resp); simpl; [by apply answers_bind; intros []|].
    unfold handleProviderFailure, handlePermanentProviderFailure. apply answers_bind. intros [].
    destruct (sr_Permanent resp); repeat (apply answers_bind; intros ?); apply answers_ret.
  - unfold handleDeliveryError. repeat (apply answers_bind; intros ?). apply answers_ret.
Qed.

(** The row after the answer; [processing] has cleared the last error before. *)
Definition answer_view (r : result SendResponse) (v : nview) : nview :=
  match outcome_of r with
  | Delivered => let '(_, c, e) := v in (StatusDelivered, c, e)
  | o => attempt_view o v
  end.

Lemma does_after_send p n start r :
  does (p_NotificationID p) (after_send p n start r) (answer_view r) (attempt_tasks p n (outcome_of r)).
Proof.
  unfold after_send.
  do 3 (apply does_skip; [apply attempt_tasks_stable|apply does_id; eauto with keeps|intros ?]).
  unfold answer_view, attempt_tasks.
  destruct r as [resp|err]; simpl; [|apply does_handleDeliveryError].
  destruct (sr_Success resp) eqn:Hs; simpl.
  - apply does_then; [by apply does_recordSuccessfulDelivery|intros _; apply does_ret].
  - destruct (sr_Permanent resp) eqn:Hp; simpl;
      [by apply does_handleProviderFailure_permanent|by apply does_handleProviderFailure_transient].
Qed.

Lemma answer_view_processing r v :
  answer_view r (let '(_, c, _) := v in (StatusProcessing, c, None)) = attempt_view (outcome_of r) v.
Proof. destruct v as [[s c] e]. unfold answer_view. by destruct (outcome_of r). Qed.

(** The whole handler, on a payload whose channel and provider exist. *)
Lemma HandleNotificationDeliver_refines ctx t p prov c w :
  registry_ok registry → db_ok (w_db w) →
  dec_NotificationDeliverPayload (task_Payload t) = Ok p →
  registry !! p_ChannelType p = Some prov →
  channel_configs (w_db w) !! p_ChannelConfigID p = Some c →
  let res := HandleNotificationDeliver registry Emit ctx t w in
  ∃ w1, let r := (pr_Send prov (Some (cr_Config c)) (buildSendRequest p (config_of_row c)) w1).1 in
    res.1 = attempt_result r ∧
    view (p_NotificationID p) res.2 = attempt_view (outcome_of r) <$> view (p_NotificationID p) w ∧
    ∃ ts, w_tasks res.2 = w_tasks w ++ ts ∧
          attempt_tasks p (ctx_RetryCount ctx + 1) (outcome_of r) (w_db w) ts.
Proof.
  intros Hreg Hok Hdec Hprov Hc. cbv zeta. set (nid := p_NotificationID p).
  destruct (does_UpdateStatus nid StatusProcessing None "failed to update notification status to processing")
    as ([Hp1 Hc1] & Hv1 & Ht1).
  specialize (Hp1 w Hok). specialize (Hc1 w). specialize (Hv1 w). destruct (Ht1 w Hok) as (ts0 & Hts0 & ->).
  destruct (Hreg _ _ Hprov) as [_ HL].
  assert (channel_configs (w_db (log_err (PgNotificationRepo_UpdateStatus nid StatusProcessing None)
    "failed to update notification status to processing" w).2) !! p_ChannelConfigID p = Some c) as Hc'.
  { unfold same, config_of, config_tables in Hc1. injection Hc1 as _ -> _ _ _. done. }
  unfold HandleNotificationDeliver, Registry_Get. rewrite Hdec. cbv zeta. fold nid.
  rewrite ST_bind_run. set (w1 := (log_err _ _ w).2) in *.
  rewrite ST_bind_run. unfold PgChannelConfigRepo_GetByID. rewrite db_query_fine by done.
  cbn [fst snd]. rewrite Hc'. cbn [scanConfig]. rewrite Hprov.
  rewrite ST_bind_run. set (w2 := (time_Now _).2). set (start := (time_Now _).1).
  rewrite ST_bind_run. exists w2. cbn [cc_Config config_of_row].
  pose proof (Send_keeps_db (Some (cr_Config c)) (buildSendRequest p (config_of_row c)) w2) as Hsd.
  pose proof (Send_keeps_tasks (Some (cr_Config c)) (buildSendRequest p (config_of_row c)) w2) as Hst.
  destruct (pr_Send prov _ _ w2) as [r w3]. cbn [fst snd] in *.
  change (w_db w3 = w_db w1) in Hsd. change (w_tasks w3 = w_tasks w1) in Hst.
  change (time_Now ≫= _) with (after_send p (ctx_RetryCount ctx + 1) start r).
  destruct (does_after_send p (ctx_RetryCount ctx + 1) start r) as (_ & Hv & Ht).
  destruct (Ht w3) as (ts & Hts & HT); [by rewrite Hsd|]. split_and!.
  - apply after_send_answers.
  - assert (view nid w3 = view nid w1) as Hv3 by (unfold view; by rewrite Hsd).
    rewrite Hv. fold nid. rewrite Hv3, Hv1.
    destruct (view nid w) as [v|]; [|done]. simpl. f_equal. apply answer_view_processing.
  - exists ts. rewrite Hts, Hst, Hts0, app_nil_r. split; [done|].
    eapply attempt_tasks_stable; [|exact HT]. rewrite Hsd. exact Hc1.
Qed.
End refinement.
