(* ===== verification/Lifecycle.v ===== *)
(** * Lifecycle: a notification from its first attempt to its terminal state

    [run_task] is asynq's documented treatment of a task: the handler runs; on an
    error the error handler is called, then the task is archived when the error
    wraps [SkipRetry] or no retry is left, and run again otherwise.  Over it, the
    dispatcher and the error handler together give each notification exactly one
    terminal transition and one status event. *)
From S2P Require Import Prelude GoTime Json Domain World Repository Integrity Tasks Emitter Provider.
From S2P Require Import Dispatcher DispatcherFacts.

Inductive task_end := Completed | Archived.

Section run.
Context `{E : Env} (handler : TaskCtx → Task → M (result unit)) (onError : TaskCtx → Task → error → M unit).

(** [remaining] retries are left after this run. *)
Fixpoint run_task (remaining : nat) (retried maxRetry : Z) (t : Task) : M task_end :=
  r ← handler (mkTaskCtx retried maxRetry) t;
  match r with
  | Ok _ => mret Completed
  | Err e =>
      _ ← onError (mkTaskCtx retried maxRetry) t e;
      if errors_Is e SkipRetry then mret Archived
      else match remaining with
           | O => mret Archived
           | S k => run_task k (retried + 1) maxRetry t
           end
  end.

Lemma run_task_keeps (R : relation World) `{!PreOrder R} t :
  (∀ ctx, keeps R (handler ctx t)) → (∀ ctx e, keeps R (onError ctx t e)) →
  ∀ rem r m, keeps R (run_task rem r m t).
Proof.
  intros Hh He. induction rem as [|rem IH]; intros r m; simpl.
  all: apply keeps_bind; [done|done|]; intros [?|e]; [by apply keeps_ret|].
  all: apply keeps_bind; [done|done|]; intros _; destruct (errors_Is e SkipRetry); [by apply keeps_ret|].
  - by apply keeps_ret.
  - apply IH.
Qed.
End run.

(** A task as asynq runs it from the start. *)
Definition process `{E : Env} (handler : TaskCtx → Task → M (result unit))
    (onError : TaskCtx → Task → error → M unit) (maxRetry : nat) (t : Task) : M task_end :=
  run_task handler onError maxRetry 0 (Z.of_nat maxRetry) t.

(** The terminal state reached after [k] attempts, the counter starting at [c]. *)
Inductive terminal (p : NotificationDeliverPayload) (retried c : Z) (k : nat) : task_end → nview → EmitParams → Prop :=
| terminal_delivered :
    terminal p retried c k Completed (StatusDelivered, Nat.iter (k - 1) bump c, None)
      (event_of p WebhookEventDelivered (retried + Z.of_nat k))
| terminal_failed e :
    terminal p retried c k Archived (StatusFailed, Nat.iter k bump c, Some e)
      (event_of p WebhookEventFailed (retried + Z.of_nat k)).

Lemma iter_bump k c : (0 ≤ c)%Z → (c + Z.of_nat k < 2 ^ 31)%Z → Nat.iter k bump c = (c + Z.of_nat k)%Z.
Proof.
  intros Hc. induction k as [|k IH]; intros Hk; simpl; [lia|]. rewrite IH by lia.
  unfold bump, in_int4. rewrite bool_decide_eq_true_2 by lia. lia.
Qed.

Lemma iter_bump_shift k c : Nat.iter k bump (bump c) = Nat.iter (S k) bump c.
Proof. induction k as [|k IH]; [done|]. simpl in *. by rewrite IH. Qed.

(** One more attempt before a terminal state. *)
Lemma terminal_step p retried c k d v params :
  (1 ≤ k)%nat → terminal p (retried + 1) (bump c) k d v params → terminal p retried c (S k) d v params.
Proof.
  intros Hk. destruct 1 as [|e].
  - replace (retried + 1 + Z.of_nat k)%Z with (retried + Z.of_nat (S k))%Z by lia.
    rewrite iter_bump_shift. replace (S (k - 1)) with (S k - 1)%nat by lia. constructor.
  - replace (retried + 1 + Z.of_nat k)%Z with (retried + Z.of_nat (S k))%Z by lia.
    rewrite iter_bump_shift. constructor.
Qed.

Section lifecycle.
Context `{E : Env} (registry : Registry) (Emit : EmitParams → M (result unit)) `{!TerminalEventEmitter Emit}.
Context (Hup : services_up).

Local Lemma nofault' : no_faults. Proof. apply Hup. Qed.
Hint Resolve nofault' : core.

(** ** The error handler *)

Lemma does_HandleError_early nid ctx t e :
  (ctx_RetryCount ctx < ctx_MaxRetry ctx)%Z → does nid (HandleError Emit ctx t e) id no_tasks.
Proof.
  intros H. unfold HandleError. rewrite (proj2 (Z.ltb_lt _ _) H).
  apply does_skip; [apply no_tasks_stable|apply does_log|intros _; apply does_ret].
Qed.

Lemma does_HandleError_exhausted ctx t e p :
  (ctx_MaxRetry ctx ≤ ctx_RetryCount ctx)%Z → task_Type t = TypeNotificationDeliver →
  dec_NotificationDeliverPayload (task_Payload t) = Ok p →
  does (p_NotificationID p) (HandleError Emit ctx t e) (λ '(_, r, _), (StatusFailed, r, Some (err_Error e)))
    (if errors_Is e SkipRetry then no_tasks
     else fanout (event_of p WebhookEventFailed (ctx_RetryCount ctx + 1))).
Proof.
  intros H Ht Hp. unfold HandleError. rewrite (proj2 (Z.ltb_ge _ _) H), Ht.
  rewrite bool_decide_eq_true_2 by done. unfold handleNotificationRetriesExhausted. rewrite Hp.
  assert (∀ db db' ts, config_tables db' = config_tables db →
    (if errors_Is e SkipRetry then no_tasks else fanout (event_of p WebhookEventFailed (ctx_RetryCount ctx + 1))) db' ts →
    (if errors_Is e SkipRetry then no_tasks else fanout (event_of p WebhookEventFailed (ctx_RetryCount ctx + 1))) db ts)
    as HT by (intros ???; destruct (errors_Is e SkipRetry); [done|apply fanout_config]).
  apply does_skip; [done|apply does_log|intros _]. cbv zeta.
  eapply does_ext; [|eapply does_bind; [exact HT|by apply does_UpdateStatus|intros _];
    apply does_skip; [exact HT|apply does_log|intros _]].
  2: { instantiate (1 := id). destruct (errors_Is e SkipRetry); [apply does_ret|by apply does_Emit]. }
  by intros [[s r] e0].
Qed.

(** ** From an attempt to the end *)

Context (t : Task) (p : NotificationDeliverPayload) (prov : Provider) (c : ChannelRow)
  (Hreg : registry_ok registry) (Hty : task_Type t = TypeNotificationDeliver)
  (Hdec : dec_NotificationDeliverPayload (task_Payload t) = Ok p)
  (Hprov : registry !! p_ChannelType p = Some prov).

Let nid := p_NotificationID p.

(** The worlds in which an attempt can run. *)
Definition attempt_ready (w : World) : Prop :=
  db_ok (w_db w) ∧ channel_configs (w_db w) !! p_ChannelConfigID p = Some c.

Lemma worker_ok_ready {A} (m : M A) w :
  worker_ok m → attempt_ready w → attempt_ready (m w).2 ∧ config_tables (w_db (m w).2) = config_tables (w_db w).
Proof.
  intros [Hm1 Hm2] [Hok Hc]. specialize (Hm2 w). split; [|exact Hm2]. split; [by apply Hm1|].
  unfold same, config_of, config_tables in Hm2. by injection Hm2 as _ -> _ _ _.
Qed.

(** The world after an attempt has gone through the error handler: [w'] has
    the row [v'], and the tasks [T] were added. *)
Definition leads_to (w w' : World) (v' : nview) (T : DB → list Task → Prop) : Prop :=
  attempt_ready w' ∧ config_tables (w_db w') = config_tables (w_db w) ∧ view nid w' = Some v' ∧
  ∃ ts, w_tasks w' = w_tasks w ++ ts ∧ T (w_db w) ts.

Lemma leads_quiet {A} (m : M A) g T w w1 v1 :
  does nid m g no_tasks → leads_to w w1 v1 T → leads_to w (m w1).2 (g v1) T.
Proof.
  intros (Hw & Hg & Ht) (Hr & Hc & Hv & ts & Hts & HT).
  destruct (worker_ok_ready _ _ Hw Hr) as [Hr' Hc']. destruct (Ht w1 (proj1 Hr)) as (ts' & Hts' & ->).
  split_and!; [done|by rewrite Hc'|by rewrite Hg, Hv|].
  exists ts. by rewrite Hts', Hts, app_nil_r.
Qed.

Lemma leads_emit {A} (m : M A) g params w w1 v1 :
  does nid m g (fanout params) → leads_to w w1 v1 no_tasks → leads_to w (m w1).2 (g v1) (fanout params).
Proof.
  intros (Hw & Hg & Ht) (Hr & Hc & Hv & ts & Hts & ->).
  destruct (worker_ok_ready _ _ Hw Hr) as [Hr' Hc']. destruct (Ht w1 (proj1 Hr)) as (ts' & Hts' & HT).
  split_and!; [done|by rewrite Hc'|by rewrite Hg, Hv|].
  exists ts'. rewrite Hts', Hts, app_nil_r. split; [done|]. by eapply fanout_config.
Qed.

(** The error handler after a permanent failure, which has emitted. *)
Lemma leads_skip ctx e T w w1 cnt msg :
  errors_Is e SkipRetry = true → leads_to w w1 (StatusFailed, cnt, Some msg) T →
  ∃ msg', leads_to w (HandleError Emit ctx t e w1).2 (StatusFailed, cnt, Some msg') T.
Proof.
  intros He Hl. destruct (Z.lt_ge_cases (ctx_RetryCount ctx) (ctx_MaxRetry ctx)) as [Hlt|Hge].
  - exists msg. exact (leads_quiet _ id T _ _ _ (does_HandleError_early nid ctx t e Hlt) Hl).
  - pose proof (does_HandleError_exhausted ctx t e p Hge Hty Hdec) as Hd. rewrite He in Hd.
    exists (err_Error e). exact (leads_quiet _ _ T _ _ _ Hd Hl).
Qed.

(** The error handler after a failure that could be retried. *)
Lemma leads_transient ctx e w w1 cnt msg :
  errors_Is e SkipRetry = false → leads_to w w1 (StatusRetrying, cnt, Some msg) no_tasks →
  let w' := (HandleError Emit ctx t e w1).2 in
  if negb (ctx_RetryCount ctx <? ctx_MaxRetry ctx)%Z
  then ∃ msg', leads_to w w' (StatusFailed, cnt, Some msg') (fanout (event_of p WebhookEventFailed (ctx_RetryCount ctx + 1)))
  else ∃ msg', leads_to w w' (StatusRetrying, cnt, Some msg') no_tasks.
Proof.
  intros He Hl. cbv zeta. destruct (Z.ltb_spec (ctx_RetryCount ctx) (ctx_MaxRetry ctx)) as [Hlt|Hge]; simpl.
  - exists msg. exact (leads_quiet _ id _ _ _ _ (does_HandleError_early nid ctx t e Hlt) Hl).
  - pose proof (does_HandleError_exhausted ctx t e p Hge Hty Hdec) as Hd. rewrite He in Hd.
    exists (err_Error e). exact (leads_emit _ _ _ _ _ _ Hd Hl).
Qed.

Lemma attempt_cases ctx w v :
  attempt_ready w → view nid w = Some v →
  let h := HandleNotificationDeliver registry Emit ctx t w in
  let n := (ctx_RetryCount ctx + 1)%Z in
  match h.1 with
  | Ok _ => leads_to w h.2 (StatusDelivered, v.1.2, None) (fanout (event_of p WebhookEventDelivered n))
  | Err e =>
      let w' := (HandleError Emit ctx t e h.2).2 in
      if errors_Is e SkipRetry || negb (ctx_RetryCount ctx <? ctx_MaxRetry ctx)%Z
      then ∃ msg, leads_to w w' (StatusFailed, bump v.1.2, Some msg) (fanout (event_of p WebhookEventFailed n))
      else ∃ msg, leads_to w w' (StatusRetrying, bump v.1.2, Some msg) no_tasks
  end.
Proof.
  intros Hrdy Hv. cbv zeta. destruct Hrdy as [Hok Hc].
  destruct (HandleNotificationDeliver_refines registry Emit Hup ctx t p prov c w Hreg Hok Hdec Hprov Hc)
    as (w0 & Hres & Hview & ts & Hts & HT).
  fold nid in Hview. rewrite Hv in Hview. destruct v as [[s cnt] e0]. simpl in Hview. cbn [fst snd].
  destruct (worker_ok_ready _ w (HandleNotificationDeliver_ok registry Emit ctx t Hreg) (conj Hok Hc)) as [Hrdy Hcfg].
  destruct (Hreg _ _ Hprov) as [_ HL].
  destruct (HandleNotificationDeliver registry Emit ctx t w) as [res w1]. cbn [fst snd] in *.
  assert (∀ o T, Some (attempt_view o (s, cnt, e0)) = view nid w1 → T (w_db w) ts →
    leads_to w w1 (attempt_view o (s, cnt, e0)) T) as Hlead.
  { intros o T Ho HTs. split_and!; [done..|by eauto]. }
  destruct (pr_Send prov _ _ w0) as [[resp|e] w2] eqn:Hr; simpl in *; subst res.
  - destruct (sr_Success resp); simpl in *; [by apply (Hlead Delivered)|].
    destruct (sr_Permanent resp); simpl in *.
    + by eapply leads_skip, (Hlead (Permanent (sr_ErrorMessage resp))).
    + by eapply leads_transient, (Hlead (Transient (sr_ErrorMessage resp))).
  - assert (errors_Is e SkipRetry = false) as He by (eapply Send_no_skip; by rewrite Hr).
    rewrite He. by eapply leads_transient, (Hlead (Transient (err_Error e))).
Qed.

Lemma run_task_terminal remaining retried w v :
  attempt_ready w → view nid w = Some v →
  let run := run_task (HandleNotificationDeliver registry Emit) (HandleError Emit) remaining retried
               (retried + Z.of_nat remaining) t w in
  ∃ k v' params ts,
    (1 ≤ k ≤ S remaining)%nat ∧ terminal p retried v.1.2 k run.1 v' params ∧
    view nid run.2 = Some v' ∧ w_tasks run.2 = w_tasks w ++ ts ∧ fanout params (w_db w) ts.
Proof.
  cbv zeta. revert retried w v. induction remaining as [|remaining IH]; intros retried w v Hr Hv.
  all: cbn [run_task]; rewrite ST_bind_run.
  all: match goal with
       | Hr : attempt_ready ?w, Hv : view _ ?w = Some ?v |- context [HandleNotificationDeliver _ _ ?ctx _ ?w] =>
         pose proof (attempt_cases ctx w v Hr Hv) as Hcases
       end.
  all: cbv zeta in Hcases; cbn [ctx_RetryCount ctx_MaxRetry] in Hcases.
  all: destruct (HandleNotificationDeliver _ _ _ _ _) as [[[]|e] w1]; cbn [fst snd] in *.
  1, 3: destruct Hcases as (_ & _ & Hv' & ts & Hts & HT);
    exists 1%nat; do 2 eexists; exists ts; split_and!; [lia|lia|constructor|done|done|done].
  all: rewrite ST_bind_run; destruct (errors_Is e SkipRetry); simpl in Hcases.
  1, 3: destruct Hcases as (msg & _ & _ & Hv' & ts & Hts & HT);
    exists 1%nat; do 2 eexists; exists ts; split_and!; [lia|lia|apply (terminal_failed _ _ _ 1)|done|done|done].
  - rewrite (proj2 (Z.ltb_ge _ _)) in Hcases by lia. simpl in Hcases.
    destruct Hcases as (msg & _ & _ & Hv' & ts & Hts & HT).
    exists 1%nat; do 2 eexists; exists ts; split_and!; [lia|lia|apply (terminal_failed _ _ _ 1)|done|done|done].
  - rewrite (proj2 (Z.ltb_lt _ _)) in Hcases by lia. simpl in Hcases.
    destruct Hcases as (msg & Hr' & Hcfg & Hv' & ts & Hts & ->).
    destruct (IH (retried + 1)%Z _ _ Hr' Hv') as (k & v' & params & ts' & Hk & Hterm & Hv2 & Hts' & HT).
    replace (retried + 1 + Z.of_nat remaining)%Z with (retried + Z.of_nat (S remaining))%Z in * by lia.
    exists (S k), v', params, ts'. split_and!; [lia|lia|apply terminal_step; [lia|done]|done| |].
    + by rewrite Hts', Hts, app_nil_r.
    + by eapply fanout_config.
Qed.
End lifecycle.

(** ** The worker's wiring *)

(** The emitter as cmd/worker wires it. *)
Definition worker_Emit `{E : Env} : EmitParams → M (result unit) :=
  WebhookEventEmitter_Emit AsynqWebhookEventEnqueuer_Enqueue.

(** The payload as the worker decodes it: absent metadata became [null]. *)
Definition received (p : NotificationDeliverPayload) : NotificationDeliverPayload :=
  mkNotificationDeliverPayload (p_NotificationID p) (p_TenantID p) (p_ChannelType p) (p_ChannelConfigID p)
    (p_Subject p) (p_Body p) (Some (json_raw (p_Metadata p))) (p_DeliveryPrefs p).

(** The whole life of a notification whose task was just created. *)
Lemma lifecycle_terminal {E : Env} {UL : UuidLaws E} {PL : PgLaws E}
    (registry : Registry) p opts (maxRetry : nat) prov c n w :
  services_up → registry_ok registry → db_ok (w_db w) →
  (∀ d, p_DeliveryPrefs p = Some d → prefs_in_range d) →
  registry !! p_ChannelType p = Some prov →
  channel_configs (w_db w) !! p_ChannelConfigID p = Some c →
  notifications (w_db w) !! p_NotificationID p = Some n → n_RetryCount n = 0%Z →
  (Z.of_nat maxRetry + 1 < 2 ^ 31)%Z →
  let run := process (HandleNotificationDeliver registry worker_Emit) (HandleError worker_Emit) maxRetry
               (NewNotificationDeliverTask p opts) w in
  ∃ (k : nat) n' ts,
    (1 ≤ k ≤ S maxRetry)%nat ∧
    notifications (w_db run.2) !! p_NotificationID p = Some n' ∧
    w_tasks run.2 = w_tasks w ++ ts ∧
    ((run.1 = Completed ∧ n_Status n' = StatusDelivered ∧ n_RetryCount n' = (Z.of_nat k - 1)%Z ∧
      fanout (event_of (received p) WebhookEventDelivered (Z.of_nat k)) (w_db w) ts) ∨
     (run.1 = Archived ∧ n_Status n' = StatusFailed ∧ n_RetryCount n' = Z.of_nat k ∧
      fanout (event_of (received p) WebhookEventFailed (Z.of_nat k)) (w_db w) ts)).
Proof.
  intros Hup Hreg Hok Hpr Hprov Hc Hn H0 Hmax. cbv zeta. unfold process.
  set (t := NewNotificationDeliverTask p opts).
  assert (view (p_NotificationID (received p)) w = Some (n_Status n, n_RetryCount n, n_LastError n)) as Hv.
  { unfold view. simpl. by rewrite Hn. }
  destruct (run_task_terminal registry worker_Emit Hup t (received p) prov c Hreg eq_refl
    (dec_json_NotificationDeliverPayload p Hpr) Hprov maxRetry 0 w _ (conj Hok Hc) Hv)
    as (k & v' & params & ts & Hk & Hterm & Hv' & Hts & HT).
  rewrite Z.add_0_l in *. set (run := run_task _ _ _ _ _ _ w) in *.
  unfold view in Hv'. change (p_NotificationID (received p)) with (p_NotificationID p) in Hv'.
  destruct (notifications (w_db run.2) !! p_NotificationID p) as [n'|] eqn:Hn'; [|done].
  apply (inj Some) in Hv'. subst v'. exists k, n', ts. split_and!; [lia|lia|done|exact Hts|].
  simpl in Hterm. rewrite H0 in Hterm. remember run.1 as d eqn:Hd. remember (n_Status n', n_RetryCount n', n_LastError n') as v2 eqn:Hv2.
  destruct Hterm as [|e]; rewrite Z.add_0_l in *; [left|right].
  all: injection Hv2 as Hs Hcnt He; rewrite iter_bump in Hcnt by lia.
  all: split_and!; [done..| |done]; lia.
Qed.
