(* ===== verification/LifecycleProps.v ===== *)
(** * LifecycleProps: the properties of delivering notifications *)
From S2P Require Import Prelude GoTime Json Domain World Repository Integrity SampleEnv Tasks Emitter.
From S2P Require Import Provider Samples Dispatcher DispatcherFacts Lifecycle.

(** ** Task identities of an emission *)

Section task_ids.
Context {E : Env} {UL : UuidLaws E}.

Definition task_id_of (t : Task) : option string := opt_TaskID (task_Opts t).

Lemma event_task_id params eid t :
  event_task params eid t →
  task_id_of t = Some (webhook_task_id (webhookEventID (ep_NotificationID params) (ep_EventType params)) eid).
Proof.
  intros [now Ht]. unfold NewWebhookEventTask in Ht.
  destruct (json_WebhookEventTaskPayload _) as [j|]; [|done]. by injection Ht as <-.
Qed.

Lemma event_task_ids params eids ts :
  Forall2 (event_task params) eids ts →
  task_id_of <$> ts =
  (λ eid, Some (webhook_task_id (webhookEventID (ep_NotificationID params) (ep_EventType params)) eid)) <$> eids.
Proof. induction 1 as [|eid t eids ts Ht _ IH]; [done|]. csimpl. by rewrite IH, (event_task_id params eid t). Qed.
End task_ids.

(** ** What a delivery leaves alone *)

(** Everything but the notification [nid] and its attempts and metric. *)
Definition elsewhere (nid : uuid) (db : DB) :=
  (config_tables db, delete nid (notifications db),
   filter (λ '(_, a), a_NotificationID a ≠ nid) (delivery_attempts db), delete nid (delivery_metrics db)).

Section isolation.
Context `{E : Env} (registry : Registry) (Emit : EmitParams → M (result unit)) `{!TerminalEventEmitter Emit}.
Context (nid : uuid).

Definition elsewhere_of (w : World) := elsewhere nid (w_db w).

Lemma same_db_elsewhere {A} (m : M A) : keeps (same w_db) m → keeps (same elsewhere_of) m.
Proof. apply same_db. unfold elsewhere_of. congruence. Qed.

Lemma update_notification_elsewhere g db : elsewhere nid (update_notification nid g db).2 = elsewhere nid db.
Proof.
  unfold update_notification. case_match; [|done]. unfold elsewhere, config_tables; simpl.
  by rewrite delete_insert_eq.
Qed.

Lemma UpdateStatus_elsewhere st e : keeps (same elsewhere_of) (PgNotificationRepo_UpdateStatus nid st e).
Proof. apply (now_exec_same (elsewhere nid)). intros. apply update_notification_elsewhere. Qed.
Lemma SetProviderMsgID_elsewhere m : keeps (same elsewhere_of) (PgNotificationRepo_SetProviderMsgID nid m).
Proof. apply (now_exec_same (elsewhere nid)). intros. apply update_notification_elsewhere. Qed.
Lemma MarkDelivered_elsewhere : keeps (same elsewhere_of) (PgNotificationRepo_MarkDelivered nid).
Proof. apply (now_exec_same (elsewhere nid)). intros. apply update_notification_elsewhere. Qed.
Lemma IncrementRetry_elsewhere e : keeps (same elsewhere_of) (PgNotificationRepo_IncrementRetry nid e).
Proof.
  apply (now_exec_same (elsewhere nid)). intros.
  destruct (from_option _ _ _); [apply update_notification_elsewhere|done].
Qed.

Lemma AttemptCreate_elsewhere a :
  a_NotificationID a = nid → keeps (same elsewhere_of) (PgDeliveryAttemptRepo_Create a).
Proof.
  intros Ha. apply (exec_same (elsewhere nid)). intros db. unfold insert_checked.
  destruct (first_violation _) eqn:Hv; [done|]. apply first_violation_None in Hv. checks_true Hv.
  unfold elsewhere, config_tables; simpl. f_equal. f_equal.
  rewrite map_filter_insert_not'; [done|simpl; congruence|]. intros y Hy. congruence.
Qed.

Lemma MetricUpsert_elsewhere m :
  m_NotificationID m = nid → keeps (same elsewhere_of) (PgDeliveryMetricRepo_Upsert m).
Proof.
  intros Hm. apply keeps_on_err, (exec_same (elsewhere nid)). intros db. unfold insert_checked.
  destruct (first_violation _) eqn:Hv; [done|].
  unfold elsewhere, config_tables; simpl. by rewrite Hm, delete_insert_eq.
Qed.

Hint Resolve same_db_elsewhere UpdateStatus_elsewhere SetProviderMsgID_elsewhere MarkDelivered_elsewhere
  IncrementRetry_elsewhere AttemptCreate_elsewhere MetricUpsert_elsewhere : keeps.

Ltac else_step :=
  lazymatch goal with
  | |- keeps _ (mbind _ _) => apply keeps_bind; [apply _| |intros ?]
  | |- keeps _ (log_err _ _) => apply keeps_log_err; [apply _| |apply same_db_elsewhere, log_db]
  | |- keeps _ (mret _) => apply keeps_ret; apply _
  | |- keeps _ (match ?x with _ => _ end) => destruct x
  | |- keeps _ _ => solve [eauto with keeps]
  end.

Lemma HandleNotificationDeliver_elsewhere ctx t p :
  registry_ok registry → dec_NotificationDeliverPayload (task_Payload t) = Ok p → p_NotificationID p = nid →
  keeps (same elsewhere_of) (HandleNotificationDeliver registry Emit ctx t).
Proof.
  intros Hr Hp Hn. unfold HandleNotificationDeliver, Registry_Get. rewrite Hp. cbv zeta. rewrite Hn.
  destruct (registry !! p_ChannelType p) as [prov|] eqn:Hpr; [destruct (Hr _ _ Hpr) as [_ HL]|].
  all: unfold handleDeliveryError, handleProviderFailure, handlePermanentProviderFailure, recordSuccessfulDelivery,
    emitTerminalEvent, createInitialDeliveryMetric, PgChannelConfigRepo_GetByID; rewrite ?Hn.
  all: repeat else_step.
Qed.

Lemma HandleError_elsewhere ctx t e p :
  dec_NotificationDeliverPayload (task_Payload t) = Ok p → p_NotificationID p = nid →
  keeps (same elsewhere_of) (HandleError Emit ctx t e).
Proof.
  intros Hp Hn. unfold HandleError, handleNotificationRetriesExhausted, handleWebhookEventRetriesExhausted.
  rewrite Hp, Hn. repeat else_step.
Qed.
End isolation.

(** ** The record of an attempt *)

Section attempts.
Context `{E : Env} (registry : Registry) (Emit : EmitParams → M (result unit)) `{!TerminalEventEmitter Emit}.

Definition attempts_of (w : World) := delivery_attempts (w_db w).

(** The attempt as it is handed to the repository. *)
Definition filled (r : result SendResponse) (a : DeliveryAttempt) : DeliveryAttempt :=
  match r with
  | Err e => fill_attempt a AttemptFailure (a_ProviderResponse a) (Some (err_Error e))
  | Ok resp =>
      if sr_Success resp then fill_attempt a AttemptSuccess (sr_ProviderData resp) (a_ErrorMessage a)
      else fill_attempt a AttemptFailure (sr_ProviderData resp) (Some (sr_ErrorMessage resp))
  end.

Lemma same_db_attempts {A} (m : M A) : keeps (same w_db) m → keeps (same attempts_of) m.
Proof. apply same_db. unfold attempts_of. congruence. Qed.

Lemma update_notification_attempts id g db : delivery_attempts (update_notification id g db).2 = delivery_attempts db.
Proof. unfold update_notification. by case_match. Qed.

Lemma UpdateStatus_attempts id st e : keeps (same attempts_of) (PgNotificationRepo_UpdateStatus id st e).
Proof. apply (now_exec_same delivery_attempts). intros. apply update_notification_attempts. Qed.
Lemma SetProviderMsgID_attempts id m : keeps (same attempts_of) (PgNotificationRepo_SetProviderMsgID id m).
Proof. apply (now_exec_same delivery_attempts). intros. apply update_notification_attempts. Qed.
Lemma MarkDelivered_attempts id : keeps (same attempts_of) (PgNotificationRepo_MarkDelivered id).
Proof. apply (now_exec_same delivery_attempts). intros. apply update_notification_attempts. Qed.
Lemma IncrementRetry_attempts id e : keeps (same attempts_of) (PgNotificationRepo_IncrementRetry id e).
Proof.
  apply (now_exec_same delivery_attempts). intros.
  destruct (from_option _ _ _); [apply update_notification_attempts|done].
Qed.
Lemma MetricUpsert_attempts m : keeps (same attempts_of) (PgDeliveryMetricRepo_Upsert m).
Proof.
  apply keeps_on_err, (exec_same delivery_attempts). intros db. unfold insert_checked.
  by destruct (first_violation _).
Qed.

Hint Resolve same_db_attempts UpdateStatus_attempts SetProviderMsgID_attempts MarkDelivered_attempts
  IncrementRetry_attempts MetricUpsert_attempts : keeps.

Ltac attempts_step :=
  lazymatch goal with
  | |- keeps _ (mbind _ _) => apply keeps_bind; [apply _| |intros ?]
  | |- keeps _ (log_err _ _) => apply keeps_log_err; [apply _| |apply same_db_attempts, log_db]
  | |- keeps _ (mret _) => apply keeps_ret; apply _
  | |- keeps _ (match ?x with _ => _ end) => destruct x
  | |- keeps _ _ => solve [eauto with keeps]
  end.

(** Only the first call after the answer writes an attempt. *)
Lemma first_writes {A B} (m : M A) (f : A → M B) w :
  (∀ a, keeps (same attempts_of) (f a)) → attempts_of ((m ≫= f) w).2 = attempts_of (m w).2.
Proof. intros Hf. rewrite ST_bind_run. apply Hf. Qed.

Lemma log_err_attempts {A} (m : M (result A)) msg w : attempts_of (log_err m msg w).2 = attempts_of (m w).2.
Proof. by destruct (log_err_state m msg w) as [->| ->]. Qed.

Lemma outcome_attempts p a r n w :
  attempts_of (match r with
    | Err err => handleDeliveryError a (p_NotificationID p) err
    | Ok resp => if negb (sr_Success resp) then handleProviderFailure Emit a p resp n
                 else _ ← recordSuccessfulDelivery Emit a p resp n; mret (Ok tt)
    end w).2 = attempts_of (PgDeliveryAttemptRepo_Create (filled r a) w).2.
Proof.
  destruct r as [resp|e]; simpl; [destruct (sr_Success resp); simpl|].
  - rewrite first_writes; [|intros; attempts_step]. unfold recordSuccessfulDelivery. cbv zeta.
    rewrite first_writes; [apply log_err_attempts|].
    intros _. unfold emitTerminalEvent, createInitialDeliveryMetric. repeat attempts_step.
  - unfold handleProviderFailure, handlePermanentProviderFailure. cbv zeta.
    rewrite first_writes; [apply log_err_attempts|]. intros _. unfold emitTerminalEvent. repeat attempts_step.
  - unfold handleDeliveryError. cbv zeta.
    rewrite first_writes; [apply log_err_attempts|]. intros _. repeat attempts_step.
Qed.

(** The row PostgreSQL keeps of an accepted attempt. *)
Definition attempt_row (a : DeliveryAttempt) : DeliveryAttempt :=
  mkDeliveryAttempt (a_ID a) (a_NotificationID a) (a_AttemptNumber a) (a_Status a)
    (a_ProviderResponse a ≫= pg_jsonb) (a_ErrorMessage a) (a_DurationMs a) (timestamptz (a_AttemptedAt a)).

Definition response_storable (a : DeliveryAttempt) : bool :=
  from_option (λ r, bool_decide (is_Some (pg_jsonb r))) true (a_ProviderResponse a).

Lemma AttemptCreate_fine a w :
  no_faults →
  attempts_of (PgDeliveryAttemptRepo_Create a w).2 =
    if response_storable a && in_int4 (a_AttemptNumber a) && in_int4 (a_DurationMs a) &&
       absent (attempts_of w) (a_ID a) && present (notifications (w_db w)) (a_NotificationID a)
    then <[a_ID a := attempt_row a]> (attempts_of w) else attempts_of w.
Proof.
  intros Hf. unfold PgDeliveryAttemptRepo_Create. rewrite db_exec_fine by done.
  unfold attempts_of, insert_checked, response_storable. simpl.
  destruct (from_option _ _ _), (in_int4 (a_AttemptNumber a)), (in_int4 (a_DurationMs a)), (absent _ _), (present _ _);
    done.
Qed.

(** One handler call records one attempt, if the database takes it. *)
Lemma HandleNotificationDeliver_attempts ctx t p prov c w :
  no_faults → registry_ok registry →
  dec_NotificationDeliverPayload (task_Payload t) = Ok p →
  registry !! p_ChannelType p = Some prov →
  channel_configs (w_db w) !! p_ChannelConfigID p = Some c →
  ∃ w1 id ms at_,
    let r := (pr_Send prov (Some (cr_Config c)) (buildSendRequest p (config_of_row c)) w1).1 in
    let a := filled r (mkDeliveryAttempt id (p_NotificationID p) (ctx_RetryCount ctx + 1) "" None None ms at_) in
    attempts_of (HandleNotificationDeliver registry Emit ctx t w).2 =
      if response_storable a && in_int4 (ctx_RetryCount ctx + 1) && in_int4 ms &&
         absent (attempts_of w) id && present (notifications (w_db w)) (p_NotificationID p)
      then <[id := attempt_row a]> (attempts_of w) else attempts_of w.
Proof.
  intros Hf Hreg Hdec Hprov Hc. destruct (Hreg _ _ Hprov) as [_ HL].
  unfold HandleNotificationDeliver, Registry_Get. rewrite Hdec. cbv zeta. rewrite ST_bind_run.
  set (w1 := (log_err _ _ w).2).
  assert (attempts_of w1 = attempts_of w) as Ha1.
  { unfold w1. rewrite log_err_attempts. apply UpdateStatus_attempts. }
  assert (channel_configs (w_db w1) !! p_ChannelConfigID p = Some c) as Hc1.
  { pose proof (keeps_log_err (same config_of) _ "failed to update notification status to processing"
      (UpdateStatus_config (p_NotificationID p) StatusProcessing None) (same_db_config _ (log_db _)) w) as Hk.
    unfold same, config_of, config_tables in Hk. fold w1 in Hk. by injection Hk as _ -> _ _ _. }
  assert (present (notifications (w_db w1)) (p_NotificationID p) =
          present (notifications (w_db w)) (p_NotificationID p)) as Hp1.
  { pose proof (effect_log_err (p_NotificationID p) _ "failed to update notification status to processing" _
      (UpdateStatus_effect (p_NotificationID p) StatusProcessing None Hf) w) as Hv. fold w1 in Hv. unfold view in Hv.
    unfold present. apply bool_decide_ext.
    destruct (notifications (w_db w1) !! _), (notifications (w_db w) !! _); naive_solver. }
  rewrite ST_bind_run. unfold PgChannelConfigRepo_GetByID. rewrite db_query_fine by done.
  cbn [fst snd]. rewrite Hc1. cbn [scanConfig]. rewrite Hprov.
  rewrite ST_bind_run. set (w2 := (time_Now _).2). set (start := (time_Now _).1).
  rewrite ST_bind_run. cbn [cc_Config config_of_row].
  pose proof (Send_keeps_db (Some (cr_Config c)) (buildSendRequest p (config_of_row c)) w2) as Hsd.
  exists w2. destruct (pr_Send prov _ _ w2) as [r w3]. cbn [fst snd] in *.
  change (w_db w3 = w_db w1) in Hsd.
  rewrite !ST_bind_run. set (w4 := (time_Now (uuid_New (time_Now w3).2).2).2).
  do 3 eexists. rewrite outcome_attempts, AttemptCreate_fine by done.
  assert (w_db w4 = w_db w1) as Hw4 by (exact Hsd). unfold attempts_of in *. rewrite Hw4, Ha1.
  assert (∀ a, a_AttemptNumber (filled r a) = a_AttemptNumber a ∧ a_DurationMs (filled r a) = a_DurationMs a ∧
    a_ID (filled r a) = a_ID a ∧ a_NotificationID (filled r a) = a_NotificationID a) as Hfill.
  { intros a. unfold filled, fill_attempt. repeat case_match; done. }
  set (a0 := mkDeliveryAttempt _ _ _ _ _ _ _ _). destruct (Hfill a0) as (-> & -> & -> & ->).
  cbn [a0 a_AttemptNumber a_DurationMs a_ID a_NotificationID]. by rewrite Hp1.
Qed.
End attempts.

(** * Claims *)

(** Running the delivery task of a stored notification from its first attempt to its last ends in the status
    delivered or failed within max_retries+1 attempts, with retry_count equal to the attempts that failed, and
    fans out exactly one terminal event per subscribed endpoint carrying the number of attempts made. *)
Theorem notification_lifecycle {E : Env} {UL : UuidLaws E} {PL : PgLaws E}
    (registry : Registry) p opts (maxRetry : nat) prov c n w :
  services_up → registry_ok registry → db_ok (w_db w) →
  (∀ d, p_DeliveryPrefs p = Some d → prefs_in_range d) →
  registry !! p_ChannelType p = Some prov →
  channel_configs (w_db w) !! p_ChannelConfigID p = Some c →
  notifications (w_db w) !! p_NotificationID p = Some n → n_RetryCount n = 0%Z →
  (Z.of_nat maxRetry + 1 < 2 ^ 31)%Z →
  let run := process (HandleNotificationDeliver registry worker_Emit) (HandleError worker_Emit) maxRetry
               (NewNotificationDeliverTask p opts) w in
  ∃ (k : nat) n' ts,
    (1 ≤ k ≤ S maxRetry)%nat ∧
    notifications (w_db run.2) !! p_NotificationID p = Some n' ∧
    w_tasks run.2 = w_tasks w ++ ts ∧
    ((run.1 = Completed ∧ n_Status n' = StatusDelivered ∧ n_RetryCount n' = (Z.of_nat k - 1)%Z ∧
      fanout (event_of (received p) WebhookEventDelivered (Z.of_nat k)) (w_db w) ts) ∨
     (run.1 = Archived ∧ n_Status n' = StatusFailed ∧ n_RetryCount n' = Z.of_nat k ∧
      fanout (event_of (received p) WebhookEventFailed (Z.of_nat k)) (w_db w) ts)).
Proof. apply lifecycle_terminal. Qed.


(** Processing a delivery task to its end, whatever fails on the way, changes no other notification, no attempt
    or metric of another notification and no other table, and preserves the contract of the tables. *)
Theorem delivery_isolated {E : Env} {UL : UuidLaws E} {PL : PgLaws E}
    (registry : Registry) p opts (maxRetry : nat) w :
  registry_ok registry → (∀ d, p_DeliveryPrefs p = Some d → prefs_in_range d) →
  let run := process (HandleNotificationDeliver registry worker_Emit) (HandleError worker_Emit) maxRetry
               (NewNotificationDeliverTask p opts) w in
  elsewhere (p_NotificationID p) (w_db run.2) = elsewhere (p_NotificationID p) (w_db w) ∧
  (db_ok (w_db w) → db_ok (w_db run.2)).
Proof.
  intros Hreg Hpr. cbv zeta. unfold process. set (t := NewNotificationDeliverTask p opts).
  pose proof (dec_json_NotificationDeliverPayload p Hpr : dec_NotificationDeliverPayload (task_Payload t) = Ok (received p)) as Hd.
  split.
  - apply (run_task_keeps _ _ (same (elsewhere_of (p_NotificationID p)))).
    + intros ctx. exact (HandleNotificationDeliver_elsewhere registry worker_Emit _ ctx t (received p) Hreg Hd eq_refl).
    + intros ctx e. exact (HandleError_elsewhere worker_Emit _ ctx t e (received p) Hd eq_refl).
  - apply (run_task_keeps _ _ (λ w w', db_ok (w_db w) → db_ok (w_db w'))).
    + intros ctx. exact (proj1 (HandleNotificationDeliver_ok registry worker_Emit ctx t Hreg)).
    + intros ctx e. exact (proj1 (HandleError_ok worker_Emit ctx t e)).
Qed.

(** The event tasks of one emission have distinct task ids, and emitting the same event of the same notification
    again yields the same ids, so the queue's uniqueness on task ids makes a repeated emission a no-op. *)
Theorem emission_task_ids {E : Env} {UL : UuidLaws E} params params' db db' ts ts' :
  fanout params db ts → fanout params' db' ts' →
  ep_TenantID params' = ep_TenantID params → ep_NotificationID params' = ep_NotificationID params →
  ep_EventType params' = ep_EventType params → webhook_endpoints db' = webhook_endpoints db →
  NoDup (task_id_of <$> ts) ∧ task_id_of <$> ts' ≡ₚ task_id_of <$> ts.
Proof.
  intros (eids & Hf & Hnd & Hs) (eids' & Hf' & Hnd' & Hs') Ht Hn Hy Hw.
  rewrite (event_task_ids _ _ _ Hf), (event_task_ids _ _ _ Hf'), Hn, Hy. split.
  - apply NoDup_fmap_2_strong; [|done]. intros x y _ _ Heq. apply (inj Some) in Heq. by apply webhook_task_id_inj in Heq as [_ ->].
  - apply fmap_Permutation, NoDup_Permutation; [done..|]. intros eid. rewrite Hs, Hs'. unfold subscribed.
    by rewrite Ht, Hy, Hw.
Qed.

(** With the database up, a delivery attempt adds exactly one delivery_attempts row, numbered retry count plus
    one and filled from the provider's answer, when its columns can be stored and the notification exists, and
    none otherwise. *)
Theorem attempt_recorded {E : Env} (registry : Registry) (Emit : EmitParams → M (result unit))
    `{!TerminalEventEmitter Emit} ctx t p prov c w :
  no_faults → registry_ok registry →
  dec_NotificationDeliverPayload (task_Payload t) = Ok p →
  registry !! p_ChannelType p = Some prov →
  channel_configs (w_db w) !! p_ChannelConfigID p = Some c →
  ∃ w1 id ms at_,
    let r := (pr_Send prov (Some (cr_Config c)) (buildSendRequest p (config_of_row c)) w1).1 in
    let a := filled r (mkDeliveryAttempt id (p_NotificationID p) (ctx_RetryCount ctx + 1) "" None None ms at_) in
    attempts_of (HandleNotificationDeliver registry Emit ctx t w).2 =
      if response_storable a && in_int4 (ctx_RetryCount ctx + 1) && in_int4 ms &&
         absent (attempts_of w) id && present (notifications (w_db w)) (p_NotificationID p)
      then <[id := attempt_row a]> (attempts_of w) else attempts_of w.
Proof. intros. by apply HandleNotificationDeliver_attempts. Qed.

(** When a provider accepts a message with a body that is not a JSON document, the notification is delivered but
    no delivery_attempts row is stored for the attempt. *)
Theorem non_json_answer_loses_attempt {E : Env} (registry : Registry) (Emit : EmitParams → M (result unit))
    `{!TerminalEventEmitter Emit} ctx t p prov c w msgid body em perm :
  services_up → registry_ok registry → db_ok (w_db w) →
  dec_NotificationDeliverPayload (task_Payload t) = Ok p →
  registry !! p_ChannelType p = Some prov →
  channel_configs (w_db w) !! p_ChannelConfigID p = Some c →
  (∀ cfg q w, (pr_Send prov cfg q w).1 = Ok (mkSendResponse true msgid (Some body) em perm)) →
  pg_jsonb body = None →
  let res := HandleNotificationDeliver registry Emit ctx t w in
  res.1 = Ok tt ∧ attempts_of res.2 = attempts_of w ∧
  view (p_NotificationID p) res.2 = (λ v, (StatusDelivered, v.1.2, None)) <$> view (p_NotificationID p) w.
Proof.
  intros Hup Hreg Hok Hdec Hprov Hc Hans Hj. cbv zeta.
  destruct (HandleNotificationDeliver_refines registry Emit Hup ctx t p prov c w Hreg Hok Hdec Hprov Hc)
    as (w1 & Hres & Hv & _).
  destruct (HandleNotificationDeliver_attempts registry Emit ctx t p prov c w (up_faults Hup) Hreg Hdec Hprov Hc)
    as (w2 & id & ms & at_ & Ha).
  rewrite Hans in *. split_and!; [done| |].
  - rewrite Ha. unfold response_storable. simpl. rewrite Hj. done.
  - rewrite Hv. destruct (view _ w) as [[[s r] e]|]; done.
Qed.

(** When the fetch of the channel fails once, the task is archived on its first attempt although retries are
    left, the notification stays in the status processing and no event is emitted. *)
Theorem fetch_failure_strands_notification {E : Env} {UL : UuidLaws E} (registry : Registry)
    (Emit : EmitParams → M (result unit)) p opts (maxRetry : nat) n w msg :
  (∀ d, p_DeliveryPrefs p = Some d → prefs_in_range d) →
  notifications (w_db w) !! p_NotificationID p = Some n →
  env_fault (S (w_tick w)) = Fine → env_fault (S (S (w_tick w))) = Lost msg → (0 < maxRetry)%nat →
  let run := process (HandleNotificationDeliver registry Emit) (HandleError Emit) maxRetry
               (NewNotificationDeliverTask p opts) w in
  run.1 = Archived ∧ w_tasks run.2 = w_tasks w ∧
  n_Status <$> notifications (w_db run.2) !! p_NotificationID p = Some StatusProcessing.
Proof.
  intros Hpr Hn Hf1 Hf2 Hm. cbv zeta. unfold process. destruct maxRetry as [|k]; [lia|]. cbn [run_task].
  rewrite ST_bind_run. unfold HandleNotificationDeliver.
  pose proof (dec_json_NotificationDeliverPayload p Hpr) as Hd.
  change (task_Payload (NewNotificationDeliverTask p opts)) with (json_NotificationDeliverPayload p).
  rewrite Hd. cbv zeta.
  unfold log_err, PgNotificationRepo_UpdateStatus, PgChannelConfigRepo_GetByID, db_query, db_exec, time_Now.
  unfold mbind, ST_bind. simpl. rewrite Hf1. simpl. unfold update_notification. rewrite Hn. simpl. rewrite Hf2. simpl.
  unfold HandleError, mbind, ST_bind. simpl.
  by rewrite lookup_insert_eq.
Qed.

(** * Witnesses *)

Section witnesses.
#[local] Existing Instance healthy.

Lemma notification_lifecycle_witness :
let run := process (HandleNotificationDeliver (sample_registry rejected) worker_Emit)
  (HandleError worker_Emit) 2 (NewNotificationDeliverTask sample_payload []) (healthy_world sample_db) in
∃ (k : nat) n' ts,
  (1 ≤ k ≤ 3)%nat ∧ notifications (w_db run.2) !! id_notification = Some n' ∧ w_tasks run.2 = [] ++ ts ∧
  ((run.1 = Completed ∧ n_Status n' = StatusDelivered ∧ n_RetryCount n' = (Z.of_nat k - 1)%Z ∧
    fanout (event_of (received sample_payload) WebhookEventDelivered (Z.of_nat k)) sample_db ts) ∨
   (run.1 = Archived ∧ n_Status n' = StatusFailed ∧ n_RetryCount n' = Z.of_nat k ∧
    fanout (event_of (received sample_payload) WebhookEventFailed (Z.of_nat k)) sample_db ts)).
Proof.
refine (notification_lifecycle (sample_registry rejected) sample_payload [] 2
  (fixed_provider ChannelDiscord rejected) sample_channel sample_notification (healthy_world sample_db)
  healthy_up (sample_registry_ok rejected ltac:(done)) sample_db_ok ltac:(done) _ _ _ eq_refl ltac:(done)).
- apply (lookup_insert_eq (M := gmap string)).
- apply lookup_singleton_eq.
- apply lookup_singleton_eq.
Defined.

(** The channel and the provider of the sample payload. *)
Lemma sample_provider answer :
  sample_registry answer !! p_ChannelType sample_payload = Some (fixed_provider ChannelDiscord answer).
Proof. apply (lookup_insert_eq (M := gmap string)). Qed.

Lemma sample_channel_row : channel_configs sample_db !! p_ChannelConfigID sample_payload = Some sample_channel.
Proof. apply lookup_singleton_eq. Qed.

Lemma sample_decode :
  dec_NotificationDeliverPayload (task_Payload (NewNotificationDeliverTask sample_payload [])) = Ok (received sample_payload).
Proof. by apply dec_json_NotificationDeliverPayload. Qed.

Definition first_attempt : TaskCtx := mkTaskCtx 0 5.


Lemma delivery_isolated_witness :
  let run := process (HandleNotificationDeliver (sample_registry rejected) worker_Emit) (HandleError worker_Emit) 2
               (NewNotificationDeliverTask sample_payload []) (healthy_world sample_db) in
  elsewhere id_notification (w_db run.2) = elsewhere id_notification sample_db ∧ (db_ok sample_db → db_ok (w_db run.2)).
Proof.
  apply (delivery_isolated (sample_registry rejected) sample_payload [] 2 (healthy_world sample_db));
    [by apply sample_registry_ok|done].
Defined.

(** The event of the sample notification, sent to its one endpoint. *)
Definition sample_event (attempts : Z) : EmitParams := event_of (received sample_payload) WebhookEventFailed attempts.

Lemma emission_ids_witness :
  ∃ ts ts', NoDup (task_id_of <$> ts) ∧ task_id_of <$> ts' ≡ₚ task_id_of <$> ts ∧
    fanout (sample_event 1) sample_db ts ∧ fanout (sample_event 2) sample_db ts'.
Proof.
  destruct (Emit_fanout worker_Emit (sample_event 1) (healthy_world sample_db) healthy_up sample_db_ok) as (ts & _ & H1).
  destruct (Emit_fanout worker_Emit (sample_event 2) (healthy_world sample_db) healthy_up sample_db_ok) as (ts' & _ & H2).
  exists ts, ts'.
  destruct (emission_task_ids (sample_event 1) (sample_event 2) sample_db sample_db ts ts' H1 H2 eq_refl eq_refl eq_refl eq_refl).
  auto.
Defined.

Lemma attempt_recorded_witness :
  ∃ w1 id ms at_,
    let r := (pr_Send (fixed_provider ChannelDiscord accepted) (Some (cr_Config sample_channel))
      (buildSendRequest (received sample_payload) (config_of_row sample_channel)) w1).1 in
    let a := filled r (mkDeliveryAttempt id id_notification 1 "" None None ms at_) in
    attempts_of (HandleNotificationDeliver (sample_registry accepted) worker_Emit first_attempt
      (NewNotificationDeliverTask sample_payload []) (healthy_world sample_db)).2 =
      if response_storable a && in_int4 1 && in_int4 ms && absent (∅ : gmap uuid DeliveryAttempt) id &&
         present (notifications sample_db) id_notification
      then <[id := attempt_row a]> ∅ else ∅.
Proof.
  apply (attempt_recorded (sample_registry accepted) worker_Emit first_attempt
    (NewNotificationDeliverTask sample_payload []) (received sample_payload) (fixed_provider ChannelDiscord accepted)
    sample_channel (healthy_world sample_db) (up_faults healthy_up) (sample_registry_ok accepted ltac:(done))
    sample_decode (sample_provider accepted) sample_channel_row).
Defined.

(** Discord's empty 204 body. *)
Lemma attempt_lost_witness :
  let res := HandleNotificationDeliver (sample_registry accepted_empty) worker_Emit first_attempt
               (NewNotificationDeliverTask sample_payload []) (healthy_world sample_db) in
  res.1 = Ok tt ∧ attempts_of res.2 = ∅ ∧
  view id_notification res.2 = (λ v, (StatusDelivered, v.1.2, None)) <$> view id_notification (healthy_world sample_db).
Proof.
  apply (non_json_answer_loses_attempt (sample_registry accepted_empty) worker_Emit first_attempt
    (NewNotificationDeliverTask sample_payload []) (received sample_payload) (fixed_provider ChannelDiscord accepted_empty)
    sample_channel (healthy_world sample_db) "" "" "" false healthy_up
    (sample_registry_ok accepted_empty ltac:(done)) sample_db_ok sample_decode (sample_provider accepted_empty)
    sample_channel_row); reflexivity.
Defined.
End witnesses.

Section stranded.
(** The second round trip, the fetch of the channel, is lost. *)
#[local] Instance flaky : Env :=
  sample_env (λ t, if bool_decide (t = 2%nat) then Lost "connection reset" else Fine)
    (λ _, Ok (mkHttpResponse 200 "{}")) (λ t, Ok (mkTaskInfo (task_Type t))).

Lemma stranded_witness :
  let run := process (HandleNotificationDeliver (sample_registry accepted) worker_Emit) (HandleError worker_Emit) 5
               (NewNotificationDeliverTask sample_payload []) (@world_of flaky sample_db (∅ : gmap string Z)) in
  run.1 = Archived ∧ w_tasks run.2 = [] ∧
  n_Status <$> notifications (w_db run.2) !! id_notification = Some StatusProcessing.
Proof.
  apply (fetch_failure_strands_notification (sample_registry accepted) worker_Emit sample_payload [] 5
    sample_notification (@world_of flaky sample_db (∅ : gmap string Z)) "connection reset").
  - done.
  - apply lookup_singleton_eq.
  - reflexivity.
  - reflexivity.
  - lia.
Defined.
End stranded.
