(* ===== verification/EventDelivery.v ===== *)
(** * EventDelivery: posting status events to tenants' endpoints

    webhook_event_delivery.go of internal/worker, the signature of
    internal/provider/hmac_signing.go and the receiver's check of
    sdks/go/signature.go. *)
From Stdlib Require Import Ascii.
From S2P Require Import Prelude GoTime Json JsonText Hex Domain World Repository Integrity SampleEnv Tasks Emitter.
From S2P Require Import Provider Samples.

Section delivery.
Context `{E : Env}.

(** ** hmac_signing.go *)

Definition SignHMAC (secret timestamp body : string) : string :=
  hex_EncodeToString (hmac_sha256 secret (timestamp +:+ "." +:+ body)).

(** ** sdks/go/signature.go *)

Definition ErrInvalidSignature : error := errors_New "notifyd: invalid webhook signature".

Definition VerifyWebhookSignature (secret timestamp body signatureHeader : string) : result unit :=
  if negb (HasPrefix signatureHeader "sha256=") then Err ErrInvalidSignature
  else
    let provided := TrimPrefix signatureHeader "sha256=" in
    match hex_DecodeString provided with
    | None => Err ErrInvalidSignature
    | Some providedBytes =>
        let expected := hmac_sha256 secret (timestamp +:+ "." +:+ body) in
        if bool_decide (providedBytes = expected) then Ok tt else Err ErrInvalidSignature
    end.

(** ** webhook_event_delivery.go *)

Definition webhook_event_deliver (endpoint : WebhookEndpoint) (event : WebhookEventPayload) : M (result unit) :=
  match json_WebhookEventPayload event with
  | Err err => mret (Err (errorf_ws "marshal event payload" err SkipRetry))
  | Ok j =>
      let body := Marshal j in
      if negb (url_parses (e_URL endpoint))
      then mret (Err (errorf_ws "build request" (errors_New "parse URL") SkipRetry))
      else
        now ← time_Now;
        let timestamp := pretty (time_Unix now) in
        let signature := SignHMAC (e_Secret endpoint) timestamp body in
        let header := Header_Set "X-Notifyd-Event-Id" (we_ID event)
                     (Header_Set "X-Notifyd-Timestamp" timestamp
                     (Header_Set "X-Notifyd-Signature" ("sha256=" +:+ signature)
                     (Header_Set "Content-Type" "application/json" ∅))) in
        resp ← client_Do (mkHttpRequest "POST" (e_URL endpoint) header body);
        mret match resp with
             | Err err => Err (errorf_w "deliver webhook event" err)
             | Ok resp =>
                 if (200 <=? rs_StatusCode resp)%Z && (rs_StatusCode resp <? 300)%Z then Ok tt
                 else Err (errors_New ("webhook endpoint returned " +:+ pretty (rs_StatusCode resp)))
             end
  end.

Definition HandleWebhookEvent (t : Task) : M (result unit) :=
  match dec_WebhookEventTaskPayload (task_Payload t) with
  | Err err => mret (Err (errorf_ws "unmarshal payload" err SkipRetry))
  | Ok p =>
      endpoint ← PgWebhookEndpointRepo_GetByID (wt_EndpointID p);
      match endpoint with
      | Err err =>
          _ ← log "webhook endpoint not found; dropping event";
          mret (Err (errorf_ws "fetch webhook endpoint" err SkipRetry))
      | Ok endpoint =>
          if negb (e_IsActive endpoint) then
            _ ← log "webhook endpoint deactivated; dropping event";
            mret (Err (errorf_m "webhook endpoint is inactive" SkipRetry))
          else
            r ← webhook_event_deliver endpoint (wt_Event p);
            match r with
            | Err err =>
                _ ← log "webhook event delivery failed";
                mret (Err err)
            | Ok _ =>
                _ ← log "webhook event delivered";
                mret (Ok tt)
            end
      end
  end.
End delivery.

(** ** What a receiver sees *)

(** A text without a dot, as the decimal timestamps are. *)
Fixpoint dotless (s : string) : bool :=
  match s with EmptyString => true | String c s' => bool_decide (c ≠ "."%char) && dotless s' end.

(** What is signed. *)
Definition signed_text (timestamp body : string) : string := timestamp +:+ "." +:+ body.

(** The signature header [sig] is good for no other timestamp and body: one that
    is accepted with it would have the same HMAC as a text that differs. *)
Definition binds `{E : Env} (secret ts body sig : string) : Prop :=
  ∀ ts' body', dotless ts' = true → VerifyWebhookSignature secret ts' body' sig = Ok tt →
    (ts' = ts ∧ body' = body) ∨
    (signed_text ts' body' ≠ signed_text ts body ∧
     hmac_sha256 secret (signed_text ts' body') = hmac_sha256 secret (signed_text ts body)).

(** The request authenticates under [secret], and its headers under no other
    timestamp and body; and it identifies the event. *)
Definition authentic `{E : Env} (secret : string) (event : WebhookEventPayload) (q : HttpRequest) : Prop :=
  ∃ ts sig j,
    rq_Header q !! "X-Notifyd-Timestamp" = Some ts ∧ rq_Header q !! "X-Notifyd-Signature" = Some sig ∧
    rq_Header q !! "X-Notifyd-Event-Id" = Some (we_ID event) ∧
    json_WebhookEventPayload event = Ok j ∧ rq_Body q = Marshal j ∧ rq_Method q = "POST" ∧
    VerifyWebhookSignature secret ts (rq_Body q) sig = Ok tt ∧ binds secret ts (rq_Body q) sig.

Lemma dot_split a b x y :
  dotless a = true → dotless b = true → signed_text a x = signed_text b y → a = b ∧ x = y.
Proof.
  unfold signed_text. revert b. induction a as [|c a IH]; intros [|d b] Ha Hb; rewrite ?string_app_cons; simpl in Ha, Hb.
  - intros H. split; [done|]. by injection H.
  - apply andb_true_iff in Hb as [Hd%bool_decide_eq_true_1 _]. intros H. by injection H as <-.
  - apply andb_true_iff in Ha as [Hc%bool_decide_eq_true_1 _]. intros H. by injection H as ->.
  - apply andb_true_iff in Ha as [_ Ha], Hb as [_ Hb]. intros H. injection H as -> H.
    destruct (IH b Ha Hb H) as [-> ->]. done.
Qed.

Lemma digits_dotless s : all_digits s = true → dotless s = true.
Proof.
  induction s as [|c s IH]; [done|]. simpl. intros [Hc Hs]%andb_true_iff. rewrite (IH Hs), andb_true_r.
  apply bool_decide_eq_true. by intros ->.
Qed.

Lemma number_dotless (z : Z) : dotless (pretty z) = true.
Proof.
  destruct z as [|p|p]; [done| |].
  - change (pretty (Zpos p)) with (pretty (Npos p)). destruct (pretty_pos_digits p) as (c & t & -> & _ & Hd & _).
    by apply digits_dotless.
  - change (pretty (Zneg p)) with ("-" +:+ pretty (Npos p)). destruct (pretty_pos_digits p) as (c & t & -> & _ & Hd & _).
    by apply digits_dotless in Hd.
Qed.

Section delivery_facts.
Context `{E : Env}.

(** The header is accepted exactly when it spells the HMAC in hexadecimal digits. *)
Lemma verify_accepts secret ts body header :
  VerifyWebhookSignature secret ts body header = Ok tt ↔
  ∃ digits, header = "sha256=" +:+ digits ∧ hex_DecodeString digits = Some (hmac_sha256 secret (signed_text ts body)).
Proof.
  unfold VerifyWebhookSignature. split.
  - destruct (HasPrefix header "sha256=") eqn:Hp; [|done]. apply HasPrefix_inv in Hp as [digits ->].
    cbn [negb]. rewrite TrimPrefix_app. destruct (hex_DecodeString digits) as [bs|] eqn:Hh; [|done].
    case_bool_decide as Hb; [|done]. intros _. exists digits. split; [done|]. unfold signed_text. congruence.
  - intros (digits & -> & Hh). rewrite HasPrefix_app, TrimPrefix_app, Hh. cbn [negb].
    by rewrite bool_decide_eq_true_2.
Qed.

Lemma verify_signed secret ts body : VerifyWebhookSignature secret ts body ("sha256=" +:+ SignHMAC secret ts body) = Ok tt.
Proof. apply verify_accepts. eexists. split; [done|]. apply hex_roundtrip. Qed.

Lemma signature_binds secret ts body : dotless ts = true → binds secret ts body ("sha256=" +:+ SignHMAC secret ts body).
Proof.
  intros Hts ts' body' Hts' (digits & Hd & Hh)%verify_accepts.
  apply (inj (String.append "sha256=")) in Hd. subst digits. unfold SignHMAC in Hh. rewrite hex_roundtrip in Hh.
  injection Hh as Hh. destruct (decide (signed_text ts' body' = signed_text ts body)) as [He|Hn]; [left|right].
  - by apply dot_split.
  - done.
Qed.

(** The bound on timestamps matters: cut at another dot, the same text passes with
    another timestamp. *)
Lemma moved_dot_accepted secret ts a b :
  VerifyWebhookSignature secret (ts +:+ "." +:+ a) b ("sha256=" +:+ SignHMAC secret ts (a +:+ "." +:+ b)) = Ok tt.
Proof.
  apply verify_accepts. eexists. split; [done|]. unfold SignHMAC. rewrite hex_roundtrip. unfold signed_text.
  by rewrite <- !string_app_assoc.
Qed.

(** What the endpoint's answer makes of an attempt. *)
Definition delivery_result (resp : result HttpResponse) : result unit :=
  match resp with
  | Err err => Err (errorf_w "deliver webhook event" err)
  | Ok resp =>
      if (200 <=? rs_StatusCode resp)%Z && (rs_StatusCode resp <? 300)%Z then Ok tt
      else Err (errors_New ("webhook endpoint returned " +:+ pretty (rs_StatusCode resp)))
  end.

Lemma deliver_sends endpoint event j w :
  json_WebhookEventPayload event = Ok j → url_parses (e_URL endpoint) = true →
  ∃ q tick, w_http (webhook_event_deliver endpoint event w).2 = w_http w ++ [q] ∧
    rq_URL q = e_URL endpoint ∧ authentic (e_Secret endpoint) event q ∧
    (webhook_event_deliver endpoint event w).1 = delivery_result (env_http tick q).
Proof.
  intros Hj Hu. unfold webhook_event_deliver. rewrite Hj, Hu. cbn [negb].
  rewrite !ST_bind_run. cbv zeta. unfold client_Do, time_Now. cbn [fst snd].
  eexists _, _. split; [done|]. split; [done|]. split; [|done].
  eexists _, _, j. cbn [rq_Header rq_Body rq_Method]. unfold Header_Set.
  split_and!; [| | |done|done|done|apply verify_signed|apply signature_binds, number_dotless].
  all: cbv [CanonicalHeaderKey]; simpl; simplify_map_eq; done.
Qed.
End delivery_facts.

(** * Claims *)

(** C29: The task of an emitted event makes the delivery worker send exactly one POST to the endpoint's URL
    whose body and signature headers the receiving SDK's VerifyWebhookSignature accepts with the endpoint's
    secret, and accepts with no other decimal timestamp and body unless their text has the same HMAC although it
    differs, and whose event carries the deterministic id, type, notification, attempts and metadata of the
    emission; the task's result follows the response. *)
Theorem emitted_event_delivered {E : Env} {UL : UuidLaws E} params eid t ep w :
  no_faults → event_task params eid t → in_int64 (ep_Attempts params) →
  webhook_endpoints (w_db w) !! eid = Some ep → e_IsActive ep = true → url_parses (e_URL ep) = true →
  ∃ q tick event,
    w_http (HandleWebhookEvent t w).2 = w_http w ++ [q] ∧ rq_URL q = e_URL ep ∧
    authentic (e_Secret ep) event q ∧
    we_ID event = webhookEventID (ep_NotificationID params) (ep_EventType params) ∧
    we_Type event = ep_EventType params ∧ wd_NotificationID (we_Data event) = ep_NotificationID params ∧
    wd_Attempts (we_Data event) = ep_Attempts params ∧
    wd_Metadata (we_Data event) = defaultMetadata (ep_Metadata params) ∧
    (HandleWebhookEvent t w).1 = delivery_result (env_http tick q).
Proof.
  intros Hf [now Ht] Hn Hep Hact Hurl. unfold NewWebhookEventTask in Ht.
  destruct (json_WebhookEventTaskPayload _) as [j|] eqn:Hj; [|done]. injection Ht as <-.
  pose proof (dec_json_WebhookEventTaskPayload (webhook_event_payload now eid params) _ Hn Hj) as Hd. cbv zeta in Hd.
  set (event := wt_Event (webhook_event_payload now eid params)).
  assert (∃ je, json_WebhookEventPayload event = Ok je) as [je Hje].
  { unfold json_WebhookEventTaskPayload in Hj. destruct (json_WebhookEventPayload _); [by eexists|done]. }
  assert (dec_WebhookEventTaskPayload j = Ok (mkWebhookEventTaskPayload eid event)) as Hd'.
  { rewrite Hd. unfold event, webhook_event_payload. simpl. by destruct (ep_Metadata params). }
  unfold HandleWebhookEvent. cbn [task_Payload]. rewrite Hd'. cbn [wt_EndpointID wt_Event].
  unfold PgWebhookEndpointRepo_GetByID. rewrite ST_bind_run, db_query_fine by done. cbn [fst snd].
  rewrite Hep. cbn [scanWebhookEndpoint]. rewrite Hact. cbn [negb].
  set (w1 := set_db _ _). destruct (deliver_sends ep event je w1 Hje Hurl) as (q & tick & Hw & Hq & Ha & Hr).
  exists q, tick, event. rewrite ST_bind_run. rewrite Hr. change (w_http w1) with (w_http w) in Hw.
  destruct (delivery_result _) as [[]|]; rewrite ST_bind_run; simpl; rewrite Hw; split_and!; try done.
Qed.

(** An event whose endpoint was deleted or disabled is dropped: nothing is sent, nothing is written, and the
    task ends without retries. *)
Theorem event_dropped_without_active_endpoint {E : Env} t p w :
  no_faults → dec_WebhookEventTaskPayload (task_Payload t) = Ok p →
  (∀ ep, webhook_endpoints (w_db w) !! wt_EndpointID p = Some ep → e_IsActive ep = false) →
  w_http (HandleWebhookEvent t w).2 = w_http w ∧ w_db (HandleWebhookEvent t w).2 = w_db w ∧
  ∃ e, (HandleWebhookEvent t w).1 = Err e ∧ errors_Is e SkipRetry = true.
Proof.
  intros Hf Hd Hin. unfold HandleWebhookEvent. rewrite Hd. unfold PgWebhookEndpointRepo_GetByID.
  rewrite ST_bind_run, db_query_fine by done. cbn [fst snd].
  destruct (webhook_endpoints (w_db w) !! wt_EndpointID p) as [ep|] eqn:Hep; cbn [scanWebhookEndpoint].
  - rewrite (Hin ep eq_refl). simpl. split_and!; [done..|]. by eexists.
  - simpl. split_and!; [done..|]. by eexists.
Qed.

(** * Witnesses *)

Section witnesses.
#[local] Existing Instance healthy.

Definition sample_params : EmitParams :=
  mkEmitParams id_tenant id_notification id_channel ChannelDiscord WebhookEventDelivered 1 None.

Definition sample_event_task : Task :=
  match NewWebhookEventTask (webhook_event_payload sample_now id_endpoint sample_params) with
  | Ok t => t
  | Err _ => NewTask "" JNull []
  end.

Lemma emitted_event_delivered_witness :
∃ q tick event,
  w_http (HandleWebhookEvent sample_event_task (healthy_world sample_db)).2 = [] ++ [q] ∧
  rq_URL q = "https://example.com/hook" ∧ authentic "whsec" event q ∧
  we_ID event = webhookEventID id_notification WebhookEventDelivered ∧
  we_Type event = WebhookEventDelivered ∧ wd_NotificationID (we_Data event) = id_notification ∧
  wd_Attempts (we_Data event) = 1%Z ∧ wd_Metadata (we_Data event) = Some (JObj []) ∧
  (HandleWebhookEvent sample_event_task (healthy_world sample_db)).1 = delivery_result (env_http tick q).
Proof.
refine (emitted_event_delivered sample_params id_endpoint sample_event_task
  (sample_endpoint id_endpoint [WebhookEventDelivered; WebhookEventFailed]) (healthy_world sample_db)
  (up_faults healthy_up) _ _ (lookup_singleton_eq _ _) eq_refl eq_refl).
- exists sample_now. reflexivity.
- unfold in_int64, int64_min, int64_max. simpl. lia.
Defined.

Lemma event_dropped_witness :
w_http (HandleWebhookEvent sample_event_task (healthy_world empty_db)).2 = [] ∧
w_db (HandleWebhookEvent sample_event_task (healthy_world empty_db)).2 = empty_db ∧
∃ e, (HandleWebhookEvent sample_event_task (healthy_world empty_db)).1 = Err e ∧ errors_Is e SkipRetry = true.
Proof.
refine (event_dropped_without_active_endpoint sample_event_task
  (webhook_event_payload sample_now id_endpoint sample_params) (healthy_world empty_db) (up_faults healthy_up) _ _).
- vm_compute. reflexivity.
- intros ep. simpl. by rewrite lookup_empty.
Defined.
End witnesses.
