(* ===== verification/Vectors.v ===== *)
(** * Vectors: the published signatures

    sdks/testdata/gen/main.go, which signs five requests with the server's
    [SignHMAC] and prints them as JSON: the file sdks/testdata/signature_vectors.json
    that the tests of every SDK read.  With the hash function the program runs
    with, the model prints that file byte for byte. *)
From Stdlib Require Import Ascii.
From S2P Require Import Prelude Utf8 Json Hex Sha256 Domain World SampleEnv EventDelivery.

Record vector := mkVector {
  v_Name : string; v_Secret : string; v_Timestamp : string; v_Body : string; v_SignatureHex : string; v_HeaderValue : string
}.

Fixpoint repeat (s : string) (n : nat) : string :=
  match n with O => "" | S n => s +:+ repeat s n end.

(** Texts with quotation marks, written as backquotes. *)
Fixpoint quoted (s : string) : string :=
  match s with
  | EmptyString => ""
  | String c s => if bool_decide (c = "`"%char) then quote_char +:+ quoted s else String c (quoted s)
  end.

(** name, secret, timestamp, body *)
Definition cases : list (string * string * string * string) :=
  [("simple_json_body", "whsec_test_1234567890abcdef", "1700000000",
    quoted "{`id`:`evt_01H9X8K2QYTVRM3F7WZC4B5D6E`,`type`:`notification.delivered`}");
   ("empty_body", "whsec_test_1234567890abcdef", "1700000001", "");
   ("unicode_body", "whsec_unicode_secret_ñ", "1700000002", quoted "{`message`:`café ☃ 😀`}");
   ("long_body", "whsec_long_body_secret", "1700000003", quoted "{`data`:`" +:+ repeat "a" 500 +:+ quoted "`}");
   ("body_containing_dot_literal", "whsec_dot_edge_case", "1700000004",
    quoted "{`note`:`1700000004.not-the-real-timestamp`}")].

Definition json_vector (v : vector) : json :=
  JObj [("name", JStr (v_Name v)); ("secret", JStr (v_Secret v)); ("timestamp", JStr (v_Timestamp v));
        ("body", JStr (v_Body v)); ("signature_hex", JStr (v_SignatureHex v)); ("header_value", JStr (v_HeaderValue v))].

(** ** encoding/json with [SetIndent(prefix, "  ")], the prefix being what
    precedes the line *)

Definition newline : string := String (ascii_of_N 10) "".

Definition members (prefix open close : string) (l : list string) : string :=
  match l with
  | [] => open +:+ close
  | _ => open +:+ newline +:+ prefix +:+ "  " +:+
         String.concat ("," +:+ newline +:+ prefix +:+ "  ") l +:+ newline +:+ prefix +:+ close
  end.

Fixpoint MarshalIndent (prefix : string) (j : json) : string :=
  match j with
  | JArr l => members prefix "[" "]" (map (MarshalIndent (prefix +:+ "  ")) l)
  | JObj kvs => members prefix "{" "}" (map (λ '(k, v), quote k +:+ ": " +:+ MarshalIndent (prefix +:+ "  ") v) kvs)
  | _ => Marshal j
  end.

(** [Encode] ends the document with a line break. *)
Definition Encode (j : json) : string := MarshalIndent "" j +:+ newline.

Section gen.
Context `{E : Env}.

Definition vector_of (c : string * string * string * string) : vector :=
  let '(name, secret, timestamp, body) := c in
  let sig := SignHMAC secret timestamp body in
  mkVector name secret timestamp body sig ("sha256=" +:+ sig).

Definition vectors : list vector := vector_of <$> cases.

(** What [main] writes to standard output. *)
Definition gen_main : string := Encode (JArr (json_vector <$> vectors)).

(** Every vector is one the SDK accepts, whatever the hash function. *)
Lemma vectors_accepted :
  Forall (λ v, VerifyWebhookSignature (v_Secret v) (v_Timestamp v) (v_Body v) (v_HeaderValue v) = Ok tt) vectors.
Proof. apply Forall_fmap, Forall_true. intros [[[name secret] ts] body]. apply verify_signed. Qed.
End gen.

(** ** The published file *)

Definition signature_vectors_json : string := quoted "[
  {
    `name`: `simple_json_body`,
    `secret`: `whsec_test_1234567890abcdef`,
    `timestamp`: `1700000000`,
    `body`: `{\`id\`:\`evt_01H9X8K2QYTVRM3F7WZC4B5D6E\`,\`type\`:\`notification.delivered\`}`,
    `signature_hex`: `1cbd4b3426a5623e2b372247e506fa83d6aedb4c5772d2fabbf344c73abfb57b`,
    `header_value`: `sha256=1cbd4b3426a5623e2b372247e506fa83d6aedb4c5772d2fabbf344c73abfb57b`
  },
  {
    `name`: `empty_body`,
    `secret`: `whsec_test_1234567890abcdef`,
    `timestamp`: `1700000001`,
    `body`: ``,
    `signature_hex`: `d727597b1f53675c240762778add18dea39ca43dfc9f1873707b8b583be05a12`,
    `header_value`: `sha256=d727597b1f53675c240762778add18dea39ca43dfc9f1873707b8b583be05a12`
  },
  {
    `name`: `unicode_body`,
    `secret`: `whsec_unicode_secret_ñ`,
    `timestamp`: `1700000002`,
    `body`: `{\`message\`:\`café ☃ 😀\`}`,
    `signature_hex`: `dd2825e47595d6029f295dd35e16f834b3b26292afd80aff3c95f046eec496e4`,
    `header_value`: `sha256=dd2825e47595d6029f295dd35e16f834b3b26292afd80aff3c95f046eec496e4`
  },
  {
    `name`: `long_body`,
    `secret`: `whsec_long_body_secret`,
    `timestamp`: `1700000003`,
    `body`: `{\`data\`:\`aaaaaaaaaaaaaaaaaaaaaaaaaaaaaaaaaaaaaaaaaaaaaaaaaaaaaaaaaaaaaaaaaaaaaaaaaaaaaaaaaaaaaaaaaaaaaaaaaaaaaaaaaaaaaaaaaaaaaaaaaaaaaaaaaaaaaaaaaaaaaaaaaaaaaaaaaaaaaaaaaaaaaaaaaaaaaaaaaaaaaaaaaaaaaaaaaaaaaaaaaaaaaaaaaaaaaaaaaaaaaaaaaaaaaaaaaaaaaaaaaaaaaaaaaaaaaaaaaaaaaaaaaaaaaaaaaaaaaaaaaaaaaaaaaaaaaaaaaaaaaaaaaaaaaaaaaaaaaaaaaaaaaaaaaaaaaaaaaaaaaaaaaaaaaaaaaaaaaaaaaaaaaaaaaaaaaaaaaaaaaaaaaaaaaaaaaaaaaaaaaaaaaaaaaaaaaaaaaaaaaaaaaaaaaaaaaaaaaaaaaaaaaaaaaaaaaaaaaaaaaaaaaaaaaaaaaaaaaaaaaaaaaaaaaaaaaaaaaaaa\`}`,
    `signature_hex`: `a452c6c2c86becea64121790f003557807bca5b427468c503e89e22e085ce147`,
    `header_value`: `sha256=a452c6c2c86becea64121790f003557807bca5b427468c503e89e22e085ce147`
  },
  {
    `name`: `body_containing_dot_literal`,
    `secret`: `whsec_dot_edge_case`,
    `timestamp`: `1700000004`,
    `body`: `{\`note\`:\`1700000004.not-the-real-timestamp\`}`,
    `signature_hex`: `ce395ee23ec37217b825b29d71c8768a0867cae2fb4496882caa3e496816c88e`,
    `header_value`: `sha256=ce395ee23ec37217b825b29d71c8768a0867cae2fb4496882caa3e496816c88e`
  }
]
".

(** An environment with the hash functions of the Go library. *)
Definition with_sha256 (E : Env) : Env := {|
  env_now := @env_now E;
  env_uuid := @env_uuid E;
  env_Int64N := @env_Int64N E;
  env_rand_bytes := @env_rand_bytes E;
  env_fault := @env_fault E;
  pg_jsonb := @pg_jsonb E;
  jsonb := @jsonb E;
  heap_order := @heap_order E;
  env_enqueue := @env_enqueue E;
  env_http := @env_http E;
  env_smtp := @env_smtp E;
  map_order := @map_order E;
  url_Hostname := @url_Hostname E;
  uuid_String := @uuid_String E;
  uuid_Parse := @uuid_Parse E;
  uuid_NewSHA1 := @uuid_NewSHA1 E;
  hmac_sha256 := HMAC_SHA256;
  sha256 := Sum256;
  bcrypt_Generate := @bcrypt_Generate E;
  bcrypt_Compare := @bcrypt_Compare E;
  redis := @redis E;
  redis_value := @redis_value E;
  redis_IncrBy := @redis_IncrBy E;
  redis_Expire := @redis_Expire E;
  redis_Set := @redis_Set E;
  redis_SetNX := @redis_SetNX E
|}.

Definition accepts `{E : Env} (v v' : vector) : bool :=
  is_Ok (VerifyWebhookSignature (v_Secret v) (v_Timestamp v) (v_Body v) (v_HeaderValue v')).

(** Which of the vectors' headers is good for which of their requests. *)
Lemma accepts_signed `{E : Env} i j v v' :
  vectors !! i = Some v → vectors !! j = Some v' → accepts v v' = bool_decide (v_SignatureHex v = v_SignatureHex v').
Proof.
  unfold vectors. rewrite !list_lookup_fmap.
  intros ([[[n s] t] b] & _ & ->)%fmap_Some ([[[n' s'] t'] b'] & _ & ->)%fmap_Some. unfold accepts.
  cbn [vector_of v_Secret v_Timestamp v_Body v_HeaderValue v_SignatureHex].
  case_bool_decide as Hs; [rewrite <- Hs; by rewrite verify_signed|].
  destruct (VerifyWebhookSignature _ _ _ _) as [[]|] eqn:Hv; [|done].
  apply verify_accepts in Hv as (digits & Hd & Hh). apply (inj (String.append "sha256=")) in Hd. subst digits.
  unfold SignHMAC in Hh, Hs. rewrite hex_roundtrip in Hh. injection Hh as Hh. unfold signed_text in Hh. congruence.
Qed.

Definition published_signatures : list string :=
  ["1cbd4b3426a5623e2b372247e506fa83d6aedb4c5772d2fabbf344c73abfb57b";
   "d727597b1f53675c240762778add18dea39ca43dfc9f1873707b8b583be05a12";
   "dd2825e47595d6029f295dd35e16f834b3b26292afd80aff3c95f046eec496e4";
   "a452c6c2c86becea64121790f003557807bca5b427468c503e89e22e085ce147";
   "ce395ee23ec37217b825b29d71c8768a0867cae2fb4496882caa3e496816c88e"].

Lemma signatures_computed (E : Env) : v_SignatureHex <$> @vectors (with_sha256 E) = published_signatures.
Proof. vm_compute. reflexivity. Qed.

(** The vectors are the cases with these signatures. *)
Lemma vectors_computed (E : Env) :
  @vectors (with_sha256 E) = zip_with (λ '(name, secret, timestamp, body) sig,
    mkVector name secret timestamp body sig ("sha256=" +:+ sig)) cases published_signatures.
Proof.
  rewrite <- (signatures_computed E). unfold vectors. induction cases as [|[[[n s] t] b] cs IH]; [done|].
  cbn [fmap list_fmap zip_with]. f_equal. exact IH.
Qed.


(** * Witness *)

