(* ===== verification/ChatProviders.v ===== *)
(** * ChatProviders: the channel backends that speak HTTP

    discord.go, slack.go, telegram.go, whatsapp.go and webhook.go of
    internal/provider: configuration, rendering of a message, the request, and
    what an answer means for the delivery. *)
From Stdlib Require Import Ascii.
From S2P Require Import Prelude GoTime Utf8 Json JsonText Hex Domain World Provider Markdown EventDelivery.

(** [io.ReadAll] of an [io.LimitReader] of 1 MiB; what was read before an error is
    kept. *)
Fixpoint string_takeN (n : N) (s : string) : string :=
  match s with
  | String c s' => if (n =? 0)%N then "" else String c (string_takeN (n - 1) s')
  | EmptyString => ""
  end.
Definition maxBody : N := 1048576.
Definition read_body (resp : HttpResponse) : string := string_takeN maxBody (rs_Body resp).

Definition is_2xx (code : Z) : bool := ((200 <=? code) && (code <? 300))%Z.
Definition StatusTooManyRequests : Z := 429.

(** A line break, and the quotation mark of [%q]. *)
Definition nl : string := String (byte 10) "".

(** [strconv.Quote]; non-ASCII characters are taken to be printable. *)
Definition x2 (c : ascii) : string :=
  "\x" +:+ String (hex_char (byte_of c / 16)) (String (hex_char (byte_of c mod 16)) "").
Definition quote_byte (c : ascii) : string :=
  match byte_of c with
  | 34 => "\" +:+ String c "" | 92 => "\\" | 7 => "\a" | 8 => "\b" | 12 => "\f" | 10 => "\n"
  | 13 => "\r" | 9 => "\t" | 11 => "\v"
  | n => if ((n <? 32) || (n =? 127))%N then x2 c else String c ""
  end%N.
Fixpoint quote_from (k : nat) (s : string) : string :=
  match s with
  | EmptyString => ""
  | String c s' =>
      match k with
      | S k' => String c (quote_from k' s')
      | O => match utf8_len s with
             | O => x2 c +:+ quote_from 0 s'
             | 1 => quote_byte c +:+ quote_from 0 s'
             | S k' => String c (quote_from k' s')
             end
      end
  end.
Definition strconv_Quote (s : string) : string := quote_char +:+ quote_from 0 s +:+ quote_char.

Section providers.
Context `{E : Env}.

(** [json.Marshal] of a map with string keys sorts them; the literals below are
    written in that order. *)

Definition request_error : error := errorf_w "create request" (errors_New "parse URL").
Definition api_error (name : string) (resp : HttpResponse) (body : string) : string :=
  name +:+ " returned " +:+ pretty (rs_StatusCode resp) +:+ ": " +:+ body.
Definition json_header : gmap string string := Header_Set "Content-Type" "application/json" ∅.

(** ** discord.go *)

Record discordConfig := mkDiscordConfig { dc_WebhookURL : string }.

Definition dec_discordConfig (raw : RawMessage) : result discordConfig :=
  kvs <-? raw_object raw;
  url <-? field dec_string "webhook_url" "" kvs;
  Ok (mkDiscordConfig url).

Definition DiscordProvider_ValidateConfig (raw : RawMessage) : result unit :=
  match dec_discordConfig raw with
  | Err err => Err (errorf_w "invalid discord config" err)
  | Ok cfg =>
      if bool_decide (dc_WebhookURL cfg = "") then Err (errors_New "discord config: webhook_url is required")
      else Ok tt
  end.

Definition buildDiscordMessage (req : SendRequest) : string :=
  if bool_decide (sq_Subject req = "") then sq_Body req
  else if bool_decide (sq_FormatMode req ∈ ["plain"; "html"])
  then sq_Subject req +:+ nl +:+ sq_Body req
  else "**" +:+ sq_Subject req +:+ "**" +:+ nl +:+ sq_Body req.

Definition DiscordProvider_Send (rawConfig : RawMessage) (req : SendRequest) : M (result SendResponse) :=
  match dec_discordConfig rawConfig with
  | Err err => mret (Err (errorf_w "unmarshal discord config" err))
  | Ok cfg =>
      let content := buildDiscordMessage req in
      let payload := Marshal (JObj [("content", JStr content)]) in
      if negb (url_parses (dc_WebhookURL cfg)) then mret (Err request_error)
      else
        resp ← client_Do (mkHttpRequest "POST" (dc_WebhookURL cfg) json_header payload);
        mret match resp with
        | Err err => Ok (mkSendResponse false "" None (err_Error err) false)
        | Ok resp =>
            let respBody := read_body resp in
            if is_2xx (rs_StatusCode resp) then Ok (mkSendResponse true "" (Some respBody) "" false)
            else Ok (mkSendResponse false "" (Some respBody) (api_error "discord API" resp respBody) false)
        end
  end.

Definition unsupported_metrics (_ : RawMessage) (_ : string) : M (result DeliveryMetrics) :=
  mret (Err (sentinel_error ErrMetricsNotSupported)).

Definition DiscordProvider : Provider :=
  mkProvider _ "discord" [] DiscordProvider_Send unsupported_metrics DiscordProvider_ValidateConfig.

(** ** slack.go *)

Definition slackWebhookPrefix : string := "https://hooks.slack.com/".

Record slackConfig := mkSlackConfig { sc_WebhookURL : string }.

Definition dec_slackConfig (raw : RawMessage) : result slackConfig :=
  kvs <-? raw_object raw;
  url <-? field dec_string "webhook_url" "" kvs;
  Ok (mkSlackConfig url).

Definition SlackProvider_ValidateConfig (raw : RawMessage) : result unit :=
  match dec_slackConfig raw with
  | Err err => Err (errorf_w "invalid slack config" err)
  | Ok cfg =>
      if bool_decide (sc_WebhookURL cfg = "") then Err (errors_New "slack config: webhook_url is required")
      else if negb (HasPrefix (sc_WebhookURL cfg) slackWebhookPrefix)
      then Err (errors_New ("slack config: webhook_url must start with " +:+ slackWebhookPrefix))
      else Ok tt
  end.

Definition buildSlackMessage (req : SendRequest) : string :=
  let markdown := bool_decide (sq_FormatMode req = "markdown") in
  let body := if markdown then MarkdownToSlackMrkdwn (sq_Body req) else sq_Body req in
  if bool_decide (sq_Subject req = "") then body
  else
    let subject := if markdown then "*" +:+ sq_Subject req +:+ "*" else sq_Subject req in
    subject +:+ nl +:+ body.

Definition SlackProvider_Send (rawConfig : RawMessage) (req : SendRequest) : M (result SendResponse) :=
  match dec_slackConfig rawConfig with
  | Err err => mret (Err (errorf_w "unmarshal slack config" err))
  | Ok cfg =>
      if bool_decide (sq_FormatMode req = "html") then
        mret (Ok (mkSendResponse false "" None "slack: html format is not supported; use markdown or plain" true))
      else
        let payload := Marshal (JObj [("text", JStr (buildSlackMessage req))]) in
        if negb (url_parses (sc_WebhookURL cfg)) then mret (Err request_error)
        else
          resp ← client_Do (mkHttpRequest "POST" (sc_WebhookURL cfg) json_header payload);
          mret match resp with
          | Err err => Ok (mkSendResponse false "" None (err_Error err) false)
          | Ok resp =>
              let respBody := read_body resp in
              if is_2xx (rs_StatusCode resp) then Ok (mkSendResponse true "" (Some respBody) "" false)
              else Ok (mkSendResponse false "" (Some respBody) (api_error "slack API" resp respBody)
                         (negb (rs_StatusCode resp =? StatusTooManyRequests)%Z && (rs_StatusCode resp <? 500)%Z))
          end
  end.

Definition SlackProvider : Provider :=
  mkProvider _ "slack" [] SlackProvider_Send unsupported_metrics SlackProvider_ValidateConfig.

(** ** telegram.go *)

Record telegramConfig := mkTelegramConfig { tc_BotToken : string; tc_ChatID : string }.

Definition dec_telegramConfig (raw : RawMessage) : result telegramConfig :=
  kvs <-? raw_object raw;
  token <-? field dec_string "bot_token" "" kvs;
  chat <-? field dec_string "chat_id" "" kvs;
  Ok (mkTelegramConfig token chat).

Definition TelegramProvider_ValidateConfig (raw : RawMessage) : result unit :=
  match dec_telegramConfig raw with
  | Err err => Err (errorf_w "invalid telegram config" err)
  | Ok cfg =>
      if bool_decide (tc_BotToken cfg = "") then Err (errors_New "telegram config: bot_token is required")
      else if bool_decide (tc_ChatID cfg = "") then Err (errors_New "telegram config: chat_id is required")
      else Ok tt
  end.

(** The text and the [parse_mode]. *)
Definition buildTelegramMessage (req : SendRequest) : string * string :=
  let subject := sq_Subject req in
  let with_subject s := if bool_decide (subject = "") then sq_Body req else s +:+ nl +:+ sq_Body req in
  if bool_decide (sq_FormatMode req = "plain") then (with_subject subject, "")
  else if bool_decide (sq_FormatMode req = "html") then (with_subject ("<b>" +:+ subject +:+ "</b>"), "HTML")
  else (with_subject ("*" +:+ subject +:+ "*"), "Markdown").

(** [telegramSendResult]: [ok] and [result.message_id]. *)
Definition dec_message_id : decoder Z := λ cur v,
  match v with
  | JNull => Ok cur
  | JObj kvs => field dec_int "message_id" cur kvs
  | _ => Err type_error
  end.

Definition dec_telegramSendResult (j : json) : result (bool * Z) :=
  kvs <-? json_object j;
  ok <-? field dec_bool "ok" false kvs;
  id <-? field dec_message_id "result" 0%Z kvs;
  Ok (ok, id).

Definition extractTelegramMessageID (respBody : string) : string :=
  match parse_json respBody with
  | None => ""
  | Some j =>
      match dec_telegramSendResult j with
      | Err _ => ""
      | Ok (ok, id) => if negb ok || (id =? 0)%Z then "" else pretty id
      end
  end.

Definition TelegramProvider_Send (rawConfig : RawMessage) (req : SendRequest) : M (result SendResponse) :=
  match dec_telegramConfig rawConfig with
  | Err err => mret (Err (errorf_w "unmarshal telegram config" err))
  | Ok cfg =>
      let '(text, parseMode) := buildTelegramMessage req in
      let payload := Marshal (JObj ([("chat_id", JStr (tc_ChatID cfg))] ++
        (if bool_decide (parseMode = "") then [] else [("parse_mode", JStr parseMode)]) ++
        [("text", JStr text)])) in
      let url := "https://api.telegram.org/bot" +:+ tc_BotToken cfg +:+ "/sendMessage" in
      if negb (url_parses url) then mret (Err request_error)
      else
        resp ← client_Do (mkHttpRequest "POST" url json_header payload);
        mret match resp with
        | Err err => Ok (mkSendResponse false "" None (err_Error err) false)
        | Ok resp =>
            let respBody := read_body resp in
            if negb (rs_StatusCode resp =? 200)%Z
            then Ok (mkSendResponse false "" (Some respBody) (api_error "telegram API" resp respBody) false)
            else Ok (mkSendResponse true (extractTelegramMessageID respBody) (Some respBody) "" false)
        end
  end.

Definition TelegramProvider_FetchMetrics (_ : RawMessage) (providerMsgID : string) : M (result DeliveryMetrics) :=
  mret (if bool_decide (providerMsgID = "") then Err (sentinel_error ErrMetricsNotSupported)
        else Ok (mkDeliveryMetrics providerMsgID None None None)).

Definition TelegramProvider : Provider :=
  mkProvider _ "telegram" [CapDeliveryStatus] TelegramProvider_Send TelegramProvider_FetchMetrics
    TelegramProvider_ValidateConfig.

(** ** whatsapp.go *)

Record whatsappConfig := mkWhatsappConfig {
  wc_PhoneNumberID : string;
  wc_AccessToken : string;
  wc_Recipient : string
}.

Definition dec_whatsappConfig (raw : RawMessage) : result whatsappConfig :=
  kvs <-? raw_object raw;
  phone <-? field dec_string "phone_number_id" "" kvs;
  token <-? field dec_string "access_token" "" kvs;
  recipient <-? field dec_string "recipient" "" kvs;
  Ok (mkWhatsappConfig phone token recipient).

Definition WhatsAppProvider_ValidateConfig (raw : RawMessage) : result unit :=
  match dec_whatsappConfig raw with
  | Err err => Err (errorf_w "invalid whatsapp config" err)
  | Ok cfg =>
      if bool_decide (wc_PhoneNumberID cfg = "") then Err (errors_New "whatsapp config: phone_number_id is required")
      else if bool_decide (wc_AccessToken cfg = "") then Err (errors_New "whatsapp config: access_token is required")
      else if bool_decide (wc_Recipient cfg = "") then Err (errors_New "whatsapp config: recipient is required")
      else Ok tt
  end.

Definition buildWhatsAppMessage (req : SendRequest) : string :=
  if negb (bool_decide (sq_Subject req = "")) then sq_Subject req +:+ nl +:+ sq_Body req
  else sq_Body req.

(** [whatsappSendResult]: the ids of [messages]. *)
Definition dec_message : decoder string := λ cur v,
  match v with
  | JNull => Ok cur
  | JObj kvs => field dec_string "id" cur kvs
  | _ => Err type_error
  end.

Definition dec_whatsappSendResult (j : json) : result (list string) :=
  kvs <-? json_object j;
  field (dec_slice dec_message "") "messages" [] kvs.

Definition extractWhatsAppMessageID (respBody : string) : string :=
  match parse_json respBody with
  | None => ""
  | Some j => match dec_whatsappSendResult j with Ok (id :: _) => id | _ => "" end
  end.

Definition WhatsAppProvider_Send (rawConfig : RawMessage) (req : SendRequest) : M (result SendResponse) :=
  match dec_whatsappConfig rawConfig with
  | Err err => mret (Err (errorf_w "unmarshal whatsapp config" err))
  | Ok cfg =>
      let text := buildWhatsAppMessage req in
      let payload := Marshal (JObj [("messaging_product", JStr "whatsapp");
                                    ("text", JObj [("body", JStr text)]);
                                    ("to", JStr (wc_Recipient cfg));
                                    ("type", JStr "text")]) in
      let url := "https://graph.facebook.com/v19.0/" +:+ wc_PhoneNumberID cfg +:+ "/messages" in
      if negb (url_parses url) then mret (Err request_error)
      else
        let header := Header_Set "Authorization" ("Bearer " +:+ wc_AccessToken cfg) json_header in
        resp ← client_Do (mkHttpRequest "POST" url header payload);
        mret match resp with
        | Err err => Ok (mkSendResponse false "" None (err_Error err) false)
        | Ok resp =>
            let respBody := read_body resp in
            if negb (is_2xx (rs_StatusCode resp))
            then Ok (mkSendResponse false "" (Some respBody) (api_error "whatsapp API" resp respBody) false)
            else Ok (mkSendResponse true (extractWhatsAppMessageID respBody) (Some respBody) "" false)
        end
  end.

Definition WhatsAppProvider_FetchMetrics (_ : RawMessage) (providerMsgID : string) : M (result DeliveryMetrics) :=
  mret (if bool_decide (providerMsgID = "")
        then Err (errors_New "whatsapp fetch metrics: providerMsgID is required")
        else Ok (mkDeliveryMetrics providerMsgID None None None)).

Definition WhatsAppProvider : Provider :=
  mkProvider _ "whatsapp" [CapReadReceipts; CapDeliveryStatus] WhatsAppProvider_Send
    WhatsAppProvider_FetchMetrics WhatsAppProvider_ValidateConfig.

(** ** webhook.go *)

Record webhookConfig := mkWebhookConfig {
  wh_URL : string;
  wh_Secret : string;
  wh_Headers : gmap string string
}.

Definition dec_webhookConfig (raw : RawMessage) : result webhookConfig :=
  kvs <-? raw_object raw;
  url <-? field dec_string "url" "" kvs;
  secret <-? field dec_string "secret" "" kvs;
  headers <-? field dec_strmap "headers" ∅ kvs;
  Ok (mkWebhookConfig url secret headers).

(** [strings.ToLower] of a name as far as a comparison with ASCII text sees it:
    beside A to Z, two characters have an ASCII lower case, U+0130 and U+212A. *)
Fixpoint lower_name (s : string) : string :=
  match s with
  | EmptyString => ""
  | String c s' =>
      match s' with
      | String d s2 =>
          if (byte_of c =? 196)%N && (byte_of d =? 176)%N then String "i" (lower_name s2)
          else match s2 with
               | String e s3 =>
                   if (byte_of c =? 226)%N && (byte_of d =? 132)%N && (byte_of e =? 170)%N
                   then String "k" (lower_name s3)
                   else String (ascii_lower c) (lower_name s')
               | EmptyString => String (ascii_lower c) (lower_name s')
               end
      | EmptyString => String (ascii_lower c) (lower_name s')
      end
  end.

(** The expression [(?i)^x-notifyd]: its letters have no case folds outside ASCII. *)
Definition webhookHeaderBlockPattern (name : string) : bool := HasPrefix (ToLower name) "x-notifyd".

Definition header_error (name why : string) : error :=
  errors_New ("webhook config: header " +:+ strconv_Quote name +:+ why).

(** The loop over the names in the order the map delivers them. *)
Fixpoint validateWebhookHeaderNames (names : list string) (hasSecret : bool) : result unit :=
  match names with
  | [] => Ok tt
  | name :: names' =>
      let lower := lower_name name in
      if bool_decide (lower = "host") then Err (header_error name " is not allowed")
      else if hasSecret && bool_decide (lower = "authorization")
      then Err (header_error name " is not allowed when secret is set")
      else if webhookHeaderBlockPattern name then Err (header_error name " is reserved for notifyd's own use")
      else validateWebhookHeaderNames names' hasSecret
  end.

(** [tick] is the moment of the [range]: it decides which of several offending
    names an error mentions. *)
Definition validateWebhookConfig (tick : nat) (cfg : webhookConfig) : result unit :=
  if bool_decide (wh_URL cfg = "") then Err (errors_New "webhook config: url is required")
  else if negb (HasPrefix (wh_URL cfg) "https://") then Err (errors_New "webhook config: url must use https")
  else validateWebhookHeaderNames (map_entries tick (wh_Headers cfg)).*1 (negb (bool_decide (wh_Secret cfg = ""))).

Definition WebhookProvider_ValidateConfig (raw : RawMessage) : result unit :=
  match dec_webhookConfig raw with
  | Err err => Err (errorf_w "invalid webhook config" err)
  | Ok cfg => validateWebhookConfig 0 cfg
  end.

(** [webhookPayload] as JSON. *)
Definition webhookPayload (req : SendRequest) (now : Time) : json :=
  JObj [("notification_id", JStr (uuid_String (sq_NotificationID req)));
        ("subject", JStr (sq_Subject req));
        ("body", JStr (sq_Body req));
        ("format", JStr (sq_FormatMode req));
        ("metadata", default (JObj []) (sq_Metadata req));
        ("sent_at", JStr (rfc3339 now))].

Definition buildWebhookPayload (req : SendRequest) : M (result string) :=
  now ← time_Now;
  mret (Ok (Marshal (webhookPayload req now))).

Definition isRedirectStatus (statusCode : Z) : bool := ((300 <=? statusCode) && (statusCode <? 400))%Z.

Definition classifyWebhookTransportError (err : error) : SendResponse :=
  mkSendResponse false "" None (err_Error err) (errors_Is err errBlockedAddress).

Definition WebhookProvider_Send (rawConfig : RawMessage) (req : SendRequest) : M (result SendResponse) :=
  match dec_webhookConfig rawConfig with
  | Err err => mret (Err (errorf_w "unmarshal webhook config" err))
  | Ok cfg =>
      body ←? on_err (errorf_w "build webhook payload") (buildWebhookPayload req);
      if negb (url_parses (wh_URL cfg)) then mret (Err request_error)
      else
        headers ← map_range (wh_Headers cfg);
        let header := foldl (λ h '(name, value), Header_Set name value h) json_header headers in
        header ← (if bool_decide (wh_Secret cfg = "") then mret header
                  else
                    now ← time_Now;
                    let timestamp := pretty (time_Unix now) in
                    let signature := SignHMAC (wh_Secret cfg) timestamp body in
                    mret (Header_Set "X-Notifyd-Signature" ("sha256=" +:+ signature)
                         (Header_Set "X-Notifyd-Timestamp" timestamp header)));
        resp ← client_Do (mkHttpRequest "POST" (wh_URL cfg) header body);
        mret match resp with
        | Err err => Ok (classifyWebhookTransportError err)
        | Ok resp =>
            let respBody := read_body resp in
            if is_2xx (rs_StatusCode resp) then Ok (mkSendResponse true "" (Some respBody) "" false)
            else if isRedirectStatus (rs_StatusCode resp) then
              Ok (mkSendResponse false "" None
                    ("webhook returned redirect status " +:+ pretty (rs_StatusCode resp) +:+
                     "; redirects are not followed") true)
            else Ok (mkSendResponse false "" (Some respBody)
                       ("webhook endpoint returned " +:+ pretty (rs_StatusCode resp) +:+ ": " +:+ respBody)
                       (negb (rs_StatusCode resp =? StatusTooManyRequests)%Z && (rs_StatusCode resp <? 500)%Z))
        end
  end.

Definition WebhookProvider : Provider :=
  mkProvider _ "webhook" [] WebhookProvider_Send unsupported_metrics WebhookProvider_ValidateConfig.
End providers.
