(* ===== verification/Email.v ===== *)
(** * Email: the SMTP backend

    email.go of internal/provider: configuration, the RFC 5322 message, and its
    delivery over the tenant's own mail server.  net/mail's address syntax, the
    markdown renderer goldmark and the local time zone are the class [Mail]. *)
From Stdlib Require Import Ascii.
From S2P Require Import Prelude GoTime Utf8 Json Hex Domain World Net Mime Smtp Provider ChatProviders.

Record Address := mkAddress { addr_Name : string; addr_Address : string }.

Class Mail := {
  mail_ParseAddress : string → result Address;
  Address_String : Address → string;
  goldmark_Convert : string → result string;
  local_offset : Time → Z
}.

(** What the program relies on of net/mail: the text of a parsed address, made
    for a header, is one line. *)
Class MailLaws (ML : Mail) : Prop := {
  Address_String_line s a : mail_ParseAddress s = Ok a → one_line (Address_String a) = true
}.

Definition implicitTLSPort : Z := 465.

Record emailConfig := mkEmailConfig {
  ec_Host : string;
  ec_Port : Z;
  ec_Username : string;
  ec_Password : string;
  ec_From : string;
  ec_To : list string;
  ec_CC : list string;
  ec_ReplyTo : string
}.

Definition dec_emailConfig (raw : RawMessage) : result emailConfig :=
  kvs <-? raw_object raw;
  host <-? field dec_string "host" "" kvs;
  port <-? field dec_int "port" 0%Z kvs;
  username <-? field dec_string "username" "" kvs;
  password <-? field dec_string "password" "" kvs;
  from <-? field dec_string "from" "" kvs;
  to <-? field (dec_slice dec_string "") "to" [] kvs;
  cc <-? field (dec_slice dec_string "") "cc" [] kvs;
  reply <-? field dec_string "reply_to" "" kvs;
  Ok (mkEmailConfig host port username password from to cc reply).

(** [strings.Join]. *)
Definition strings_Join (l : list string) (sep : string) : string := String.concat sep l.

(** [fmt.Sprintf] with [%x] of an integer. *)
Fixpoint hex_digits (fuel : nat) (n : N) (acc : string) : string :=
  match fuel with
  | O => acc
  | S fuel => let acc := String (hex_char (n mod 16)) acc in
              if (n <? 16)%N then acc else hex_digits fuel (n / 16) acc
  end.
Definition format_x (z : Z) : string :=
  (if (z <? 0)%Z then "-" else "") +:+ hex_digits 16 (Z.abs_N z) "".

(** One header line. *)
Definition header_line (name value : string) : string := name +:+ ": " +:+ value +:+ crlf.

Section email.
Context `{E : Env} {ML : Mail}.

(** ** Configuration *)

Fixpoint validateAddressList (fld : string) (addrs : list string) : result unit :=
  match addrs with
  | [] => Ok tt
  | addr :: addrs' =>
      match mail_ParseAddress addr with
      | Err err => Err (errorf_w ("email config: " +:+ fld +:+ ": invalid address " +:+ strconv_Quote addr) err)
      | Ok _ => validateAddressList fld addrs'
      end
  end.

Definition validateEmailConfig (cfg : emailConfig) : result unit :=
  if bool_decide (ec_Host cfg = "") then Err (errors_New "email config: host is required")
  else if ((ec_Port cfg <=? 0) || (65535 <? ec_Port cfg))%Z
  then Err (errors_New "email config: port must be between 1 and 65535")
  else if bool_decide (ec_Username cfg = "") then Err (errors_New "email config: username is required")
  else if bool_decide (ec_Password cfg = "") then Err (errors_New "email config: password is required")
  else if bool_decide (ec_From cfg = "") then Err (errors_New "email config: from is required")
  else match mail_ParseAddress (ec_From cfg) with
  | Err err => Err (errorf_w "email config: from" err)
  | Ok _ =>
      if bool_decide (ec_To cfg = []) then Err (errors_New "email config: to is required")
      else match validateAddressList "to" (ec_To cfg) with
      | Err err => Err err
      | Ok _ =>
          match validateAddressList "cc" (ec_CC cfg) with
          | Err err => Err err
          | Ok _ =>
              if negb (bool_decide (ec_ReplyTo cfg = "")) then
                match mail_ParseAddress (ec_ReplyTo cfg) with
                | Err err => Err (errorf_w "email config: reply_to" err)
                | Ok _ => Ok tt
                end
              else Ok tt
          end
      end
  end.

Definition EmailProvider_ValidateConfig (raw : RawMessage) : result unit :=
  match dec_emailConfig raw with
  | Err err => Err (errorf_w "invalid email config" err)
  | Ok cfg => validateEmailConfig cfg
  end.

(** ** The message *)

(** A [*permanentEmailError]. *)
Definition permanentError (msg : string) : error := mkError msg [permanentEmailError].

Definition parseAddressField (fld raw : string) : result Address :=
  match mail_ParseAddress raw with
  | Err err => Err (permanentError ("email message: " +:+ fld +:+ ": invalid address " +:+ strconv_Quote raw +:+ ": " +:+
                                    err_Error err))
  | Ok addr => Ok addr
  end.

Fixpoint parseAddressList (fld : string) (raws : list string) : result (list Address) :=
  match raws with
  | [] => Ok []
  | raw :: raws' =>
      addr <-? parseAddressField fld raw;
      addrs <-? parseAddressList fld raws';
      Ok (addr :: addrs)
  end.

Definition joinAddresses (addrs : list Address) : string := strings_Join (map Address_String addrs) ", ".

Definition randomHexID (n : nat) : M string :=
  r ← rand_Read n;
  match r with
  | Err _ => now ← time_Now; mret (format_x (wrap64 now))
  | Ok buf => mret (hex_EncodeToString buf)
  end.

Definition message_domain (fromAddress : string) : string :=
  match strings_Cut fromAddress "@" with
  | Some (_, after) => if bool_decide (after = "") then "notifyd.invalid" else after
  | None => "notifyd.invalid"
  end.

Definition generateMessageID (fromAddress : string) : M string :=
  id ← randomHexID 16;
  mret ("<" +:+ id +:+ "@" +:+ message_domain fromAddress +:+ ">").

Definition buildEmailHeaders (cfg : emailConfig) (subject : string) : M (result string) :=
  let parsed :=
    from <-? parseAddressField "from" (ec_From cfg);
    to <-? parseAddressList "to" (ec_To cfg);
    cc <-? parseAddressList "cc" (ec_CC cfg);
    replyTo <-? (if bool_decide (ec_ReplyTo cfg = "") then Ok None
                 else a <-? parseAddressField "reply_to" (ec_ReplyTo cfg); Ok (Some a));
    Ok (from, to, cc, replyTo) in
  match parsed with
  | Err err => mret (Err err)
  | Ok (from, to, cc, replyTo) =>
      now ← time_Now;
      id ← generateMessageID (ec_From cfg);
      mret (Ok (
        header_line "From" (Address_String from) +:+
        header_line "To" (joinAddresses to) +:+
        (if bool_decide (cc = []) then "" else header_line "Cc" (joinAddresses cc)) +:+
        match replyTo with Some a => header_line "Reply-To" (Address_String a) | None => "" end +:+
        header_line "Subject" (QEncoding_Encode subject) +:+
        header_line "Date" (rfc1123z (local_offset now) now) +:+
        header_line "Message-ID" id +:+
        header_line "MIME-Version" "1.0"))
  end.

Definition writeSinglePart (contentType body : string) : string :=
  header_line "Content-Type" contentType +:+
  "Content-Transfer-Encoding: quoted-printable" +:+ crlf +:+ crlf +:+
  quotedprintable body +:+ crlf.

Definition boundary : string := "notifyd-markdown-boundary".
Definition text_plain : string := "text/plain; charset=UTF-8".
Definition text_html : string := "text/html; charset=UTF-8".

Definition writeMarkdownAlternative (body : string) : string :=
  let htmlBody := match goldmark_Convert body with Ok html => html | Err _ => body end in
  header_line "Content-Type" ("multipart/alternative; boundary=" +:+ boundary) +:+ crlf +:+
  "--" +:+ boundary +:+ crlf +:+ writeSinglePart text_plain body +:+
  "--" +:+ boundary +:+ crlf +:+ writeSinglePart text_html htmlBody +:+
  "--" +:+ boundary +:+ "--" +:+ crlf.

Definition buildEmailMessage (cfg : emailConfig) (req : SendRequest) : M (result string) :=
  headers ←? buildEmailHeaders cfg (sq_Subject req);
  mret (Ok (headers +:+
    (if bool_decide (sq_FormatMode req = "html") then writeSinglePart text_html (sq_Body req)
     else if bool_decide (sq_FormatMode req = "markdown") then writeMarkdownAlternative (sq_Body req)
     else writeSinglePart text_plain (sq_Body req)))).

(** ** Delivery *)

(** The loop over the recipients. *)
Fixpoint send_recipients (c : smtpClient) (raws : list string) : M (result unit) :=
  match raws with
  | [] => mret (Ok tt)
  | raw :: raws' =>
      match parseAddressField "recipient" raw with
      | Err err => mret (Err err)
      | Ok rcpt =>
          _ ←? on_err (errorf_w ("rcpt to " +:+ addr_Address rcpt)) (client_Rcpt c (addr_Address rcpt));
          send_recipients c raws'
      end
  end.

Definition deliverMessage (c : smtpClient) (cfg : emailConfig) (message : string) : M (result unit) :=
  match parseAddressField "from" (ec_From cfg) with
  | Err err => mret (Err err)
  | Ok from =>
      '(r, c) ← client_Mail c (addr_Address from);
      match r with
      | Err err => mret (Err (errorf_w "mail from" err))
      | Ok _ =>
          _ ←? send_recipients c (ec_To cfg ++ ec_CC cfg);
          _ ←? on_err (errorf_w "data") (client_Data c);
          r ← data_Write c message;
          match r with
          | Err err => _ ← data_Close c; mret (Err (errorf_w "write message" err))
          | Ok _ =>
              _ ←? on_err (errorf_w "close data") (data_Close c);
              _ ← client_Quit c;
              mret (Ok tt)
          end
      end
  end.

(** The connection, and whether it is under TLS from its first byte. *)
Definition dialWithContext (addr : string) (port : Z) : M (result bool) :=
  a ← smtp_do (mkSmtpEvent false (SmtpDial addr));
  mret match a with
       | Broken msg => Err (errorf_w "dial" (errors_New msg))
       | Reply _ _ => Ok (port =? implicitTLSPort)%Z
       end.

Definition transientSMTPError (msg : string) : error := errors_New msg.
Definition no_starttls : error :=
  transientSMTPError "server does not advertise STARTTLS; refusing to send credentials over plaintext".

Definition sendViaSMTP (cfg : emailConfig) (message : string) : M (result unit) :=
  let addr := JoinHostPort (ec_Host cfg) (pretty (ec_Port cfg)) in
  tls ←? dialWithContext addr (ec_Port cfg);
  c ←? on_err (errorf_w "smtp handshake") (smtp_NewClient tls (ec_Host cfg));
  '(r, c) ← (if negb (ec_Port cfg =? implicitTLSPort)%Z then
               '(ok, c) ← client_Extension c "STARTTLS";
               if negb ok then mret (Err no_starttls, c)
               else '(r, c) ← client_StartTLS c; mret (map_err (errorf_w "starttls") r, c)
             else mret (Ok tt, c));
  match r with
  | Err err => mret (Err err)
  | Ok _ =>
      '(r, c) ← client_Auth c (mkPlainAuth (ec_Username cfg) (ec_Password cfg) (ec_Host cfg));
      match r with
      | Err err => mret (Err (errorf_w "auth" err))
      | Ok _ => deliverMessage c cfg message
      end
  end.

(** ** Outcome *)

(** The first SMTP reply along the chain, as [errors.As] finds it. *)
Fixpoint proto_code (chain : list sentinel) : option Z :=
  match chain with
  | [] => None
  | textproto_Error code :: _ => Some code
  | _ :: chain' => proto_code chain'
  end.

Definition isPermanentSMTPError (err : error) : bool :=
  match proto_code (err_chain err) with
  | Some code => ((500 <=? code) && (code <? 600))%Z
  | None => errors_Is err permanentEmailError
  end.

Definition classifyEmailSendError (err : error) : SendResponse :=
  mkSendResponse false "" None (err_Error err) (isPermanentSMTPError err).

Definition EmailProvider_Send (rawConfig : RawMessage) (req : SendRequest) : M (result SendResponse) :=
  match dec_emailConfig rawConfig with
  | Err err => mret (Err (errorf_w "unmarshal email config" err))
  | Ok cfg =>
      message ← buildEmailMessage cfg req;
      match message with
      | Err err => mret (Ok (classifyEmailSendError err))
      | Ok message =>
          r ← sendViaSMTP cfg message;
          mret match r with
               | Err err => Ok (classifyEmailSendError err)
               | Ok _ => Ok (mkSendResponse true "" None "" false)
               end
      end
  end.

Definition EmailProvider : Provider :=
  mkProvider _ "email" [] EmailProvider_Send unsupported_metrics EmailProvider_ValidateConfig.

(** ** The registry of cmd/worker and cmd/api *)

Definition worker_registry : Registry :=
  Registry_Register (Registry_Register (Registry_Register (Registry_Register (Registry_Register (Registry_Register
    NewRegistry DiscordProvider) TelegramProvider) WhatsAppProvider) EmailProvider) SlackProvider) WebhookProvider.
End email.
