(* ===== verification/ProviderFacts.v ===== *)
(** * ProviderFacts: what the worker relies on of the six backends

    The registry of cmd/worker satisfies the interface [ProviderLaws] the
    dispatcher is proved against, and has a backend for every channel type. *)
From Stdlib Require Import Ascii.
From S2P Require Import Prelude GoTime Utf8 Json JsonText Hex Domain World Net Mime Smtp Provider EventDelivery ChatProviders Email.

(** ** Decoding errors carry no sentinel *)

Definition plain_dec {A} (dec : decoder A) : Prop := ∀ cur v e, dec cur v = Err e → err_chain e = [].

Create HintDb decoders.

Lemma dec_string_plain : plain_dec dec_string.
Proof. intros cur v e. unfold dec_string. destruct v; naive_solver. Qed.
Lemma dec_int_plain : plain_dec dec_int.
Proof. intros cur v e. unfold dec_int. destruct v; try naive_solver. case_bool_decide; naive_solver. Qed.

Lemma dec_slice_plain {A} (dec : decoder A) zero : plain_dec dec → plain_dec (dec_slice dec zero).
Proof.
  intros Hd cur v e. unfold dec_slice. destruct v as [| | | | |l|]; try naive_solver.
  revert cur. induction l as [|j l IH]; intros cur; cbn [dec_elems]; [done|].
  destruct (dec _ j) as [a|] eqn:Hj; [|intros [= ->]; by eapply Hd].
  destruct (dec_elems dec zero (tail cur) l) eqn:He; [done|]. intros [= ->]. by eapply IH.
Qed.

Lemma dec_strmap_plain : plain_dec dec_strmap.
Proof.
  intros cur v e. unfold dec_strmap. destruct v as [| | | | | |kvs]; try naive_solver.
  assert (∀ kvs (acc : result (gmap string string)), (∀ e, acc = Err e → err_chain e = []) →
    foldl (λ acc '(k, v), match acc, dec_string "" v with
                          | Ok m, Ok s => Ok (<[k := s]> m) | Err e, _ => Err e | _, Err e => Err e end) acc kvs = Err e →
    err_chain e = []) as H.
  { clear. induction kvs as [|[k v] kvs IH]; intros acc Ha; [by apply Ha|]. apply IH. clear IH e.
    destruct acc as [m|e]; [|naive_solver].
    destruct (dec_string "" v) eqn:Hv; [naive_solver|]. intros e' [= ->]. by eapply dec_string_plain. }
  intros He. eapply H; [|exact He]. done.
Qed.

#[export] Hint Resolve dec_string_plain dec_int_plain dec_slice_plain dec_strmap_plain : decoders.

Lemma field_plain {A} (dec : decoder A) name zero kvs e :
  plain_dec dec → field dec name zero kvs = Err e → err_chain e = [].
Proof.
  intros Hd. revert zero. induction kvs as [|[k v] kvs IH]; intros zero; simpl; [done|].
  destruct (EqualFold k name); [|by apply IH]. destruct (dec zero v) eqn:Hv; [apply IH|].
  intros [= ->]. by eapply Hd.
Qed.

Lemma raw_object_plain raw e : raw_object raw = Err e → err_chain e = [].
Proof. destruct raw as [[]|]; naive_solver. Qed.

(** Follows a decoder to its first failing member. *)
Ltac plain_fields :=
  repeat match goal with
  | |- rbind ?r _ = Err _ → _ => destruct r eqn:?; cbn [rbind]
  | |- Err _ = Err _ → _ => intros [= <-]
  | |- Ok _ = Err _ → _ => done
  end;
  first [ eapply raw_object_plain; eassumption | eapply field_plain; [|eassumption]; eauto with decoders ].

Lemma dec_discordConfig_plain raw e : dec_discordConfig raw = Err e → err_chain e = [].
Proof. unfold dec_discordConfig. plain_fields. Qed.
Lemma dec_slackConfig_plain raw e : dec_slackConfig raw = Err e → err_chain e = [].
Proof. unfold dec_slackConfig. plain_fields. Qed.
Lemma dec_telegramConfig_plain raw e : dec_telegramConfig raw = Err e → err_chain e = [].
Proof. unfold dec_telegramConfig. plain_fields. Qed.
Lemma dec_whatsappConfig_plain raw e : dec_whatsappConfig raw = Err e → err_chain e = [].
Proof. unfold dec_whatsappConfig. plain_fields. Qed.
Lemma dec_webhookConfig_plain raw e : dec_webhookConfig raw = Err e → err_chain e = [].
Proof. unfold dec_webhookConfig. plain_fields. Qed.
Lemma dec_emailConfig_plain raw e : dec_emailConfig raw = Err e → err_chain e = [].
Proof. unfold dec_emailConfig. plain_fields. Qed.

(** ** The laws *)

Section laws.
Context `{E : Env} {ML : Mail}.

Lemma plain_no_skip msg e : err_chain e = [] → errors_Is (errorf_w msg e) SkipRetry = false.
Proof. unfold errors_Is. simpl. intros ->. done. Qed.

Lemma DiscordProvider_laws : ProviderLaws DiscordProvider.
Proof.
  split; cbn [pr_Send DiscordProvider]; unfold DiscordProvider_Send.
  1-2: intros; keeps_auto.
  intros cfg q w e. destruct (dec_discordConfig cfg) eqn:Hd.
  - destruct (negb _); [by intros [= <-]|]. rewrite ST_bind_run. simpl. by repeat case_match.
  - intros [= <-]. by eapply plain_no_skip, dec_discordConfig_plain.
Qed.

Lemma SlackProvider_laws : ProviderLaws SlackProvider.
Proof.
  split; cbn [pr_Send SlackProvider]; unfold SlackProvider_Send.
  1-2: intros; keeps_auto.
  intros cfg q w e. destruct (dec_slackConfig cfg) eqn:Hd.
  - case_bool_decide; [done|]. destruct (negb _); [by intros [= <-]|]. rewrite ST_bind_run. simpl. by repeat case_match.
  - intros [= <-]. by eapply plain_no_skip, dec_slackConfig_plain.
Qed.

Lemma TelegramProvider_laws : ProviderLaws TelegramProvider.
Proof.
  split; cbn [pr_Send TelegramProvider]; unfold TelegramProvider_Send.
  1-2: intros; keeps_auto.
  intros cfg q w e. destruct (dec_telegramConfig cfg) eqn:Hd.
  - destruct (buildTelegramMessage q). destruct (negb _); [by intros [= <-]|].
    rewrite ST_bind_run. simpl. by repeat case_match.
  - intros [= <-]. by eapply plain_no_skip, dec_telegramConfig_plain.
Qed.

Lemma WhatsAppProvider_laws : ProviderLaws WhatsAppProvider.
Proof.
  split; cbn [pr_Send WhatsAppProvider]; unfold WhatsAppProvider_Send.
  1-2: intros; keeps_auto.
  intros cfg q w e. destruct (dec_whatsappConfig cfg) eqn:Hd.
  - destruct (negb _); [by intros [= <-]|]. rewrite ST_bind_run. simpl. by repeat case_match.
  - intros [= <-]. by eapply plain_no_skip, dec_whatsappConfig_plain.
Qed.

Lemma WebhookProvider_laws : ProviderLaws WebhookProvider.
Proof.
  split; cbn [pr_Send WebhookProvider]; unfold WebhookProvider_Send, buildWebhookPayload.
  1-2: intros; keeps_auto.
  intros cfg q w e. destruct (dec_webhookConfig cfg) eqn:Hd.
  - rewrite try_bind_run, on_err_run, ST_bind_run. cbn [fst snd map_err mret ST_ret]. destruct (negb _); [by intros [= <-]|].
    rewrite !ST_bind_run. cbv zeta. simpl. by repeat case_match.
  - intros [= <-]. by eapply plain_no_skip, dec_webhookConfig_plain.
Qed.
End laws.

(** ** Email: frames of the SMTP client *)

Section email_frames.
Context `{E : Env} {ML : Mail}.
Context (R : relation World) `{!PreOrder R} (HR : ∀ e, keeps R (smtp_do e)).

Lemma cmd_keeps c code line : keeps R (client_cmd c code line).
Proof. unfold client_cmd, smtp_act. apply keeps_fmap, HR. Qed.

#[local] Hint Resolve cmd_keeps HR : keeps.

Lemma hello_keeps c : keeps R (client_hello c).
Proof. unfold client_hello, client_ehlo, client_helo. keeps_auto. Qed.
#[local] Hint Resolve hello_keeps : keeps.

Lemma Quit_keeps c : keeps R (client_Quit c).
Proof. unfold client_Quit. keeps_auto. Qed.
#[local] Hint Resolve Quit_keeps : keeps.

Lemma recipients_keeps c raws : keeps R (send_recipients c raws).
Proof. induction raws as [|raw raws IH]; cbn [send_recipients]; unfold client_Rcpt; keeps_auto. Qed.
#[local] Hint Resolve recipients_keeps : keeps.

Lemma sendViaSMTP_keeps cfg message : keeps R (sendViaSMTP cfg message).
Proof.
  unfold sendViaSMTP, dialWithContext, smtp_NewClient, client_Extension, client_StartTLS, client_ehlo, client_Auth,
    deliverMessage, client_Mail, client_Data, data_Write, data_Close, smtp_act.
  keeps_auto.
Qed.
End email_frames.

Section registry.
Context `{E : Env} {ML : Mail}.

Lemma randomHexID_db n : keeps (same w_db) (randomHexID n).
Proof. unfold randomHexID. keeps_auto. Qed.
Lemma randomHexID_tasks n : keeps (same w_tasks) (randomHexID n).
Proof. unfold randomHexID. keeps_auto. Qed.
Lemma randomHexID_smtp n : keeps (same w_smtp) (randomHexID n).
Proof. unfold randomHexID. keeps_auto. Qed.

#[local] Hint Resolve randomHexID_db randomHexID_tasks randomHexID_smtp : keeps.

Lemma buildEmailMessage_db cfg req : keeps (same w_db) (buildEmailMessage cfg req).
Proof. unfold buildEmailMessage, buildEmailHeaders, generateMessageID. keeps_auto. Qed.
Lemma buildEmailMessage_tasks cfg req : keeps (same w_tasks) (buildEmailMessage cfg req).
Proof. unfold buildEmailMessage, buildEmailHeaders, generateMessageID. keeps_auto. Qed.
Lemma buildEmailMessage_smtp cfg req : keeps (same w_smtp) (buildEmailMessage cfg req).
Proof. unfold buildEmailMessage, buildEmailHeaders, generateMessageID. keeps_auto. Qed.

Lemma EmailProvider_laws : ProviderLaws EmailProvider.
Proof.
  split; cbn [pr_Send EmailProvider]; unfold EmailProvider_Send.
  - intros. keeps_auto; [apply buildEmailMessage_db|]. apply (sendViaSMTP_keeps (same w_db)); apply smtp_do_db.
  - intros. keeps_auto; [apply buildEmailMessage_tasks|].
    apply (sendViaSMTP_keeps (same w_tasks)); apply smtp_do_tasks.
  - intros cfg q w e. destruct (dec_emailConfig cfg) eqn:Hd.
    + rewrite ST_bind_run. destruct (buildEmailMessage _ _ w).1; [|done]. rewrite ST_bind_run. simpl. by case_match.
    + intros [= <-]. by eapply plain_no_skip, dec_emailConfig_plain.
Qed.

Lemma worker_registry_ok : registry_ok worker_registry.
Proof.
  unfold worker_registry.
  repeat apply Register_ok; auto using NewRegistry_ok, DiscordProvider_laws, TelegramProvider_laws,
    WhatsAppProvider_laws, EmailProvider_laws, SlackProvider_laws, WebhookProvider_laws.
Qed.

(** Every channel type the API accepts has a backend of its type. *)
Lemma worker_registry_complete ty :
  ty ∈ ValidChannelTypes → ∃ prov, worker_registry !! ty = Some prov ∧ pr_Type prov = ty.
Proof.
  assert (∀ ty prov, Registry_Get worker_registry ty = Ok prov → worker_registry !! ty = Some prov) as Hget.
  { intros t prov. unfold Registry_Get. destruct (worker_registry !! t); naive_solver. }
  intros Hty. unfold ValidChannelTypes in Hty. rewrite !elem_of_cons, elem_of_nil in Hty.
  destruct Hty as [->|[->|[->|[->|[->|[->|[]]]]]]]; eexists;
    (split; [apply Hget; unfold worker_registry; rewrite !Get_Register; reflexivity|reflexivity]).
Qed.
End registry.
