(* ===== verification/SampleMail.v ===== *)
(** * SampleMail: a concrete [Mail]

    Addresses [local@domain] and [Name <local@domain>], a renderer that wraps its
    text in a paragraph, and a server in UTC. *)
From Stdlib Require Import Ascii.
From S2P Require Import Prelude GoTime Utf8 Json Domain World Mime Smtp Email.

Definition has_at (s : string) : bool := bool_decide (is_Some (strings_Cut s "@")).

Fixpoint drop_trailing_space (s : string) : string :=
  match s with
  | EmptyString => ""
  | String c s' => match drop_trailing_space s' with
                   | EmptyString => if bool_decide (c = " "%char) then "" else String c ""
                   | t => String c t
                   end
  end.

Definition sample_ParseAddress (s : string) : result Address :=
  let fail := Err (errors_New "mail: missing '@' or angle-addr") in
  match strings_Cut s "<" with
  | Some (name, rest) =>
      match strings_Cut rest ">" with
      | Some (addr, "") => if has_at addr then Ok (mkAddress (drop_trailing_space name) addr) else fail
      | _ => fail
      end
  | None => if has_at s then Ok (mkAddress "" s) else fail
  end.

Definition sample_Address_String (a : Address) : string :=
  (if bool_decide (addr_Name a = "") then "" else QEncoding_Encode (addr_Name a) +:+ " ") +:+
  "<" +:+ QEncoding_Encode (addr_Address a) +:+ ">".

#[export] Instance sample_mail : Mail := {|
  mail_ParseAddress := sample_ParseAddress;
  Address_String := sample_Address_String;
  goldmark_Convert := λ s, Ok ("<p>" +:+ s +:+ "</p>");
  local_offset := λ _, 0%Z
|}.

#[export] Instance sample_mail_laws : MailLaws sample_mail.
Proof.
  split. intros s a _. simpl. unfold sample_Address_String. rewrite !one_line_app, QEncoding_line.
  case_bool_decide; [done|]. by rewrite one_line_app, QEncoding_line.
Qed.
