(* ===== verification/ProvidersProps.v ===== *)
(** * ProvidersProps: the properties of the HTTP backends *)
From Stdlib Require Import Ascii.
From S2P Require Import Prelude GoTime Utf8 Json JsonText Hex Domain World SampleEnv Samples Provider EventDelivery.
From S2P Require Import Markdown ChatProviders Email ProviderFacts SampleMail.

(** ** What a chat backend sends and how it reads the answer *)

(** The URL and the document of a message, for the four chat backends. *)
Definition chat_request (ty : string) (raw : RawMessage) (req : SendRequest) : option (string * json) :=
  if bool_decide (ty = "discord") then
    match dec_discordConfig raw with
    | Ok cfg => Some (dc_WebhookURL cfg, JObj [("content", JStr (buildDiscordMessage req))])
    | Err _ => None
    end
  else if bool_decide (ty = "slack") then
    match dec_slackConfig raw with
    | Ok cfg => if bool_decide (sq_FormatMode req = "html") then None
                else Some (sc_WebhookURL cfg, JObj [("text", JStr (buildSlackMessage req))])
    | Err _ => None
    end
  else if bool_decide (ty = "telegram") then
    match dec_telegramConfig raw with
    | Ok cfg =>
        let '(text, mode) := buildTelegramMessage req in
        Some ("https://api.telegram.org/bot" +:+ tc_BotToken cfg +:+ "/sendMessage",
              JObj ([("chat_id", JStr (tc_ChatID cfg))] ++
                    (if bool_decide (mode = "") then [] else [("parse_mode", JStr mode)]) ++ [("text", JStr text)]))
    | Err _ => None
    end
  else if bool_decide (ty = "whatsapp") then
    match dec_whatsappConfig raw with
    | Ok cfg => Some ("https://graph.facebook.com/v19.0/" +:+ wc_PhoneNumberID cfg +:+ "/messages",
                      JObj [("messaging_product", JStr "whatsapp"); ("text", JObj [("body", JStr (buildWhatsAppMessage req))]);
                            ("to", JStr (wc_Recipient cfg)); ("type", JStr "text")])
    | Err _ => None
    end
  else None.

(** The statuses that mean the message was accepted, and those after which the
    same request cannot succeed. *)
Definition accepted_status (ty : string) (code : Z) : bool :=
  if bool_decide (ty = "telegram") then (code =? 200)%Z else is_2xx code.
Definition hopeless_status (ty : string) (code : Z) : bool :=
  bool_decide (ty = "slack") && negb (is_2xx code) && negb (code =? 429)%Z && (code <? 500)%Z.

(** The response made of an answer. *)
Definition chat_outcome (ty : string) (answer : result HttpResponse) (resp : SendResponse) : Prop :=
  match answer with
  | Err err => sr_Success resp = false ∧ sr_Permanent resp = false ∧ sr_ErrorMessage resp = err_Error err
  | Ok r => sr_Success resp = accepted_status ty (rs_StatusCode r) ∧
            sr_Permanent resp = hopeless_status ty (rs_StatusCode r) ∧ sr_ProviderData resp = Some (read_body r)
  end.

Section http.
Context `{E : Env} {ML : Mail}.

(** One request and what is made of its answer. *)
Lemma post_run {A} (q : HttpRequest) (f : result HttpResponse → A) w :
  (resp ← client_Do q; mret (f resp)) w = (f (env_http (w_tick w) q), add_http q (next_tick w)).
Proof. done. Qed.

(** [prov] sends [doc] to [url] in one request and reads the answer as [ty] does. *)
Definition posts (ty : string) (prov : Provider) (raw : RawMessage) (req : SendRequest) (url : string) (doc : json) : Prop :=
  ∀ w, ∃ header resp, let q := mkHttpRequest "POST" url header (Marshal doc) in
    pr_Send prov raw req w = (Ok resp, add_http q (next_tick w)) ∧ chat_outcome ty (env_http (w_tick w) q) resp.

(** The answer of the peer, case by case. *)
Ltac read_answer hdr :=
  exists hdr; cbv zeta; rewrite post_run; unfold chat_outcome, accepted_status, hopeless_status;
  destruct (env_http _ _) as [r|err]; [|by eexists];
  rewrite ?bool_decide_eq_true_2, ?bool_decide_eq_false_2 by done; cbn [andb negb];
  destruct (is_2xx (rs_StatusCode r)) eqn:?, (rs_StatusCode r =? 200)%Z eqn:?; by eexists.

Lemma discord_posts raw req cfg :
  dec_discordConfig raw = Ok cfg → url_parses (dc_WebhookURL cfg) = true →
  posts "discord" DiscordProvider raw req (dc_WebhookURL cfg) (JObj [("content", JStr (buildDiscordMessage req))]).
Proof.
  intros Hd Hu w. cbn [pr_Send DiscordProvider]. unfold DiscordProvider_Send. rewrite Hd, Hu. cbn [negb].
  read_answer json_header.
Qed.

Lemma slack_posts raw req cfg :
  dec_slackConfig raw = Ok cfg → sq_FormatMode req ≠ "html" → url_parses (sc_WebhookURL cfg) = true →
  posts "slack" SlackProvider raw req (sc_WebhookURL cfg) (JObj [("text", JStr (buildSlackMessage req))]).
Proof.
  intros Hd Hf Hu w. cbn [pr_Send SlackProvider]. unfold SlackProvider_Send.
  rewrite Hd, Hu, bool_decide_eq_false_2 by done. cbn [negb]. read_answer json_header.
Qed.

Lemma telegram_posts raw req cfg text mode :
  let url := "https://api.telegram.org/bot" +:+ tc_BotToken cfg +:+ "/sendMessage" in
  dec_telegramConfig raw = Ok cfg → buildTelegramMessage req = (text, mode) → url_parses url = true →
  posts "telegram" TelegramProvider raw req url
    (JObj ([("chat_id", JStr (tc_ChatID cfg))] ++
           (if bool_decide (mode = "") then [] else [("parse_mode", JStr mode)]) ++ [("text", JStr text)])).
Proof.
  intros url Hd Hm Hu w. cbn [pr_Send TelegramProvider]. unfold TelegramProvider_Send.
  rewrite Hd, Hm. cbv zeta. fold url. rewrite Hu. cbn [negb]. read_answer json_header.
Qed.

Lemma whatsapp_posts raw req cfg :
  let url := "https://graph.facebook.com/v19.0/" +:+ wc_PhoneNumberID cfg +:+ "/messages" in
  dec_whatsappConfig raw = Ok cfg → url_parses url = true →
  posts "whatsapp" WhatsAppProvider raw req url
    (JObj [("messaging_product", JStr "whatsapp"); ("text", JObj [("body", JStr (buildWhatsAppMessage req))]);
           ("to", JStr (wc_Recipient cfg)); ("type", JStr "text")]).
Proof.
  intros url Hd Hu w. cbn [pr_Send WhatsAppProvider]. unfold WhatsAppProvider_Send.
  rewrite Hd. cbv zeta. fold url. rewrite Hu. cbn [negb]. read_answer (Header_Set "Authorization" ("Bearer " +:+ wc_AccessToken cfg) json_header).
Qed.

Lemma registry_Get ty prov : worker_registry !! ty = Some prov → Registry_Get worker_registry ty = Ok prov.
Proof. unfold Registry_Get. by intros ->. Qed.

Lemma chat_send ty raw req url doc prov :
  worker_registry !! ty = Some prov → chat_request ty raw req = Some (url, doc) → url_parses url = true →
  posts ty prov raw req url doc.
Proof.
  intros Hp%registry_Get Hc Hu. unfold worker_registry in Hp. rewrite !Get_Register in Hp. cbn [pr_Type] in Hp.
  unfold chat_request in Hc. case_bool_decide as H1; [|case_bool_decide as H2; [|case_bool_decide as H3;
    [|case_bool_decide as H4; [|done]]]]; subst ty; cbn in Hp; injection Hp as <-.
  - destruct (dec_discordConfig raw) eqn:Hd; [|done]. injection Hc as <- <-. by apply discord_posts.
  - destruct (dec_slackConfig raw) eqn:Hd; [|done]. case_bool_decide as Hf; [done|]. injection Hc as <- <-.
    by apply slack_posts.
  - destruct (dec_telegramConfig raw) eqn:Hd; [|done]. destruct (buildTelegramMessage req) as [text mode] eqn:Hm.
    injection Hc as <- <-. by apply telegram_posts.
  - destruct (dec_whatsappConfig raw) eqn:Hd; [|done]. injection Hc as <- <-. by apply whatsapp_posts.
Qed.

(** The documents are shallow. *)
Lemma chat_request_depth ty raw req url doc :
  chat_request ty raw req = Some (url, doc) → (json_depth doc ≤ maxNestingDepth)%N.
Proof.
  unfold chat_request. intros H. repeat case_match; simplify_eq; vm_compute; by intros ?.
Qed.

(** ** A validated configuration can be sent with *)

(** [Send] fails only on a URL that does not parse, and then nothing was sent. *)
Definition sends_or_bad_url (prov : Provider) (raw : RawMessage) : Prop := ∀ req w,
  match (pr_Send prov raw req w).1 with
  | Ok _ => True
  | Err e => e = request_error ∧ w_http (pr_Send prov raw req w).2 = w_http w ∧
             w_smtp (pr_Send prov raw req w).2 = w_smtp w
  end.

Lemma discord_validated raw : DiscordProvider_ValidateConfig raw = Ok tt → sends_or_bad_url DiscordProvider raw.
Proof.
  unfold DiscordProvider_ValidateConfig. destruct (dec_discordConfig raw) as [cfg|] eqn:Hd; [|done]. intros _ req w.
  destruct (url_parses (dc_WebhookURL cfg)) eqn:Hu.
  - destruct (discord_posts raw req cfg Hd Hu w) as (h & resp & -> & _). done.
  - cbn [pr_Send DiscordProvider]. unfold DiscordProvider_Send. by rewrite Hd, Hu.
Qed.

Lemma slack_validated raw : SlackProvider_ValidateConfig raw = Ok tt → sends_or_bad_url SlackProvider raw.
Proof.
  unfold SlackProvider_ValidateConfig. destruct (dec_slackConfig raw) as [cfg|] eqn:Hd; [|done]. intros _ req w.
  destruct (decide (sq_FormatMode req = "html")) as [Hf|Hf].
  { cbn [pr_Send SlackProvider]. unfold SlackProvider_Send. by rewrite Hd, bool_decide_eq_true_2. }
  destruct (url_parses (sc_WebhookURL cfg)) eqn:Hu.
  - destruct (slack_posts raw req cfg Hd Hf Hu w) as (h & resp & -> & _). done.
  - cbn [pr_Send SlackProvider]. unfold SlackProvider_Send. by rewrite Hd, Hu, bool_decide_eq_false_2.
Qed.

Lemma telegram_validated raw : TelegramProvider_ValidateConfig raw = Ok tt → sends_or_bad_url TelegramProvider raw.
Proof.
  unfold TelegramProvider_ValidateConfig. destruct (dec_telegramConfig raw) as [cfg|] eqn:Hd; [|done]. intros _ req w.
  destruct (buildTelegramMessage req) as [text mode] eqn:Hm.
  destruct (url_parses ("https://api.telegram.org/bot" +:+ tc_BotToken cfg +:+ "/sendMessage")) eqn:Hu.
  - destruct (telegram_posts raw req cfg text mode Hd Hm Hu w) as (h & resp & -> & _). done.
  - cbn [pr_Send TelegramProvider]. unfold TelegramProvider_Send. rewrite Hd, Hm. cbv zeta. by rewrite Hu.
Qed.

Lemma whatsapp_validated raw : WhatsAppProvider_ValidateConfig raw = Ok tt → sends_or_bad_url WhatsAppProvider raw.
Proof.
  unfold WhatsAppProvider_ValidateConfig. destruct (dec_whatsappConfig raw) as [cfg|] eqn:Hd; [|done]. intros _ req w.
  destruct (url_parses ("https://graph.facebook.com/v19.0/" +:+ wc_PhoneNumberID cfg +:+ "/messages")) eqn:Hu.
  - destruct (whatsapp_posts raw req cfg Hd Hu w) as (h & resp & -> & _). done.
  - cbn [pr_Send WhatsAppProvider]. unfold WhatsAppProvider_Send. rewrite Hd. cbv zeta. by rewrite Hu.
Qed.

Lemma email_validated raw : EmailProvider_ValidateConfig raw = Ok tt → sends_or_bad_url EmailProvider raw.
Proof.
  unfold EmailProvider_ValidateConfig. destruct (dec_emailConfig raw) as [cfg|] eqn:Hd; [|done]. intros _ req w.
  cbn [pr_Send EmailProvider]. unfold EmailProvider_Send. rewrite Hd, ST_bind_run.
  destruct (buildEmailMessage cfg req w).1 as [m|]; [|done]. rewrite ST_bind_run. simpl.
  by destruct (sendViaSMTP cfg m _).1.
Qed.

(** ** The webhook backend *)

(** The headers of a request: the tenant's over the content type, the
    signature's over both. *)
Definition tenant_headers (l : list (string * string)) : gmap string string :=
  foldl (λ h '(name, value), Header_Set name value h) json_header l.

Definition webhook_headers (cfg : webhookConfig) (l : list (string * string)) (timestamp body : string) : gmap string string :=
  if bool_decide (wh_Secret cfg = "") then tenant_headers l
  else Header_Set "X-Notifyd-Signature" ("sha256=" +:+ SignHMAC (wh_Secret cfg) timestamp body)
         (Header_Set "X-Notifyd-Timestamp" timestamp (tenant_headers l)).

(** The response made of an answer. *)
Definition webhook_outcome (answer : result HttpResponse) (resp : SendResponse) : Prop :=
  match answer with
  | Err err => sr_Success resp = false ∧ sr_Permanent resp = errors_Is err errBlockedAddress ∧
               sr_ErrorMessage resp = err_Error err
  | Ok r => sr_Success resp = is_2xx (rs_StatusCode r) ∧
            sr_Permanent resp = negb (is_2xx (rs_StatusCode r)) && negb (rs_StatusCode r =? 429)%Z && (rs_StatusCode r <? 500)%Z
  end.

Lemma webhook_run raw req cfg w :
  dec_webhookConfig raw = Ok cfg → url_parses (wh_URL cfg) = true →
  ∃ tick tick' ts resp,
    let body := Marshal (webhookPayload req (env_now (w_tick w))) in
    let q := mkHttpRequest "POST" (wh_URL cfg)
               (webhook_headers cfg (map_entries tick' (wh_Headers cfg)) ts body) body in
    w_http (WebhookProvider_Send raw req w).2 = w_http w ++ [q] ∧
    w_tick (WebhookProvider_Send raw req w).2 = S tick ∧
    (WebhookProvider_Send raw req w).1 = Ok resp ∧ webhook_outcome (env_http tick q) resp.
Proof.
  intros Hd Hu. unfold WebhookProvider_Send, buildWebhookPayload. rewrite Hd.
  rewrite try_bind_run, on_err_run, ST_bind_run. cbn [fst snd map_err mret ST_ret]. rewrite Hu. cbn [negb].
  rewrite ST_bind_run. cbv zeta. unfold webhook_headers, tenant_headers.
  set (body := Marshal _). set (header := foldl _ json_header _). set (w1 := (map_range _ _).2).
  rewrite ST_bind_run, post_run.
  assert (∃ ts w2, (if bool_decide (wh_Secret cfg = "") then mret header
    else now ← time_Now;
         mret (Header_Set "X-Notifyd-Signature" ("sha256=" +:+ SignHMAC (wh_Secret cfg) (pretty (time_Unix now)) body)
              (Header_Set "X-Notifyd-Timestamp" (pretty (time_Unix now)) header))) w1 =
    (if bool_decide (wh_Secret cfg = "") then header
     else Header_Set "X-Notifyd-Signature" ("sha256=" +:+ SignHMAC (wh_Secret cfg) ts body)
            (Header_Set "X-Notifyd-Timestamp" ts header), w2) ∧ w_http w2 = w_http w) as (ts & w2 & -> & Hw2).
  { destruct (bool_decide _); [by exists "", w1|]. rewrite ST_bind_run. by eexists _, _. }
  cbn [fst snd]. exists (w_tick w2), (w_tick (next_tick w)), ts.
  change (foldl _ json_header (map_entries _ _)) with header.
  change (Marshal _) with body. set (q := mkHttpRequest _ _ _ _).
  destruct (env_http (w_tick w2) q) as [r|err].
  - destruct (is_2xx (rs_StatusCode r)) eqn:H2; [|destruct (isRedirectStatus (rs_StatusCode r)) eqn:H3];
      eexists; (split; [by simpl; rewrite Hw2|]); do 2 (split; [done|]); simpl; rewrite H2; split; try done.
    unfold isRedirectStatus in H3. apply andb_true_iff in H3 as [H3 H4]. symmetry.
    apply andb_true_iff. split; [apply negb_true_iff, Z.eqb_neq; lia|lia].
  - eexists. split; [by simpl; rewrite Hw2|]. done.
Qed.

Lemma webhook_validated raw : WebhookProvider_ValidateConfig raw = Ok tt → sends_or_bad_url WebhookProvider raw.
Proof.
  unfold WebhookProvider_ValidateConfig. destruct (dec_webhookConfig raw) as [cfg|] eqn:Hd; [|done]. intros _ req w.
  cbn [pr_Send WebhookProvider]. destruct (url_parses (wh_URL cfg)) eqn:Hu.
  - destruct (webhook_run raw req cfg w Hd Hu) as (tick & tick' & ts & resp & _ & _ & -> & _). done.
  - unfold WebhookProvider_Send, buildWebhookPayload. rewrite Hd, try_bind_run, on_err_run, ST_bind_run.
    cbn [fst snd map_err mret ST_ret]. by rewrite Hu.
Qed.

(** *** Header names *)

Lemma lower_upper c : ascii_lower (ascii_upper c) = ascii_lower c ∧ ascii_lower (ascii_lower c) = ascii_lower c.
Proof. destruct c as [[] [] [] [] [] [] [] []]; done. Qed.

Lemma canonical_lower s : ToLower (CanonicalHeaderKey s) = ToLower s.
Proof.
  unfold CanonicalHeaderKey. destruct (forallb _ _); [|done]. generalize true.
  induction s as [|c s IH]; intros up; [done|]. simpl. rewrite IH. f_equal. by destruct up; apply lower_upper.
Qed.

Lemma lower_ascii c : (byte_of (ascii_lower c) < 128)%N → (byte_of c < 128)%N.
Proof. destruct c as [[] [] [] [] [] [] [] []]; (intros H; by vm_compute in H) || (intros _; vm_compute; done). Qed.

Fixpoint ascii_text (s : string) : bool :=
  match s with String c s' => (byte_of c <? 128)%N && ascii_text s' | EmptyString => true end.

(** On ASCII text the lower case of Unicode is that of ASCII. *)
Lemma lower_name_ascii s : ascii_text (ToLower s) = true → lower_name s = ToLower s.
Proof.
  induction s as [|c s IH]; [done|]. simpl. intros [Hc%N.ltb_lt Hs]%andb_true_iff. apply lower_ascii in Hc.
  specialize (IH Hs). rewrite (proj2 (N.eqb_neq (byte_of c) 196)), (proj2 (N.eqb_neq (byte_of c) 226)) by lia. cbn [andb].
  destruct s as [|d [|e s]]; by rewrite <- IH.
Qed.

Lemma header_names_checked names hs :
  validateWebhookHeaderNames names hs = Ok tt → ∀ name, name ∈ names →
  lower_name name ≠ "host" ∧ (hs = true → lower_name name ≠ "authorization") ∧ webhookHeaderBlockPattern name = false.
Proof.
  induction names as [|n names IH]; intros Hv name Hn; [by apply elem_of_nil in Hn|]. cbn [validateWebhookHeaderNames] in Hv.
  case_bool_decide as H1; [done|]. destruct (hs && bool_decide (lower_name n = "authorization")) eqn:H2; [done|].
  destruct (webhookHeaderBlockPattern n) eqn:H3; [done|]. apply elem_of_cons in Hn as [->|Hn]; [|by apply IH].
  split_and!; [done| |done]. intros ->. simpl in H2. by apply bool_decide_eq_false in H2.
Qed.

(** *** The headers of a request *)

Lemma tenant_headers_snoc l name value : tenant_headers (l ++ [(name, value)]) = Header_Set name value (tenant_headers l).
Proof. unfold tenant_headers. by rewrite foldl_snoc. Qed.

Lemma tenant_headers_key l k v : tenant_headers l !! k = Some v →
  k = "Content-Type" ∨ ∃ name value, (name, value) ∈ l ∧ CanonicalHeaderKey name = k.
Proof.
  induction l as [|[name value] l IH] using rev_ind.
  - unfold tenant_headers, json_header, Header_Set. simpl. intros H. left.
    destruct (decide (k = "Content-Type")) as [->|Hk]; [done|].
    rewrite lookup_insert_ne in H by done. by rewrite lookup_empty in H.
  - rewrite tenant_headers_snoc. unfold Header_Set. destruct (decide (CanonicalHeaderKey name = k)) as [Hk|Hk].
    + intros _. right. exists name, value. split; [set_solver|done].
    + rewrite lookup_insert_ne by done. intros H. destruct (IH H) as [->|(n & x & Hn & Hk')]; [by left|].
      right. exists n, x. split; [set_solver|done].
Qed.

Lemma tenant_headers_value l name value :
  (name, value) ∈ l → (∀ name' value', (name', value') ∈ l → CanonicalHeaderKey name' = CanonicalHeaderKey name → value' = value) →
  tenant_headers l !! CanonicalHeaderKey name = Some value.
Proof.
  induction l as [|[n x] l IH] using rev_ind; intros Hin Hu; [by apply elem_of_nil in Hin|].
  rewrite tenant_headers_snoc. unfold Header_Set. destruct (decide (CanonicalHeaderKey n = CanonicalHeaderKey name)) as [Hk|Hk].
  - rewrite Hk, lookup_insert_eq. f_equal. apply (Hu n x); [set_solver|done].
  - rewrite lookup_insert_ne by done. apply IH.
    + apply elem_of_app in Hin as [Hin|Hin]; [done|]. apply list_elem_of_singleton in Hin as [= -> ->]. done.
    + intros n' x' Hn'. apply Hu. set_solver.
Qed.

Section protected.
Context {MA : MapLaws E} (cfg : webhookConfig) (t tick : nat) (ts body : string).
Context (Hvalid : validateWebhookConfig t cfg = Ok tt).

Let hdr := webhook_headers cfg (map_entries tick (wh_Headers cfg)) ts body.

Lemma validated_https : HasPrefix (wh_URL cfg) "https://" = true.
Proof.
  revert Hvalid. unfold validateWebhookConfig. case_bool_decide; [done|]. by destruct (HasPrefix _ _).
Qed.

Lemma validated_names name value : wh_Headers cfg !! name = Some value →
  lower_name name ≠ "host" ∧ (wh_Secret cfg ≠ "" → lower_name name ≠ "authorization") ∧ webhookHeaderBlockPattern name = false.
Proof.
  intros Hn. revert Hvalid. unfold validateWebhookConfig. case_bool_decide; [done|]. destruct (negb (HasPrefix _ _)); [done|].
  intros Hv. destruct (header_names_checked _ _ Hv name) as (H1 & H2 & H3).
  - apply list_elem_of_fmap. exists (name, value). split; [done|]. by apply elem_of_map_entries.
  - split_and!; [done| |done]. intros Hs. apply H2. by rewrite bool_decide_eq_false_2.
Qed.

(** A header that is not the provider's own comes from the tenant. *)
Lemma header_origin k v : hdr !! k = Some v →
  k = "Content-Type" ∨ (wh_Secret cfg ≠ "" ∧ k ∈ ["X-Notifyd-Timestamp"; "X-Notifyd-Signature"]) ∨
  ∃ name value, wh_Headers cfg !! name = Some value ∧ CanonicalHeaderKey name = k.
Proof.
  intros Hk.
  assert (tenant_headers (map_entries tick (wh_Headers cfg)) !! k = Some v →
    k = "Content-Type" ∨ ∃ name value, wh_Headers cfg !! name = Some value ∧ CanonicalHeaderKey name = k) as Ht.
  { intros H. destruct (tenant_headers_key _ _ _ H) as [->|(name & value & Hin & Hc)]; [by left|].
    right. exists name, value. split; [by apply elem_of_map_entries in Hin|done]. }
  revert Hk. unfold hdr, webhook_headers. case_bool_decide as Hs; [naive_solver|]. unfold Header_Set.
  destruct (decide (CanonicalHeaderKey "X-Notifyd-Signature" = k)) as [<-|H1]; [intros _; right; left; split; [done|set_solver]|].
  rewrite lookup_insert_ne by done.
  destruct (decide (CanonicalHeaderKey "X-Notifyd-Timestamp" = k)) as [<-|H2]; [intros _; right; left; split; [done|set_solver]|].
  rewrite lookup_insert_ne by done. naive_solver.
Qed.

Lemma reserved_headers k v : hdr !! k = Some v → HasPrefix (ToLower k) "x-notifyd" = true →
  wh_Secret cfg ≠ "" ∧ k ∈ ["X-Notifyd-Timestamp"; "X-Notifyd-Signature"].
Proof.
  intros Hk Hp. destruct (header_origin k v Hk) as [->|[H|(name & value & Hn & <-)]]; [done|done|].
  rewrite canonical_lower in Hp. destruct (validated_names _ _ Hn) as (_ & _ & H). unfold webhookHeaderBlockPattern in H. congruence.
Qed.

Lemma no_header k : ascii_text (ToLower k) = true → k ∉ ["Content-Type"; "X-Notifyd-Timestamp"; "X-Notifyd-Signature"] →
  (∀ name value, wh_Headers cfg !! name = Some value → lower_name name ≠ ToLower k) → hdr !! k = None.
Proof.
  intros Ha Hk Hn. destruct (hdr !! k) as [v|] eqn:Hv; [|done]. exfalso.
  destruct (header_origin k v Hv) as [->|[[_ H]|(name & value & Hm & <-)]]; [set_solver|set_solver|].
  apply (Hn name value Hm). rewrite canonical_lower in Ha |- *. by apply lower_name_ascii.
Qed.

Lemma tenant_header_sent name value :
  wh_Headers cfg !! name = Some value →
  (∀ name' value', wh_Headers cfg !! name' = Some value' → CanonicalHeaderKey name' = CanonicalHeaderKey name → name' = name) →
  hdr !! CanonicalHeaderKey name = Some value.
Proof.
  intros Hn Hu.
  assert (tenant_headers (map_entries tick (wh_Headers cfg)) !! CanonicalHeaderKey name = Some value) as Ht.
  { apply tenant_headers_value; [by apply elem_of_map_entries|]. intros n' x' Hin%elem_of_map_entries Hc.
    pose proof (Hu _ _ Hin Hc) as ->. congruence. }
  unfold hdr, webhook_headers. case_bool_decide; [done|].
  destruct (validated_names _ _ Hn) as (_ & _ & Hb). unfold webhookHeaderBlockPattern in Hb.
  assert (∀ k, HasPrefix (ToLower k) "x-notifyd" = true → CanonicalHeaderKey k ≠ CanonicalHeaderKey name) as Hne.
  { intros k Hk Hc. apply (f_equal ToLower) in Hc. rewrite !canonical_lower in Hc. congruence. }
  unfold Header_Set. by rewrite !lookup_insert_ne by (by apply Hne).
Qed.
End protected.
End http.

(** A Discord channel accepts every URL, also of internal hosts and without TLS. *)
Lemma discord_url_unrestricted url :
  url ≠ "" → DiscordProvider_ValidateConfig (Some (JObj [("webhook_url", JStr url)])) = Ok tt.
Proof.
  intros Hu. unfold DiscordProvider_ValidateConfig, dec_discordConfig. cbn [raw_object json_object rbind field].
  rewrite EqualFold_refl. cbn [dec_string rbind dc_WebhookURL]. by rewrite bool_decide_eq_false_2.
Qed.

(** * Claims *)


(** C13: Sending through a validated webhook channel makes exactly one request, to the configured https URL;
    with a secret its timestamp and signature headers are ones VerifyWebhookSignature accepts for the body; no
    configured header can replace them, forge another X-Notifyd header, set Host or, with a secret,
    Authorization, and every other configured header is sent. *)
Theorem webhook_request_protected {E : Env} {MA : MapLaws E} raw req cfg w :
  dec_webhookConfig raw = Ok cfg → WebhookProvider_ValidateConfig raw = Ok tt → url_parses (wh_URL cfg) = true →
  ∃ q, w_http (WebhookProvider_Send raw req w).2 = w_http w ++ [q] ∧ rq_URL q = wh_URL cfg ∧
    HasPrefix (rq_URL q) "https://" = true ∧
    (wh_Secret cfg ≠ "" → ∃ ts sig,
       rq_Header q !! "X-Notifyd-Timestamp" = Some ts ∧ rq_Header q !! "X-Notifyd-Signature" = Some sig ∧
       VerifyWebhookSignature (wh_Secret cfg) ts (rq_Body q) sig = Ok tt) ∧
    (∀ k v, rq_Header q !! k = Some v → HasPrefix (ToLower k) "x-notifyd" = true →
       wh_Secret cfg ≠ "" ∧ k ∈ ["X-Notifyd-Timestamp"; "X-Notifyd-Signature"]) ∧
    rq_Header q !! "Host" = None ∧ (wh_Secret cfg ≠ "" → rq_Header q !! "Authorization" = None) ∧
    (∀ name value, wh_Headers cfg !! name = Some value →
       (∀ name' value', wh_Headers cfg !! name' = Some value' →
          CanonicalHeaderKey name' = CanonicalHeaderKey name → name' = name) →
       rq_Header q !! CanonicalHeaderKey name = Some value).
Proof.
  intros Hd Hv Hu. unfold WebhookProvider_ValidateConfig in Hv. rewrite Hd in Hv.
  destruct (webhook_run raw req cfg w Hd Hu) as (tick & tick' & ts & resp & Hq & _).
  eexists. split; [exact Hq|]. cbn [rq_URL rq_Header rq_Body]. split_and!.
  - done.
  - by eapply validated_https.
  - intros Hs. unfold webhook_headers. rewrite bool_decide_eq_false_2 by done. unfold Header_Set.
    eexists ts, _. split; [rewrite lookup_insert_ne by done; apply lookup_insert_eq|].
    split; [apply lookup_insert_eq|apply verify_signed].
  - intros k v. by eapply reserved_headers.
  - eapply no_header; [exact Hv|done|set_solver|]. intros name value Hn. by apply (validated_names cfg 0 Hv name value Hn).
  - intros Hs. eapply no_header; [exact Hv|done|set_solver|]. intros name value Hn. by apply (validated_names cfg 0 Hv name value Hn).
  - intros name value. by eapply tenant_header_sent.
Qed.

(** The webhook provider posts the payload document of the message and reports success exactly on a 2xx answer,
    and a permanent failure exactly when the destination is a blocked address or the answer is another status
    below 500 except 429; redirects, which are not followed, are permanent. *)
Theorem webhook_failures_classified {E : Env} raw req cfg w :
  dec_webhookConfig raw = Ok cfg → url_parses (wh_URL cfg) = true →
  json_wf (webhookPayload req (env_now (w_tick w))) = true →
  (json_depth (webhookPayload req (env_now (w_tick w))) ≤ maxNestingDepth)%N →
  ∃ q tick resp, w_http (WebhookProvider_Send raw req w).2 = w_http w ++ [q] ∧
    w_tick (WebhookProvider_Send raw req w).2 = S tick ∧
    parse_json (rq_Body q) = Some (webhookPayload req (env_now (w_tick w))) ∧
    (WebhookProvider_Send raw req w).1 = Ok resp ∧
    (sr_Success resp = true ↔ ∃ r, env_http tick q = Ok r ∧ (200 ≤ rs_StatusCode r < 300)%Z) ∧
    (sr_Permanent resp = true ↔
       (∃ err, env_http tick q = Err err ∧ errors_Is err errBlockedAddress = true) ∨
       (∃ r, env_http tick q = Ok r ∧ (rs_StatusCode r < 200 ∨ 300 ≤ rs_StatusCode r < 500)%Z ∧ rs_StatusCode r ≠ 429%Z)).
Proof.
  intros Hd Hu Hw Hdep. destruct (webhook_run raw req cfg w Hd Hu) as (tick & tick' & ts & resp & Hq & Ht & Hr & Ho).
  eexists _, tick, resp. split; [exact Hq|]. split; [exact Ht|]. split; [by apply parse_Marshal|]. split; [done|].
  destruct (env_http tick _) as [r|err]; cbn in Ho.
  - destruct Ho as [Hs Hp]. rewrite Hs, Hp. unfold is_2xx. split.
    + rewrite andb_true_iff. split; [intros; exists r; split; [done|lia]|intros (? & [= <-] & ?); lia].
    + split.
      * intros H. right. exists r. split; [done|]. lia.
      * intros [(? & ? & _)|(? & [= <-] & ?)]; [done|]. lia.
  - destruct Ho as (Hs & Hp & _). rewrite Hs, Hp. split; [naive_solver|]. naive_solver.
Qed.


(** Each rewriting pass of the Slack conversion terminates: more steps than the text has bytes give the same
    result as the pass itself, for every text and replacement. *)
Theorem markdown_passes_terminate text (fuel : nat) :
  (String.length text < fuel)%nat →
  (∀ repl, replace_all fuel linkPattern repl text = ReplaceAllString linkPattern repl text) ∧
  (∀ repl, replace_all fuel boldPattern repl text = ReplaceAllString boldPattern repl text) ∧
  (∀ repl, replace_all fuel italicPattern repl text = ReplaceAllString italicPattern repl text) ∧
  (∀ repl, replace_all fuel (λ s, pair () <$> lit boldPlaceholder s) repl text =
           ReplaceAllString (λ s, pair () <$> lit boldPlaceholder s) repl text).
Proof.
  intros Hf. split_and!; intros repl; apply replace_all_fuel;
    auto using link_consumes, bold_consumes, italic_consumes; try lia; by apply replace_consumes.
Qed.


(** A document written by [Marshal] is read back by the parser. *)
Theorem document_read_back j :
  json_wf j = true → (json_depth j ≤ maxNestingDepth)%N → parse_json (Marshal j) = Some j.
Proof. apply parse_Marshal. Qed.

(** * Witnesses *)

Section witnesses.
#[local] Existing Instance healthy.

Definition sample_req (mode body : string) : SendRequest :=
  mkSendRequest id_notification "Deploy" body None mode.
Definition discord_raw : RawMessage := Some (JObj [("webhook_url", JStr "https://discord.com/api/webhooks/1")]).
Definition discord_doc : json := JObj [("content", JStr ("**Deploy**" +:+ nl +:+ "done"))].


Definition webhook_raw : RawMessage :=
  Some (JObj [("url", JStr "https://example.com/hook"); ("secret", JStr "s3cret"); ("headers", JObj [("x-team", JStr "ops")])]).
Definition webhook_cfg : webhookConfig := mkWebhookConfig "https://example.com/hook" "s3cret" {["x-team" := "ops"]}.

Lemma webhook_request_protected_witness :
  ∃ q, w_http (WebhookProvider_Send webhook_raw (sample_req "plain" "done") (healthy_world sample_db)).2 = [q] ∧
    rq_Header q !! "X-Team" = Some "ops" ∧ rq_Header q !! "Host" = None.
Proof.
  destruct (webhook_request_protected webhook_raw (sample_req "plain" "done") webhook_cfg (healthy_world sample_db))
    as (q & Hq & _ & _ & _ & _ & Hh & _ & Ht); [reflexivity|vm_compute; reflexivity|reflexivity|].
  exists q. split; [exact Hq|]. split; [|exact Hh].
  apply (Ht "x-team" "ops"); [reflexivity|]. intros n v H _. cbn [wh_Headers webhook_cfg] in H.
  by apply lookup_singleton_Some in H as [<- _].
Defined.

Lemma webhook_failures_classified_witness :
  ∃ q tick resp, w_http (WebhookProvider_Send webhook_raw (sample_req "plain" "done") (healthy_world sample_db)).2 = [q] ∧
    (WebhookProvider_Send webhook_raw (sample_req "plain" "done") (healthy_world sample_db)).1 = Ok resp ∧
    (sr_Success resp = true ↔ ∃ r, env_http tick q = Ok r ∧ (200 ≤ rs_StatusCode r < 300)%Z).
Proof.
  destruct (webhook_failures_classified webhook_raw (sample_req "plain" "done") webhook_cfg (healthy_world sample_db))
    as (q & tick & resp & Hq & _ & _ & Hr & Hs & _); [reflexivity|reflexivity|vm_compute; reflexivity|by vm_compute|].
  exists q, tick, resp. split; [exact Hq|]. split; [exact Hr|exact Hs].
Defined.

Definition sample_doc : list span :=
  [Text "Release "; Bold "v2"; Text " is "; Italic "out"; Text ": "; Link "notes" "https://example.com/a_b"].


Lemma markdown_passes_terminate_witness :
  replace_all 100 boldPattern (λ t, t) "**a** b" = ReplaceAllString boldPattern (λ t, t) "**a** b".
Proof. apply (markdown_passes_terminate "**a** b" 100). simpl. lia. Defined.


Lemma document_read_back_witness :
  parse_json (Marshal (JObj [("id", JInt 7); ("tags", JArr [JStr "a&b"; JFloat "1.5"; JNull])])) =
  Some (JObj [("id", JInt 7); ("tags", JArr [JStr "a&b"; JFloat "1.5"; JNull])]).
Proof. apply document_read_back; [reflexivity|by vm_compute]. Defined.
End witnesses.
