(* ===== verification/EmailFacts.v ===== *)
(** * EmailFacts: runs of the SMTP client

    A small logic for computations that move the world along a relation and
    answer a value with a property, and over it: what a delivery puts on the wire
    in the clear, what it takes for an accepted message, and where its errors
    come from. *)
From Stdlib Require Import Ascii.
From S2P Require Import Prelude GoTime Utf8 Json Hex Domain World Net Mime Smtp Provider ChatProviders Email ProviderFacts.

(** ** Runs *)

Definition runs {W A} (R : relation W) (m : ST W A) (Q : A → Prop) : Prop := ∀ w, R w (m w).2 ∧ Q (m w).1.

Section runs.
Context {W : Type} (R : relation W) `{!PreOrder R}.

Lemma runs_ret {A} (a : A) (Q : A → Prop) : Q a → runs R (mret a : ST W A) Q.
Proof. intros Ha w. split; [reflexivity|done]. Qed.

Lemma runs_bind {A B} (m : ST W A) (f : A → ST W B) (P : A → Prop) (Q : B → Prop) :
  runs R m P → (∀ a, P a → runs R (f a) Q) → runs R (m ≫= f) Q.
Proof.
  intros Hm Hf w. rewrite ST_bind_run. destruct (Hm w) as [H1 H2]. destruct (Hf _ H2 (m w).2) as [H3 H4].
  split; [by etrans|done].
Qed.

Lemma runs_try {A B} (m : ST W (result A)) (k : A → ST W (result B)) (P : result A → Prop) (Q : result B → Prop) :
  runs R m P → (∀ a, P (Ok a) → runs R (k a) Q) → (∀ e, P (Err e) → Q (Err e)) → runs R (try_bind m k) Q.
Proof.
  intros Hm Hk He. apply (runs_bind m _ P); [done|]. intros [a|e] HP; [by apply Hk|]. apply runs_ret. by apply He.
Qed.

Lemma runs_fmap {A B} (g : A → B) (m : ST W A) (Q : B → Prop) : runs R m (λ a, Q (g a)) → runs R (g <$> m) Q.
Proof. intros Hm w. specialize (Hm w). unfold fmap, ST_fmap. by destruct (m w). Qed.

Lemma runs_weaken {A} (m : ST W A) (P Q : A → Prop) : runs R m P → (∀ a, P a → Q a) → runs R m Q.
Proof. intros Hm HPQ w. destruct (Hm w). auto. Qed.

Lemma runs_keeps {A} (m : ST W A) : keeps R m → runs R m (λ _, True).
Proof. intros Hm w. split; [apply Hm|done]. Qed.
End runs.

(** One step of such a proof: the end, or a call whose behaviour is known. *)
Ltac r_ret := apply runs_ret; [apply _|].
Ltac r_call L := eapply runs_bind; [apply _|apply L|].

(** ** What is said in the clear *)

Definition plain_acts (addr : string) : list SmtpAct :=
  [SmtpDial addr; SmtpGreeting; SmtpLine "EHLO localhost"; SmtpLine "HELO localhost"; SmtpLine "STARTTLS"].

Definition discreet (addr : string) (e : SmtpEvent) : Prop := se_TLS e = true ∨ se_Act e ∈ plain_acts addr.

(** The world moves by SMTP acts only, one tick each. *)
Definition spoke `{E : Env} : relation World := λ w w',
  ∃ evs, w_smtp w' = w_smtp w ++ evs ∧ w_tick w' = (w_tick w + length evs)%nat.

#[export] Instance spoke_preorder `{E : Env} : PreOrder spoke.
Proof.
  split.
  - intros w. exists []. by rewrite app_nil_r, Nat.add_0_r.
  - intros w1 w2 w3 (e1 & H1 & T1) (e2 & H2 & T2). exists (e1 ++ e2). rewrite H2, H1, app_assoc, length_app.
    split; [done|lia].
Qed.

Lemma do_spoke `{E : Env} e w : spoke w (smtp_do e w).2.
Proof. exists [e]. split; [done|simpl; lia]. Qed.

Definition discreetly `{E : Env} (addr : string) : relation World := λ w w',
  ∃ evs, w_smtp w' = w_smtp w ++ evs ∧ w_tick w' = (w_tick w + length evs)%nat ∧ Forall (discreet addr) evs.

Lemma discreetly_spoke `{E : Env} addr w w' : discreetly addr w w' → spoke w w'.
Proof. intros (evs & H1 & H2 & _). by exists evs. Qed.

#[export] Instance discreetly_preorder `{E : Env} addr : PreOrder (discreetly addr).
Proof.
  split.
  - intros w. exists []. by rewrite app_nil_r, Nat.add_0_r.
  - intros w1 w2 w3 (e1 & H1 & T1 & F1) (e2 & H2 & T2 & F2). exists (e1 ++ e2).
    rewrite H2, H1, app_assoc, length_app. split; [done|]. split; [lia|]. by apply Forall_app.
Qed.

Section plaintext.
Context `{E : Env} {ML : Mail} (addr : string).
Notation "'⟨' m '⟩' Q" := (runs (discreetly addr) m Q) (at level 30, m at level 99, Q at level 0, only parsing).

Lemma do_discreet e (Q : SmtpAnswer → Prop) : discreet addr e → (∀ a, Q a) → ⟨smtp_do e⟩ Q.
Proof. intros He HQ w. split; [|apply HQ]. exists [e]. split; [done|]. split; [simpl; lia|]. by constructor. Qed.

Lemma line_discreet c code line :
  discreet addr (mkSmtpEvent (cl_tls c) (SmtpLine line)) → ⟨client_cmd c code line⟩ (λ _, True).
Proof. intros H. apply runs_fmap. by apply do_discreet. Qed.

Ltac r_line := eapply (runs_bind _ _ _ (λ _, True)); [apply line_discreet|].

(** A client whose session is encrypted or not yet, as before. *)
Definition same_session (c : smtpClient) (rc : result unit * smtpClient) : Prop :=
  cl_tls rc.2 = cl_tls c ∧ cl_serverName rc.2 = cl_serverName c ∧
  (rc.1 = Ok tt → cl_didHello rc.2 = true ∧ cl_helloError rc.2 = None).

Lemma ehlo_discreet c : ⟨client_ehlo c⟩ (λ rc, cl_tls rc.2 = cl_tls c ∧ cl_serverName rc.2 = cl_serverName c ∧
  cl_didHello rc.2 = cl_didHello c ∧ cl_helloError rc.2 = cl_helloError c).
Proof.
  r_line; [right; set_solver|].
  intros [[code msg]|err] _; by (r_ret).
Qed.

Lemma helo_discreet c : ⟨client_helo c⟩ (λ rc, cl_tls rc.2 = cl_tls c ∧ cl_serverName rc.2 = cl_serverName c ∧
  cl_didHello rc.2 = cl_didHello c ∧ cl_helloError rc.2 = cl_helloError c).
Proof.
  r_line; [right; set_solver|].
  intros [[code msg]|err] _; by (r_ret).
Qed.

Lemma hello_discreet c : ⟨client_hello c⟩ (same_session c).
Proof.
  unfold client_hello. destruct (cl_didHello c) eqn:Hd.
  - r_ret. split_and!; [done..|]. simpl. destruct (cl_helloError c); [done|by intros _].
  - r_call (ehlo_discreet (set_hello None c)). intros [[[]|err] c1] (H1 & H2 & H3 & H4).
    + by (r_ret).
    + r_call (helo_discreet c1). intros [[[]|err'] c2] (H5 & H6 & H7 & H8); r_ret;
        split_and!; simpl in *; try congruence. by rewrite H7, H8.
Qed.

Lemma Quit_discreet c : cl_tls c = true → ⟨client_Quit c⟩ (λ rc, cl_tls rc.2 = true).
Proof.
  intros Ht. r_call (hello_discreet c). intros [[[]|err] c1] (H1 & _); [|r_ret; simpl in *; congruence].
  r_line; [left; simpl in *; congruence|].
  intros r _. r_ret. simpl in *; congruence.
Qed.

(** After [Auth] the session is the one before, if it succeeded. *)
Lemma Auth_discreet c a : cl_tls c = true → ⟨client_Auth c a⟩ (λ rc, rc.1 = Ok tt →
  cl_tls rc.2 = true ∧ cl_didHello rc.2 = true ∧ cl_helloError rc.2 = None).
Proof.
  intros Ht. r_call (hello_discreet c). intros [[[]|err] c1] (H1 & _ & H3); [|by (r_ret)].
  simpl in *. rewrite Ht in H1. destruct (plainAuth_Start a c1) as [[mech resp]|err].
  - r_line; [by left|]. intros [[code msg]|err] _; [|by (r_ret)].
    destruct (auth_result code msg) as [[]|err]; [r_ret; intros _; split; [done|auto]|].
    r_line; [by left|]. intros _ _.
    r_call (Quit_discreet c1 H1). intros [r c2] _. by (r_ret).
  - r_call (Quit_discreet c1 H1). intros [r c2] _. by (r_ret).
Qed.

Lemma StartTLS_discreet c : ⟨client_StartTLS c⟩ (λ rc, rc.1 = Ok tt → cl_tls rc.2 = true).
Proof.
  r_call (hello_discreet c). intros [[[]|err] c1] (H1 & H2 & H3); [|by (r_ret)].
  r_line; [right; set_solver|].
  intros [[code msg]|err] _; [|by (r_ret)].
  eapply runs_weaken; [apply ehlo_discreet|]. by intros [r c2] (H & _).
Qed.

Lemma encrypted_discreet c a : cl_tls c = true → ⟨smtp_act c a⟩ (λ _, True).
Proof. intros Ht. apply do_discreet; [by left|done]. Qed.

Lemma Mail_discreet c from : cl_tls c = true → ⟨client_Mail c from⟩ (λ rc, cl_tls rc.2 = true).
Proof.
  intros Ht. unfold client_Mail. destruct (validateLine from); [|by r_ret].
  r_call (hello_discreet c). intros [[[]|err] c1] (H1 & _); [|r_ret; simpl in *; congruence].
  simpl in H1. r_line; [left; simpl; congruence|]. intros r _. r_ret. simpl. congruence.
Qed.

Lemma recipients_discreet c raws : cl_tls c = true → ⟨send_recipients c raws⟩ (λ _, True).
Proof.
  intros Ht. induction raws as [|raw raws IH]; cbn [send_recipients]; [by r_ret|].
  destruct (parseAddressField "recipient" raw) as [rcpt|err]; [|by r_ret].
  apply (runs_try _ _ _ (λ _, True)); [|done..]. apply runs_fmap. unfold client_Rcpt.
  destruct (validateLine _); [|by r_ret]. r_line; [by left|]. intros r _. by r_ret.
Qed.

Lemma Data_discreet c : cl_tls c = true → ⟨client_Data c⟩ (λ _, True).
Proof. intros Ht. unfold client_Data. r_line; [by left|]. intros r _. by r_ret. Qed.

Lemma Write_discreet c m : cl_tls c = true → ⟨data_Write c m⟩ (λ _, True).
Proof. intros Ht. unfold data_Write. r_call (encrypted_discreet c (SmtpWrite m) Ht). intros r _. by r_ret. Qed.

Lemma Close_discreet c : cl_tls c = true → ⟨data_Close c⟩ (λ _, True).
Proof. intros Ht. unfold data_Close. r_call (encrypted_discreet c SmtpDot Ht). intros r _. by r_ret. Qed.

Lemma deliver_discreet c cfg message : cl_tls c = true → ⟨deliverMessage c cfg message⟩ (λ _, True).
Proof.
  intros Ht. unfold deliverMessage. destruct (parseAddressField "from" _) as [from|err]; [|by r_ret].
  r_call (Mail_discreet c (addr_Address from) Ht). intros [[[]|err] c1] H1; [|by r_ret]. simpl in H1.
  apply (runs_try _ _ _ (λ _, True)); [by apply recipients_discreet| |done]. intros _ _.
  apply (runs_try _ _ _ (λ _, True)); [by apply runs_fmap, Data_discreet| |done]. intros _ _.
  r_call (Write_discreet c1 message H1). intros [[]|err] _.
  - apply (runs_try _ _ _ (λ _, True)); [by apply runs_fmap, Close_discreet| |done]. intros _ _.
    r_call (Quit_discreet c1 H1). intros rc _. by r_ret.
  - r_call (Close_discreet c1 H1). intros r _. by r_ret.
Qed.
End plaintext.

Section send.
Context `{E : Env} {ML : Mail}.

Definition server_addr (cfg : emailConfig) : string := JoinHostPort (ec_Host cfg) (pretty (ec_Port cfg)).

Notation "'⟨' m '⟩' cfg Q" := (runs (discreetly (server_addr cfg)) m Q)
  (at level 30, m at level 99, cfg at level 0, Q at level 0, only parsing).

Lemma dial_discreet cfg :
  ⟨dialWithContext (server_addr cfg) (ec_Port cfg)⟩ cfg (λ r, ∀ tls, r = Ok tls → tls = (ec_Port cfg =? implicitTLSPort)%Z).
Proof.
  eapply (runs_bind _ _ _ (λ _, True)); [apply do_discreet; [right; set_solver|done]|].
  intros [code msg|msg] _; r_ret; [by intros tls [= <-]|done].
Qed.

Lemma NewClient_discreet cfg tls :
  ⟨on_err (errorf_w "smtp handshake") (smtp_NewClient tls (ec_Host cfg))⟩ cfg (λ r, ∀ c, r = Ok c → cl_tls c = tls).
Proof.
  apply runs_fmap. eapply (runs_bind _ _ _ (λ _, True)); [apply runs_fmap, do_discreet; [right; set_solver|done]|].
  intros [[code msg]|err] _; r_ret; [by intros c [= <-]|done].
Qed.

(** [sendViaSMTP] between the handshake and the password. *)
Definition secure (cfg : emailConfig) (c : smtpClient) : M (result unit * smtpClient) :=
  if negb (ec_Port cfg =? implicitTLSPort)%Z then
    '(ok, c) ← client_Extension c "STARTTLS";
    if negb ok then mret (Err no_starttls, c)
    else '(r, c) ← client_StartTLS c; mret (map_err (errorf_w "starttls") r, c)
  else mret (Ok tt, c).

Lemma secure_discreet cfg c : cl_tls c = (ec_Port cfg =? implicitTLSPort)%Z →
  ⟨secure cfg c⟩ cfg (λ rc, rc.1 = Ok tt → cl_tls rc.2 = true).
Proof.
  intros Hc. unfold secure. destruct (ec_Port cfg =? implicitTLSPort)%Z; cbn [negb]; [by r_ret|].
  eapply (runs_bind _ _ _ (λ _, True)).
  { unfold client_Extension. r_call (hello_discreet (server_addr cfg) c). intros [r c1] _. by r_ret. }
  intros [[] c1] _; cbn [negb]; [|by r_ret].
  r_call (StartTLS_discreet (server_addr cfg) c1). intros [[[]|err] c2] H; r_ret; [exact H|done].
Qed.

(** A delivery starts on an encrypted connection, after the greeting. *)
Definition delivers (cfg : emailConfig) (message : string) (w0 : World) (out : result unit * World) : Prop :=
  ∃ c w1, cl_tls c = true ∧ cl_didHello c = true ∧ cl_helloError c = None ∧ spoke w0 w1 ∧
    out = deliverMessage c cfg message w1.

Lemma sendViaSMTP_discreet cfg message w :
  discreetly (server_addr cfg) w (sendViaSMTP cfg message w).2 ∧
  ((sendViaSMTP cfg message w).1 = Ok tt → delivers cfg message w (sendViaSMTP cfg message w)).
Proof.
  unfold sendViaSMTP. fold (server_addr cfg). cbv zeta. rewrite try_bind_run.
  destruct (dial_discreet cfg w) as [R1 H1]. destruct (dialWithContext _ _ w) as [[tls|e] w1]; cbn [fst snd] in *; [|done].
  specialize (H1 tls eq_refl). rewrite try_bind_run.
  destruct (NewClient_discreet cfg tls w1) as [R2 H2].
  destruct (on_err _ (smtp_NewClient tls _) w1) as [[c|e] w2]; cbn [fst snd] in *; [|split; [by etrans|done]].
  specialize (H2 c eq_refl). rewrite ST_bind_run. fold (secure cfg c).
  destruct (secure_discreet cfg c ltac:(congruence) w2) as [R3 H3].
  destruct (secure cfg c w2) as [[[[]|e] c1] w3]; cbn [fst snd] in *; [|split; [by do 2 (etrans; [done|])|done]].
  specialize (H3 eq_refl). rewrite ST_bind_run.
  destruct (Auth_discreet (server_addr cfg) c1 (mkPlainAuth (ec_Username cfg) (ec_Password cfg) (ec_Host cfg)) H3 w3) as [R4 H4].
  destruct (client_Auth c1 _ w3) as [[[[]|e] c2] w4]; cbn [fst snd] in *; [|split; [by do 3 (etrans; [done|])|done]].
  destruct (H4 eq_refl) as (H5 & H6 & H7). assert (discreetly (server_addr cfg) w w4) as R by by do 3 (etrans; [done|]).
  split; [etrans; [exact R|]; by apply deliver_discreet|]. intros _. exists c2, w4. split_and!; [done..| |done].
  by eapply discreetly_spoke.
Qed.
End send.

(** ** The envelope *)

(** Acts with the reply each needs, and the first answer that is not it. *)
Definition envelope (mail : string) (rcpts : list string) (message : string) : list (SmtpAct * Z) :=
  [(SmtpLine mail, 250%Z)] ++ map (λ a, (SmtpLine (rcpt_line a), 25%Z)) rcpts ++
  [(SmtpLine "DATA", 354%Z); (SmtpWrite message, 0%Z); (SmtpDot, 250%Z)].

Fixpoint refusal `{E : Env} (tls : bool) (acts : list (SmtpAct * Z)) (tick : nat) : option SmtpAnswer :=
  match acts with
  | [] => None
  | (a, code) :: acts' =>
      let ans := env_smtp tick (mkSmtpEvent tls a) in
      if is_Ok (ReadResponse code ans) then refusal tls acts' (S tick) else Some ans
  end.

(** What [errors.As] finds of an answer that is an error. *)
Definition answer_chain (ans : SmtpAnswer) : list sentinel :=
  match ans with Reply code _ => [textproto_Error code] | Broken _ => [] end.

Section script.
Context `{E : Env} {ML : Mail}.

Lemma refusal_app tls a b t :
  refusal tls (a ++ b) t = match refusal tls a t with Some x => Some x | None => refusal tls b (t + length a) end.
Proof.
  revert t. induction a as [|[x code] a IH]; intros t; [simpl; by rewrite Nat.add_0_r|].
  simpl. destruct (is_Ok _); [|done]. rewrite IH. by replace (S t + length a)%nat with (t + S (length a))%nat by lia.
Qed.

Lemma ReadResponse_chain code ans err : ReadResponse code ans = Err err → err_chain err = answer_chain ans.
Proof. destruct ans as [c m|m]; simpl; [destruct (code_expected code c)|]; naive_solver. Qed.

(** A computation that carries out the acts in order, up to the first refusal. *)
Definition carries_out (tls : bool) (acts : list (SmtpAct * Z)) (m : M (result unit)) : Prop := ∀ w,
  match refusal tls acts (w_tick w) with
  | None => (m w).1 = Ok tt ∧ w_smtp (m w).2 = w_smtp w ++ map (λ a, mkSmtpEvent tls a.1) acts ∧
            w_tick (m w).2 = (w_tick w + length acts)%nat
  | Some ans => ∃ err, (m w).1 = Err err ∧ err_chain err = answer_chain ans
  end.

Lemma carries_line c code line :
  carries_out (cl_tls c) [(SmtpLine line, code)]
    (r ← client_cmd c code line; mret match r with Err err => Err err | Ok _ => Ok tt end).
Proof.
  intros w. rewrite ST_bind_run. cbn [refusal map length]. unfold client_cmd, smtp_act, smtp_do, fmap, ST_fmap.
  cbn [fst snd]. destruct (ReadResponse code _) as [[]|err] eqn:Hr; cbn [is_Ok].
  - split_and!; [done|done|simpl; lia].
  - exists err. split; [done|]. by eapply ReadResponse_chain.
Qed.

Lemma carries_wrap tls acts f m :
  (∀ e, err_chain (f e) = err_chain e) → carries_out tls acts m → carries_out tls acts (on_err f m).
Proof.
  intros Hf Hm w. specialize (Hm w). rewrite on_err_run. destruct (refusal tls acts (w_tick w)).
  - destruct Hm as (err & He & Hc). rewrite He. simpl. exists (f err). split; [done|]. by rewrite Hf.
  - destruct Hm as (Hr & Hs & Ht). by rewrite Hr.
Qed.

Lemma carries_seq tls a b m (k : unit → M (result unit)) :
  carries_out tls a m → carries_out tls b (k tt) → carries_out tls (a ++ b) (try_bind m k).
Proof.
  intros Hm Hk w. specialize (Hm w). rewrite refusal_app, try_bind_run. destruct (refusal tls a (w_tick w)).
  - destruct Hm as (err & -> & Hc). by exists err.
  - destruct Hm as (-> & Hs & Ht). specialize (Hk (m w).2). rewrite Ht in Hk.
    destruct (refusal tls b _); [done|]. destruct Hk as (H1 & H2 & H3).
    rewrite H2, Hs, map_app, app_assoc, length_app. split_and!; [done|done|]. rewrite H3. lia.
Qed.

(** A client whose greeting is done. *)
Definition greeted (c : smtpClient) : Prop := cl_didHello c = true ∧ cl_helloError c = None.

Lemma hello_done c w : greeted c → client_hello c w = ((Ok tt, c), w).
Proof. intros [H1 H2]. unfold client_hello. by rewrite H1, H2. Qed.

Lemma Mail_run c from w : greeted c → one_line from = true →
  client_Mail c from w =
  ((match ReadResponse 250 (env_smtp (w_tick w) (mkSmtpEvent (cl_tls c) (SmtpLine (mail_line c from)))) with
    | Err err => Err err | Ok _ => Ok tt end, c),
   add_smtp (mkSmtpEvent (cl_tls c) (SmtpLine (mail_line c from))) (next_tick w)).
Proof. intros Hc Hl. unfold client_Mail, validateLine. rewrite Hl, ST_bind_run, hello_done by done. done. Qed.

Lemma recipients_carry c raws rcpts :
  parseAddressList "recipient" raws = Ok rcpts → Forall (λ a, one_line (addr_Address a) = true) rcpts →
  carries_out (cl_tls c) (map (λ a, (SmtpLine (rcpt_line a), 25%Z)) (map addr_Address rcpts)) (send_recipients c raws).
Proof.
  revert rcpts. induction raws as [|raw raws IH]; intros rcpts Hp Hl; cbn [parseAddressList send_recipients] in *.
  - injection Hp as <-. intros w. simpl. by rewrite app_nil_r, Nat.add_0_r.
  - destruct (parseAddressField "recipient" raw) as [a|]; [|done]. simpl in Hp.
    destruct (parseAddressList "recipient" raws) as [l|] eqn:Hraws; [|done]. injection Hp as <-.
    apply Forall_cons in Hl as [Ha Hl]. specialize (IH l eq_refl Hl).
    apply (carries_seq _ [(SmtpLine (rcpt_line (addr_Address a)), 25%Z)] _ _ _); [|exact IH].
    apply carries_wrap; [done|]. unfold client_Rcpt, validateLine. rewrite Ha. apply carries_line.
Qed.

Lemma data_Write_run c message w :
  data_Write c message w =
  (match env_smtp (w_tick w) (mkSmtpEvent (cl_tls c) (SmtpWrite message)) with
   | Broken msg => Err (errors_New msg) | Reply _ _ => Ok tt end,
   add_smtp (mkSmtpEvent (cl_tls c) (SmtpWrite message)) (next_tick w)).
Proof. done. Qed.

Lemma data_Close_run c w :
  data_Close c w =
  (match ReadResponse 250 (env_smtp (w_tick w) (mkSmtpEvent (cl_tls c) SmtpDot)) with Err err => Err err | Ok _ => Ok tt end,
   add_smtp (mkSmtpEvent (cl_tls c) SmtpDot) (next_tick w)).
Proof. done. Qed.

Lemma write_close_carries c message :
  carries_out (cl_tls c) [(SmtpWrite message, 0%Z); (SmtpDot, 250%Z)]
    (r ← data_Write c message;
     match r with
     | Err err => _ ← data_Close c; mret (Err (errorf_w "write message" err))
     | Ok _ => on_err (errorf_w "close data") (data_Close c)
     end).
Proof.
  intros w. rewrite ST_bind_run, data_Write_run. cbn [refusal fst snd map length].
  destruct (env_smtp (w_tick w) _) as [code msg|msg]; cbn [ReadResponse].
  - change (code_expected 0 code) with true. cbn [is_Ok]. rewrite on_err_run, data_Close_run. cbn [fst snd].
    change (w_tick (add_smtp _ (next_tick w))) with (S (w_tick w)).
    destruct (ReadResponse 250 _) as [[]|err] eqn:Hr; cbn [is_Ok map_err].
    + split; [done|]. split; [simpl; by rewrite <- app_assoc|simpl; lia].
    + eexists. split; [done|]. exact (ReadResponse_chain _ _ _ Hr).
  - cbn [is_Ok]. eexists. split; [by rewrite ST_bind_run|done].
Qed.

(** [deliverMessage] after MAIL: the envelope's rest, and QUIT. *)
Definition transfer (c : smtpClient) (cfg : emailConfig) (message : string) : M (result unit) :=
  _ ←? send_recipients c (ec_To cfg ++ ec_CC cfg);
  _ ←? on_err (errorf_w "data") (client_Data c);
  r ← data_Write c message;
  match r with
  | Err err => _ ← data_Close c; mret (Err (errorf_w "write message" err))
  | Ok _ => on_err (errorf_w "close data") (data_Close c)
  end.

Lemma deliver_transfer c cfg message from w :
  greeted c → parseAddressField "from" (ec_From cfg) = Ok from → one_line (addr_Address from) = true →
  let mail := mkSmtpEvent (cl_tls c) (SmtpLine (mail_line c (addr_Address from))) in
  deliverMessage c cfg message w =
  match ReadResponse 250 (env_smtp (w_tick w) mail) with
  | Ok _ => try_bind (transfer c cfg message) (λ _, _ ← client_Quit c; mret (Ok tt)) (add_smtp mail (next_tick w))
  | Err err => (Err (errorf_w "mail from" err), add_smtp mail (next_tick w))
  end.
Proof.
  intros Hc Hf Hl mail. unfold deliverMessage. rewrite Hf, ST_bind_run, Mail_run by done. cbn [fst snd]. fold mail.
  destruct (ReadResponse 250 _) as [[]|err]; [|done]. generalize (add_smtp mail (next_tick w)). intros v. unfold transfer.
  rewrite !try_bind_run. destruct (send_recipients c _ v) as [[[]|e] v1]; cbn [fst snd]; [|done].
  destruct (on_err _ (client_Data c) v1) as [[[]|e] v2]; cbn [fst snd]; [|done].
  rewrite !ST_bind_run. destruct (data_Write c message v2) as [[[]|e] v3]; cbn [fst snd]; [|by rewrite ST_bind_run].
  rewrite try_bind_run. destruct (on_err _ (data_Close c) v3) as [[[]|e] v4]; cbn [fst snd]; [by rewrite ST_bind_run|done].
Qed.

Lemma transfer_carries c cfg message rcpts :
  parseAddressList "recipient" (ec_To cfg ++ ec_CC cfg) = Ok rcpts →
  Forall (λ a, one_line (addr_Address a) = true) rcpts →
  carries_out (cl_tls c) (map (λ a, (SmtpLine (rcpt_line a), 25%Z)) (map addr_Address rcpts) ++
    [(SmtpLine "DATA", 354%Z); (SmtpWrite message, 0%Z); (SmtpDot, 250%Z)]) (transfer c cfg message).
Proof.
  intros Hr Hl. apply carries_seq; [by apply recipients_carry|].
  apply (carries_seq _ [(SmtpLine "DATA", 354%Z)] [(SmtpWrite message, 0%Z); (SmtpDot, 250%Z)]);
    [apply carries_wrap; [done|apply carries_line]|apply write_close_carries].
Qed.

(** Delivering is carrying out the envelope, then QUIT whatever it answers. *)
Lemma deliver_carries c cfg message from rcpts w :
  greeted c → parseAddressField "from" (ec_From cfg) = Ok from → one_line (addr_Address from) = true →
  parseAddressList "recipient" (ec_To cfg ++ ec_CC cfg) = Ok rcpts →
  Forall (λ a, one_line (addr_Address a) = true) rcpts →
  let acts := envelope (mail_line c (addr_Address from)) (map addr_Address rcpts) message in
  match refusal (cl_tls c) acts (w_tick w) with
  | None => (deliverMessage c cfg message w).1 = Ok tt ∧
            w_smtp (deliverMessage c cfg message w).2 =
              w_smtp w ++ map (λ a, mkSmtpEvent (cl_tls c) a.1) acts ++ [mkSmtpEvent (cl_tls c) (SmtpLine "QUIT")] ∧
            w_tick (deliverMessage c cfg message w).2 = S (w_tick w + length acts)
  | Some ans => ∃ err, (deliverMessage c cfg message w).1 = Err err ∧ err_chain err = answer_chain ans
  end.
Proof.
  intros Hc Hf Hlf Hr Hlr acts. rewrite (deliver_transfer c cfg message from w Hc Hf Hlf). cbv zeta.
  unfold acts, envelope. cbn [app refusal]. set (mail := mkSmtpEvent _ _).
  destruct (ReadResponse 250 _) as [[]|err] eqn:Hm; cbn [is_Ok];
    [|eexists; split; [done|]; exact (ReadResponse_chain _ _ _ Hm)].
  set (w1 := add_smtp mail (next_tick w)). change (S (w_tick w)) with (w_tick w1).
  pose proof (transfer_carries c cfg message rcpts Hr Hlr w1) as Ht. rewrite try_bind_run.
  destruct (refusal (cl_tls c) _ (w_tick w1)) as [ans|].
  - destruct Ht as (err & -> & Hch). by exists err.
  - destruct Ht as (-> & Hs & Htk). rewrite ST_bind_run. split; [done|].
    unfold client_Quit. rewrite ST_bind_run, hello_done by done.
    cbn [fst snd]. rewrite ST_bind_run. cbn [snd mret ST_ret]. simpl. rewrite Hs, Htk. simpl.
    split; [by rewrite <- !app_assoc|lia].
Qed.
End script.

(** ** Where errors come from *)

(** An answer the server gave to an act of the session that began at [w0]. *)
Definition heard `{E : Env} (w0 w : World) (a : SmtpAnswer) : Prop :=
  ∃ i ev, w_smtp w !! (length (w_smtp w0) + i) = Some ev ∧ env_smtp (w_tick w0 + i) ev = a.

(** An error of the session: without an SMTP code, or with that of a reply. *)
Definition origin `{E : Env} (w0 w : World) (e : error) : Prop :=
  err_chain e = [] ∨ ∃ code msg, heard w0 w (Reply code msg) ∧ err_chain e = [textproto_Error code].

Definition honest `{E : Env} {A} (w0 w : World) (r : result A) : Prop :=
  match r with Ok _ => True | Err e => origin w0 w e end.

(** A client that remembers no other error. *)
Definition honest_client `{E : Env} (w0 w : World) (c : smtpClient) : Prop :=
  match cl_helloError c with Some e => origin w0 w e | None => True end.
Definition honest_session `{E : Env} {A} (w0 w : World) (rc : result A * smtpClient) : Prop :=
  honest w0 w rc.1 ∧ honest_client w0 w rc.2.

Section origins.
Context `{E : Env} {ML : Mail} (w0 : World).

(** Inside the session, at [w]: the world moves on by SMTP acts, and the value
    has a property there. *)
Definition within {A} (w : World) (m : M A) (Q : World → A → Prop) : Prop :=
  spoke w0 w → spoke w (m w).2 ∧ Q (m w).2 (m w).1.

Lemma within_ret {A} w (a : A) (Q : World → A → Prop) : Q w a → within w (mret a) Q.
Proof. intros H _. split; [reflexivity|done]. Qed.

Lemma within_bind {A B} w (m : M A) (f : A → M B) (P : World → A → Prop) (Q : World → B → Prop) :
  within w m P → (∀ a w', spoke w w' → P w' a → within w' (f a) Q) → within w (m ≫= f) Q.
Proof.
  intros Hm Hf H0. destruct (Hm H0) as [H1 H2]. rewrite ST_bind_run.
  destruct (Hf _ _ H1 H2 (transitivity H0 H1)) as [H3 H4]. split; [by etrans|done].
Qed.

Lemma within_try {A B} w (m : M (result A)) (k : A → M (result B)) (P : World → result A → Prop)
    (Q : World → result B → Prop) :
  within w m P → (∀ a w', spoke w w' → P w' (Ok a) → within w' (k a) Q) → (∀ w' e, P w' (Err e) → Q w' (Err e)) →
  within w (try_bind m k) Q.
Proof.
  intros Hm Hk He. apply (within_bind w m _ P); [done|]. intros [a|e] w' Hw HP; [by apply Hk|].
  apply within_ret. by apply He.
Qed.

Lemma within_fmap {A B} w (g : A → B) (m : M A) (Q : World → B → Prop) :
  within w m (λ w' a, Q w' (g a)) → within w (g <$> m) Q.
Proof. intros Hm H0. specialize (Hm H0). unfold fmap, ST_fmap. by destruct (m w). Qed.

(** What was heard stays heard. *)
Lemma heard_mono w w' a : spoke w w' → heard w0 w a → heard w0 w' a.
Proof.
  intros (evs & Hs & _) (i & ev & Hl & Ha). exists i, ev. split; [|done]. rewrite Hs. by apply lookup_app_l_Some.
Qed.

Lemma origin_mono w w' e : spoke w w' → origin w0 w e → origin w0 w' e.
Proof.
  intros Hw [H|(code & msg & Hh & Hc)]; [by left|]. right. exists code, msg. split; [by eapply heard_mono|done].
Qed.

Lemma honest_client_mono w w' c : spoke w w' → honest_client w0 w c → honest_client w0 w' c.
Proof. unfold honest_client. intros Hw. destruct (cl_helloError c); [by apply origin_mono|done]. Qed.

Lemma do_heard w e : within w (smtp_do e) (λ w' a, heard w0 w' a).
Proof.
  intros (evs & Hs & Ht). split; [apply do_spoke|]. exists (length evs), e. simpl. rewrite <- Ht, Hs, <- length_app.
  split; [|done]. by apply list_lookup_middle.
Qed.

(** A reply read with the code it needs. *)
Definition reply_or_origin (w : World) (r : result (Z * string)) : Prop :=
  match r with Ok (n, m) => heard w0 w (Reply n m) | Err e => origin w0 w e end.

Lemma act_origin w c a code : within w (ReadResponse code <$> smtp_act c a) reply_or_origin.
Proof.
  apply within_fmap. intros H0. destruct (do_heard w (mkSmtpEvent (cl_tls c) a) H0) as [H1 H2]. split; [done|].
  fold (smtp_act c a) in H2. destruct (smtp_act c a w).1 as [n m|m]; simpl; [|by left].
  destruct (code_expected code n); simpl; [done|]. right. by exists n, m.
Qed.

(** A command, and what is done with its reply. *)
Lemma line_origin {A} w c code line (k : result (Z * string) → M A) (Q : World → A → Prop) :
  (∀ r w', spoke w w' → reply_or_origin w' r → within w' (k r) Q) → within w (client_cmd c code line ≫= k) Q.
Proof. intros Hk. eapply within_bind; [apply act_origin|exact Hk]. Qed.

Ltac w_ret := apply within_ret.
Ltac w_call L := eapply within_bind; [apply L|].

Lemma hello_origin w c : honest_client w0 w c → within w (client_hello c) (honest_session w0).
Proof.
  intros Hc. unfold client_hello. destruct (cl_didHello c).
  - w_ret. split; [|done]. unfold honest_client in Hc. simpl. by destruct (cl_helloError c).
  - eapply (within_bind _ _ _ (λ w rc, honest w0 w rc.1 ∧ cl_helloError rc.2 = None)).
    { apply line_origin. intros [[n m]|e] w1 _ H; by w_ret. }
    intros [[[]|e] c1] w1 _ [H1 H2]; simpl in *.
    + w_ret. split; [done|]. unfold honest_client. simpl. by rewrite H2.
    + eapply (within_bind _ _ _ (λ w rc, honest w0 w rc.1 ∧ cl_helloError rc.2 = None)).
      { apply line_origin. intros [[n m]|e'] w2 _ H; by w_ret. }
      intros [[[]|e'] c2] w2 _ [H3 H4]; simpl in *; w_ret; (split; [done|]); unfold honest_client; simpl; [by rewrite H4|done].
Qed.

(** An operation that greets first. *)
Lemma after_hello {A} w c (k : result unit * smtpClient → M A) (Q : World → A → Prop) :
  honest_client w0 w c →
  (∀ e c1 w1, spoke w w1 → origin w0 w1 e → honest_client w0 w1 c1 → within w1 (k (Err e, c1)) Q) →
  (∀ c1 w1, spoke w w1 → honest_client w0 w1 c1 → within w1 (k (Ok tt, c1)) Q) →
  within w (client_hello c ≫= k) Q.
Proof.
  intros Hc He Hk. w_call (hello_origin w c Hc). intros [[[]|e] c1] w1 Hw [H1 H2]; [by apply Hk|by apply He].
Qed.

Lemma Quit_origin w c : honest_client w0 w c → within w (client_Quit c) (honest_session w0).
Proof.
  intros Hc. apply after_hello; [done|intros; by w_ret|]. intros c1 w1 _ H2.
  apply line_origin. intros [[n m]|e] w2 Hw H; w_ret; (split; [done|]); by eapply honest_client_mono.
Qed.

Lemma auth_result_origin w n m e : heard w0 w (Reply n m) → auth_result n m = Err e → origin w0 w e.
Proof.
  intros Hh. unfold auth_result. destruct (n =? 334)%Z; [intros [= <-]; by left|].
  destruct (n =? 235)%Z; [done|]. intros [= <-]. right. by exists n, m.
Qed.

Lemma plainAuth_origin w a c e : plainAuth_Start a c = Err e → origin w0 w e.
Proof.
  unfold plainAuth_Start. destruct (negb _ && _); [intros [= <-]; by left|].
  destruct (negb _); [intros [= <-]; by left|done].
Qed.

(** Ending the session over an error keeps the error. *)
Lemma quit_over w c e : honest_client w0 w c → origin w0 w e →
  within w ('(_, c) ← client_Quit c; mret (Err e : result unit, c)) (honest_session w0).
Proof.
  intros Hc He. w_call (Quit_origin w c Hc). intros [r c1] w1 Hw [_ H]. w_ret. split; [|done]. by eapply origin_mono.
Qed.

Lemma Auth_origin w c a : honest_client w0 w c → within w (client_Auth c a) (honest_session w0).
Proof.
  intros Hc. apply after_hello; [done|intros; by w_ret|]. intros c1 w1 _ H2.
  destruct (plainAuth_Start a c1) as [[mech resp]|e] eqn:Hs; [|apply quit_over; [done|by eapply plainAuth_origin]].
  apply line_origin. intros [[n m]|e] w2 Hw H; apply (honest_client_mono _ _ _ Hw) in H2; [|by w_ret].
  destruct (auth_result n m) as [[]|e] eqn:Ha; [by w_ret|]. apply (auth_result_origin _ _ _ _ H) in Ha.
  apply line_origin. intros r w3 Hw3 _. apply quit_over; [by eapply honest_client_mono|by eapply origin_mono].
Qed.

Lemma StartTLS_origin w c : honest_client w0 w c → within w (client_StartTLS c) (honest_session w0).
Proof.
  intros Hc. apply after_hello; [done|intros; by w_ret|]. intros c1 w1 _ H2.
  apply line_origin. intros [[n m]|e] w2 Hw H; apply (honest_client_mono _ _ _ Hw) in H2; [|by w_ret].
  apply line_origin. intros [[n' m']|e] w3 Hw3 H'; apply (honest_client_mono _ _ _ Hw3) in H2; by w_ret.
Qed.

(** Addresses: an error of the session, or an address that does not parse. *)
Definition address_or_origin {A} (cfg : emailConfig) (w : World) (r : result A) : Prop :=
  match r with
  | Ok _ => True
  | Err e => origin w0 w e ∨ (err_chain e = [permanentEmailError] ∧
      ∃ raw, raw ∈ ec_From cfg :: ec_To cfg ++ ec_CC cfg ∧ is_Ok (mail_ParseAddress raw) = false)
  end.

Lemma honest_address {A B} cfg w (e : error) : honest w0 w (Err e : result A) → address_or_origin cfg w (Err e : result B).
Proof. by left. Qed.

Lemma address_field_Err fld raw e : parseAddressField fld raw = Err e →
  err_chain e = [permanentEmailError] ∧ is_Ok (mail_ParseAddress raw) = false.
Proof. unfold parseAddressField. destruct (mail_ParseAddress raw); [done|]. by intros [= <-]. Qed.

Lemma wrap_origin {A} w (f : error → error) (m : M (result A)) :
  (∀ e, err_chain (f e) = err_chain e) → within w m (honest w0) → within w (on_err f m) (honest w0).
Proof.
  intros Hf Hm. apply within_fmap. intros H0. destruct (Hm H0) as [H1 H2]. split; [done|].
  destruct (m w).1; [done|]. unfold honest, map_err, origin in *. by rewrite Hf.
Qed.

(** A command of which only the error matters. *)
Lemma cmd_origin w c code line :
  within w (r ← client_cmd c code line; mret match r with Err err => Err err | Ok _ => Ok tt end) (honest w0).
Proof. apply line_origin. intros [[n m]|e] w1 _ H; by w_ret. Qed.

Lemma recipients_origin w cfg c raws :
  raws ⊆ ec_To cfg ++ ec_CC cfg → within w (send_recipients c raws) (address_or_origin cfg).
Proof.
  revert w. induction raws as [|raw raws IH]; intros w Hs; cbn [send_recipients]; [by w_ret|].
  destruct (parseAddressField "recipient" raw) as [a|e] eqn:Hp.
  - apply (within_try _ _ _ (honest w0)); [| |by intros; eapply honest_address].
    + apply wrap_origin; [done|]. unfold client_Rcpt, validateLine. destruct (one_line _); [|w_ret; by left].
      apply cmd_origin.
    + intros _ w1 _ _. apply IH. set_solver.
  - w_ret. right. apply address_field_Err in Hp as [H1 H2]. split; [done|]. exists raw. split; [set_solver|done].
Qed.

Lemma Mail_origin w c from : honest_client w0 w c → within w (client_Mail c from) (honest_session w0).
Proof.
  intros Hc. unfold client_Mail, validateLine. destruct (one_line _); [|w_ret; split; [by left|done]].
  apply after_hello; [done|intros; by w_ret|]. intros c1 w1 _ H2.
  apply line_origin. intros [[n m]|e] w2 Hw H; w_ret; (split; [done|]); by eapply honest_client_mono.
Qed.

Lemma Close_origin w c : within w (data_Close c) (honest w0).
Proof.
  unfold data_Close. w_call (do_heard w (mkSmtpEvent (cl_tls c) SmtpDot)). intros [n m|m] w1 _ H; w_ret; simpl; [|by left].
  destruct (code_expected 250 n); [done|]. right. by exists n, m.
Qed.

Lemma Write_origin w c message : within w (data_Write c message) (honest w0).
Proof.
  unfold data_Write. w_call (do_heard w (mkSmtpEvent (cl_tls c) (SmtpWrite message))).
  intros [n m|m] w1 _ H; w_ret; [done|by left].
Qed.

Lemma deliver_origin w cfg c message :
  honest_client w0 w c → within w (deliverMessage c cfg message) (address_or_origin cfg).
Proof.
  intros Hc. unfold deliverMessage. destruct (parseAddressField "from" (ec_From cfg)) as [a|e] eqn:Hp.
  2:{ w_ret. right. apply address_field_Err in Hp as [H1 H2]. split; [done|]. exists (ec_From cfg). split; [set_solver|done]. }
  w_call (Mail_origin w c (addr_Address a) Hc). intros [[[]|e] c1] w1 _ [H1 H2]; simpl in *; [|w_ret; by left].
  eapply within_try; [by apply recipients_origin| |done]. intros _ w2 Hw2 _. apply (honest_client_mono _ _ _ Hw2) in H2.
  apply (within_try _ _ _ (honest w0)); [apply wrap_origin; [done|apply cmd_origin]| |by intros; eapply honest_address].
  intros _ w3 Hw3 _. apply (honest_client_mono _ _ _ Hw3) in H2.
  w_call (Write_origin w3 c1 message). intros [[]|e] w4 Hw4 H; apply (honest_client_mono _ _ _ Hw4) in H2.
  - apply (within_try _ _ _ (honest w0)); [apply wrap_origin; [done|apply Close_origin]| |by intros; eapply honest_address].
    intros _ w5 Hw5 _. apply (honest_client_mono _ _ _ Hw5) in H2. w_call (Quit_origin w5 c1 H2). intros rc w6 _ _. by w_ret.
  - w_call (Close_origin w4 c1). intros r w5 Hw5 _. w_ret. left. by eapply origin_mono.
Qed.

Lemma secure_origin w cfg c : honest_client w0 w c → within w (secure cfg c) (honest_session w0).
Proof.
  intros Hc. unfold secure. destruct (negb _); [|by w_ret].
  eapply (within_bind _ _ _ (λ w rc, honest_client w0 w rc.2)).
  { apply after_hello; [done|intros; by w_ret|]. intros c1 w1 _ H. w_ret. by destruct (cl_ext c1). }
  intros [[] c1] w1 _ H; cbn [negb]; [|w_ret; split; [by left|done]].
  w_call (StartTLS_origin w1 c1 H). intros [[[]|e] c2] w2 _ H2; by w_ret.
Qed.

Lemma sendViaSMTP_origin w cfg message : within w (sendViaSMTP cfg message) (address_or_origin cfg).
Proof.
  unfold sendViaSMTP. cbv zeta. apply (within_try _ _ _ (honest w0)); [| |by intros; eapply honest_address].
  { w_call do_heard. intros [n m|m] w1 _ _; w_ret; [done|by left]. }
  intros tls w1 _ _.
  apply (within_try _ _ _ (λ w r, match r with Ok c => honest_client w0 w c | Err e => origin w0 w e end));
    [| |by intros; left].
  { apply within_fmap. eapply within_bind; [apply act_origin|]. intros [[n m]|e] w2 _ H; by w_ret. }
  intros c w2 _ Hc. fold (secure cfg c). w_call (secure_origin w2 cfg c Hc).
  intros [[[]|e] c1] w3 _ [H1 H2]; [|w_ret; by left]. simpl in H2.
  w_call (Auth_origin w3 c1 (mkPlainAuth (ec_Username cfg) (ec_Password cfg) (ec_Host cfg)) H2).
  intros [[[]|e] c2] w4 _ [H3 H4]; [|w_ret; by left]. by apply deliver_origin.
Qed.
End origins.
