(* ===== verification/EmailProps.v ===== *)
(** * EmailProps: the properties of the SMTP backend *)
From Stdlib Require Import Ascii.
From S2P Require Import Prelude GoTime Utf8 Json Hex Domain World SampleEnv Samples Net Mime DotWriter Smtp Provider.
From S2P Require Import ChatProviders Email ProviderFacts SampleMail EmailFacts.

(** ** Texts of one line *)

Lemma hex_line s : one_line (hex_EncodeToString s) = true.
Proof.
  induction s as [|c s IH]; [done|]. cbn [hex_EncodeToString one_line]. rewrite IH.
  assert (∀ n, (n < 16)%N → bool_decide (hex_char n = CR ∨ hex_char n = LF) = false) as Hh.
  { intros n Hn. destruct n as [|p]; [done|]. do 4 (try destruct p as [p|p|]); try lia; done. }
  pose proof (hex_halves c) as [H1 H2]. by rewrite !Hh.
Qed.

Lemma hex_digits_line fuel n acc : one_line acc = true → one_line (hex_digits fuel n acc) = true.
Proof.
  revert n acc. induction fuel as [|fuel IH]; intros n acc Ha; [done|]. cbn [hex_digits].
  assert (one_line (String (hex_char (n mod 16)) acc) = true) as Hs.
  { cbn [one_line]. rewrite Ha, andb_true_r. pose proof (N.mod_lt n 16 ltac:(done)) as Hn.
    destruct (n mod 16)%N as [|p]; [done|]. do 4 (try destruct p as [p|p|]); try lia; done. }
  destruct (n <? 16)%N; [done|]. by apply IH.
Qed.

Lemma pad_line w n : (0 ≤ n < 10 ^ Z.of_nat w)%Z → one_line (pad w n) = true.
Proof.
  revert n. induction w as [|w IH]; intros n Hn; [done|]. rewrite pad_cons. cbn [one_line].
  rewrite pow10_succ in Hn. pose proof (Z.pow_pos_nonneg 10 (Z.of_nat w) ltac:(lia) ltac:(lia)) as Hp.
  rewrite IH by (apply Z.mod_pos_bound; lia). rewrite andb_true_r.
  assert (0 ≤ n / 10 ^ Z.of_nat w < 10)%Z as Hd by (Z.to_euclidean_division_equations; nia).
  revert Hd. generalize (n / 10 ^ Z.of_nat w)%Z. intros d Hd. unfold digit_char.
  destruct d as [|p|p]; [done| |lia]. do 4 (try destruct p as [p|p|]); try lia; done.
Qed.

Lemma clock_line t : one_line (clock_text (time_clock t)) = true.
Proof.
  pose proof (Z.mod_pos_bound t nsPerDay ltac:(done)) as Hck. fold (time_clock t) in Hck.
  destruct (clock_split _ Hck) as (Hh & Hmi & Hse & _ & _). unfold clock_text.
  by rewrite !one_line_app, !pad_line by (simpl; lia).
Qed.

Lemma name_line (l : list string) i : forallb one_line l = true → one_line (default "" (l !! i)) = true.
Proof.
  intros Hl. destruct (l !! i) as [x|] eqn:Hx; [|done]. apply list_elem_of_lookup_2 in Hx. simpl.
  rewrite forallb_forall in Hl. apply Hl. by apply list_elem_of_In.
Qed.

Lemma date_line offset t :
  (-86400 < offset < 86400)%Z → (0 ≤ time_Year (t + offset * Second) ≤ 9999)%Z → one_line (rfc1123z offset t) = true.
Proof.
  intros Ho Hy. unfold rfc1123z. cbv zeta. set (l := (t + offset * Second)%Z) in *.
  pose proof (time_Day_range l). rewrite !one_line_app, !name_line, !pad_line, clock_line by (done || simpl; lia).
  unfold zone_text. cbv zeta. rewrite !one_line_app, !pad_line; [by destruct (_ <? _)%Z|..];
    simpl; Z.to_euclidean_division_equations; lia.
Qed.

Lemma join_line (l : list string) sep :
  one_line sep = true → Forall (λ s, one_line s = true) l → one_line (String.concat sep l) = true.
Proof.
  intros Hs. induction 1 as [|x l Hx Hl IH]; [done|]. destruct l as [|y l]; [done|].
  change (String.concat sep (x :: y :: l)) with (x +:+ sep +:+ String.concat sep (y :: l)).
  by rewrite !one_line_app, Hx, Hs, IH.
Qed.

Lemma cut_line s sep b a : strings_Cut s sep = Some (b, a) → one_line s = true → one_line a = true.
Proof.
  revert b. induction s as [|c s IH]; intros b; simpl; [done|]. case_bool_decide.
  - intros [= _ <-]. by intros [_ H']%andb_true_iff.
  - destruct (strings_Cut s sep) as [[b' a']|]; [|done]. simpl. intros [= _ <-] [_ Hs]%andb_true_iff. by eapply IH.
Qed.

(** ** The header block *)

Section message.
Context `{E : Env} {ML : Mail}.

Definition render_fields (fields : list (string * string)) : string :=
  foldr (λ f s, header_line f.1 f.2 +:+ s) "" fields.

(** The local date has a year of four digits, in a zone within a day of UTC. *)
Definition local_clock_sane : Prop := ∀ n,
  (-86400 < local_offset (env_now n) < 86400)%Z ∧
  (0 ≤ time_Year (env_now n + local_offset (env_now n) * Second) ≤ 9999)%Z.

(** The fields of a message without a copy or reply address, and those. *)
Definition field_names (cfg : emailConfig) : list string :=
  ["From"; "To"] ++ (if bool_decide (ec_CC cfg = []) then [] else ["Cc"]) ++
  (if bool_decide (ec_ReplyTo cfg = "") then [] else ["Reply-To"]) ++ ["Subject"; "Date"; "Message-ID"; "MIME-Version"].

Lemma parse_field_Ok fld raw a : parseAddressField fld raw = Ok a → mail_ParseAddress raw = Ok a.
Proof. unfold parseAddressField. by destruct (mail_ParseAddress raw). Qed.

Lemma parse_list_Ok fld raws l : parseAddressList fld raws = Ok l → Forall2 (λ raw a, mail_ParseAddress raw = Ok a) raws l.
Proof.
  revert l. induction raws as [|raw raws IH]; intros l; cbn [parseAddressList]; [intros [= <-]; constructor|].
  destruct (parseAddressField fld raw) as [a|] eqn:Ha; [|done]. simpl.
  destruct (parseAddressList fld raws) as [l'|]; [|done]. intros [= <-]. constructor; [by eapply parse_field_Ok|auto].
Qed.

Lemma addresses_line {MLs : MailLaws ML} raws l :
  Forall2 (λ raw a, mail_ParseAddress raw = Ok a) raws l → one_line (joinAddresses l) = true.
Proof.
  intros H. apply join_line; [done|]. apply Forall_map. induction H as [|raw a raws l Ha _ IH]; [constructor|].
  constructor; [by eapply Address_String_line|done].
Qed.

Lemma randomHexID_line n w : one_line (randomHexID n w).1 = true.
Proof.
  unfold randomHexID. rewrite ST_bind_run. destruct (rand_Read n w).1; [apply hex_line|].
  rewrite ST_bind_run. cbn [fst mret ST_ret]. unfold format_x. rewrite one_line_app, hex_digits_line by done. by destruct (_ <? _)%Z.
Qed.

Lemma message_id_run from w :
  (generateMessageID from w).1 = "<" +:+ (randomHexID 16 w).1 +:+ "@" +:+ message_domain from +:+ ">".
Proof. unfold generateMessageID. by rewrite ST_bind_run. Qed.

Lemma message_id_line from w : one_line from = true → one_line (generateMessageID from w).1 = true.
Proof.
  intros Hf. rewrite message_id_run, !one_line_app, randomHexID_line. unfold message_domain.
  destruct (strings_Cut from "@") as [[b a]|] eqn:Hc; [|done]. case_bool_decide; [done|].
  by rewrite (cut_line _ _ _ _ Hc Hf).
Qed.

(** The fields of parsed addresses. *)
Definition fields_of (from : Address) (to cc : list Address) (replyTo : option Address) (subject : string) (now : Time)
    (id : string) : list (string * string) :=
  [("From", Address_String from); ("To", joinAddresses to)] ++
  (if bool_decide (cc = []) then [] else [("Cc", joinAddresses cc)]) ++
  match replyTo with Some a => [("Reply-To", Address_String a)] | None => [] end ++
  [("Subject", QEncoding_Encode subject); ("Date", rfc1123z (local_offset now) now); ("Message-ID", id); ("MIME-Version", "1.0")].

Lemma fields_render from to cc replyTo subject now id :
  header_line "From" (Address_String from) +:+ header_line "To" (joinAddresses to) +:+
  (if bool_decide (cc = []) then "" else header_line "Cc" (joinAddresses cc)) +:+
  match replyTo with Some a => header_line "Reply-To" (Address_String a) | None => "" end +:+
  header_line "Subject" (QEncoding_Encode subject) +:+ header_line "Date" (rfc1123z (local_offset now) now) +:+
  header_line "Message-ID" id +:+ header_line "MIME-Version" "1.0" =
  render_fields (fields_of from to cc replyTo subject now id).
Proof. unfold fields_of. by destruct (bool_decide (cc = [])), replyTo. Qed.

Lemma headers_run {MLs : MailLaws ML} cfg subject w h :
  one_line (ec_From cfg) = true → local_clock_sane → (buildEmailHeaders cfg subject w).1 = Ok h →
  ∃ fields, h = render_fields fields ∧ fields.*1 = field_names cfg ∧ Forall (λ f, one_line f.2 = true) fields.
Proof.
  intros Hf Hclock. unfold buildEmailHeaders. cbv zeta.
  destruct (parseAddressField "from" (ec_From cfg)) as [from|] eqn:H1; [|done]. cbn [rbind].
  destruct (parseAddressList "to" (ec_To cfg)) as [to|] eqn:H2; [|done]. cbn [rbind].
  destruct (parseAddressList "cc" (ec_CC cfg)) as [cc|] eqn:H3; [|done]. cbn [rbind].
  apply parse_field_Ok, Address_String_line in H1. apply parse_list_Ok in H2, H3.
  assert (bool_decide (cc = []) = bool_decide (ec_CC cfg = [])) as Hcc.
  { apply bool_decide_ext. pose proof (Forall2_length _ _ _ H3) as Hl. destruct cc, (ec_CC cfg); naive_solver. }
  apply addresses_line in H2, H3.
  destruct (if bool_decide (ec_ReplyTo cfg = "") then _ else _) as [replyTo|] eqn:H4; [|done]. cbn [rbind].
  assert (match replyTo with Some a => one_line (Address_String a) = true | None => True end ∧
    bool_decide (ec_ReplyTo cfg = "") = match replyTo with Some _ => false | None => true end) as [Hr Hn].
  { case_bool_decide; [by injection H4 as <-|]. destruct (parseAddressField "reply_to" _) as [a|] eqn:H5; [|done].
    injection H4 as <-. split; [by eapply Address_String_line, parse_field_Ok|done]. }
  rewrite !ST_bind_run. intros [= <-]. rewrite fields_render. eexists. split; [done|].
  unfold fields_of, field_names. rewrite <- Hcc, Hn.
  set (now := (time_Now w).1). set (id := (generateMessageID _ _).1).
  assert (one_line id = true) by (by apply message_id_line).
  assert (one_line (rfc1123z (local_offset now) now) = true) by (destruct (Hclock (w_tick w)); by apply date_line).
  pose proof (QEncoding_line subject).
  destruct (bool_decide (cc = [])), replyTo; (split; [done|]); repeat constructor; done.
Qed.
End message.

(** ** A message that was accepted *)

Section accepted.
Context `{E : Env} {ML : Mail}.

Lemma recipients_Ok c raws w : (send_recipients c raws w).1 = Ok tt →
  ∃ rcpts, parseAddressList "recipient" raws = Ok rcpts ∧ Forall (λ a, one_line (addr_Address a) = true) rcpts.
Proof.
  revert w. induction raws as [|raw raws IH]; intros w; cbn [send_recipients parseAddressList]; [by exists []|].
  destruct (parseAddressField "recipient" raw) as [a|]; [|done]. rewrite try_bind_run, on_err_run. cbn [fst snd rbind].
  unfold client_Rcpt, validateLine. destruct (one_line (addr_Address a)) eqn:Ha; [|done].
  destruct (map_err _ _) as [[]|]; [|done]. intros H. apply IH in H as (l & -> & Hl). exists (a :: l). split; [done|].
  by constructor.
Qed.

(** The parts of a delivery that ended well. *)
Lemma deliver_Ok c cfg message w : greeted c → (deliverMessage c cfg message w).1 = Ok tt →
  ∃ from rcpts, parseAddressField "from" (ec_From cfg) = Ok from ∧ one_line (addr_Address from) = true ∧
    parseAddressList "recipient" (ec_To cfg ++ ec_CC cfg) = Ok rcpts ∧ Forall (λ a, one_line (addr_Address a) = true) rcpts.
Proof.
  intros Hc. unfold deliverMessage. destruct (parseAddressField "from" _) as [from|] eqn:Hf; [|done]. rewrite ST_bind_run.
  destruct (one_line (addr_Address from)) eqn:Hl.
  2:{ unfold client_Mail, validateLine. by rewrite Hl. }
  destruct (client_Mail c (addr_Address from) w) as [[[[]|e] c1] w1] eqn:Hm; cbn [fst snd]; [|done].
  rewrite try_bind_run. destruct (send_recipients c1 _ w1).1 as [[]|] eqn:Hs; [|done]. intros _.
  apply recipients_Ok in Hs as (rcpts & H1 & H2). by exists from, rcpts.
Qed.

End accepted.

(** ** A validated configuration has addresses *)

Section validated.
Context `{E : Env} {ML : Mail}.

Lemma validateAddressList_Ok fld l : validateAddressList fld l = Ok tt → ∀ raw, raw ∈ l → is_Ok (mail_ParseAddress raw) = true.
Proof.
  induction l as [|x l IH]; intros Hv raw Hr; [by apply elem_of_nil in Hr|]. cbn [validateAddressList] in Hv.
  destruct (mail_ParseAddress x) eqn:Hx; [|done]. apply elem_of_cons in Hr as [->|Hr]; [by rewrite Hx|by apply IH].
Qed.

Lemma validated_addresses cfg : validateEmailConfig cfg = Ok tt →
  (∀ raw, raw ∈ ec_From cfg :: ec_To cfg ++ ec_CC cfg → is_Ok (mail_ParseAddress raw) = true) ∧
  (ec_ReplyTo cfg = "" ∨ is_Ok (mail_ParseAddress (ec_ReplyTo cfg)) = true).
Proof.
  unfold validateEmailConfig. case_bool_decide; [done|]. destruct (_ || _)%bool; [done|].
  do 3 (case_bool_decide; [done|]).
  destruct (mail_ParseAddress (ec_From cfg)) eqn:Hf; [|done]. case_bool_decide; [done|].
  destruct (validateAddressList "to" (ec_To cfg)) as [[]|] eqn:Ht; [|done].
  destruct (validateAddressList "cc" (ec_CC cfg)) as [[]|] eqn:Hc; [|done].
  intros Hr. split.
  - intros raw [->|[Hin|Hin]%elem_of_app]%elem_of_cons; [by rewrite Hf| |].
    + by apply (validateAddressList_Ok _ _ Ht).
    + by apply (validateAddressList_Ok _ _ Hc).
  - case_bool_decide; [by left|]. right. by destruct (mail_ParseAddress (ec_ReplyTo cfg)).
Qed.

Lemma parse_valid fld raw : is_Ok (mail_ParseAddress raw) = true → is_Ok (parseAddressField fld raw) = true.
Proof. unfold parseAddressField. by destruct (mail_ParseAddress raw). Qed.

Lemma parse_list_valid fld l :
  (∀ raw, raw ∈ l → is_Ok (mail_ParseAddress raw) = true) → is_Ok (parseAddressList fld l) = true.
Proof.
  induction l as [|x l IH]; intros Hl; cbn [parseAddressList]; [done|].
  pose proof (parse_valid fld x (Hl x ltac:(set_solver))) as Hx. destruct (parseAddressField fld x); [|done]. cbn [rbind].
  specialize (IH ltac:(set_solver)). by destruct (parseAddressList fld l).
Qed.

(** Its messages can be built. *)
Lemma validated_builds cfg req w : validateEmailConfig cfg = Ok tt → is_Ok (buildEmailMessage cfg req w).1 = true.
Proof.
  intros [Ha Hr]%validated_addresses. unfold buildEmailMessage, buildEmailHeaders. cbv zeta. rewrite try_bind_run.
  pose proof (parse_valid "from" (ec_From cfg) (Ha (ec_From cfg) ltac:(set_solver))) as H1.
  pose proof (parse_list_valid "to" (ec_To cfg) ltac:(intros; apply Ha; set_solver)) as H2.
  pose proof (parse_list_valid "cc" (ec_CC cfg) ltac:(intros; apply Ha; set_solver)) as H3.
  destruct (parseAddressField "from" _) as [from|]; [|done]. destruct (parseAddressList "to" _) as [to|]; [|done].
  destruct (parseAddressList "cc" _) as [cc|]; [|done]. cbn [rbind].
  destruct (decide (ec_ReplyTo cfg = "")) as [He|He].
  - rewrite bool_decide_eq_true_2 by done. cbn [rbind]. by rewrite !ST_bind_run.
  - rewrite bool_decide_eq_false_2 by done. destruct Hr as [Hr|Hr]; [done|]. apply (parse_valid "reply_to") in Hr.
    destruct (parseAddressField "reply_to" _); [|done]. cbn [rbind]. by rewrite !ST_bind_run.
Qed.
End validated.

(** ** Where messages are not what they should be *)

(** A line of the body that looks like the boundary is sent as it is. *)
Lemma boundary_not_escaped :
  let body := "a" +:+ crlf +:+ "--" +:+ boundary +:+ "--" +:+ crlf +:+ "b" in quotedprintable body = body.
Proof. vm_compute. reflexivity. Qed.

(** When the renderer fails, the source is sent as HTML without escaping. *)
Lemma renderer_failure_sends_source {ML : Mail} body err : goldmark_Convert body = Err err →
  ∃ pre post, writeMarkdownAlternative body = pre +:+ writeSinglePart text_html body +:+ post.
Proof.
  intros Hg. unfold writeMarkdownAlternative. rewrite Hg. cbv zeta.
  exists (header_line "Content-Type" ("multipart/alternative; boundary=" +:+ boundary) +:+ crlf +:+
          "--" +:+ boundary +:+ crlf +:+ writeSinglePart text_plain body +:+ "--" +:+ boundary +:+ crlf),
         ("--" +:+ boundary +:+ "--" +:+ crlf).
  by rewrite !string_app_assoc.
Qed.

(** ** Built messages are whole lines *)

Section whole.
Context `{E : Env} {ML : Mail}.

Lemma whole_header name value bol t :
  one_line name = true → one_line value = true → whole_lines bol (header_line name value +:+ t) = whole_lines true t.
Proof.
  intros Hn Hv. unfold header_line. rewrite !string_app_assoc. rewrite <- (string_app_assoc ": " value), <- (string_app_assoc name).
  apply whole_line. by rewrite !one_line_app, Hn, Hv.
Qed.

Lemma whole_part ctype body bol t :
  one_line ctype = true → whole_lines bol (writeSinglePart ctype body +:+ t) = whole_lines true t.
Proof.
  intros Hc. unfold writeSinglePart. rewrite !string_app_assoc, whole_header by done.
  rewrite (whole_line "Content-Transfer-Encoding: quoted-printable") by done. rewrite whole_crlf.
  apply (whole_qp _ 0 false). apply (quotedprintable_reads body).
Qed.

Lemma whole_markdown body bol t : whole_lines bol (writeMarkdownAlternative body +:+ t) = whole_lines true t.
Proof.
  unfold writeMarkdownAlternative. cbv zeta. rewrite !string_app_assoc, whole_header by done. rewrite whole_crlf.
  rewrite <- !(string_app_assoc "--" boundary). rewrite !whole_line, whole_part by done. rewrite whole_line, whole_part by done.
  rewrite <- (string_app_assoc _ "--"). by rewrite whole_line.
Qed.

Lemma whole_fields fields bol t :
  Forall (λ f, one_line f.1 = true ∧ one_line f.2 = true) fields → fields ≠ [] →
  whole_lines bol (render_fields fields +:+ t) = whole_lines true t.
Proof.
  intros Hf Hne. revert bol. induction Hf as [|[name value] fields [Hn Hv] Hf IH]; intros bol; [done|]. simpl in *.
  rewrite string_app_assoc, whole_header by done. destruct fields as [|f fields]; [done|]. by apply IH.
Qed.

(** Every message the provider builds arrives at the server as it is. *)
Lemma built_arrives {MLs : MailLaws ML} cfg req w m :
  (buildEmailMessage cfg req w).1 = Ok m → one_line (ec_From cfg) = true → local_clock_sane → data_text m = m.
Proof.
  unfold buildEmailMessage. rewrite try_bind_run. intros Hm Hf Hc.
  destruct (buildEmailHeaders cfg (sq_Subject req) w).1 as [h|] eqn:Hh; [|done]. cbn [fst mret ST_ret] in Hm. injection Hm as <-.
  destruct (headers_run cfg (sq_Subject req) w h Hf Hc Hh) as (fields & -> & Hn & Hl).
  assert (Forall (λ f, one_line f.1 = true ∧ one_line f.2 = true) fields ∧ fields ≠ []) as [Hall Hne].
  { split; [|intros ->; done]. apply Forall_and. split; [|done]. apply (Forall_fmap fst (λ n, one_line n = true) fields).
    rewrite Hn. unfold field_names.
    by repeat case_bool_decide; repeat constructor. }
  apply data_text_whole.
  - destruct fields as [|[n v] fields]; [done|]. simpl. unfold header_line. by destruct n.
  - rewrite whole_fields by done. rewrite <- (string_app_nil_r (if bool_decide _ then _ else _)).
    repeat case_bool_decide; by rewrite ?whole_part, ?whole_markdown by done.
Qed.
End whole.

(** * Claims *)

(** C11: Whatever the server answers, everything the email provider puts on the wire before the connection is
    encrypted is the dial, the greeting, EHLO or HELO and STARTTLS: credentials, addresses and message are only
    ever sent under TLS. *)
Theorem email_secrets_encrypted {E : Env} {ML : Mail} raw req cfg w :
  dec_emailConfig raw = Ok cfg →
  ∃ evs, w_smtp (EmailProvider_Send raw req w).2 = w_smtp w ++ evs ∧
    ∀ e, e ∈ evs → se_TLS e = false →
      se_Act e ∈ [SmtpDial (server_addr cfg); SmtpGreeting; SmtpLine "EHLO localhost"; SmtpLine "HELO localhost";
                  SmtpLine "STARTTLS"].
Proof.
  intros Hd. unfold EmailProvider_Send. rewrite Hd, ST_bind_run.
  pose proof (buildEmailMessage_smtp cfg req w) as Hb. unfold same in Hb.
  destruct (buildEmailMessage cfg req w) as [[message|err] w1]; cbn [fst snd] in *.
  - rewrite ST_bind_run. cbn [snd mret ST_ret]. destruct (sendViaSMTP_discreet cfg message w1) as [(evs & He & _ & Hf) _].
    exists evs. rewrite He, Hb. split; [done|]. intros e Hin Ht. rewrite Forall_forall in Hf.
    destruct (Hf e Hin) as [H|H]; [congruence|done].
  - exists []. simpl. rewrite app_nil_r. split; [done|]. intros e He. by apply elem_of_nil in He.
Qed.

(** On a greeted session deliverMessage says MAIL, one RCPT per recipient and copy in order, DATA, the message
    and its end, and succeeds exactly when no answer refuses its step, whatever QUIT then answers; otherwise it
    fails with the first refusal, and that is permanent exactly for a 5xx reply. *)
Theorem email_delivery_exact {E : Env} {ML : Mail} c cfg message from rcpts w :
  cl_didHello c = true → cl_helloError c = None →
  parseAddressField "from" (ec_From cfg) = Ok from → one_line (addr_Address from) = true →
  parseAddressList "recipient" (ec_To cfg ++ ec_CC cfg) = Ok rcpts →
  Forall (λ a, one_line (addr_Address a) = true) rcpts →
  let acts := envelope (mail_line c (addr_Address from)) (map addr_Address rcpts) message in
  match refusal (cl_tls c) acts (w_tick w) with
  | None => (deliverMessage c cfg message w).1 = Ok tt ∧
            w_smtp (deliverMessage c cfg message w).2 =
              w_smtp w ++ map (λ a, mkSmtpEvent (cl_tls c) a.1) acts ++ [mkSmtpEvent (cl_tls c) (SmtpLine "QUIT")]
  | Some ans => ∃ err, (deliverMessage c cfg message w).1 = Err err ∧
      isPermanentSMTPError err = match ans with Reply code _ => ((500 <=? code) && (code <? 600))%Z | Broken _ => false end
  end.
Proof.
  intros H1 H2 Hf Hlf Hr Hlr acts. pose proof (deliver_carries c cfg message from rcpts w (conj H1 H2) Hf Hlf Hr Hlr) as H.
  fold acts in H. cbv zeta in H. destruct (refusal (cl_tls c) acts (w_tick w)) as [ans|]; [|by destruct H as (? & ? & _)].
  destruct H as (err & He & Hc). exists err. split; [done|]. unfold isPermanentSMTPError, errors_Is. rewrite Hc. by destruct ans.
Qed.

(** C12: When the email provider reports success, its last acts were MAIL for the sender, RCPT for every
    recipient and copy, DATA, the built message and its end, all under TLS and each answered with acceptance,
    and then QUIT. *)
Theorem email_success_means_accepted {E : Env} {ML : Mail} raw req cfg resp w :
  dec_emailConfig raw = Ok cfg → (EmailProvider_Send raw req w).1 = Ok resp → sr_Success resp = true →
  ∃ message c from rcpts tick before,
    (buildEmailMessage cfg req w).1 = Ok message ∧ cl_tls c = true ∧
    parseAddressField "from" (ec_From cfg) = Ok from ∧
    parseAddressList "recipient" (ec_To cfg ++ ec_CC cfg) = Ok rcpts ∧
    let acts := envelope (mail_line c (addr_Address from)) (map addr_Address rcpts) message in
    w_smtp (EmailProvider_Send raw req w).2 =
      w_smtp w ++ before ++ map (λ a, mkSmtpEvent true a.1) acts ++ [mkSmtpEvent true (SmtpLine "QUIT")] ∧
    w_tick (EmailProvider_Send raw req w).2 = S (tick + length acts) ∧ refusal true acts tick = None.
Proof.
  intros Hd. unfold EmailProvider_Send. rewrite Hd, ST_bind_run. pose proof (buildEmailMessage_smtp cfg req w) as Hb. unfold same in Hb.
  destruct (buildEmailMessage cfg req w) as [[message|err] w1]; cbn [fst snd] in *.
  2:{ intros [= <-]. done. }
  rewrite ST_bind_run. cbn [fst snd mret ST_ret]. intros Hr Hs.
  destruct (sendViaSMTP cfg message w1).1 as [[]|err] eqn:Hok; [|by injection Hr as <-].
  destruct (proj2 (sendViaSMTP_discreet cfg message w1) Hok) as (c & w2 & Ht & Hg1 & Hg2 & (evs & Hevs & _) & Heq).
  rewrite Heq in Hok |- *.
  destruct (deliver_Ok c cfg message w2 (conj Hg1 Hg2) Hok) as (from & rcpts & Hf & Hlf & Hrc & Hlr).
  pose proof (deliver_carries c cfg message from rcpts w2 (conj Hg1 Hg2) Hf Hlf Hrc Hlr) as H. cbv zeta in H. rewrite Ht in H.
  exists message, c, from, rcpts, (w_tick w2), evs. do 4 (split; [done|]). cbv zeta.
  destruct (refusal true _ _) as [ans|]; [destruct H as (err & He & _); congruence|].
  destruct H as (_ & H1 & H2). rewrite H1, Hevs, Hb, <- app_assoc. by split.
Qed.

(** With a validated configuration the email provider reports a permanent failure only when the server answered
    one of the acts of this very send with a 5xx reply: connection problems, 4xx replies and a missing STARTTLS
    are always retried. *)
Theorem email_permanent_only_on_5xx {E : Env} {ML : Mail} raw req resp w :
  EmailProvider_ValidateConfig raw = Ok tt → (EmailProvider_Send raw req w).1 = Ok resp → sr_Permanent resp = true →
  sr_Success resp = false ∧
  ∃ tick evs i ev code msg,
    w_smtp (EmailProvider_Send raw req w).2 = w_smtp w ++ evs ∧
    w_tick (EmailProvider_Send raw req w).2 = (tick + length evs)%nat ∧
    evs !! i = Some ev ∧ env_smtp (tick + i) ev = Reply code msg ∧ (500 ≤ code < 600)%Z.
Proof.
  unfold EmailProvider_ValidateConfig, EmailProvider_Send. destruct (dec_emailConfig raw) as [cfg|]; [|done]. intros Hv.
  rewrite ST_bind_run. pose proof (validated_builds cfg req w Hv) as Hb. pose proof (buildEmailMessage_smtp cfg req w) as Hb'. unfold same in Hb'.
  destruct (buildEmailMessage cfg req w) as [[message|err] w1]; cbn [fst snd] in *; [|done].
  rewrite ST_bind_run. cbn [fst snd mret ST_ret].
  destruct (sendViaSMTP_origin w1 w1 cfg message ltac:(reflexivity)) as [(evs & Hs & Ht) Ho].
  destruct (sendViaSMTP cfg message w1) as [[[]|err] w2]; cbn [fst snd] in *; intros [= <-]; [done|].
  cbn [sr_Permanent sr_Success classifyEmailSendError]. unfold isPermanentSMTPError, errors_Is. intros Hp. split; [done|].
  destruct Ho as [[Hn|(code & msg & (i & ev & Hl & Ha) & Hc)]|[_ (addr & Hin & Hbad)]].
  - by rewrite Hn in Hp.
  - exists (w_tick w1), evs, i, ev, code, msg. rewrite Hs, lookup_app_r in Hl by lia.
    replace (length (w_smtp w1) + i - length (w_smtp w1))%nat with i in Hl by lia. rewrite Hc in Hp. simpl in Hp.
    rewrite Hs, Hb'. split_and!; [done..|lia|lia].
  - by rewrite (proj1 (validated_addresses cfg Hv) addr Hin) in Hbad.
Qed.

(** C37: When the sender's address in the configuration has no line break, the header block of a message is
    exactly the intended fields in order, one line each: no subject, however chosen, can add a header line. *)
Theorem email_headers_safe {E : Env} {ML : Mail} {MLs : MailLaws ML} cfg subject w h :
  one_line (ec_From cfg) = true → local_clock_sane → (buildEmailHeaders cfg subject w).1 = Ok h →
  ∃ fields, h = render_fields fields ∧ fields.*1 = field_names cfg ∧ Forall (λ f, one_line f.2 = true) fields.
Proof. apply headers_run. Qed.

(** C38: What the email provider writes is read back at the other end: the body of a plain or HTML message is
    quoted-printable text with lines of at most 76 bytes and no trailing white space, and decodes back to the
    body with its line ends as CRLF, provided carriage returns only occur before line feeds; and inside DATA
    every built message, whatever it contains, is read by the server to its end and no further, and arrives
    unchanged when the sender's address has no line break. *)
Theorem email_body_read_back {E : Env} {ML : Mail} {MLs : MailLaws ML} cfg req w m :
  (buildEmailMessage cfg req w).1 = Ok m →
  (sq_FormatMode req ≠ "markdown" → ∃ headers ctype enc,
    m = headers +:+ header_line "Content-Type" ctype +:+
        "Content-Transfer-Encoding: quoted-printable" +:+ crlf +:+ crlf +:+ enc +:+ crlf ∧
    qp_lines_ok 0 false enc = true ∧
    (cr_ok (sq_Body req) = true → qp_decode enc = Some (to_crlf (sq_Body req)))) ∧
  (∀ rest, data_read rBeginLine (data_wire m +:+ rest) = Some (data_text m, rest)) ∧
  (one_line (ec_From cfg) = true → local_clock_sane → data_text m = m).
Proof.
  intros Hb. split_and!; [|intros rest; apply data_roundtrip|by apply (built_arrives cfg req w)].
  intros Hm. revert Hb. unfold buildEmailMessage. rewrite try_bind_run.
  destruct (buildEmailHeaders cfg (sq_Subject req) w).1 as [headers|]; [|done]. cbn [fst mret ST_ret]. intros [= <-].
  rewrite (bool_decide_eq_false_2 (sq_FormatMode req = "markdown")) by done.
  destruct (quotedprintable_reads (sq_Body req)) as [Hd Hl].
  exists headers, (if bool_decide (sq_FormatMode req = "html") then text_html else text_plain), (quotedprintable (sq_Body req)).
  split; [by case_bool_decide|]. split; [done|]. intros Hc. by rewrite Hd, canon_to_crlf.
Qed.

(** The Message-ID ends in whatever follows the first at sign of the configured sender, as it stands. *)
Theorem message_id_copies_config {E : Env} from before after w :
  strings_Cut from "@" = Some (before, after) → after ≠ "" →
  ∃ id, one_line id = true ∧ (generateMessageID from w).1 = "<" +:+ id +:+ "@" +:+ after +:+ ">" ∧
    one_line (generateMessageID from w).1 = one_line after.
Proof.
  intros Hc Ha. pose proof (randomHexID_line 16 w) as Hid. rewrite message_id_run. unfold message_domain. rewrite Hc.
  rewrite bool_decide_eq_false_2 by done. eexists. split; [exact Hid|]. split; [done|].
  rewrite !one_line_app, Hid. simpl. by rewrite andb_true_r.
Qed.

(** * Witnesses *)

Section witnesses.
#[local] Existing Instance healthy.

Definition email_raw : RawMessage :=
  Some (JObj [("host", JStr "smtp.example.com"); ("port", JInt 587); ("username", JStr "ops"); ("password", JStr "pw");
              ("from", JStr "Acme <ops@acme.test>"); ("to", JArr [JStr "dev@acme.test"])]).
Definition email_cfg : emailConfig :=
  mkEmailConfig "smtp.example.com" 587 "ops" "pw" "Acme <ops@acme.test>" ["dev@acme.test"] [] "".
Definition email_req : SendRequest := mkSendRequest id_notification "Deploy" "done" None "plain".
Definition email_world : World := healthy_world sample_db.

Lemma email_secrets_encrypted_witness :
  ∃ evs, w_smtp (EmailProvider_Send email_raw email_req email_world).2 = [] ++ evs ∧
    ∀ e, e ∈ evs → se_TLS e = false →
      se_Act e ∈ [SmtpDial (server_addr email_cfg); SmtpGreeting; SmtpLine "EHLO localhost"; SmtpLine "HELO localhost";
                  SmtpLine "STARTTLS"].
Proof. apply (email_secrets_encrypted email_raw email_req email_cfg email_world). reflexivity. Defined.

Definition email_client : smtpClient := mkSmtpClient "smtp.example.com" true (Some ∅) true None.

Lemma email_delivery_exact_witness :
  (deliverMessage email_client email_cfg "m" email_world).1 = Ok tt ∧
  w_smtp (deliverMessage email_client email_cfg "m" email_world).2 =
    map (mkSmtpEvent true) [SmtpLine "MAIL FROM:<ops@acme.test>"; SmtpLine "RCPT TO:<dev@acme.test>"; SmtpLine "DATA";
                            SmtpWrite "m"; SmtpDot; SmtpLine "QUIT"].
Proof.
  exact (email_delivery_exact email_client email_cfg "m" (mkAddress "Acme" "ops@acme.test") [mkAddress "" "dev@acme.test"]
    email_world eq_refl eq_refl eq_refl eq_refl eq_refl ltac:(repeat constructor)).
Defined.

Lemma email_success_means_accepted_witness :
  ∃ message c from rcpts tick before,
    (buildEmailMessage email_cfg email_req email_world).1 = Ok message ∧ cl_tls c = true ∧
    parseAddressField "from" (ec_From email_cfg) = Ok from ∧
    parseAddressList "recipient" (ec_To email_cfg ++ ec_CC email_cfg) = Ok rcpts ∧
    let acts := envelope (mail_line c (addr_Address from)) (map addr_Address rcpts) message in
    w_smtp (EmailProvider_Send email_raw email_req email_world).2 =
      [] ++ before ++ map (λ a, mkSmtpEvent true a.1) acts ++ [mkSmtpEvent true (SmtpLine "QUIT")] ∧
    w_tick (EmailProvider_Send email_raw email_req email_world).2 = S (tick + length acts) ∧ refusal true acts tick = None.
Proof.
  apply (email_success_means_accepted email_raw email_req email_cfg (mkSendResponse true "" None "" false) email_world);
    [reflexivity|vm_compute; reflexivity|reflexivity].
Defined.

Lemma healthy_local_clock : local_clock_sane.
Proof.
  intros n. change (local_offset (env_now n)) with 0%Z. split; [lia|]. rewrite Z.mul_0_l, Z.add_0_r.
  apply (sample_clock (λ _, Fine) (λ _, Ok (mkHttpResponse 200 "{}")) (λ t, Ok (mkTaskInfo (task_Type t)))).
Qed.

Lemma email_headers_safe_witness :
  ∃ h fields, (buildEmailHeaders email_cfg ("hi" +:+ crlf +:+ "Bcc: all@acme.test") email_world).1 = Ok h ∧
    h = render_fields fields ∧ fields.*1 = field_names email_cfg ∧ Forall (λ f, one_line f.2 = true) fields.
Proof.
  destruct (buildEmailHeaders email_cfg ("hi" +:+ crlf +:+ "Bcc: all@acme.test") email_world).1 as [h|e] eqn:Hh;
    [|vm_compute in Hh; discriminate Hh].
  destruct (email_headers_safe email_cfg ("hi" +:+ crlf +:+ "Bcc: all@acme.test") email_world h
    eq_refl healthy_local_clock Hh) as (fields & H). by exists h, fields.
Defined.

Lemma email_body_read_back_witness :
  ∃ m headers ctype enc, (buildEmailMessage email_cfg email_req email_world).1 = Ok m ∧
    m = headers +:+ header_line "Content-Type" ctype +:+
        "Content-Transfer-Encoding: quoted-printable" +:+ crlf +:+ crlf +:+ enc +:+ crlf ∧
    qp_lines_ok 0 false enc = true ∧ qp_decode enc = Some "done" ∧
    data_read rBeginLine (data_wire m +:+ "QUIT") = Some (m, "QUIT").
Proof.
  destruct (buildEmailMessage email_cfg email_req email_world).1 as [m|e] eqn:Hm; [|vm_compute in Hm; discriminate Hm].
  destruct (email_body_read_back email_cfg email_req email_world m Hm) as (H & H4 & H5).
  destruct (H ltac:(discriminate)) as (h & ct & enc & H1 & H2 & H3).
  exists m, h, ct, enc. split_and!; [done|exact H1|exact H2|by apply H3|].
  rewrite H4. by rewrite (H5 eq_refl healthy_local_clock).
Defined.

Lemma message_id_copies_config_witness :
  ∃ id, one_line id = true ∧
    (generateMessageID "Acme <ops@acme.test>" email_world).1 = "<" +:+ id +:+ "@" +:+ "acme.test>" +:+ ">" ∧
    one_line (generateMessageID "Acme <ops@acme.test>" email_world).1 = true.
Proof. apply (message_id_copies_config "Acme <ops@acme.test>" "Acme <ops" "acme.test>" email_world); [reflexivity|discriminate]. Defined.
End witnesses.

Section refused.
(** A server that rejects the password. *)
#[local] Instance locked : Env := with_smtp healthy (λ _ e,
  match se_Act e with
  | SmtpLine line => if HasPrefix line "AUTH" then Reply 535 "bad credentials" else sample_smtp e
  | _ => sample_smtp e
  end).

Definition locked_world : World := @world_of locked sample_db (∅ : gmap string Z).

Lemma email_permanent_only_on_5xx_witness :
  ∃ resp tick evs i ev code msg,
    (EmailProvider_Send email_raw email_req locked_world).1 = Ok resp ∧ sr_Permanent resp = true ∧
    w_smtp (EmailProvider_Send email_raw email_req locked_world).2 = [] ++ evs ∧
    w_tick (EmailProvider_Send email_raw email_req locked_world).2 = (tick + length evs)%nat ∧
    evs !! i = Some ev ∧ env_smtp (tick + i) ev = Reply code msg ∧ (500 ≤ code < 600)%Z.
Proof.
  set (resp := mkSendResponse false "" None "auth: 535 bad credentials" true). exists resp.
  destruct (email_permanent_only_on_5xx email_raw email_req resp locked_world) as (_ & tick & evs & i & ev & code & msg & H);
    [vm_compute; reflexivity..|].
  exists tick, evs, i, ev, code, msg. split; [vm_compute; reflexivity|]. split; [reflexivity|exact H].
Defined.
End refused.
