(* ===== verification/TasksProps.v ===== *)
(** * TasksProps: the properties of tasks and retry delays *)
From S2P Require Import Prelude GoTime Json Domain World Repository Integrity SampleEnv Tasks Provider.
From S2P Require Import Samples.

(** The waits before the eight retries of an event, each in its own world. *)
Definition event_retry_schedule `{E : Env} (ws : list World) : list Duration :=
  zip_with (λ n w, (WebhookEventRetryDelay n w).1) [0; 1; 2; 3; 4; 5; 6; 7]%Z ws.

(** * Claims *)

(** The payload of a delivery task read back by the worker is the payload the API wrote, except that absent
    metadata comes back as the JSON null document. *)
Theorem deliver_payload_roundtrip {E : Env} {UL : UuidLaws E} p opts :
  (∀ d, p_DeliveryPrefs p = Some d → prefs_in_range d) →
  dec_NotificationDeliverPayload (task_Payload (NewNotificationDeliverTask p opts)) =
    Ok (mkNotificationDeliverPayload (p_NotificationID p) (p_TenantID p) (p_ChannelType p) (p_ChannelConfigID p)
          (p_Subject p) (p_Body p) (Some (json_raw (p_Metadata p))) (p_DeliveryPrefs p)).
Proof. apply dec_json_NotificationDeliverPayload. Qed.

(** A delivery task retries as often as the caller's option says, else as the channel's preferences say, else
    five times, and two delivery tasks have the same task id exactly when they deliver the same notification. *)
Theorem deliver_task_options {E : Env} {UL : UuidLaws E} p p' opts opts' :
  Forall (λ o, match o with TaskID _ => False | _ => True end) opts →
  Forall (λ o, match o with TaskID _ => False | _ => True end) opts' →
  let t := NewNotificationDeliverTask p opts in
  opt_MaxRetry (task_Opts t) =
    Some (default (default 5%Z (p_DeliveryPrefs p ≫= dp_MaxRetries)) (opt_MaxRetry opts)) ∧
  (opt_TaskID (task_Opts (NewNotificationDeliverTask p' opts')) = opt_TaskID (task_Opts t) ↔
   p_NotificationID p' = p_NotificationID p).
Proof.
  assert (∀ opts n, foldl (λ acc o, match o with MaxRetry n => Some n | _ => acc end) (Some n) opts =
    Some (default n (opt_MaxRetry opts))) as HM.
  { intros os. unfold opt_MaxRetry. induction os as [|o os IH] using rev_ind; intros n; [done|].
    rewrite !foldl_snoc. destruct o; [apply IH|done|apply IH|apply IH]. }
  assert (∀ opts i, Forall (λ o, match o with TaskID _ => False | _ => True end) opts →
    foldl (λ acc o, match o with TaskID i => Some i | _ => acc end) (Some i) opts = Some i) as HI.
  { intros os i. induction 1 as [|o os Ho _ IH]; [done|]. simpl. by destruct o. }
  intros H H'. cbv zeta. split.
  - unfold opt_MaxRetry at 1, NewNotificationDeliverTask. cbv zeta. cbn [task_Opts]. rewrite foldl_app. simpl. rewrite HM.
    destruct (p_DeliveryPrefs p) as [d|]; [|done]. simpl. by destruct (dp_MaxRetries d).
  - unfold opt_TaskID, NewNotificationDeliverTask. cbv zeta. cbn [task_Opts]. rewrite !foldl_app. simpl. rewrite !HI by done.
    split; [|by intros ->]. intros Heq. apply (inj Some) in Heq. by apply (inj notif_task_id) in Heq.
Qed.


(** While the shifted delay fits in 64 bits, the worker's retry delay is the capped exponential backoff plus
    less than a fifth of it, for every configured pair of bounds of at least five nanoseconds. *)
Theorem worker_retry_delay_bounds {E : Env} {RL : RandLaws E} lo hi n w :
  (5 ≤ lo)%Z → (5 ≤ hi)%Z → (0 ≤ n < 63)%Z → in_int64 (lo * 2 ^ n) → in_int64 (hi + hi) →
  ∃ d, (worker_retryDelay lo hi n w).1 = Some d ∧
       (backoff lo hi n ≤ d < backoff lo hi n + backoff lo hi n /t 5)%Z.
Proof. apply worker_retryDelay_range. Qed.

(** With the default bounds the worker's retry delay panics at retry count 30: the shift overflows to a negative
    delay and the jitter draws from an empty range. *)
Theorem worker_retry_delay_overflow_panics {E : Env} w :
  (worker_retryDelay default_MinRetryDelay default_MaxRetryDelay 30 w).1 = None.
Proof. reflexivity. Qed.

(** * Witnesses *)

Section witnesses.
#[local] Existing Instance healthy.

Lemma deliver_payload_roundtrip_witness :
dec_NotificationDeliverPayload (task_Payload (NewNotificationDeliverTask sample_payload [])) =
  Ok (mkNotificationDeliverPayload id_notification id_tenant ChannelDiscord id_channel "" "hello" (Some JNull) None).
Proof. apply (deliver_payload_roundtrip sample_payload []). intros d [=]. Defined.

Lemma deliver_task_options_witness :
opt_MaxRetry (task_Opts (NewNotificationDeliverTask sample_payload [MaxRetry 9])) = Some 9%Z ∧
(opt_TaskID (task_Opts (NewNotificationDeliverTask sample_payload [])) =
 opt_TaskID (task_Opts (NewNotificationDeliverTask sample_payload [MaxRetry 9])) ↔ id_notification = id_notification).
Proof.
refine (deliver_task_options sample_payload sample_payload [MaxRetry 9] [] _ _); repeat constructor.
Defined.


Lemma worker_retry_delay_witness :
∃ d, (worker_retryDelay default_MinRetryDelay default_MaxRetryDelay 3 (healthy_world sample_db)).1 = Some d ∧
  (backoff default_MinRetryDelay default_MaxRetryDelay 3 ≤ d <
   backoff default_MinRetryDelay default_MaxRetryDelay 3 + backoff default_MinRetryDelay default_MaxRetryDelay 3 /t 5)%Z.
Proof.
apply (worker_retry_delay_bounds default_MinRetryDelay default_MaxRetryDelay 3 (healthy_world sample_db)).
all: unfold in_int64, int64_min, int64_max, default_MinRetryDelay, default_MaxRetryDelay, Minute, Second; lia.
Defined.
End witnesses.
