(* ===== verification/Http.v ===== *)
(** * Http: requests, responses and claims as handlers and middleware see them

    pkg/response and internal/auth/claims.go.  A body is a reader: the bytes it
    delivers and whether an error follows them; [json.Decoder] reads its first
    document, [json.Unmarshal] all of it. *)
From S2P Require Import Prelude GoTime Utf8 Json JsonText Domain World Tasks.

Record TenantClaims := mkTenantClaims {
  tc_Issuer : string;
  tc_Subject : string;
  tc_ExpiresAt : Time;
  tc_IssuedAt : Time;
  tc_NotBefore : Time;
  tc_ID : string;
  tc_TenantID : uuid;
  tc_TenantSlug : string;
  tc_IsAdmin : bool
}.

(** ** Bodies *)

Record Body := mkBody { b_Bytes : string; b_Fails : bool }.

Definition NewReader (s : string) : Body := mkBody s false.

Definition io_ReadAll (b : Body) : result string :=
  if b_Fails b then Err (errors_New "http: request body too large") else Ok (b_Bytes b).

(** [http.MaxBytesReader]: after [limit] bytes, an error. *)
Definition MaxBytesReader (limit : Z) (b : Body) : Body :=
  if (Z.of_nat (String.length (b_Bytes b)) <=? limit)%Z then b
  else mkBody (string_take (Z.to_nat limit) (b_Bytes b)) true.

(** [json.NewDecoder(b).Decode]: the first document and what is left.  The end of
    an object or array is seen at once, that of another value at the next byte or
    the end of the body. *)
Definition Decode_first (b : Body) : option (json * string) :=
  '(j, rest) ← parse_value (2 * String.length (b_Bytes b) + 2) maxNestingDepth (b_Bytes b);
  if b_Fails b && bool_decide (rest = "") && negb match j with JObj _ | JArr _ => true | _ => false end
  then None else Some (j, rest).

(** Query and path parameters that are absent read as the empty string. *)
Record Request := mkRequest {
  r_Method : string;
  r_Path : string;
  r_RequestURI : string;
  r_Header : gmap string string;
  r_Query : gmap string string;
  r_Params : gmap string string;
  r_Body : Body;
  r_Claims : option TenantClaims
}.

Definition r_First (r : Request) : option json := fst <$> Decode_first (r_Body r).

(** [json.Unmarshal] of what [io.ReadAll] gives. *)
Definition r_JSON (r : Request) : option json :=
  match io_ReadAll (r_Body r) with Ok body => parse_json body | Err _ => None end.

(** Anything but white space after the first document. *)
Definition r_Trailing (r : Request) : bool :=
  match Decode_first (r_Body r) with Some (_, rest) => negb (bool_decide (skip_ws rest = "")) | None => false end.

Definition Header_Get (r : Request) (k : string) : string := default "" (r_Header r !! CanonicalHeaderKey k).
Definition Query_Get (r : Request) (k : string) : string := default "" (r_Query r !! k).
Definition URLParam (r : Request) (k : string) : string := default "" (r_Params r !! k).

(** [context.WithValue] of the claims key. *)
Definition with_Claims (claims : TenantClaims) (r : Request) : Request :=
  mkRequest (r_Method r) (r_Path r) (r_RequestURI r) (r_Header r) (r_Query r) (r_Params r) (r_Body r)
    (Some claims).

Definition with_Body (body : Body) (r : Request) : Request :=
  mkRequest (r_Method r) (r_Path r) (r_RequestURI r) (r_Header r) (r_Query r) (r_Params r) body (r_Claims r).

(** The body is [None] when nothing was written. *)
Record Response := mkResponse { resp_Status : Z; resp_Body : option json }.

Definition response_JSON (status : Z) (data : json) : Response := mkResponse status (Some data).
Definition response_Error (status : Z) (msg : string) : Response :=
  response_JSON status (JObj [("error", JStr msg)]).

(** [response.JSON] of a value whose encoding may be refused. *)
Definition response_data (status : Z) (data : result json) : Response :=
  match data with Ok j => response_JSON status j | Err _ => mkResponse status None end.

(** [w.WriteHeader(status)] alone. *)
Definition response_empty (status : Z) : Response := mkResponse status None.

Definition StatusOK : Z := 200.
Definition StatusCreated : Z := 201.
Definition StatusAccepted : Z := 202.
Definition StatusNoContent : Z := 204.
Definition StatusBadRequest : Z := 400.
Definition StatusUnauthorized : Z := 401.
Definition StatusPaymentRequired : Z := 402.
Definition StatusForbidden : Z := 403.
Definition StatusNotFound : Z := 404.
Definition StatusTooManyRequests : Z := 429.
Definition StatusInternalServerError : Z := 500.
Definition StatusServiceUnavailable : Z := 503.

(** ** The JSON form of the domain types *)

Section encoding.
Context `{E : Env}.

(** The members of an object, in order; the first refused value refuses it. *)
Fixpoint enc_members (ms : list (string * result json)) : result (list (string * json)) :=
  match ms with
  | [] => Ok []
  | (k, v) :: rest => j <-? v; js <-? enc_members rest; Ok ((k, j) :: js)
  end.
Definition enc_object (ms : list (string * result json)) : result json :=
  kvs <-? enc_members ms; Ok (JObj kvs).
Fixpoint enc_array {A} (enc : A → result json) (l : list A) : result json :=
  match l with
  | [] => Ok (JArr [])
  | x :: rest =>
      j <-? enc x;
      js <-? enc_array enc rest;
      Ok (JArr (j :: match js with JArr a => a | _ => [] end))
  end.

(** A member with [omitempty] on a pointer or raw message. *)
Definition omitempty {A} (k : string) (enc : A → result json) (o : option A) : list (string * result json) :=
  match o with None => [] | Some a => [(k, enc a)] end.
Definition ok_str (s : string) : result json := Ok (JStr s).

Definition json_Notification (n : Notification) : result json := enc_object
  ([("id", Ok (json_uuid (n_ID n))); ("tenant_id", Ok (json_uuid (n_TenantID n)));
    ("channel_config_id", Ok (json_uuid (n_ChannelConfigID n))); ("channel", ok_str (n_Channel n))] ++
   omitempty "subject" ok_str (n_Subject n) ++ [("body", ok_str (n_Body n))] ++
   omitempty "metadata" Ok (n_Metadata n) ++ [("status", ok_str (n_Status n))] ++
   omitempty "asynq_task_id" ok_str (n_AsynqTaskID n) ++
   [("retry_count", Ok (JInt (n_RetryCount n))); ("max_retries", Ok (JInt (n_MaxRetries n)))] ++
   omitempty "last_error" ok_str (n_LastError n) ++ omitempty "delivered_at" json_time (n_DeliveredAt n) ++
   omitempty "provider_msg_id" ok_str (n_ProviderMsgID n) ++
   [("created_at", json_time (n_CreatedAt n)); ("updated_at", json_time (n_UpdatedAt n))]).

Definition json_ChannelConfig (c : ChannelConfig) : result json := enc_object
  ([("id", Ok (json_uuid (cc_ID c))); ("tenant_id", Ok (json_uuid (cc_TenantID c)));
    ("channel", ok_str (cc_Channel c)); ("name", ok_str (cc_Name c)); ("config", Ok (json_raw (cc_Config c)));
    ("is_active", Ok (JBool (cc_IsActive c)))] ++
   omitempty "delivery_prefs" (λ p, Ok (json_DeliveryPreferences p)) (cc_DeliveryPrefs c) ++
   [("created_at", json_time (cc_CreatedAt c)); ("updated_at", json_time (cc_UpdatedAt c))]).

(** The secret's hash is not written. *)
Definition json_Tenant (t : Tenant) : result json := enc_object
  [("id", Ok (json_uuid (t_ID t))); ("name", ok_str (t_Name t)); ("slug", ok_str (t_Slug t));
   ("api_key", ok_str (t_APIKey t)); ("is_active", Ok (JBool (t_IsActive t)));
   ("created_at", json_time (t_CreatedAt t)); ("updated_at", json_time (t_UpdatedAt t))].

Definition json_APIKey (k : APIKey) : result json := enc_object
  ([("id", Ok (json_uuid (k_ID k))); ("tenant_id", Ok (json_uuid (k_TenantID k)));
    ("api_key", ok_str (k_APIKey k)); ("label", ok_str (k_Label k)); ("created_at", json_time (k_CreatedAt k))] ++
   omitempty "revoked_at" json_time (k_RevokedAt k)).

(** The members of an endpoint, without its secret. *)
Definition members_WebhookEndpoint (e : WebhookEndpoint) : list (string * result json) :=
  [("id", Ok (json_uuid (e_ID e))); ("tenant_id", Ok (json_uuid (e_TenantID e))); ("url", ok_str (e_URL e));
   ("events", Ok (JArr (JStr <$> e_Events e))); ("is_active", Ok (JBool (e_IsActive e)));
   ("created_at", json_time (e_CreatedAt e))].
Definition json_WebhookEndpoint (e : WebhookEndpoint) : result json := enc_object (members_WebhookEndpoint e).

Definition json_Entitlements (e : Entitlements) : result json := enc_object
  [("tenant_id", Ok (json_uuid (ent_TenantID e))); ("plan_code", ok_str (ent_PlanCode e));
   ("message_limit", Ok (JInt (ent_MessageLimit e)));
   ("allowed_channels", Ok (JArr (JStr <$> ent_AllowedChannels e)));
   ("api_key_limit", Ok (JInt (ent_APIKeyLimit e))); ("retention_days", Ok (JInt (ent_RetentionDays e)));
   ("period_start", json_time (ent_PeriodStart e)); ("period_end", json_time (ent_PeriodEnd e));
   ("updated_at", json_time (ent_UpdatedAt e))].

(** Go writes the keys of a map in order. *)
Definition str_le : relation (string * Z) := λ x y, String.leb x.1 y.1 = true.
#[global] Instance str_le_dec : RelDecision str_le.
Proof. intros x y. unfold str_le. apply _. Defined.
Definition json_UsageReport (u : UsageReport) : result json := enc_object
  [("sent", Ok (JInt (ur_Sent u))); ("delivered", Ok (JInt (ur_Delivered u))); ("failed", Ok (JInt (ur_Failed u)));
   ("by_channel", Ok (JObj (prod_map id JInt <$> merge_sort str_le (map_to_list (ur_ByChannel u)))))].

Definition json_DeliveryMetric (m : DeliveryMetric) : result json := enc_object
  ([("id", Ok (json_uuid (m_ID m))); ("notification_id", Ok (json_uuid (m_NotificationID m)));
    ("provider_msg_id", ok_str (m_ProviderMsgID m))] ++
   omitempty "delivered_at" json_time (m_DeliveredAt m) ++ omitempty "read_at" json_time (m_ReadAt m) ++
   omitempty "interactions" Ok (m_Interactions m) ++ [("collected_at", json_time (m_CollectedAt m))]).

(** The value a stored [jsonb] text denotes. *)
Definition document (text : string) : json := default JNull (parse_json text).

Definition json_DeliveryAttempt (a : DeliveryAttempt) : result json := enc_object
  ([("id", Ok (json_uuid (a_ID a))); ("notification_id", Ok (json_uuid (a_NotificationID a)));
    ("attempt_number", Ok (JInt (a_AttemptNumber a))); ("status", ok_str (a_Status a))] ++
   omitempty "provider_response" (λ s, Ok (document s)) (a_ProviderResponse a) ++
   omitempty "error_message" ok_str (a_ErrorMessage a) ++
   [("duration_ms", Ok (JInt (a_DurationMs a))); ("attempted_at", json_time (a_AttemptedAt a))]).

Definition json_ListResponse (data : result json) (total limit offset : Z) : result json := enc_object
  [("data", data); ("total", Ok (JInt total)); ("limit", Ok (JInt limit)); ("offset", Ok (JInt offset))].
End encoding.

(** ** Lemmas on bodies *)

(** Reading a body and putting what was read in its place changes nothing. *)
Lemma with_Body_read r body : io_ReadAll (r_Body r) = Ok body → with_Body (NewReader body) r = r.
Proof. destruct r as [? ? ? ? ? ? [s f] ?]. unfold io_ReadAll. simpl. destruct f; [done|]. by intros [= <-]. Qed.

Lemma ReadAll_Max limit b body : io_ReadAll (MaxBytesReader limit b) = Ok body ↔
  io_ReadAll b = Ok body ∧ (Z.of_nat (String.length body) ≤ limit)%Z.
Proof.
  unfold MaxBytesReader, io_ReadAll. destruct (Z.leb_spec (Z.of_nat (String.length (b_Bytes b))) limit); simpl;
    [destruct (b_Fails b)|destruct (b_Fails b)]; split; try done; try naive_solver lia.
Qed.

(** A whole document is the first one, with nothing after it. *)
Lemma Decode_whole r body j : io_ReadAll (r_Body r) = Ok body → r_First r = Some j →
  parse_json body = if r_Trailing r then None else Some j.
Proof.
  unfold io_ReadAll, r_First, r_Trailing, Decode_first. destruct (b_Fails (r_Body r)); [done|]. intros [= <-]. unfold parse_json.
  destruct (parse_value _ _ _) as [[j' rest]|]; [|done]. simpl. intros [= ->]. by case_bool_decide.
Qed.

Lemma First_whole r text j : r_Body r = NewReader text → parse_json text = Some j → r_First r = Some j.
Proof.
  intros Hr. unfold r_First, Decode_first, parse_json. rewrite Hr. cbn [b_Bytes b_Fails NewReader].
  destruct (parse_value _ _ _) as [[j' rest]|]; [|done]. simpl. by case_bool_decide.
Qed.
