(* ===== verification/Recorder.v ===== *)
(** * Recorder: what a handler writes and what the quota middleware sees

    Handlers are functions to a [Response]; here is why that is enough.  A
    [ResponseWriter] of net/http is the calls it took: [WriteHeader] and [Write].
    pkg/response writes a whole answer with them, and the [statusRecorder] of
    quota/middleware.go passes them on and keeps the status that decides about
    a refund. *)
From S2P Require Import Prelude Json World Http.

(** The writer of a connection: the final status once sent, the informational
    ones before it, and the body. *)
Record ResponseWriter := mkResponseWriter {
  rw_status : option Z; rw_informational : list Z; rw_body : string
}.

Definition NewResponseWriter : ResponseWriter := mkResponseWriter None [] "".

(** net/http panics on a code of other than three digits; after the header is
    sent, further calls have no effect. *)
Definition conn_WriteHeader (code : Z) (w : ResponseWriter) : option ResponseWriter :=
  match rw_status w with
  | Some _ => Some w
  | None =>
      if (code <? 100)%Z || (999 <? code)%Z then None
      else if (code <? 200)%Z && negb (code =? 101)%Z
      then Some (mkResponseWriter None (rw_informational w ++ [code]) (rw_body w))
      else Some (mkResponseWriter (Some code) (rw_informational w) (rw_body w))
  end.

(** The first byte of a body sends the header with 200. *)
Definition conn_Write (text : string) (w : ResponseWriter) : ResponseWriter :=
  mkResponseWriter (Some (default StatusOK (rw_status w))) (rw_informational w) (rw_body w +:+ text).

(** The status the peer receives when the handler has returned. *)
Definition sent_status (w : ResponseWriter) : Z := default StatusOK (rw_status w).

(** ** quota/middleware.go *)

Record statusRecorder := mkStatusRecorder {
  sr_ResponseWriter : ResponseWriter; sr_status : Z; sr_wroteHeader : bool
}.

Definition statusRecorder_WriteHeader (code : Z) (sr : statusRecorder) : option statusRecorder :=
  if sr_wroteHeader sr then Some sr
  else w ← conn_WriteHeader code (sr_ResponseWriter sr); Some (mkStatusRecorder w code true).

(** [Write] is the embedded writer's. *)
Definition statusRecorder_Write (text : string) (sr : statusRecorder) : statusRecorder :=
  mkStatusRecorder (conn_Write text (sr_ResponseWriter sr)) (sr_status sr) (sr_wroteHeader sr).

Definition record (w : ResponseWriter) : statusRecorder := mkStatusRecorder w StatusOK false.

(** ** What a handler does with its writer *)

Inductive write_call := WriteHeader (code : Z) | Write (text : string).

Definition conn_call (c : write_call) (w : ResponseWriter) : option ResponseWriter :=
  match c with WriteHeader code => conn_WriteHeader code w | Write text => Some (conn_Write text w) end.

Definition recorder_call (c : write_call) (sr : statusRecorder) : option statusRecorder :=
  match c with
  | WriteHeader code => statusRecorder_WriteHeader code sr
  | Write text => Some (statusRecorder_Write text sr)
  end.

Fixpoint calls {W} (call : write_call → W → option W) (l : list write_call) (w : W) : option W :=
  match l with [] => Some w | c :: l => w ← call c w; calls call l w end.

(** pkg/response: the encoder writes the text and a line break, or nothing when
    it refuses the value. *)
Definition JSON_calls (status : Z) (data : result json) : list write_call :=
  WriteHeader status ::
  match data with Ok j => [Write (Marshal j +:+ String (Ascii.ascii_of_N 10) "")] | Err _ => [] end.

(** The status comes first and is a final one. *)
Definition orderly (l : list write_call) : bool :=
  match l with
  | WriteHeader code :: _ => (200 <=? code)%Z && (code <=? 999)%Z
  | l => forallb (λ c, match c with Write _ => true | WriteHeader _ => false end) l
  end.

(** ** The recorder is transparent and exact *)

Lemma recorder_after l w sr : sr_wroteHeader sr = true → rw_status (sr_ResponseWriter sr) = Some (sr_status sr) →
  w = sr_ResponseWriter sr →
  ∃ sr', calls recorder_call l sr = Some sr' ∧ calls conn_call l w = Some (sr_ResponseWriter sr') ∧
    sr_status sr' = sr_status sr ∧ sent_status (sr_ResponseWriter sr') = sr_status sr.
Proof.
  intros Hw Hs ->. revert sr Hw Hs. induction l as [|[code|text] l IH]; intros sr Hw Hs; cbn [calls recorder_call conn_call].
  - exists sr. unfold sent_status. by rewrite Hs.
  - unfold statusRecorder_WriteHeader, conn_WriteHeader. rewrite Hw, Hs. cbn [mbind option_bind]. by apply IH.
  - cbn [mbind option_bind]. destruct (IH (statusRecorder_Write text sr) Hw) as (sr' & H1 & H2 & H3 & H4).
    + simpl. by rewrite Hs.
    + by exists sr'.
Qed.

Lemma recorder_writes l sr :
  forallb (λ c, match c with Write _ => true | WriteHeader _ => false end) l = true → sr_wroteHeader sr = false →
  sr_status sr = StatusOK → sent_status (sr_ResponseWriter sr) = StatusOK →
  ∃ sr', calls recorder_call l sr = Some sr' ∧ calls conn_call l (sr_ResponseWriter sr) = Some (sr_ResponseWriter sr') ∧
    sr_status sr' = StatusOK ∧ sent_status (sr_ResponseWriter sr') = StatusOK.
Proof.
  revert sr. induction l as [|[code|text] l IH]; intros sr Hl Hw Hs Hr; [by exists sr|done|].
  cbn [calls recorder_call conn_call mbind option_bind]. by apply (IH (statusRecorder_Write text sr)).
Qed.

(** Behind the recorder an orderly handler writes what it would write without it,
    and the recorded status is the one the peer receives. *)
Lemma recorder_exact l : orderly l = true →
  ∃ sr, calls recorder_call l (record NewResponseWriter) = Some sr ∧
    calls conn_call l NewResponseWriter = Some (sr_ResponseWriter sr) ∧
    sr_status sr = sent_status (sr_ResponseWriter sr).
Proof.
  destruct l as [|[code|text] l]; intros Hl; [by eexists| |].
  - simpl in Hl. apply andb_true_iff in Hl as [H1%Z.leb_le H2%Z.leb_le].
    assert (conn_WriteHeader code NewResponseWriter = Some (mkResponseWriter (Some code) [] "")) as Hw.
    { unfold conn_WriteHeader. simpl. rewrite (proj2 (Z.ltb_ge code 100)), (proj2 (Z.ltb_ge 999 code)), (proj2 (Z.ltb_ge code 200)) by lia.
      done. }
    cbn [calls recorder_call conn_call]. unfold statusRecorder_WriteHeader. simpl. rewrite Hw. cbn [mbind option_bind].
    destruct (recorder_after l (mkResponseWriter (Some code) [] "") (mkStatusRecorder (mkResponseWriter (Some code) [] "") code true))
      as (sr & H3 & H4 & H5 & H6); try done. exists sr. by rewrite H5, H6.
  - destruct (recorder_writes (Write text :: l) (record NewResponseWriter) Hl) as (sr & H1 & H2 & H3 & H4); try done.
    exists sr. by rewrite H3, H4.
Qed.

(** An answer of pkg/response is orderly: the peer receives its status and text. *)
Lemma JSON_recorded status data : (200 ≤ status ≤ 999)%Z →
  ∃ sr, calls recorder_call (JSON_calls status data) (record NewResponseWriter) = Some sr ∧
    sr_status sr = resp_Status (response_data status data) ∧
    sent_status (sr_ResponseWriter sr) = resp_Status (response_data status data) ∧
    rw_body (sr_ResponseWriter sr) =
      from_option (λ j, Marshal j +:+ String (Ascii.ascii_of_N 10) "") "" (resp_Body (response_data status data)).
Proof.
  intros Hs. destruct (recorder_exact (JSON_calls status data)) as (sr & H1 & H2 & H3).
  { simpl. apply andb_true_iff. split; apply Z.leb_le; lia. }
  exists sr. split; [exact H1|]. rewrite H3. unfold JSON_calls in H2. cbn [calls conn_call] in H2.
  unfold conn_WriteHeader in H2. simpl in H2.
  rewrite (proj2 (Z.ltb_ge status 100)), (proj2 (Z.ltb_ge 999 status)), (proj2 (Z.ltb_ge status 200)) in H2 by lia.
  destruct data; simpl in H2; by injection H2 as <-.
Qed.

(** A handler that writes a body before its status would be refunded although the
    peer received 200. *)
Lemma late_status_misrecorded :
  ∃ sr, calls recorder_call [Write "x"; WriteHeader 500] (record NewResponseWriter) = Some sr ∧
    sr_status sr = 500%Z ∧ sent_status (sr_ResponseWriter sr) = 200%Z.
Proof. eexists. split; [reflexivity|]. done. Qed.
