(* ===== verification/Quota.v ===== *)
(** * Quota: message quotas, internal/quota

    The usage counter of a tenant's period lives in Redis.  [Reserve] claims
    slots with INCRBY and rolls back over the limit, [Refund] gives slots back,
    [Middleware] ties both to an HTTP request.  The webhook of
    [notifyThreshold] runs in its own goroutine in the source; its request is
    recorded here when it is started. *)
From S2P Require Import Prelude GoTime Json JsonText Domain World Repository Integrity SampleEnv Tasks Http.

Record Decision := mkDecision { d_Allowed : bool; d_Used : Z; d_Limit : Z }.

Definition counterTTL : Duration := 45 * 24 * Hour.

Definition crossed (prev now limit pct : Z) : bool :=
  let threshold := (wrap64 (limit * pct) /t 100)%Z in
  (prev <? threshold)%Z && (threshold <=? now)%Z.

Section quota.
Context `{E : Env} (webhookURL : string).

Definition EntitlementsFor (tenantID : uuid) : M (result Entitlements) :=
  EntitlementsOrFree PgEntitlementRepo_GetByTenantID time_Now tenantID.

Definition usageKey (tenantID : uuid) (periodStart : Time) : string :=
  "usage:" +:+ uuid_String tenantID +:+ ":" +:+ pretty (time_Unix periodStart).

Definition alertKey (tenantID : uuid) (periodStart : Time) (pct : Z) : string :=
  "quota-alert:" +:+ uuid_String tenantID +:+ ":" +:+ pretty (time_Unix periodStart) +:+ ":" +:+ pretty pct.

Definition rdb_IncrBy (key : string) (n : Z) : M (result Z) := redis_do (λ r, redis_IncrBy r key n).
Definition rdb_DecrBy (key : string) (n : Z) : M (result Z) := redis_do (λ r, redis_IncrBy r key (- n)).
Definition rdb_Expire (key : string) (d : Duration) : M (result unit) := redis_do (λ r, (tt, redis_Expire r key d)).

(** SET NX answers [redis.Nil] when the key exists. *)
Definition rdb_SetNX (key : string) (v : Z) (d : Duration) : M (result unit) :=
  r ← redis_do (λ r, redis_SetNX r key v d);
  mret match r with
       | Ok true => Ok tt
       | Ok false => Err (errors_New "redis: nil")
       | Err e => Err e
       end.

Definition alert_payload (tenantID : uuid) (ent : Entitlements) (used pct : Z) : string :=
  match json_time (ent_PeriodStart ent) with
  | Err _ => ""
  | Ok start => Marshal (JObj [("limit", JInt (ent_MessageLimit ent)); ("period_start", start);
                               ("tenant_id", json_uuid tenantID); ("threshold", JInt pct); ("usage", JInt used)])
  end.

Definition notifyThreshold (tenantID : uuid) (ent : Entitlements) (used pct : Z) : M unit :=
  if bool_decide (webhookURL = "") then mret tt
  else
    set ← rdb_SetNX (alertKey tenantID (ent_PeriodStart ent) pct) 1 counterTTL;
    match set with
    | Err _ => mret tt
    | Ok _ =>
        let payload := alert_payload tenantID ent used pct in
        if negb (url_parses webhookURL) then mret tt
        else log_err (client_Do (mkHttpRequest "POST" webhookURL
                        (Header_Set "Content-Type" "application/json" ∅) payload))
               "quota alert webhook failed"
    end.

Definition Reserve (tenantID : uuid) (n : Z) : M (result Decision) :=
  ent ←? EntitlementsFor tenantID;
  now ← time_Now;
  if negb (now <? ent_PeriodEnd ent)%Z then mret (Err (sentinel_error ErrPeriodExpired))
  else
    let key := usageKey tenantID (ent_PeriodStart ent) in
    used ←? rdb_IncrBy key n;
    _ ← (if (used =? n)%Z then log_err (rdb_Expire key counterTTL) "failed to set usage key TTL" else mret tt);
    if (ent_MessageLimit ent <? used)%Z then
      r ← rdb_DecrBy key n;
      rolledBack ← match r with
                   | Ok v => mret v
                   | Err _ => _ ← log "quota rollback failed"; mret (used - n)%Z
                   end;
      _ ← notifyThreshold tenantID ent rolledBack 100;
      mret (Ok (mkDecision false rolledBack (ent_MessageLimit ent)))
    else
      let prev := (used - n)%Z in
      _ ← (if crossed prev used (ent_MessageLimit ent) 80 then notifyThreshold tenantID ent used 80 else mret tt);
      _ ← (if (used =? ent_MessageLimit ent)%Z then notifyThreshold tenantID ent used 100 else mret tt);
      mret (Ok (mkDecision true used (ent_MessageLimit ent))).

Definition Refund (tenantID : uuid) (n : Z) : M (result unit) :=
  r ← EntitlementsFor tenantID;
  match r with
  | Err err => _ ← log "quota refund: failed to resolve entitlements"; mret (Err err)
  | Ok ent =>
      let key := usageKey tenantID (ent_PeriodStart ent) in
      r ← rdb_DecrBy key n;
      match r with
      | Err err => _ ← log "quota refund: DecrBy failed"; mret (Err err)
      | Ok newVal =>
          if (newVal <? 0)%Z then _ ← rdb_IncrBy key (- newVal); mret (Ok tt)
          else mret (Ok tt)
      end
  end.
End quota.

(** ** middleware.go *)

Section middleware.
Context `{E : Env} (svc_Reserve : uuid → Z → M (result Decision)) (svc_Refund : uuid → Z → M (result unit)).

(** [probe.Channels]: the number of elements when the body has that shape. *)
Definition probe_channels (doc : option json) : Z :=
  match doc with
  | None => 1
  | Some j =>
      match rbind (json_object j) (field (dec_slice dec_raw None) "channels" []) with
      | Ok (c :: cs) => Z.of_nat (length (c :: cs))
      | _ => 1
      end
  end.

Definition quota_Middleware (upgradeURL : string) (next : Request → M Response) (r : Request) : M Response :=
  match r_Claims r with
  | None => mret (response_Error StatusUnauthorized "unauthorized")
  | Some claims =>
      let multi := HasSuffix (r_Path r) "/send-multi" in
      match (if multi then io_ReadAll (r_Body r) else Ok "") with
      | Err _ => mret (response_Error StatusBadRequest "failed to read body")
      | Ok body =>
          let r := if multi then with_Body (NewReader body) r else r in
          let n := if multi then probe_channels (parse_json body) else 1%Z in
          decision ← svc_Reserve (tc_TenantID claims) n;
          match decision with
          | Err err =>
              if errors_Is err ErrPeriodExpired
              then mret (response_JSON StatusPaymentRequired
                     (JObj [("error", JStr "SUBSCRIPTION_PERIOD_EXPIRED"); ("renew_url", JStr upgradeURL)]))
              else mret (response_Error StatusInternalServerError "internal server error")
          | Ok decision =>
              if negb (d_Allowed decision)
              then mret (response_JSON StatusTooManyRequests
                     (JObj [("error", JStr "QUOTA_EXCEEDED"); ("upgrade_url", JStr upgradeURL)]))
              else
                resp ← next r;
                _ ← (if (400 <=? resp_Status resp)%Z
                     then _ ← svc_Refund (tc_TenantID claims) n; mret tt
                     else mret tt);
                mret resp
          end
      end
  end.
End middleware.

(** ** Concurrent requests on one counter

    Between two commands of a request Redis serves others.  A [client] is a
    request of the period by how far it has come; [qstep] lets any client issue
    its next command of [Reserve] or [Refund]. *)

Inductive client :=
| Fresh (n : Z)        (* about to INCRBY n *)
| Over (n : Z)         (* over the limit, about to roll back *)
| Holding (n : Z)      (* allowed, n slots held *)
| Fixing (m : Z)       (* a refund went below zero, about to add m *)
| Settled.

Section concurrent.
Context `{E : Env} (key : string) (limit : Z).

Inductive qstep : redis * list client → redis * list client → Prop :=
| q_allow r cs i n :
    cs !! i = Some (Fresh n) → ((redis_IncrBy r key n).1 ≤ limit)%Z →
    qstep (r, cs) ((redis_IncrBy r key n).2, <[i := Holding n]> cs)
| q_over r cs i n :
    cs !! i = Some (Fresh n) → (limit < (redis_IncrBy r key n).1)%Z →
    qstep (r, cs) ((redis_IncrBy r key n).2, <[i := Over n]> cs)
| q_rollback r cs i n :
    cs !! i = Some (Over n) →
    qstep (r, cs) ((redis_IncrBy r key (- n)).2, <[i := Settled]> cs)
| q_refund r cs i n :
    cs !! i = Some (Holding n) → (0 ≤ (redis_IncrBy r key (- n)).1)%Z →
    qstep (r, cs) ((redis_IncrBy r key (- n)).2, <[i := Settled]> cs)
| q_refund_low r cs i n :
    cs !! i = Some (Holding n) → ((redis_IncrBy r key (- n)).1 < 0)%Z →
    qstep (r, cs) ((redis_IncrBy r key (- n)).2, <[i := Fixing (- (redis_IncrBy r key (- n)).1)]> cs)
| q_fix r cs i m :
    cs !! i = Some (Fixing m) →
    qstep (r, cs) ((redis_IncrBy r key m).2, <[i := Settled]> cs)
| q_other r r' cs :
    default 0%Z (redis_value r' key) = default 0%Z (redis_value r key) → qstep (r, cs) (r', cs).
End concurrent.
