(* ===== verification/QuotaProps.v ===== *)
(** * QuotaProps: the properties of message quotas *)
From S2P Require Import Prelude GoTime Json Domain World Repository Integrity SampleEnv Tasks Provider.
From S2P Require Import Samples Http Quota.

(** The usage counter of a tenant's period; 0 when Redis has no key. *)
Definition counter `{E : Env} (tid : uuid) (start : Time) (w : World) : Z :=
  default 0%Z (redis_value (w_redis w) (usageKey tid start)).

Section quota_facts.
Context {E : Env} {RL : RedisLaws E} (webhookURL : string).

(** The alert key of a threshold is never a usage key. *)
Lemma alertKey_usageKey tid start pct tid' start' : alertKey tid start pct ≠ usageKey tid' start'.
Proof. unfold alertKey, usageKey. intros [=]. Qed.

(** A computation that leaves the counter alone. *)
Lemma notifyThreshold_counter tid ent used pct tid' start :
  keeps (same (counter tid' start)) (notifyThreshold webhookURL tid ent used pct).
Proof.
  intros w. unfold notifyThreshold, same. case_bool_decide; [done|]. rewrite ST_bind_run.
  assert (counter tid' start (rdb_SetNX (alertKey tid (ent_PeriodStart ent) pct) 1 counterTTL w).2 =
          counter tid' start w) as Hs.
  { unfold rdb_SetNX. rewrite ST_bind_run. unfold redis_do. destruct (env_fault _); simpl; [|done|].
    all: unfold counter; simpl; rewrite redis_SetNX_value by done.
    all: by rewrite decide_False by apply alertKey_usageKey. }
  destruct (rdb_SetNX _ _ _ w) as [[[]|e] w1]; simpl in *; [|done].
  destruct (negb _); [done|]. rewrite <- Hs. unfold log_err. rewrite ST_bind_run. destruct (client_Do _ w1) as [[r|e] w2] eqn:Hd; unfold client_Do in Hd; injection Hd as Hd1 Hd2; subst w2; done.
Qed.

Lemma notifyThreshold_db tid ent used pct : keeps (same w_db) (notifyThreshold webhookURL tid ent used pct).
Proof. unfold notifyThreshold, rdb_SetNX. keeps_auto. Qed.

Lemma rdb_IncrBy_fine key n w :
  no_faults → in_int64 (default 0%Z (redis_value (w_redis w) key) + n) →
  (rdb_IncrBy key n w).1 = Ok (default 0%Z (redis_value (w_redis w) key) + n)%Z ∧
  redis_value (w_redis (rdb_IncrBy key n w).2) key = Some (default 0%Z (redis_value (w_redis w) key) + n)%Z ∧
  w_db (rdb_IncrBy key n w).2 = w_db w.
Proof.
  intros Hf Hi. unfold rdb_IncrBy. rewrite redis_do_fine by done. simpl.
  rewrite redis_IncrBy_answer, redis_IncrBy_value by done. by rewrite decide_True.
Qed.

Lemma rdb_Expire_counter key d tid start : (0 < d)%Z → keeps (same (counter tid start)) (rdb_Expire key d).
Proof.
  intros Hd w. unfold same, counter, rdb_Expire, redis_do.
  destruct (env_fault _); simpl; [|done|]; by rewrite redis_Expire_value.
Qed.

Lemma log_counter msg tid start : keeps (same (counter tid start)) (log msg).
Proof. by intros w. Qed.

Hint Resolve notifyThreshold_counter log_counter : keeps.

(** The decision of [Reserve] on a counter value. *)
Definition reserve_decision (limit c n : Z) : Decision :=
  if (limit <? c + n)%Z then mkDecision false c limit else mkDecision true (c + n) limit.
Definition reserve_counter (limit c n : Z) : Z := if (limit <? c + n)%Z then c else (c + n)%Z.

Lemma EntitlementsFor_row tid ent w :
  no_faults → tenant_entitlements (w_db w) !! tid = Some ent →
  EntitlementsFor tid w = (Ok ent, set_db (w_db w) (next_tick w)).
Proof.
  intros Hf He. unfold EntitlementsFor, EntitlementsOrFree, PgEntitlementRepo_GetByTenantID.
  rewrite ST_bind_run, db_query_fine by done. simpl. by rewrite He.
Qed.

Lemma Reserve_fine tid ent n w :
  no_faults → tenant_entitlements (w_db w) !! tid = Some ent →
  (env_now (S (w_tick w)) < ent_PeriodEnd ent)%Z →
  let c := counter tid (ent_PeriodStart ent) w in
  in_int64 c → in_int64 (c + n) →
  ∃ w', Reserve webhookURL tid n w = (Ok (reserve_decision (ent_MessageLimit ent) c n), w') ∧
    counter tid (ent_PeriodStart ent) w' = reserve_counter (ent_MessageLimit ent) c n ∧ w_db w' = w_db w.
Proof.
  intros Hf He Hp. cbv zeta. set (c := counter tid (ent_PeriodStart ent) w). intros Hc Hi.
  unfold Reserve. unfold try_bind at 1. rewrite ST_bind_run, (EntitlementsFor_row tid ent) by done. cbn [fst snd].
  rewrite ST_bind_run. unfold time_Now at 1. cbn [fst snd w_tick set_db next_tick].
  rewrite (proj2 (Z.ltb_lt _ _)) by done. cbn [negb].
  set (w1 := (time_Now _).2). set (key := usageKey tid (ent_PeriodStart ent)).
  destruct (rdb_IncrBy_fine key n w1 Hf Hi) as (Hr & Hv & Hd).
  unfold try_bind at 1. rewrite ST_bind_run, Hr.
  change (default 0%Z (redis_value (w_redis w1) key)) with c in *. change (w_db w1) with (w_db w) in Hd.
  set (w2 := (rdb_IncrBy key n w1).2) in *. rewrite ST_bind_run.
  match goal with |- context [(?m w2).2] => set (m1 := m) end. set (w3 := (m1 w2).2).
  assert (keeps (same (counter tid (ent_PeriodStart ent))) m1) as Hk1.
  { unfold m1. keeps_step; [apply keeps_log_err; [apply _|by apply rdb_Expire_counter|apply log_counter]|keeps_step]. }
  assert (keeps (same w_db) m1) as Hk1' by (unfold m1, rdb_Expire; keeps_auto).
  assert (counter tid (ent_PeriodStart ent) w3 = (c + n)%Z) as Hc3.
  { etrans; [apply Hk1|]. unfold counter. fold key. by rewrite Hv. }
  assert (w_db w3 = w_db w) as Hd3 by (etrans; [apply Hk1'|exact Hd]).
  unfold reserve_decision, reserve_counter.
  destruct (ent_MessageLimit ent <? c + n)%Z.
  - rewrite ST_bind_run.
    assert (default 0%Z (redis_value (w_redis w3) key) + - n = c)%Z as Hb.
    { change (default 0%Z (redis_value (w_redis w3) key)) with (counter tid (ent_PeriodStart ent) w3).
      rewrite Hc3. lia. }
    destruct (rdb_IncrBy_fine key (- n) w3 Hf) as (Hr' & Hv' & Hd'); [by rewrite Hb|].
    change (rdb_DecrBy key n w3) with (rdb_IncrBy key (- n) w3). rewrite Hr', Hb. rewrite Hb in Hv'.
    rewrite ST_bind_run. cbn [fst snd mret ST_ret]. rewrite ST_bind_run. eexists; split; [done|]. cbn [fst snd]. split.
    + etrans; [apply notifyThreshold_counter|]. unfold counter. fold key. by rewrite Hv'.
    + etrans; [apply notifyThreshold_db|]. by rewrite Hd'.
  - cbv zeta. match goal with |- ∃ _, ?m w3 = _ ∧ _ => set (m2 := m) end.
    assert (keeps (same (counter tid (ent_PeriodStart ent))) m2) as Hk by (unfold m2; repeat keeps_step; eauto with keeps).
    assert (keeps (same w_db) m2) as Hk' by (unfold m2; repeat keeps_step; eauto using notifyThreshold_db).
    exists (m2 w3).2. split; [unfold m2; by rewrite !ST_bind_run|]. by rewrite (Hk w3), (Hk' w3).
Qed.

Lemma Refund_fine tid ent n w :
  no_faults → tenant_entitlements (w_db w) !! tid = Some ent →
  let c := counter tid (ent_PeriodStart ent) w in
  in_int64 (c - n) →
  ∃ w', Refund tid n w = (Ok tt, w') ∧ counter tid (ent_PeriodStart ent) w' = Z.max 0 (c - n).
Proof.
  intros Hf He. cbv zeta. set (c := counter tid (ent_PeriodStart ent) w). intros Hi.
  unfold Refund. rewrite ST_bind_run, (EntitlementsFor_row tid ent) by done. cbn [fst snd].
  set (w1 := set_db _ _). set (key := usageKey tid (ent_PeriodStart ent)).
  rewrite ST_bind_run. change (rdb_DecrBy key n w1) with (rdb_IncrBy key (- n) w1).
  destruct (rdb_IncrBy_fine key (- n) w1 Hf Hi) as (Hr & Hv & _). rewrite Hr.
  change (default 0%Z (redis_value (w_redis w1) key) + - n)%Z with (c - n)%Z in *.
  destruct (Z.ltb_spec (c - n) 0) as [Hlt|Hge].
  - rewrite ST_bind_run. eexists; split; [done|]. cbn [snd mret ST_ret].
    set (w2 := (rdb_IncrBy key (- n) w1).2) in *.
    destruct (rdb_IncrBy_fine key (- (c - n)) w2 Hf) as (_ & Hv' & _).
    { rewrite Hv. simpl. rewrite Z.add_opp_diag_r. by apply (bool_decide_unpack (in_int64 0)). }
    unfold counter. fold key. rewrite Hv', Hv. simpl. lia.
  - eexists; split; [done|]. cbn [snd]. unfold counter. fold key. rewrite Hv. simpl. lia.
Qed.
End quota_facts.

(** ** The concurrent counter *)

Section concurrent_facts.
Context {E : Env} {RL : RedisLaws E} (key : string) (limit : Z).

Definition held (c : client) : Z := match c with Holding n => n | _ => 0 end.
Definition excess (c : client) : Z := match c with Over n => n | _ => 0 end.
Definition asked (c : client) : Z := match c with Fresh n | Over n | Holding n => n | _ => 0 end.
Definition sane (c : client) : Prop :=
  match c with Fresh n | Over n | Holding n => (0 < n)%Z | Fixing _ => False | Settled => True end.

Definition at_key (r : redis) : Z := default 0%Z (redis_value r key).

(** The counter is what was there, plus the slots held, plus the claims still
    to be rolled back; the slots held fit under the limit. *)
Record quota_inv (c0 : Z) (s : redis * list client) : Prop := {
  qi_sane : Forall sane s.2;
  qi_room : (0 ≤ c0)%Z ∧ (c0 + sumZ asked s.2 ≤ int64_max)%Z;
  qi_count : at_key s.1 = (c0 + sumZ held s.2 + sumZ excess s.2)%Z;
  qi_limit : sumZ held s.2 = 0%Z ∨ (c0 + sumZ held s.2 ≤ limit)%Z
}.

Lemma sumZ_update {A} (f : A → Z) l i x y :
  l !! i = Some x → sumZ f (<[i := y]> l) = (sumZ f l - f x + f y)%Z.
Proof.
  revert i. induction l as [|z l IH]; intros [|i] Hi; simplify_eq/=; [lia|].
  unfold sumZ in *. simpl in *. rewrite IH by done. lia.
Qed.

Lemma sumZ_elem {A} (f : A → Z) l i x :
  l !! i = Some x → (∀ y, y ∈ l → (0 ≤ f y)%Z) → (f x ≤ sumZ f l)%Z.
Proof.
  intros Hi Hn. destruct (list_elem_of_split l x) as (l1 & l2 & ->); [by eapply list_elem_of_lookup_2|].
  rewrite sumZ_app. simpl.
  pose proof (sumZ_nonneg f l1 ltac:(intros; apply Hn; set_solver)).
  pose proof (sumZ_nonneg f l2 ltac:(intros; apply Hn; set_solver)). lia.
Qed.

Lemma sane_bounds c : sane c → (0 ≤ held c ∧ 0 ≤ excess c ∧ 0 ≤ asked c ∧ held c + excess c ≤ asked c)%Z.
Proof. destruct c; simpl; lia. Qed.

Lemma sums_bounds cs :
  Forall sane cs → (0 ≤ sumZ held cs ∧ 0 ≤ sumZ excess cs ∧ sumZ held cs + sumZ excess cs ≤ sumZ asked cs)%Z.
Proof.
  induction 1 as [|c cs Hc _ IH]; simpl; [lia|]. pose proof (sane_bounds c Hc). lia.
Qed.

Lemma sumZ_extra cs i x :
  cs !! i = Some x → Forall sane cs →
  (sumZ held cs + sumZ excess cs + (asked x - held x - excess x) ≤ sumZ asked cs)%Z.
Proof.
  intros Hi Hs. pose proof (sums_bounds (<[i := Settled]> cs)) as Hb.
  rewrite !(sumZ_update _ _ _ _ _ Hi) in Hb. simpl in Hb. destruct Hb as (_ & _ & Hb); [by apply Forall_insert|]. lia.
Qed.

(** Replacing one client, with the counter following its weight. *)
Lemma inv_update c0 r r' cs i x y :
  quota_inv c0 (r, cs) → cs !! i = Some x → sane y → (asked y ≤ asked x)%Z →
  at_key r' = (at_key r - held x - excess x + held y + excess y)%Z →
  (held y ≤ held x ∨ c0 + sumZ held cs - held x + held y ≤ limit)%Z →
  quota_inv c0 (r', <[i := y]> cs).
Proof.
  intros [Hsane Hroom Hcnt Hlim] Hi Hy Ha Hr Hh. simpl in *.
  assert (Forall sane (<[i := y]> cs)) as Hsane' by (by apply Forall_insert).
  pose proof (sums_bounds _ Hsane) as Hb. pose proof (sums_bounds _ Hsane') as Hb'.
  rewrite !(sumZ_update _ _ _ _ _ Hi) in Hb'.
  split; simpl; [done| | |]; rewrite ?(sumZ_update _ _ _ _ _ Hi); lia.
Qed.

(** A client of a sane state, and what INCRBY does for it. *)
Lemma inv_client c0 r cs i x n :
  quota_inv c0 (r, cs) → cs !! i = Some x → (n = asked x ∧ held x + excess x = 0 ∨ n = - (held x + excess x))%Z →
  sane x ∧ (redis_IncrBy r key n).1 = (at_key r + n)%Z ∧ at_key (redis_IncrBy r key n).2 = (at_key r + n)%Z ∧
  (held x + excess x ≤ at_key r)%Z.
Proof.
  intros [Hsane [Hc0 Hroom] Hcnt _] Hi Hn. simpl in *. pose proof (sums_bounds _ Hsane) as Hb.
  rewrite Forall_lookup in Hsane. pose proof (sane_bounds x (Hsane i x Hi)) as Hx.
  assert (∀ f, (∀ c, sane c → 0 ≤ f c)%Z → (f x ≤ sumZ f cs)%Z) as Hle.
  { intros f Hf. eapply sumZ_elem; [done|]. intros y [j Hj]%list_elem_of_lookup_1. by apply Hf, (Hsane j). }
  pose proof (Hle held ltac:(intros; by apply sane_bounds)). pose proof (Hle excess ltac:(intros; by apply sane_bounds)).
  assert (in_int64 (default 0%Z (redis_value r key) + n)) as Hi64.
  { change (default 0%Z (redis_value r key)) with (at_key r). rewrite Hcnt.
    unfold in_int64, int64_min, int64_max in *.
    pose proof (sumZ_extra cs i x Hi (proj2 (Forall_lookup _ _) Hsane)). lia. }
  split; [by eapply Hsane|]. rewrite redis_IncrBy_answer by done. unfold at_key.
  rewrite redis_IncrBy_value, decide_True by done. split_and!; [done..|]. fold (at_key r). lia.
Qed.

Lemma qstep_inv c0 s s' : qstep key limit s s' → quota_inv c0 s → quota_inv c0 s'.
Proof.
  intros Hs Hinv. pose proof (qi_count _ _ Hinv) as Hcnt. pose proof (sums_bounds _ (qi_sane _ _ Hinv)) as Hb.
  destruct Hs as [r cs i n Hi Hle|r cs i n Hi Hlt|r cs i n Hi|r cs i n Hi Hge|r cs i n Hi Hlt|r cs i m Hi|r r' cs Hv].
  - destruct (inv_client c0 r cs i (Fresh n) n Hinv Hi) as (Hx & Ha & Hk & _); [simpl; lia|].
    eapply inv_update; [done..| | |]; simpl in *; rewrite ?Hk; lia.
  - destruct (inv_client c0 r cs i (Fresh n) n Hinv Hi) as (Hx & Ha & Hk & _); [simpl; lia|].
    eapply inv_update; [done..| | |]; simpl in *; rewrite ?Hk; lia.
  - destruct (inv_client c0 r cs i (Over n) (- n) Hinv Hi) as (Hx & Ha & Hk & _); [simpl; lia|].
    eapply inv_update; [done..| | |]; simpl in *; rewrite ?Hk; lia.
  - destruct (inv_client c0 r cs i (Holding n) (- n) Hinv Hi) as (Hx & Ha & Hk & _); [simpl; lia|].
    eapply inv_update; [done..| | |]; simpl in *; rewrite ?Hk; lia.
  - destruct (inv_client c0 r cs i (Holding n) (- n) Hinv Hi) as (Hx & Ha & Hk & Hh); [simpl; lia|].
    simpl in Hh. exfalso. lia.
  - destruct Hinv as [Hsane _ _ _]. rewrite Forall_lookup in Hsane. by destruct (Hsane i _ Hi).
  - destruct Hinv as [H1 H2 H3 H4]. split; simpl in *; [done..| |done]. unfold at_key in *. by rewrite Hv.
Qed.
End concurrent_facts.

(** Alone on the counter, a [Reserve] is the steps of one client. *)
Lemma reserve_steps {E : Env} {RL : RedisLaws E} key limit r r' n :
  in_int64 (at_key key r) → in_int64 (at_key key r + n) →
  at_key key r' = reserve_counter limit (at_key key r) n →
  rtc (qstep key limit) (r, [Fresh n]) (r', [if (limit <? at_key key r + n)%Z then Settled else Holding n]).
Proof.
  intros Hc Hi Hr'. unfold reserve_counter in Hr'.
  assert (∀ r m, in_int64 (at_key key r + m) →
    (redis_IncrBy r key m).1 = (at_key key r + m)%Z ∧ at_key key (redis_IncrBy r key m).2 = (at_key key r + m)%Z) as Hincr.
  { intros r1 m Hm. split; [by apply redis_IncrBy_answer|]. unfold at_key in *.
    by rewrite redis_IncrBy_value, decide_True by done. }
  destruct (Hincr r n Hi) as [Ha Hk]. destruct (Z.ltb_spec limit (at_key key r + n)).
  - eapply rtc_l; [apply (q_over key limit r [Fresh n] 0 n); [done|by rewrite Ha]|].
    eapply rtc_l; [by apply (q_rollback key limit _ _ 0 n)|]. apply rtc_once, q_other.
    change (at_key key r' = at_key key (redis_IncrBy (redis_IncrBy r key n).2 key (- n)).2).
    rewrite (proj2 (Hincr (redis_IncrBy r key n).2 (- n)%Z ltac:(rewrite Hk; by replace (at_key key r + n + - n)%Z with (at_key key r) by lia))).
    lia.
  - eapply rtc_l; [apply (q_allow key limit r [Fresh n] 0 n); [done|by rewrite Ha]|]. apply rtc_once, q_other.
    change (at_key key r' = at_key key (redis_IncrBy r key n).2). lia.
Qed.

(** * Claims *)

(** C15: However the Redis commands of concurrent Reserve and Refund calls on one period interleave, the slots
    held by allowed requests never exceed the limit, and the counter is the initial usage plus the slots held
    plus those about to be rolled back; once no rollback is pending it is exact. *)
Theorem concurrent_reservations_respect_limit {E : Env} {RL : RedisLaws E} key limit r0 ns r cs :
  (0 ≤ at_key key r0)%Z → Forall (λ n, 0 < n)%Z ns → (at_key key r0 + sumZ id ns ≤ int64_max)%Z →
  rtc (qstep key limit) (r0, Fresh <$> ns) (r, cs) →
  (sumZ held cs = 0 ∨ at_key key r0 + sumZ held cs ≤ limit)%Z ∧
  (at_key key r = at_key key r0 + sumZ held cs + sumZ excess cs)%Z ∧
  (Forall (λ c, excess c = 0%Z) cs → at_key key r = (at_key key r0 + sumZ held cs)%Z).
Proof.
  intros H0 Hns Hroom Hrun.
  assert (sumZ held (Fresh <$> ns) = 0 ∧ sumZ excess (Fresh <$> ns) = 0 ∧ sumZ asked (Fresh <$> ns) = sumZ id ns)%Z as (Hh & Hx & Ha).
  { clear. induction ns as [|n ns IH]; [done|]. csimpl. unfold id in *. lia. }
  assert (quota_inv key limit (at_key key r0) (r0, Fresh <$> ns)) as Hinv.
  { split; simpl; [|rewrite Ha; lia|lia|by left]. apply Forall_fmap. eapply Forall_impl; [exact Hns|done]. }
  remember (r0, Fresh <$> ns) as s0 eqn:Hs0. remember (r, cs) as s1 eqn:Hs1. clear Hs0. revert r cs Hs1.
  induction Hrun as [s|s s' s'' Hstep _ IH]; intros r cs ->; [|by apply IH; [eapply qstep_inv|]].
  destruct Hinv as [_ _ Hc Hl]. simpl in *. split_and!; [done..|]. intros He. rewrite Hc.
  assert (sumZ excess cs = 0)%Z as ->; [|lia].
  clear -He. induction He as [|c cs Hc _ IH]; [done|]. simpl. lia.
Qed.

(** Reserve inside the period answers Allowed exactly when usage plus the request stays within the limit, adds
    the request to the counter in that case and restores the counter otherwise, so a counter within the limit
    stays within it; its Redis commands are those of one client of the interleaving model. *)
Theorem reserve_counts_exactly {E : Env} {RL : RedisLaws E} url tid ent n w :
  no_faults → tenant_entitlements (w_db w) !! tid = Some ent →
  (env_now (S (w_tick w)) < ent_PeriodEnd ent)%Z →
  let c := counter tid (ent_PeriodStart ent) w in
  in_int64 c → in_int64 (c + n) →
  let res := Reserve url tid n w in
  res.1 = Ok (reserve_decision (ent_MessageLimit ent) c n) ∧
  rtc (qstep (usageKey tid (ent_PeriodStart ent)) (ent_MessageLimit ent)) (w_redis w, [Fresh n])
    (w_redis res.2, [if (ent_MessageLimit ent <? c + n)%Z then Settled else Holding n]) ∧
  counter tid (ent_PeriodStart ent) res.2 = reserve_counter (ent_MessageLimit ent) c n ∧
  (c ≤ ent_MessageLimit ent → counter tid (ent_PeriodStart ent) res.2 ≤ ent_MessageLimit ent)%Z.
Proof.
  intros Hf He Hp c Hc Hi res. destruct (Reserve_fine url tid ent n w Hf He Hp Hc Hi) as (w' & Hr & Hcnt & _).
  unfold res. rewrite Hr. simpl. split_and!; [done|by apply reserve_steps|done|]. rewrite Hcnt. unfold reserve_counter.
  destruct (Z.ltb_spec (ent_MessageLimit ent) (counter tid (ent_PeriodStart ent) w + n)); lia.
Qed.

(** Outside the period Reserve refuses and leaves Redis alone. *)
Theorem expired_period_rejected {E : Env} url tid ent n w :
  no_faults → tenant_entitlements (w_db w) !! tid = Some ent →
  (ent_PeriodEnd ent ≤ env_now (S (w_tick w)))%Z →
  (Reserve url tid n w).1 = Err (sentinel_error ErrPeriodExpired) ∧ w_redis (Reserve url tid n w).2 = w_redis w.
Proof.
  intros Hf He Hp.
  assert (∃ w', Reserve url tid n w = (Err (sentinel_error ErrPeriodExpired), w') ∧ w_redis w' = w_redis w) as (w' & -> & ?);
    [|done].
  unfold Reserve, try_bind at 1. rewrite ST_bind_run, (EntitlementsFor_row tid ent) by done.
  cbn [fst snd]. rewrite ST_bind_run. unfold time_Now. cbn [fst snd w_tick set_db next_tick].
  rewrite (proj2 (Z.ltb_ge _ _)) by done. by eexists.
Qed.

(** The middleware with the number of slots made explicit. *)
Definition charge `{E : Env} (reserve : uuid → Z → M (result Decision)) (refund : uuid → Z → M (result unit))
    (upgradeURL : string) (tid : uuid) (n : Z) (serve : M Response) : M Response :=
  decision ← reserve tid n;
  match decision with
  | Err err =>
      if errors_Is err ErrPeriodExpired
      then mret (response_JSON StatusPaymentRequired
             (JObj [("error", JStr "SUBSCRIPTION_PERIOD_EXPIRED"); ("renew_url", JStr upgradeURL)]))
      else mret (response_Error StatusInternalServerError "internal server error")
  | Ok decision =>
      if negb (d_Allowed decision)
      then mret (response_JSON StatusTooManyRequests
             (JObj [("error", JStr "QUOTA_EXCEEDED"); ("upgrade_url", JStr upgradeURL)]))
      else
        resp ← serve;
        _ ← (if (400 <=? resp_Status resp)%Z then _ ← refund tid n; mret tt else mret tt);
        mret resp
  end.

Lemma quota_charges `{E : Env} reserve refund url next r claims :
  r_Claims r = Some claims → (HasSuffix (r_Path r) "/send-multi" = true → is_Ok (io_ReadAll (r_Body r)) = true) →
  quota_Middleware reserve refund url next r =
  charge reserve refund url (tc_TenantID claims)
    (if HasSuffix (r_Path r) "/send-multi" then probe_channels (r_JSON r) else 1) (next r).
Proof.
  intros Hc Hb. unfold quota_Middleware, r_JSON. rewrite Hc. destruct (HasSuffix _ _); [|done]. specialize (Hb eq_refl).
  destruct (io_ReadAll (r_Body r)) as [body|] eqn:Hr; [|done]. cbv zeta. by rewrite (with_Body_read r body Hr).
Qed.


(** * Witnesses *)

Section witnesses.
#[local] Existing Instance healthy.

Definition sample_plan : Entitlements :=
  mkEntitlements id_tenant "pro" 10 ValidChannelTypes 3 30 (time_Date 2026 3 1) (time_Date 2026 4 1) (time_Date 2026 3 1).

Definition plan_world : World := healthy_world (set_tenant_entitlements {[id_tenant := sample_plan]} sample_db).

Lemma plan_row : tenant_entitlements (w_db plan_world) !! id_tenant = Some sample_plan.
Proof. apply lookup_singleton_eq. Qed.

(** Eight slots in a period of ten, then five more. *)
Lemma concurrent_reservations_witness :
  let k := "usage:x:0" in let r1 := <[k := 8%Z]> (∅ : gmap string Z) in let r2 := <[k := 13%Z]> r1 in
  rtc (qstep k 10) ((∅ : gmap string Z), Fresh <$> [8; 5]%Z) (r2, [Holding 8; Over 5]) ∧
  (sumZ held [Holding 8; Over 5] = 0 ∨ 0 + sumZ held [Holding 8; Over 5] ≤ 10)%Z.
Proof.
  cbv zeta.
  assert (rtc (qstep "usage:x:0" 10) ((∅ : gmap string Z), Fresh <$> [8; 5]%Z)
    (<["usage:x:0" := 13%Z]> (<["usage:x:0" := 8%Z]> (∅ : gmap string Z)), [Holding 8; Over 5])) as Hrun.
  { eapply rtc_l; [apply (q_allow (E := healthy) "usage:x:0" 10 (∅ : gmap string Z) (Fresh <$> [8; 5]%Z) 0 8); [reflexivity|vm_compute; discriminate]|].
    eapply rtc_l; [apply (q_over (E := healthy) "usage:x:0" 10 (<["usage:x:0" := 8%Z]> (∅ : gmap string Z)) [Holding 8; Fresh 5] 1 5); [reflexivity|vm_compute; reflexivity]|]. apply rtc_refl. }
  split; [exact Hrun|].
  refine (proj1 (concurrent_reservations_respect_limit (E := healthy) "usage:x:0" 10 (∅ : gmap string Z) [8; 5]%Z _ _
    _ _ _ Hrun)).
  - vm_compute. discriminate.
  - repeat constructor.
  - vm_compute. discriminate.
Defined.

Lemma reserve_counts_witness :
  (Reserve "" id_tenant 4 plan_world).1 = Ok (mkDecision true 4 10).
Proof.
  apply (reserve_counts_exactly "" id_tenant sample_plan 4 plan_world).
  - done.
  - exact plan_row.
  - vm_compute. reflexivity.
  - vm_compute. split; discriminate.
  - vm_compute. split; discriminate.
Defined.

Definition plan_request : Request :=
  mkRequest "POST" "/notifications/send" "/notifications/send" ∅ ∅ ∅ (NewReader "")
    (Some (mkTenantClaims "notifyd" "" 0 0 0 "" id_tenant "acme" false)).

End witnesses.
