(* ===== verification/Maintenance.v ===== *)
(** * Maintenance: retention and usage reconciliation, retention.go of internal/worker

    [forEachTenant] pages through the tenants 500 at a time until a page is the
    last one; [forEachTenant_loop] carries fuel for that loop and
    [forEachTenant_done] shows that one page more than the tenants fill is enough. *)
From S2P Require Import Prelude GoTime Json Domain World Repository Integrity SampleEnv RepositoryProps Tasks.
From S2P Require Import Http Quota QuotaProps Provider Samples.

Definition pageSize : Z := 500.

Section maintenance.
Context `{E : Env}.

(** The body of the inner loop for one tenant. *)
Definition visit_tenant (fn : Tenant → Entitlements → M unit) (t : Tenant) : M unit :=
  ent ← EntitlementsOrFree PgEntitlementRepo_GetByTenantID time_Now (t_ID t);
  match ent with
  | Err _ => log "load entitlements failed"
  | Ok ent => fn t ent
  end.

Fixpoint visit_page (fn : Tenant → Entitlements → M unit) (ts : list Tenant) : M unit :=
  match ts with
  | [] => mret tt
  | t :: rest => _ ← visit_tenant fn t; visit_page fn rest
  end.

(** [None] when the fuel runs out. *)
Fixpoint forEachTenant_loop (fuel : nat) (offset : Z) (fn : Tenant → Entitlements → M unit)
    : M (option (result unit)) :=
  match fuel with
  | O => mret None
  | S fuel =>
      r ← PgTenantRepo_List pageSize offset;
      match r with
      | Err err => mret (Some (Err (errorf_w "list tenants" err)))
      | Ok (ts, total) =>
          _ ← visit_page fn ts;
          if (total <=? offset + pageSize)%Z || bool_decide (length ts = 0)
          then mret (Some (Ok tt))
          else forEachTenant_loop fuel (offset + pageSize) fn
      end
  end.

Definition forEachTenant (fuel : nat) (fn : Tenant → Entitlements → M unit) : M (option (result unit)) :=
  forEachTenant_loop fuel 0 fn.

Definition purge_tenant (t : Tenant) (ent : Entitlements) : M unit :=
  now ← time_Now;
  let cutoff := AddDate now 0 0 (- ent_RetentionDays ent) in
  r ← PgNotificationRepo_DeleteOlderThan (t_ID t) cutoff;
  match r with
  | Err _ => log "retention purge failed"
  | Ok n => if (0 <? n)%Z then log "retention purge" else mret tt
  end.

Definition HandleRetentionPurge (fuel : nat) : M (option (result unit)) := forEachTenant fuel purge_tenant.

Definition rdb_Set (key : string) (v : Z) (d : Duration) : M (result unit) := redis_do (λ r, (tt, redis_Set r key v d)).

Definition reconcile_tenant (t : Tenant) (ent : Entitlements) : M unit :=
  r ← PgNotificationRepo_UsageByTenant (t_ID t) (ent_PeriodStart ent) (ent_PeriodEnd ent);
  match r with
  | Err _ => log "usage reconcile failed"
  | Ok report =>
      let key := "usage:" +:+ uuid_String (t_ID t) +:+ ":" +:+ pretty (time_Unix (ent_PeriodStart ent)) in
      log_err (rdb_Set key (ur_Sent report) (45 * 24 * Hour)) "usage counter write failed"
  end.

Definition HandleUsageReconcile (fuel : nat) : M (option (result unit)) := forEachTenant fuel reconcile_tenant.
End maintenance.

(** ** The paging loop *)

Section paging.
Context {E : Env} {PL : PgLaws E}.

(** Tenants created at different instants have one order. *)
Definition distinct_times (m : gmap uuid Tenant) : Prop := unique_on t_CreatedAt m.

Definition sorted_tenants (tick : nat) (m : gmap uuid Tenant) : list Tenant :=
  merge_sort (by_desc t_CreatedAt) (pg_rows tick m).

#[local] Instance by_desc_trans {A} (key : A → Time) : Transitive (by_desc key).
Proof. intros x y z. unfold by_desc. lia. Qed.
#[local] Instance by_desc_total {A} (key : A → Time) : Total (by_desc key).
Proof. intros x y. unfold by_desc. lia. Qed.

Lemma sorted_tenants_perm tick m : sorted_tenants tick m ≡ₚ (map_to_list m).*2.
Proof. unfold sorted_tenants. by rewrite merge_sort_Permutation, pg_rows_perm. Qed.

(** The order of the list does not depend on how the rows are scanned. *)
Lemma sorted_tenants_stable tick tick' m : distinct_times m → sorted_tenants tick m = sorted_tenants tick' m.
Proof.
  intros Hd. apply (StronglySorted_unique_strong (by_desc t_CreatedAt)).
  - intros x y Hx Hy Hxy Hyx. rewrite sorted_tenants_perm in Hx, Hy.
    apply list_elem_of_fmap in Hx as ([k1 x1] & -> & Hx). apply list_elem_of_fmap in Hy as ([k2 y1] & -> & Hy).
    apply elem_of_map_to_list in Hx, Hy. unfold by_desc in *. simpl in *.
    assert (k1 = k2) as -> by (eapply Hd; [done..|lia]). congruence.
  - apply (StronglySorted_merge_sort _).
  - apply (StronglySorted_merge_sort _).
  - by rewrite !sorted_tenants_perm.
Qed.

Lemma sorted_tenants_length tick m : length (sorted_tenants tick m) = size m.
Proof. rewrite sorted_tenants_perm, length_fmap. apply length_map_to_list. Qed.

Lemma sql_count_all {A} (m : gmap uuid A) : sql_count (λ _, true) m = Z.of_nat (size m).
Proof.
  unfold sql_count. rewrite <- length_map_to_list.
  assert (∀ l : list (uuid * A), filter (λ '(_, _), true = true) l = l) as ->; [|done].
  induction l as [|[k x] l IH]; [done|]. rewrite filter_cons_True by done. by rewrite IH.
Qed.

Lemma List_fine limit offset w :
  no_faults → (0 ≤ limit)%Z → (0 ≤ offset)%Z → distinct_times (tenants (w_db w)) →
  ∃ w', PgTenantRepo_List limit offset w =
    (Ok (take (Z.to_nat limit) (drop (Z.to_nat offset) (sorted_tenants 0 (tenants (w_db w)))),
         Z.of_nat (size (tenants (w_db w)))), w') ∧
    w_db w' = w_db w ∧ w_redis w' = w_redis w.
Proof.
  intros Hf Hl Ho Hd. unfold PgTenantRepo_List, try_bind. rewrite ST_bind_run, db_query_fine by done. cbn [fst snd].
  rewrite ST_bind_run. unfold db_query_at, db_exec_at. rewrite db_exec_fine by done. cbn [fst snd].
  unfold sql_page. rewrite (proj2 (Z.ltb_ge _ _)), (proj2 (Z.ltb_ge _ _)) by done.
  match goal with |- context [merge_sort _ (pg_rows ?t ?m)] =>
    change (merge_sort (by_desc t_CreatedAt) (pg_rows t m)) with (sorted_tenants t m) end.
  rewrite sql_count_all, (sorted_tenants_stable _ 0) by done. by eexists.
Qed.

(** ** A rule for the loop

    [P done w] must survive reads, and follow each visited tenant. *)
Context (fn : Tenant → Entitlements → M unit) (T : gmap uuid Tenant) (P : list Tenant → World → Prop).
Context (Hf : no_faults) (Hdist : distinct_times T)
  (Hread : ∀ ts w w', w_db w' = w_db w → w_redis w' = w_redis w → P ts w → P ts w')
  (Htenants : ∀ ts w, P ts w → tenants (w_db w) = T)
  (Hvisit : ∀ ts t w, t ∈ sorted_tenants 0 T → t ∉ ts → P ts w → P (ts ++ [t]) (visit_tenant fn t w).2).

Let L := sorted_tenants 0 T.

Lemma sorted_NoDup : NoDup L.
Proof.
  unfold L. rewrite sorted_tenants_perm. apply NoDup_fmap_2_strong; [|apply NoDup_map_to_list].
  intros [k1 x1] [k2 x2] H1 H2 Heq. simpl in Heq. subst x2. apply elem_of_map_to_list in H1, H2.
  f_equal. eapply Hdist; [done..|]. done.
Qed.

Lemma visit_page_rule ts page rest w :
  ts ++ page ++ rest = L → P ts w → P (ts ++ page) (visit_page fn page w).2.
Proof.
  revert ts w. induction page as [|t page IH]; intros ts w HL HP; simpl; [by rewrite app_nil_r|].
  rewrite ST_bind_run. replace (ts ++ t :: page) with ((ts ++ [t]) ++ page) by (by rewrite <- app_assoc).
  pose proof sorted_NoDup as Hnd. rewrite <- HL in Hnd.
  apply IH; [by rewrite <- app_assoc|]. apply Hvisit; [| |done].
  - fold L. rewrite <- HL. set_solver.
  - apply NoDup_app in Hnd as (_ & Hnd & _). intros Ht. eapply Hnd; [exact Ht|]. set_solver.
Qed.

Lemma forEachTenant_loop_rule fuel k w :
  (Z.of_nat (length L) < pageSize * Z.of_nat (fuel + k))%Z → (0 < fuel)%nat → P (take (500 * k) L) w →
  ∃ w', forEachTenant_loop fuel (pageSize * Z.of_nat k) fn w = (Some (Ok tt), w') ∧ P L w'.
Proof.
  revert k w. induction fuel as [|fuel IH]; intros k w Hfuel Hpos HP; [lia|]. cbn [forEachTenant_loop].
  rewrite ST_bind_run.
  destruct (List_fine pageSize (pageSize * Z.of_nat k) w) as (w1 & -> & Hdb & Hr);
    [done|done|unfold pageSize; lia|by rewrite (Htenants _ _ HP)|].
  cbn [fst snd]. rewrite (Htenants _ _ HP). fold L.
  replace (Z.to_nat pageSize) with 500%nat by done.
  replace (Z.to_nat (pageSize * Z.of_nat k)) with (500 * k)%nat by (unfold pageSize; lia).
  set (page := take 500 (drop (500 * k) L)).
  assert (take (500 * k) L ++ page = take (500 * S k) L) as Hpage.
  { unfold page. rewrite take_take_drop. f_equal. lia. }
  assert (P (take (500 * S k) L) (visit_page fn page w1).2) as HP1.
  { rewrite <- Hpage. apply (visit_page_rule _ _ (drop (500 * S k) L)); [|by eapply Hread].
    rewrite app_assoc, Hpage. apply take_drop. }
  rewrite ST_bind_run. rewrite <- (sorted_tenants_length 0 T). fold L.
  case_bool_decide as Hlen.
  { rewrite orb_true_r. eexists; split; [done|]. cbn [snd mret ST_ret].
    unfold page in Hlen. rewrite length_take, length_drop in Hlen.
    by rewrite take_ge in HP1 by lia. }
  rewrite orb_false_r. destruct (Z.leb_spec (Z.of_nat (length L)) (pageSize * Z.of_nat k + pageSize)) as [Hle|Hgt].
  { eexists; split; [done|]. cbn [snd mret ST_ret]. rewrite take_ge in HP1; [done|]. unfold pageSize in *. lia. }
  replace (pageSize * Z.of_nat k + pageSize)%Z with (pageSize * Z.of_nat (S k))%Z by lia.
  apply IH; [|unfold pageSize in *; lia|done]. by replace (fuel + S k)%nat with (S fuel + k)%nat by lia.
Qed.

(** One page more than the tenants fill is enough. *)
Lemma forEachTenant_done fuel w :
  (size T < 500 * fuel)%nat → P [] w →
  ∃ w', forEachTenant fuel fn w = (Some (Ok tt), w') ∧ P L w'.
Proof.
  intros Hs HP. apply (forEachTenant_loop_rule fuel 0); [|lia|done].
  unfold L. rewrite sorted_tenants_length. unfold pageSize. lia.
Qed.
End paging.

(** ** Retention *)

Definition retention_days (db : DB) (tid : uuid) : Z :=
  from_option ent_RetentionDays 7%Z (tenant_entitlements db !! tid).

(** What the purge of a tenant at the clock reading of [tick] keeps of [n]. *)
Definition after_purge `{E : Env} (db : DB) (tick : nat) (n : Notification) : option Notification :=
  if older_than (n_TenantID n) (AddDate (env_now tick) 0 0 (- retention_days db (n_TenantID n))) n
  then None else Some n.

Section purge_facts.
Context {E : Env} {PL : PgLaws E} (Hf : no_faults).

Lemma purge_tenant_fine t ent w :
  ∃ tick, w_db (purge_tenant t ent w).2 =
    del_notifications (older_than (t_ID t) (AddDate (env_now tick) 0 0 (- ent_RetentionDays ent))) (w_db w).
Proof.
  unfold purge_tenant. rewrite ST_bind_run. cbv zeta. cbn [fst snd time_Now]. exists (w_tick w).
  set (cutoff := AddDate _ _ _ _). rewrite ST_bind_run.
  destruct (DeleteOlderThan_outcome (t_ID t) cutoff (next_tick w)) as [[_ Ho]|[Ho _]].
  { by rewrite DeleteOlderThan_fine in Ho. }
  destruct (PgNotificationRepo_DeleteOlderThan _ _ _) as [[n|e] w1]; simpl in *; rewrite <- ?Ho;
    [destruct (0 <? n)%Z|]; done.
Qed.

Lemma visit_purge t w :
  ∃ tick, w_db (visit_tenant purge_tenant t w).2 =
    del_notifications (older_than (t_ID t) (AddDate (env_now tick) 0 0 (- retention_days (w_db w) (t_ID t)))) (w_db w).
Proof.
  unfold visit_tenant. rewrite ST_bind_run.
  destruct (EntitlementsOrFree_fine Hf (t_ID t) w) as (ent & w1 & -> & Hdb & _ & Hent). cbn [fst snd].
  destruct (purge_tenant_fine t ent w1) as [tick Ht]. exists tick. rewrite Ht, Hdb.
  assert (ent_RetentionDays ent = retention_days (w_db w) (t_ID t)) as ->; [|done].
  unfold retention_days. destruct (tenant_entitlements _ !! _) as [row|]; simpl; [by subst|].
  by destruct Hent as [? ->].
Qed.

Lemma del_notifications_lookup p db nid :
  notifications (del_notifications p db) !! nid =
    (n ← notifications db !! nid; if p n then None else Some n).
Proof.
  apply option_eq. intros n. simpl. rewrite map_lookup_filter_Some.
  destruct (notifications db !! nid) as [n0|]; simpl; [|split; [by intros [? _]|done]].
  destruct (p n0) eqn:Hp; (split; [intros [[= ->] ?]|intros [= ->]]); congruence || done.
Qed.

Context (db0 : DB) (Hok : db_ok db0).

(** The notifications of the tenants already visited have been purged. *)
Record purging (ts : list Tenant) (w : World) : Prop := {
  pu_tenants : tenants (w_db w) = tenants db0;
  pu_ents : tenant_entitlements (w_db w) = tenant_entitlements db0;
  pu_old nid : notifications db0 !! nid = None → notifications (w_db w) !! nid = None;
  pu_new nid n : notifications db0 !! nid = Some n →
    if bool_decide (n_TenantID n ∈ t_ID <$> ts)
    then ∃ tick, notifications (w_db w) !! nid = after_purge db0 tick n
    else notifications (w_db w) !! nid = Some n
}.

Lemma purging_visit ts t w :
  t ∈ sorted_tenants 0 (tenants db0) → Forall (.∈ sorted_tenants 0 (tenants db0)) ts → t ∉ ts →
  purging ts w → purging (ts ++ [t]) (visit_tenant purge_tenant t w).2.
Proof.
  intros Ht Hts Hnew [H1 H2 H3 H4]. destruct (visit_purge t w) as [tick Hdb].
  split; rewrite ?Hdb; [done|done| |].
  - intros nid Hn. rewrite del_notifications_lookup. by rewrite (H3 _ Hn).
  - intros nid n Hn. rewrite del_notifications_lookup. specialize (H4 nid n Hn).
    assert (t_ID t ∉ t_ID <$> ts) as Hid.
    { intros (t' & Heq & Ht')%list_elem_of_fmap. apply Hnew. rewrite Forall_forall in Hts.
      pose proof (Hts t' Ht') as Ht2. rewrite sorted_tenants_perm in Ht, Ht2.
      apply list_elem_of_fmap in Ht as ([k x] & -> & Hk). apply list_elem_of_fmap in Ht2 as ([k' x'] & -> & Hk').
      apply elem_of_map_to_list in Hk, Hk'. simpl in *.
      pose proof (ok_tenant_key _ Hok _ _ Hk). pose proof (ok_tenant_key _ Hok _ _ Hk'). simpl in *.
      assert (x = x') as ->; [congruence|done]. }
    destruct (decide (n_TenantID n ∈ t_ID <$> ts ++ [t])) as [Hin|Hin];
      [rewrite (bool_decide_eq_true_2 (n_TenantID n ∈ t_ID <$> ts ++ [t])) by done
      |rewrite (bool_decide_eq_false_2 (n_TenantID n ∈ t_ID <$> ts ++ [t])) by done]; rewrite fmap_app in Hin.
    + apply elem_of_app in Hin as [Hin|Hin%list_elem_of_singleton].
      * rewrite bool_decide_eq_true_2 in H4 by done. destruct H4 as [tick' H4]. exists tick'. rewrite H4.
        unfold after_purge. destruct (older_than _ _ n); simpl; [done|].
        unfold older_than. rewrite bool_decide_eq_false_2; [done|]. intros [Heq _]. congruence.
      * rewrite bool_decide_eq_false_2 in H4 by congruence. exists tick. rewrite H4. simpl.
        unfold after_purge, retention_days. by rewrite Hin, H2.
    + rewrite bool_decide_eq_false_2 in H4 by set_solver. rewrite H4. simpl.
      unfold older_than. rewrite bool_decide_eq_false_2; [done|]. intros [Heq _]. apply Hin. set_solver.
Qed.
End purge_facts.

(** ** Reconciliation *)

(** Redis holds the number of notifications of the tenant's period. *)
Definition reconciled `{E : Env} (db : DB) (r : redis) (tid : uuid) : Prop :=
  ∃ ent, entitled db tid ent ∧
    redis_value r (usageKey tid (ent_PeriodStart ent)) =
      Some (sql_count (in_window tid (ent_PeriodStart ent) (ent_PeriodEnd ent)) (notifications db)).

Section reconcile_facts.
Context {E : Env} {UL : UuidLaws E} {RL : RedisLaws E} {PL : PgLaws E} (Hf : no_faults).

Lemma usageKey_tenant tid start tid' start' : usageKey tid start = usageKey tid' start' → tid = tid'.
Proof.
  unfold usageKey. intros H%string_app_inj_r. apply string_app_inj_len in H as [H _];
    [by apply uuid_String_inj|by rewrite !uuid_String_length].
Qed.

Lemma visit_reconcile t w :
  let w' := (visit_tenant reconcile_tenant t w).2 in
  w_db w' = w_db w ∧ reconciled (w_db w) (w_redis w') (t_ID t) ∧
  ∀ tid start, tid ≠ t_ID t → redis_value (w_redis w') (usageKey tid start) = redis_value (w_redis w) (usageKey tid start).
Proof.
  cbv zeta. unfold visit_tenant. rewrite ST_bind_run.
  destruct (EntitlementsOrFree_fine Hf (t_ID t) w) as (ent & w1 & -> & Hdb & Hr & Hent). cbn [fst snd].
  unfold reconcile_tenant, PgNotificationRepo_UsageByTenant, try_bind.
  rewrite ST_bind_run, (ST_bind_run (db_query _)), db_query_fine by done. cbn [fst snd].
  rewrite (ST_bind_run (db_query _)), db_query_fine by done. cbn [fst snd mret ST_ret ur_Sent].
  unfold log_err, rdb_Set. rewrite ST_bind_run, redis_do_fine by done. cbn [fst snd mret ST_ret w_redis set_redis w_db].
  change ("usage:" +:+ uuid_String (t_ID t) +:+ ":" +:+ pretty (time_Unix (ent_PeriodStart ent)))
    with (usageKey (t_ID t) (ent_PeriodStart ent)).
  split; [exact Hdb|]. split.
  - exists ent. split; [exact Hent|]. simpl. rewrite redis_Set_value, decide_True by done. by rewrite Hdb.
  - intros tid start Hne. simpl. rewrite redis_Set_value by done. rewrite decide_False.
    + by rewrite Hr.
    + intros Heq%usageKey_tenant. congruence.
Qed.
End reconcile_facts.

(** * Claims *)


(** The reconcile job leaves, for every tenant, the usage counter of its current period equal to the number of
    its notifications created in that period, and does not change the database. *)
Theorem usage_reconcile_exact {E : Env} {UL : UuidLaws E} {RL : RedisLaws E} {PL : PgLaws E} fuel w :
  no_faults → db_ok (w_db w) → distinct_times (tenants (w_db w)) → (size (tenants (w_db w)) < 500 * fuel)%nat →
  let run := HandleUsageReconcile fuel w in
  run.1 = Some (Ok tt) ∧ w_db run.2 = w_db w ∧
  ∀ tid t, tenants (w_db w) !! tid = Some t → reconciled (w_db w) (w_redis run.2) tid.
Proof.
  intros Hf Hok Hd Hs. cbv zeta. unfold HandleUsageReconcile.
  assert (∀ t, t ∈ sorted_tenants 0 (tenants (w_db w)) → tenants (w_db w) !! t_ID t = Some t) as HL.
  { intros t. rewrite sorted_tenants_perm. intros ([k x] & -> & Hk)%list_elem_of_fmap.
    apply elem_of_map_to_list in Hk. pose proof (ok_tenant_key _ Hok _ _ Hk) as Hid. simpl in *. by rewrite Hid. }
  destruct (forEachTenant_done reconcile_tenant (tenants (w_db w))
    (λ ts w1, w_db w1 = w_db w ∧ ∀ t, t ∈ ts → tenants (w_db w) !! t_ID t = Some t ∧ reconciled (w_db w) (w_redis w1) (t_ID t))
    Hf Hd) with (fuel := fuel) (w := w) as (w' & -> & Hdb & Hrec).
  - intros ts w1 w2 Hdb Hr [H1 H2]. split; [congruence|]. by rewrite Hr.
  - intros ts w1 [-> _]. done.
  - intros ts t w1 Ht Hnew [H1 H2]. destruct (visit_reconcile Hf t w1) as (Hdb & Hrec & Hkeep).
    rewrite H1 in *. split; [done|]. intros t' [Ht'|Heq]%elem_of_app; [|apply list_elem_of_singleton in Heq; subst t'; by auto].
    destruct (H2 t' Ht') as [Hrow (ent & Hent & Hv)]. split; [done|]. exists ent. split; [done|].
    rewrite Hkeep; [done|]. intros Heq. rewrite Heq, (HL t Ht) in Hrow. congruence.
  - done.
  - split; [done|]. set_solver.
  - split_and!; [done..|]. intros tid t Ht. pose proof (ok_tenant_key _ Hok _ _ Ht) as Hid. simpl in Hid. subst tid.
    apply Hrec. rewrite sorted_tenants_perm. apply list_elem_of_fmap. exists (t_ID t, t). split; [done|].
    by apply elem_of_map_to_list.
Qed.

(** * Witnesses *)

Section witnesses.
#[local] Existing Instance healthy.

Lemma sample_distinct : distinct_times (tenants sample_db).
Proof.
  intros k1 k2 t1 t2 H1 H2 _. cbn [tenants sample_db] in *.
  apply lookup_singleton_Some in H1 as [<- _]. apply lookup_singleton_Some in H2 as [<- _]. done.
Qed.


Lemma usage_reconcile_witness :
  reconciled sample_db (w_redis (HandleUsageReconcile 1 (healthy_world sample_db)).2) id_tenant.
Proof.
  destruct (usage_reconcile_exact 1 (healthy_world sample_db)) as (_ & _ & H3).
  - done.
  - exact sample_db_ok.
  - exact sample_distinct.
  - change (size ({[id_tenant := sample_tenant]} : gmap uuid Tenant) < 500 * 1)%nat. rewrite map_size_singleton. lia.
  - apply (H3 id_tenant sample_tenant). apply lookup_singleton_eq.
Defined.
End witnesses.
