(* ===== verification/Ssrf.v ===== *)
(** * Ssrf: the guard on outbound connections

    ssrf_guard.go and url_validation.go of internal/provider.  The resolver and
    the plain dial function are parameters, as in [newGuardedDialer]. *)
From Stdlib Require Import Ascii.
From S2P Require Import Prelude GoTime Json Hex Domain World SampleEnv Net.

(** ** ssrf_guard.go *)

(** [None] is the panic on a malformed literal. *)
Fixpoint mustParseCIDRs (cidrs : list string) : option (list IPNet) :=
  match cidrs with
  | [] => Some []
  | c :: rest => match ParseCIDR c with
                 | Ok ipNet => nets ← mustParseCIDRs rest; Some (ipNet :: nets)
                 | Err _ => None
                 end
  end.

Definition extraBlockedRanges : list IPNet :=
  default [] (mustParseCIDRs
    ["100.64.0.0/10"; "192.0.0.0/24"; "192.0.2.0/24"; "198.18.0.0/15"; "240.0.0.0/4"; "64:ff9b::/96"]).

Definition IsBlockedIP (ip : IP) : bool :=
  if IsLoopback ip || IsLinkLocalUnicast ip || IsLinkLocalMulticast ip || IsPrivate ip || IsUnspecified ip ||
     IsMulticast ip
  then true
  else existsb (λ blocked, Contains blocked ip) extraBlockedRanges.

Section dialer.
Context {W Conn : Type}.
Context (LookupIP : string → ST W (result (list IP))) (dial : string → string → ST W (result Conn)).

(** The loop over the approved addresses; [lastErr] is nil before the first
    failure. *)
Fixpoint dial_loop (network port host : string) (lastErr : option error) (ips : list IP) : ST W (result Conn) :=
  match ips with
  | [] => mret (Err (default (errors_New ("no addresses returned for host " +:+ host)) lastErr))
  | ip :: rest =>
      r ← dial network (JoinHostPort (IP_String ip) port);
      match r with
      | Ok conn => mret (Ok conn)
      | Err dialErr => dial_loop network port host (Some dialErr) rest
      end
  end.

Definition newGuardedDialer (network addr : string) : ST W (result Conn) :=
  match SplitHostPort addr with
  | Err err => mret (Err (errorf_w "split host/port" err))
  | Ok (host, port) =>
      ips ←? on_err (errorf_w "resolve host") (LookupIP host);
      match list_find (λ ip, IsBlockedIP ip = true) ips with
      | Some (_, ip) => mret (Err (errorf_s errBlockedAddress (host +:+ " resolved to " +:+ IP_String ip)))
      | None => dial_loop network port host None ips
      end
  end.

(** A [net.Dialer]: its resolver, nil for the default one, and [DialContext]. *)
Record Dialer := mkDialer {
  dl_Resolver : option (string → ST W (result (list IP)));
  dl_DialContext : string → string → ST W (result Conn)
}.
End dialer.

Arguments Dialer : clear implicits.

Definition guardedDialContext {W Conn} (DefaultResolver : string → ST W (result (list IP))) (base : Dialer W Conn)
    : string → string → ST W (result Conn) :=
  let resolver := default DefaultResolver (dl_Resolver base) in
  newGuardedDialer resolver (dl_DialContext base).

(** ** url_validation.go *)

Definition ValidateHTTPSDestinationURL `{E : Env} (rawURL : string) : result unit :=
  if negb (HasPrefix rawURL "https://") then Err (errors_New "url must use https")
  else match url_Hostname rawURL with
       | Err err => Err (errorf_w "invalid url" err)
       | Ok host =>
           if bool_decide (host = "") then Err (errors_New "url must include a host")
           else match ParseIP host with
                | Some ip => if IsBlockedIP ip then Err (errors_New "url resolves to a private/internal address")
                             else Ok tt
                | None => Ok tt
                end
       end.

(** ** The blocked ranges as intervals of numbers *)

(** The number an address denotes, most significant byte first. *)
Definition ip_number (ip : IP) : Z := foldl (λ n b, n * 256 + b)%Z 0%Z ip.

(** [base/len] in an address space of [w] bits. *)
Definition in_cidr (w : Z) (n : Z) (r : Z * Z) : Prop :=
  let '(base, len) := r in (base ≤ n < base + 2 ^ (w - len))%Z.

Definition v4 (a b c d : Z) : Z := ip_number [a; b; c; d].

(** The IPv4 ranges the source lists, by their prefix lengths. *)
Definition blocked_v4 : list (Z * Z) :=
  [(v4 0 0 0 0, 32); (v4 10 0 0 0, 8); (v4 100 64 0 0, 10); (v4 127 0 0 0, 8); (v4 169 254 0 0, 16);
   (v4 172 16 0 0, 12); (v4 192 0 0 0, 24); (v4 192 0 2 0, 24); (v4 192 168 0 0, 16); (v4 198 18 0 0, 15);
   (v4 224 0 0 0, 4); (v4 240 0 0 0, 4)]%Z.

(** The IPv6 ranges; addresses that embed IPv4 are classified by [blocked_v4]. *)
Definition v6 (hi : Z) : Z := Z.shiftl hi 112.
Definition blocked_v6 : list (Z * Z) :=
  [(0, 128); (1, 128); (Z.shiftl 0x64ff9b 96, 96); (v6 0xfc00, 7); (v6 0xfe80, 10); (v6 0xff00, 8)]%Z.

(** *** Byte masks *)

Lemma byte_forall (P : Z → bool) : forallb P (seqZ 0 256) = true → ∀ x, is_byte x → P x = true.
Proof. intros H x Hx. rewrite forallb_forall in H. apply H, list_elem_of_In, elem_of_seqZ. exact Hx. Qed.

(** A byte under a mask, as an interval. *)
Lemma byte_mask x lo m :
  forallb (λ x, bool_decide ((Z.land lo m =? Z.land x m)%Z = ((lo <=? x) && (x <=? lo + (255 - m)))%Z)) (seqZ 0 256) = true →
  is_byte x → (Z.land lo m = Z.land x m ↔ lo ≤ x ≤ lo + (255 - m))%Z.
Proof.
  intros H Hx. apply (byte_forall _ H), bool_decide_eq_true in Hx.
  rewrite <- Z.eqb_eq, Hx, andb_true_iff. lia.
Qed.

Lemma byte_mask_full x : is_byte x → Z.land x 255 = x.
Proof. intros Hx. apply (byte_forall (λ x, Z.land x 255 =? x)%Z) in Hx; [lia|done]. Qed.

(** The literals parse, and to these networks. *)
Definition nat64_net : IPNet :=
  mkIPNet ([0; 0x64; 0xff; 0x9b] ++ replicate 8 0 ++ replicate 4 0)%Z (replicate 12 255 ++ replicate 4 0)%Z.

Lemma extraBlockedRanges_parsed : extraBlockedRanges =
  [mkIPNet [100; 64; 0; 0] [255; 192; 0; 0]; mkIPNet [192; 0; 0; 0] [255; 255; 255; 0];
   mkIPNet [192; 0; 2; 0] [255; 255; 255; 0]; mkIPNet [198; 18; 0; 0] [255; 254; 0; 0];
   mkIPNet [240; 0; 0; 0] [240; 0; 0; 0]; nat64_net]%Z.
Proof. vm_compute. reflexivity. Qed.

Lemma Contains_v4 n0 n1 n2 n3 m0 m1 m2 m3 a b c d :
  Contains (mkIPNet [n0; n1; n2; n3] [m0; m1; m2; m3]) [a; b; c; d] = true ↔
  Z.land n0 m0 = Z.land a m0 ∧ Z.land n1 m1 = Z.land b m1 ∧ Z.land n2 m2 = Z.land c m2 ∧ Z.land n3 m3 = Z.land d m3.
Proof. unfold Contains. simpl. rewrite !andb_true_iff, !Z.eqb_eq. tauto. Qed.

Lemma Contains_lengths n ip : length (default ip (To4 ip)) ≠ length (net_IP n) → Contains n ip = false.
Proof. intros H. unfold Contains. cbv zeta. by rewrite (proj2 (Nat.eqb_neq _ _) H). Qed.

(** The disjuncts of a classification. *)
Lemma IsBlockedIP_or ip :
  IsBlockedIP ip = true ↔
  (((((IsLoopback ip = true ∨ IsLinkLocalUnicast ip = true) ∨ IsLinkLocalMulticast ip = true) ∨ IsPrivate ip = true) ∨
   IsUnspecified ip = true) ∨ IsMulticast ip = true) ∨
  Exists (λ n, Contains n ip = true) extraBlockedRanges.
Proof.
  unfold IsBlockedIP. rewrite Exists_exists, <- !orb_true_iff.
  destruct (_ || _ || _ || _ || _ || _); [naive_solver|]. rewrite existsb_exists.
  setoid_rewrite <- list_elem_of_In. naive_solver.
Qed.

Lemma or_iff2 (P P' Q Q' : Prop) : (P ↔ P') → (Q ↔ Q') → (P ∨ Q ↔ P' ∨ Q').
Proof. tauto. Qed.

(** IPv4 classifications over the bytes of an address. *)
Lemma IsBlockedIP_v4_bytes a b c d :
  is_bytes [a; b; c; d] →
  IsBlockedIP [a; b; c; d] = true ↔
  ((a = 0 ∧ b = 0 ∧ c = 0 ∧ d = 0) ∨ a = 10 ∨ (a = 100 ∧ 64 ≤ b ≤ 127) ∨ a = 127 ∨ (a = 169 ∧ b = 254) ∨
  (a = 172 ∧ 16 ≤ b ≤ 31) ∨ (a = 192 ∧ b = 0 ∧ c = 0) ∨ (a = 192 ∧ b = 0 ∧ c = 2) ∨ (a = 192 ∧ b = 168) ∨
  (a = 198 ∧ 18 ≤ b ≤ 19) ∨ 224 ≤ a ≤ 239 ∨ 240 ≤ a ≤ 255)%Z.
Proof.
  unfold is_bytes. rewrite !Forall_cons. intros (Ha & Hb & Hc & Hd & _).
  rewrite IsBlockedIP_or, extraBlockedRanges_parsed, !Exists_cons, !Exists_nil, !Contains_v4.
  rewrite (Contains_lengths nat64_net) by done.
  change (IsLoopback [a; b; c; d]) with (a =? 127)%Z.
  change (IsLinkLocalUnicast [a; b; c; d]) with ((a =? 169) && (b =? 254))%Z.
  change (IsLinkLocalMulticast [a; b; c; d]) with ((a =? 224) && (b =? 0) && (c =? 0))%Z.
  change (IsPrivate [a; b; c; d]) with
    ((a =? 10) || (a =? 172) && (Z.land b 0xf0 =? 16) || (a =? 192) && (b =? 168))%Z.
  change (IsMulticast [a; b; c; d]) with (Z.land a 0xf0 =? 0xe0)%Z.
  change (IsUnspecified [a; b; c; d]) with (bool_decide (IPv4zero = v4InV6Prefix ++ [a; b; c; d]) ||
    bool_decide (IPv6unspecified = v4InV6Prefix ++ [a; b; c; d])).
  assert (IPv4zero = v4InV6Prefix ++ [a; b; c; d] ↔ a = 0 ∧ b = 0 ∧ c = 0 ∧ d = 0)%Z as Hz.
  { split; [intros H; by injection H as <- <- <- <-|by intros (-> & -> & -> & ->)]. }
  assert (IPv6unspecified ≠ v4InV6Prefix ++ [a; b; c; d]) as Hz' by done.
  rewrite !orb_true_iff, !andb_true_iff, !Z.eqb_eq, !bool_decide_eq_true, Hz, !Z.land_0_r, !byte_mask_full by done.
  rewrite (byte_mask b 64 192), (byte_mask b 18 254), (byte_mask a 240 240) by done.
  rewrite (eq_comm (Z.land a _)), (eq_comm (Z.land b _)), (byte_mask a 224 240 eq_refl Ha : _ = Z.land a _ ↔ _),
    (byte_mask b 16 240 eq_refl Hb : _ = Z.land b _ ↔ _).
  change (64 + (255 - 192))%Z with 127%Z. change (18 + (255 - 254))%Z with 19%Z.
  change (240 + (255 - 240))%Z with 255%Z. change (224 + (255 - 240))%Z with 239%Z. change (16 + (255 - 240))%Z with 31%Z.
  assert (a = 224 → 224 ≤ a ≤ 239)%Z as Hm by lia.
  rewrite !(eq_comm _ a), !(eq_comm _ b), !(eq_comm _ c). clear -Hz' Hm. naive_solver.
Qed.

Lemma IsBlockedIP_v4 a b c d :
  is_bytes [a; b; c; d] →
  IsBlockedIP [a; b; c; d] = true ↔ Exists (in_cidr 32 (ip_number [a; b; c; d])) blocked_v4.
Proof.
  intros H. rewrite IsBlockedIP_v4_bytes by done. unfold is_bytes in H. rewrite !Forall_cons in H.
  destruct H as (Ha & Hb & Hc & Hd & _). unfold is_byte in *.
  unfold blocked_v4. rewrite !Exists_cons, Exists_nil. unfold in_cidr, v4, ip_number. cbn [foldl].
  repeat match goal with |- ?P ∨ ?Q ↔ ?P' ∨ ?Q' => apply or_iff2; [lia|] end; lia.
Qed.

(** The 16-byte form of an IPv4 address is classified as the 4-byte one. *)
Lemma IsBlockedIP_mapped a b c d : IsBlockedIP (v4InV6Prefix ++ [a; b; c; d]) = IsBlockedIP [a; b; c; d].
Proof.
  assert (IsUnspecified (v4InV6Prefix ++ [a; b; c; d]) = IsUnspecified [a; b; c; d]) as Hu.
  { change (IsUnspecified [a; b; c; d]) with (bool_decide (IPv4zero = v4InV6Prefix ++ [a; b; c; d]) ||
      bool_decide (IPv6unspecified = v4InV6Prefix ++ [a; b; c; d])).
    change (IsUnspecified (v4InV6Prefix ++ [a; b; c; d])) with (bool_decide (v4InV6Prefix ++ [a; b; c; d] = IPv4zero) ||
      bool_decide (v4InV6Prefix ++ [a; b; c; d] = IPv6unspecified)).
    f_equal; apply bool_decide_ext; done. }
  unfold IsBlockedIP. rewrite Hu. reflexivity.
Qed.

Lemma bytes16 (ip : IP) : length ip = 16 → ∃ a b c d e f g h i j k l m n o p, ip = [a; b; c; d; e; f; g; h; i; j; k; l; m; n; o; p].
Proof. intros H. do 16 (destruct ip as [|? ip]; [done|]). destruct ip; [|done]. by repeat eexists. Qed.

Lemma Contains_nat64 ip :
  length ip = 16 → is_bytes ip → To4 ip = None →
  Contains nat64_net ip = true ↔ take 12 ip = [0; 0x64; 0xff; 0x9b; 0; 0; 0; 0; 0; 0; 0; 0]%Z.
Proof.
  intros Hl Hb H4. unfold Contains. rewrite H4. cbv zeta. cbn [default from_option]. 
  destruct (bytes16 ip Hl) as (a & b & c & d & e & f & g & h & i & j & k & l & m & n & o & p & ->).
  unfold is_bytes in Hb. rewrite !Forall_cons in Hb.
  destruct Hb as (? & ? & ? & ? & ? & ? & ? & ? & ? & ? & ? & ? & ? & ? & ? & ? & _).
  cbn -[Z.land Z.eqb]. rewrite !andb_true_iff, !Z.eqb_eq, !Z.land_0_r, !byte_mask_full by done.
  change (Z.land 0 255) with 0%Z.
  naive_solver.
Qed.

Ltac evaluate c := let v := eval vm_compute in c in change c with v.

Lemma IsBlockedIP_v6 ip :
  length ip = 16 → is_bytes ip → To4 ip = None →
  IsBlockedIP ip = true ↔ Exists (in_cidr 128 (ip_number ip)) blocked_v6.
Proof.
  intros Hl Hb H4. rewrite IsBlockedIP_or, extraBlockedRanges_parsed, !Exists_cons, !Exists_nil.
  rewrite Contains_nat64 by done. rewrite !Contains_lengths by (by rewrite H4; cbn [default from_option]; rewrite Hl).
  unfold IsLoopback, IsLinkLocalUnicast, IsLinkLocalMulticast, IsPrivate, IsMulticast. rewrite H4, Hl.
  assert (IsUnspecified ip = true ↔ ip = IPv6unspecified) as ->.
  { unfold IsUnspecified, IP_Equal. rewrite Hl. simpl (length _ =? _)%nat. simpl (_ =? _)%nat. cbv iota.
    rewrite orb_true_iff, !bool_decide_eq_true. split; [|by right]. intros [->|H]; [|done]. by vm_compute in H4. }
  assert (IP_Equal ip IPv6loopback = true ↔ ip = IPv6loopback) as ->.
  { unfold IP_Equal. rewrite Hl. simpl (_ =? _)%nat. cbv iota. by rewrite bool_decide_eq_true. }
  clear H4.
  destruct (bytes16 ip Hl) as (a & b & c & d & e & f & g & h & i & j & k & l & m & n & o & p & ->). clear Hl.
  unfold is_bytes in Hb. rewrite !Forall_cons in Hb.
  destruct Hb as (Ha & Hb & Hc & Hd & ? & ? & ? & ? & ? & ? & ? & ? & ? & ? & ? & ? & _).
  change (16 =? 16)%nat with true. cbn [take andb]. change (at_ _ 0) with a. change (at_ _ 1) with b.
  rewrite !andb_true_iff, !Z.eqb_eq, (eq_comm (Z.land a _)), !(eq_comm (Z.land b _)).
  rewrite (byte_mask a 0xfc 0xfe eq_refl Ha : _ = Z.land a _ ↔ _), (byte_mask b 0x80 0xc0 eq_refl Hb : _ = Z.land b _ ↔ _).
  unfold blocked_v6. rewrite !Exists_cons, Exists_nil. unfold in_cidr, ip_number, is_byte in *. cbn [foldl].
  transitivity ([a; b; c; d; e; f; g; h; i; j; k; l; m; n; o; p] = IPv6unspecified ∨
    [a; b; c; d; e; f; g; h; i; j; k; l; m; n; o; p] = IPv6loopback ∨
    [a; b; c; d; e; f; g; h; i; j; k; l] = [0; 0x64; 0xff; 0x9b; 0; 0; 0; 0; 0; 0; 0; 0]%Z ∨
    (252 ≤ a ≤ 253 ∨ a = 254 ∧ 128 ≤ b ≤ 191 ∨ a = 255 ∨ False)%Z).
  { clear. change (252 + (255 - 254))%Z with 253%Z. change (128 + (255 - 192))%Z with 191%Z. naive_solver. }
  repeat match goal with |- ?P ∨ ?Q ↔ ?P' ∨ ?Q' => apply or_iff2 end.
  all: unfold v6; evaluate IPv6unspecified; evaluate IPv6loopback; evaluate (Z.shiftl 0x64ff9b 96);
    evaluate (Z.shiftl 0xfc00 112); evaluate (Z.shiftl 0xfe80 112); evaluate (Z.shiftl 0xff00 112).
  1-3: split; [intros Heq; injection Heq; intros; subst; lia|intros Hn; repeat f_equal; lia].
  all: lia.
Qed.

(** ** The text of IPv4 addresses *)

(** The digits of one field, as [parseIPv4Fields] accumulates them. *)
Fixpoint read_octet (val : Z) (digLen : nat) (t : string) : option (Z * nat) :=
  match t with
  | EmptyString => Some (val, digLen)
  | String c t' =>
      if negb (is_digit c) || (digLen =? 1)%nat && (val =? 0)%Z then None
      else let val := (val * 10 + digit_val c)%Z in
           if (255 <? val)%Z then None else read_octet val (S digLen) t'
  end.

Lemma parse_octet_app fields val dl t v l s :
  read_octet val dl t = Some (v, l) → parseIPv4Fields fields val dl (t +:+ s) = parseIPv4Fields fields v l s.
Proof.
  revert val dl. induction t as [|c t IH]; intros val dl; cbn [read_octet]; [by intros [= <- <-]|].
  rewrite string_app_cons. cbn [parseIPv4Fields]. destruct (is_digit c); [|done]. cbn [negb orb].
  destruct (_ && _); [done|]. cbv zeta. destruct (255 <? _)%Z; [done|]. apply IH.
Qed.

Lemma octet_text x :
  is_byte x → ∃ l, read_octet 0 0 (pretty x) = Some (x, S l) ∧ forallb is_digit (String.list_ascii_of_string (pretty x)) = true.
Proof.
  intros Hx.
  apply (byte_forall (λ x, match read_octet 0 0 (pretty x) with Some (v, S _) => (v =? x)%Z | _ => false end &&
    forallb is_digit (String.list_ascii_of_string (pretty x)))) in Hx; [|vm_compute; reflexivity].
  apply andb_true_iff in Hx as [H1 H2]. destruct (read_octet 0 0 (pretty x)) as [[v [|l]]|]; [done| |done].
  apply Z.eqb_eq in H1. subst v. by exists l.
Qed.

Lemma parse_field fields x s :
  is_byte x → (length fields < 3)%nat → s ≠ "" →
  parseIPv4Fields fields 0 0 (pretty x +:+ "." +:+ s) = parseIPv4Fields (fields ++ [x]) 0 0 s.
Proof.
  intros Hx Hl Hs. destruct (octet_text x Hx) as (l & Hr & _). rewrite (parse_octet_app _ _ _ _ _ _ _ Hr).
  change ("." +:+ s) with (String "." s). cbn [parseIPv4Fields is_digit].
  change (is_digit ".") with false. cbv iota. rewrite (bool_decide_eq_true_2 ("."%char = "."%char)) by done.
  rewrite (bool_decide_eq_false_2 (s = "")) by done. cbn [Nat.eqb orb].
  by rewrite (proj2 (Nat.eqb_neq _ _)) by lia.
Qed.

Lemma pretty_octet_nonempty x : is_byte x → pretty x ≠ "".
Proof. intros Hx He. destruct (octet_text x Hx) as (l & Hr & _). by rewrite He in Hr. Qed.

Lemma app_nonempty (s t : string) : s ≠ "" → s +:+ t ≠ "".
Proof. by destruct s. Qed.

Lemma first_of_digits t s :
  forallb is_digit (String.list_ascii_of_string t) = true →
  first_of ["."; ":"; "%"]%char (t +:+ s) = first_of ["."; ":"; "%"]%char s.
Proof.
  induction t as [|c t IH]; [done|]. cbn [String.list_ascii_of_string forallb]. intros [Hc Ht]%andb_true_iff.
  rewrite string_app_cons. cbn [first_of]. rewrite bool_decide_eq_false_2; [by apply IH|].
  intros Hin. rewrite !elem_of_cons in Hin. destruct Hin as [->|[->|[->|Hin]]]; [done..|set_solver].
Qed.

(** An IPv4 address is read back from its text. *)
Lemma ParseIP_string_v4 a b c d :
  is_bytes [a; b; c; d] → ParseIP (string_v4 [a; b; c; d]) = Some (v4InV6Prefix ++ [a; b; c; d]).
Proof.
  unfold is_bytes. rewrite !Forall_cons. intros (Ha & Hb & Hc & Hd & _).
  unfold ParseIP, ParseAddr, string_v4. change (at_ [a; b; c; d] 0) with a. change (at_ [a; b; c; d] 1) with b.
  change (at_ [a; b; c; d] 2) with c. change (at_ [a; b; c; d] 3) with d.
  destruct (octet_text a Ha) as (_ & _ & Hdig). rewrite (first_of_digits _ _ Hdig).
  set (t := pretty b +:+ _). change (first_of _ ("." +:+ t)) with (Some "."%char). cbv iota. unfold t, parseIPv4.
  rewrite (parse_field [] a), (parse_field [a] b), (parse_field [a; b] c) by eauto using pretty_octet_nonempty, app_nonempty with lia.
  destruct (octet_text d Hd) as (l & Hr & _).
  rewrite <- (string_app_nil_r (pretty d)), (parse_octet_app _ _ _ _ _ _ _ Hr). reflexivity.
Qed.
