(* ===== verification/SsrfProps.v ===== *)
(** * SsrfProps: the properties of the guard on outbound connections *)
From S2P Require Import Prelude GoTime Json Hex Domain World SampleEnv Net Ssrf.

(** What the guard refuses, as CIDR ranges of numbers: an IPv4 address in either
    of its forms by the IPv4 list, any other address by the IPv6 list. *)
Definition blocked_range (ip : IP) : Prop :=
  match To4 ip with
  | Some ip4 => Exists (in_cidr 32 (ip_number ip4)) blocked_v4
  | None => Exists (in_cidr 128 (ip_number ip)) blocked_v6
  end.

Lemma v4_of_length (ip : IP) : length ip = 4 → ∃ a b c d, ip = [a; b; c; d].
Proof. intros H. do 4 (destruct ip as [|? ip]; [done|]). destruct ip; [|done]. by repeat eexists. Qed.

Lemma To4_cases (ip : IP) :
  length ip = 4 ∨ length ip = 16 →
  (∃ a b c d, To4 ip = Some [a; b; c; d] ∧ (ip = [a; b; c; d] ∨ ip = v4InV6Prefix ++ [a; b; c; d])) ∨
  To4 ip = None ∧ length ip = 16.
Proof.
  intros [H|H].
  - destruct (v4_of_length ip H) as (a & b & c & d & ->). left. by exists a, b, c, d; auto.
  - unfold To4. rewrite H. cbn [Nat.eqb andb]. case_bool_decide as Hp; [|by right]. left.
    destruct (v4_of_length (drop 12 ip)) as (a & b & c & d & Hd); [by rewrite length_drop, H|].
    exists a, b, c, d. rewrite Hd. split; [done|]. right. rewrite <- Hd. symmetry. rewrite <- Hp. apply take_drop.
Qed.

Section dialer_facts.
Context {W Conn : Type} (R : relation W) `{!PreOrder R}.
Context (LookupIP : string → ST W (result (list IP))) (dial : string → string → ST W (result Conn)).

Lemma dial_loop_keeps network port host e ips :
  (∀ ip, ip ∈ ips → keeps R (dial network (JoinHostPort (IP_String ip) port))) →
  keeps R (dial_loop dial network port host e ips).
Proof.
  revert e. induction ips as [|ip ips IH]; intros e H; simpl; [by apply keeps_ret|].
  apply keeps_bind; [done|apply H; set_solver|]. intros [conn|err]; [by apply keeps_ret|].
  apply IH. intros x Hx. apply H. set_solver.
Qed.

(** Every address of the list was dialled in order, without success. *)
Inductive tried (network port : string) : list IP → W → W → Prop :=
| tried_nil w : tried network port [] w w
| tried_cons ip ips w w1 w2 e :
    dial network (JoinHostPort (IP_String ip) port) w = (Err e, w1) → tried network port ips w1 w2 →
    tried network port (ip :: ips) w w2.

Lemma dial_loop_order network port host e ips w :
  (∃ pre ip post w2 conn w3, ips = pre ++ ip :: post ∧ tried network port pre w w2 ∧
     dial network (JoinHostPort (IP_String ip) port) w2 = (Ok conn, w3) ∧
     dial_loop dial network port host e ips w = (Ok conn, w3)) ∨
  (∃ w2 err, tried network port ips w w2 ∧ dial_loop dial network port host e ips w = (Err err, w2)).
Proof.
  revert e w. induction ips as [|ip ips IH]; intros e w; simpl.
  { right. eexists _, _. split; [constructor|done]. }
  rewrite ST_bind_run. destruct (dial network (JoinHostPort (IP_String ip) port) w) as [[conn|err] w1] eqn:Hd; cbn [fst snd].
  { left. exists [], ip, ips, w, conn, w1. split_and!; [done|constructor|done|done]. }
  destruct (IH (Some err) w1) as [(pre & ip' & post & w2 & conn & w3 & -> & Ht & Ho & Hr)|(w2 & err' & Ht & Hr)].
  - left. exists (ip :: pre), ip', post, w2, conn, w3. split_and!; [done|by econstructor|done|done].
  - right. exists w2, err'. split; [by econstructor|done].
Qed.
End dialer_facts.

(** Only approved addresses are dialled. *)
Lemma newGuardedDialer_keeps {W Conn} (R : relation W) `{!PreOrder R} (LookupIP : string → ST W (result (list IP)))
    (dial : string → string → ST W (result Conn)) network addr :
  (∀ host, keeps R (LookupIP host)) →
  (∀ ip port, IsBlockedIP ip = false → keeps R (dial network (JoinHostPort (IP_String ip) port))) →
  keeps R (newGuardedDialer LookupIP dial network addr).
Proof.
  intros Hlook Hdial. unfold newGuardedDialer. destruct (SplitHostPort addr) as [[host port]|e]; [|by apply keeps_ret].
  apply keeps_try; [done|by apply keeps_on_err|]. intros ips.
  destruct (list_find _ ips) as [[i ip]|] eqn:Hf; [by apply keeps_ret|].
  apply dial_loop_keeps; [done..|]. intros ip Hip. apply Hdial.
  apply list_find_None in Hf. rewrite Forall_forall in Hf. by apply not_true_is_false, Hf.
Qed.

Lemma newGuardedDialer_blocked {W Conn} (LookupIP : string → ST W (result (list IP)))
    (dial : string → string → ST W (result Conn)) network addr host port ips w w1 :
  SplitHostPort addr = Ok (host, port) → LookupIP host w = (Ok ips, w1) → Exists (λ ip, IsBlockedIP ip = true) ips →
  ∃ e, newGuardedDialer LookupIP dial network addr w = (Err e, w1) ∧ errors_Is e errBlockedAddress = true.
Proof.
  intros Hs Hl He. unfold newGuardedDialer. rewrite Hs.
  unfold try_bind, on_err, fmap, ST_fmap. rewrite ST_bind_run, Hl. cbn [fst snd map_err].
  destruct (list_find _ ips) as [[i ip]|] eqn:Hf.
  - eexists; split; [done|]. done.
  - apply list_find_None in Hf. exfalso. apply Exists_exists in He as (ip & Hin & Hb). rewrite Forall_forall in Hf. by eapply Hf.
Qed.

(** * Claims *)

(** C28: IsBlockedIP is exact: on every IPv4, IPv6 and IPv4-mapped address it answers true precisely for the
    loopback, private, link-local, multicast, unspecified, shared (100.64.0.0/10) and other reserved ranges the
    specification lists. *)
Theorem blocked_addresses_exact ip :
  length ip = 4 ∨ length ip = 16 → is_bytes ip → (IsBlockedIP ip = true ↔ blocked_range ip).
Proof.
  intros Hl Hb. unfold blocked_range.
  destruct (To4_cases ip Hl) as [(a & b & c & d & H4 & Hip)|[H4 H16]]; rewrite H4; [|by apply IsBlockedIP_v6].
  assert (is_bytes [a; b; c; d]).
  { destruct Hip as [->| ->]; [done|]. by apply Forall_app in Hb as [_ Hb]. }
  rewrite <- IsBlockedIP_v4 by done. destruct Hip as [->| ->]; [done|]. by rewrite IsBlockedIP_mapped.
Qed.

(** The dialer of guarded HTTP clients only ever dials addresses that are not blocked: what holds of name
    lookups and of dials to unblocked addresses holds of the whole dial, and as soon as one resolved address is
    blocked it fails with the blocked address error without dialing at all. *)
Theorem guarded_dialer_safe {W Conn : Type} (R : relation W) `{!PreOrder R}
    (LookupIP : string → ST W (result (list IP))) (dial : string → string → ST W (result Conn)) network addr :
  (∀ host, keeps R (LookupIP host)) →
  (∀ ip port, IsBlockedIP ip = false → keeps R (dial network (JoinHostPort (IP_String ip) port))) →
  keeps R (newGuardedDialer LookupIP dial network addr) ∧
  ∀ host port ips w w1,
    SplitHostPort addr = Ok (host, port) → LookupIP host w = (Ok ips, w1) → Exists (λ ip, IsBlockedIP ip = true) ips →
    ∃ e, newGuardedDialer LookupIP dial network addr w = (Err e, w1) ∧ errors_Is e errBlockedAddress = true.
Proof.
  intros Hlook Hdial. split; [by apply newGuardedDialer_keeps|]. intros. by eapply newGuardedDialer_blocked.
Qed.

(** When no resolved address is blocked, the guarded dialer tries the addresses in the order of the lookup and
    returns the first connection, or fails after all of them failed. *)
Theorem guarded_dialer_tries_in_order {W Conn : Type} (LookupIP : string → ST W (result (list IP)))
    (dial : string → string → ST W (result Conn)) network addr host port ips w w1 :
  SplitHostPort addr = Ok (host, port) → LookupIP host w = (Ok ips, w1) → Forall (λ ip, IsBlockedIP ip = false) ips →
  let res := newGuardedDialer LookupIP dial network addr w in
  (∃ pre ip post w2 conn w3, ips = pre ++ ip :: post ∧ tried dial network port pre w1 w2 ∧
     dial network (JoinHostPort (IP_String ip) port) w2 = (Ok conn, w3) ∧ res = (Ok conn, w3)) ∨
  (∃ w2 err, tried dial network port ips w1 w2 ∧ res = (Err err, w2)).
Proof.
  intros Hs Hl Ha. cbv zeta. unfold newGuardedDialer. rewrite Hs.
  unfold try_bind, on_err, fmap, ST_fmap. rewrite ST_bind_run, Hl. cbn [fst snd map_err].
  destruct (list_find _ ips) as [[i ip]|] eqn:Hf; [|apply dial_loop_order].
  apply list_find_Some in Hf as (Hi & Hb & _). rewrite Forall_lookup in Ha. by rewrite (Ha _ _ Hi) in Hb.
Qed.

(** For URLs with an IPv4 host the check made when an endpoint or channel is configured agrees with the dialer:
    the URL is accepted exactly when the dialer would connect to that address. *)
Theorem static_check_matches_dialer {E : Env} url a b c d :
  is_bytes [a; b; c; d] → HasPrefix url "https://" = true → url_Hostname url = Ok (IP_String [a; b; c; d]) →
  is_Ok (ValidateHTTPSDestinationURL url) = negb (IsBlockedIP [a; b; c; d]).
Proof.
  intros Hb Hp Hh. unfold ValidateHTTPSDestinationURL. rewrite Hp, Hh. cbn [negb].
  change (IP_String [a; b; c; d]) with (string_v4 [a; b; c; d]).
  assert (string_v4 [a; b; c; d] ≠ "") as Hne.
  { apply app_nonempty, pretty_octet_nonempty. by apply Forall_cons in Hb as [? _]. }
  rewrite (bool_decide_eq_false_2 _ Hne), ParseIP_string_v4, IsBlockedIP_mapped by done.
  by destruct (IsBlockedIP _).
Qed.

(** * Witnesses *)

Lemma blocked_addresses_witness :
  IsBlockedIP [169; 254; 169; 254]%Z = true ∧ blocked_range [169; 254; 169; 254]%Z.
Proof.
  split; [reflexivity|]. apply (blocked_addresses_exact [169; 254; 169; 254]%Z); [by left| |reflexivity].
  unfold is_bytes, is_byte. repeat constructor; lia.
Defined.

(** A resolver with one public and one private answer, a dial that logs. *)
Definition rebinding (_ : string) : ST (list string) (result (list IP)) :=
  mret (Ok [[93; 184; 216; 34]; [10; 0; 0; 5]]%Z).
Definition public (_ : string) : ST (list string) (result (list IP)) := mret (Ok [[93; 184; 216; 34]]%Z).
Definition logging (_ addr : string) : ST (list string) (result unit) := λ w, (Ok tt, w ++ [addr]).

(** The addresses dialled so far stay approved. *)
Definition dialled_approved : relation (list string) := λ w w',
  Forall (λ a, ∃ ip port, IsBlockedIP ip = false ∧ a = JoinHostPort (IP_String ip) port) w →
  Forall (λ a, ∃ ip port, IsBlockedIP ip = false ∧ a = JoinHostPort (IP_String ip) port) w'.
#[export] Instance dialled_approved_preorder : PreOrder dialled_approved.
Proof. split; [by intros w H|intros x y z; unfold dialled_approved; eauto]. Qed.

Lemma guarded_dialer_safe_witness :
  keeps dialled_approved (newGuardedDialer rebinding logging "tcp" "evil.example:443") ∧
  ∃ e, newGuardedDialer rebinding logging "tcp" "evil.example:443" [] = (Err e, []) ∧ errors_Is e errBlockedAddress = true.
Proof.
  destruct (guarded_dialer_safe dialled_approved rebinding logging "tcp" "evil.example:443") as [H1 H2].
  - intros host w H. exact H.
  - intros ip port Hip w H. apply Forall_app. split; [exact H|]. constructor; [|constructor]. by exists ip, port.
  - split; [exact H1|]. apply (H2 "evil.example" "443" [[93; 184; 216; 34]; [10; 0; 0; 5]]%Z []); [reflexivity..|].
    right. left. reflexivity.
Defined.

Lemma guarded_dialer_order_witness :
  let res := newGuardedDialer public logging "tcp" "example.com:443" [] in
  (∃ pre ip post w2 conn w3, [[93; 184; 216; 34]]%Z = pre ++ ip :: post ∧ tried logging "tcp" "443" pre [] w2 ∧
     logging "tcp" (JoinHostPort (IP_String ip) "443") w2 = (Ok conn, w3) ∧ res = (Ok conn, w3)) ∨
  (∃ w2 err, tried logging "tcp" "443" [[93; 184; 216; 34]]%Z [] w2 ∧ res = (Err err, w2)).
Proof.
  apply (guarded_dialer_tries_in_order public logging "tcp" "example.com:443" "example.com" "443"); [reflexivity..|].
  constructor; [reflexivity|constructor].
Defined.

Lemma static_check_witness :
  @url_Hostname healthy "https://192.168.0.7/hook" = Ok (IP_String [192; 168; 0; 7]%Z) ∧
  is_Ok (@ValidateHTTPSDestinationURL healthy "https://192.168.0.7/hook") = negb (IsBlockedIP [192; 168; 0; 7]%Z).
Proof.
  split; [vm_compute; reflexivity|].
  apply (@static_check_matches_dialer healthy); [|reflexivity|vm_compute; reflexivity].
  unfold is_bytes, is_byte. repeat constructor; lia.
Defined.
