(* ===== verification/HttpClient.v ===== *)
(** * HttpClient: the HTTP client for URLs chosen by tenants

    [NewGuardedHTTPClient] of provider/hmac_signing.go, which the webhook backend
    and the delivery of events use: every connection goes through the guarded
    dialer and no redirect is followed.  [client_do] is [http.Client.Do] as net/http
    documents it: a request is sent on a connection of the client's dialer, and
    an answer that redirects leads to another request when the client's policy
    says so. *)
From S2P Require Import Prelude GoTime Json Hex Domain World SampleEnv Net Ssrf SsrfProps.

(** What comes back on a connection. *)
Record Answer := mkAnswer { an_StatusCode : Z; an_Location : string; an_Body : string }.

(** What [CheckRedirect] says: nil, [http.ErrUseLastResponse] or another error. *)
Inductive redirect_check := Follow | UseLastResponse | StopWith (err : error).

Record http_Client (W Conn : Type) := mkHttpClient {
  hc_DialContext : string → string → ST W (result Conn);
  hc_Timeout : Duration;
  hc_CheckRedirect : option (string → list HttpRequest → redirect_check)
}.
Arguments mkHttpClient {W Conn}.
Arguments hc_DialContext {W Conn}.
Arguments hc_CheckRedirect {W Conn}.

(** Without a policy of its own a client stops after ten requests. *)
Definition defaultCheckRedirect (_ : string) (via : list HttpRequest) : redirect_check :=
  if (10 <=? length via)%nat then StopWith (errors_New "stopped after 10 redirects") else Follow.

(** The method of the next request and whether it repeats the body. *)
Definition redirectBehavior (reqMethod : string) (ans : Answer) : option (string * bool) :=
  if bool_decide (an_Location ans = "") then None
  else if bool_decide (an_StatusCode ans ∈ [301; 302; 303]%Z)
  then Some (if bool_decide (reqMethod = "GET" ∨ reqMethod = "HEAD") then reqMethod else "GET", false)
  else if bool_decide (an_StatusCode ans ∈ [307; 308]%Z) then Some (reqMethod, true)
  else None.

Section client.
Context {W Conn : Type}.
(** The host and port of a URL, what the peer answers on a connection, a
    Location relative to a URL, and the headers a redirected request keeps. *)
Context (address : string → result string) (exchange : Conn → HttpRequest → ST W (result Answer))
  (resolve : string → string → result string) (kept_header : HttpRequest → string → gmap string string).

Definition round_trip (c : http_Client W Conn) (q : HttpRequest) : ST W (result Answer) :=
  match address (rq_URL q) with
  | Err err => mret (Err err)
  | Ok addr => conn ←? hc_DialContext c "tcp" addr; exchange conn q
  end.

(** [None] when the fuel runs out. *)
Fixpoint client_do (fuel : nat) (c : http_Client W Conn) (via : list HttpRequest) (q : HttpRequest)
    : ST W (option (result Answer)) :=
  match fuel with
  | O => mret None
  | S fuel =>
      r ← round_trip c q;
      match r with
      | Err err => mret (Some (Err err))
      | Ok ans =>
          match redirectBehavior (rq_Method q) ans with
          | None => mret (Some (Ok ans))
          | Some (method, includeBody) =>
              match resolve (rq_URL q) (an_Location ans) with
              | Err err => mret (Some (Err (errorf_w "failed to parse Location header" err)))
              | Ok u =>
                  match default defaultCheckRedirect (hc_CheckRedirect c) u (via ++ [q]) with
                  | UseLastResponse => mret (Some (Ok ans))
                  | StopWith err => mret (Some (Err err))
                  | Follow =>
                      client_do fuel c (via ++ [q])
                        (mkHttpRequest method u (kept_header q u) (if includeBody : bool then rq_Body q else ""))
                  end
              end
          end
      end
  end.

(** [net_Dialer] is [&net.Dialer] with the given timeout. *)
Definition NewGuardedHTTPClient (DefaultResolver : string → ST W (result (list IP)))
    (net_Dialer : Duration → Dialer W Conn) (requestTimeout : Duration) : http_Client W Conn :=
  let dialTimeout := (10 * Second)%Z in
  let dialer := net_Dialer dialTimeout in
  mkHttpClient (guardedDialContext DefaultResolver dialer) requestTimeout (Some (λ _ _, UseLastResponse)).

(** ** A client that does not follow *)

(** One request is all it makes. *)
Lemma no_redirect c fuel via q w :
  hc_CheckRedirect c = Some (λ _ _, UseLastResponse) → (0 < fuel)%nat →
  ∃ r, client_do fuel c via q w = (Some r, (round_trip c q w).2) ∧ (is_Ok r = true → (round_trip c q w).1 = r).
Proof.
  intros Hc Hf. destruct fuel as [|fuel]; [lia|]. cbn [client_do]. rewrite ST_bind_run.
  destruct (round_trip c q w) as [[ans|err] w1]; cbn [fst snd]; [|by eexists].
  destruct (redirectBehavior _ ans) as [[method includeBody]|]; [|by eexists].
  destruct (resolve _ _) as [u|err]; [|by eexists]. rewrite Hc. by eexists.
Qed.

(** ** A client that follows *)

(** With the default policy eleven requests are enough. *)
Lemma default_redirects_end c via q w fuel :
  hc_CheckRedirect c = None → (10 < fuel + length via)%nat → (0 < fuel)%nat → is_Some (client_do fuel c via q w).1.
Proof.
  intros Hc. revert via q w. induction fuel as [|fuel IH]; intros via q w Hlen Hf; [lia|]. cbn [client_do]. rewrite ST_bind_run.
  destruct (round_trip c q w) as [[ans|err] w1]; cbn [fst snd]; [|by eexists].
  destruct (redirectBehavior _ ans) as [[method includeBody]|]; [|by eexists].
  destruct (resolve _ _) as [u|err]; [|by eexists]. rewrite Hc. cbn [default]. unfold defaultCheckRedirect.
  destruct (Nat.leb_spec 10 (length (via ++ [q]))) as [Hle|Hlt]; [by eexists|]. rewrite length_app in Hlt. simpl in Hlt.
  apply IH; [rewrite length_app; simpl; lia|lia].
Qed.

(** A client without a policy goes where the answer sends it. *)
Lemma plain_client_follows c fuel q w ans w1 method includeBody u :
  hc_CheckRedirect c = None → round_trip c q w = (Ok ans, w1) →
  redirectBehavior (rq_Method q) ans = Some (method, includeBody) → resolve (rq_URL q) (an_Location ans) = Ok u →
  client_do (S fuel) c [] q w =
  client_do fuel c [q] (mkHttpRequest method u (kept_header q u) (if includeBody then rq_Body q else "")) w1.
Proof. intros Hc Hr Hb Hu. cbn [client_do]. rewrite ST_bind_run, Hr. cbn [fst snd]. by rewrite Hb, Hu, Hc. Qed.
End client.

(** * Claims *)

(** C27: The HTTP client for URLs chosen by tenants never connects to a blocked address: whatever the resolver
    answers, whatever the peer answers and however many redirects it asks for, every dial of a call is to an
    address IsBlockedIP does not block; a call makes exactly one request and returns its answer, redirects
    included; and when any resolved address is blocked the call fails with errBlockedAddress without dialing. *)
Theorem guarded_client_safe {W Conn : Type} (R : relation W) `{!PreOrder R} address exchange resolve kept_header
    (DefaultResolver : string → ST W (result (list IP))) (net_Dialer : Duration → Dialer W Conn) timeout fuel q :
  let dialer := net_Dialer (10 * Second)%Z in
  (∀ host, keeps R (default DefaultResolver (dl_Resolver dialer) host)) →
  (∀ ip port, IsBlockedIP ip = false → keeps R (dl_DialContext dialer "tcp" (JoinHostPort (IP_String ip) port))) →
  (∀ conn, keeps R (exchange conn q)) → (0 < fuel)%nat →
  let c := NewGuardedHTTPClient DefaultResolver net_Dialer timeout in
  let do := client_do address exchange resolve kept_header fuel c [] q in
  keeps R do ∧
  (∀ w, ∃ r, do w = (Some r, (round_trip address exchange c q w).2) ∧ (is_Ok r = true → (round_trip address exchange c q w).1 = r)) ∧
  (∀ addr host port ips w w1,
    address (rq_URL q) = Ok addr → SplitHostPort addr = Ok (host, port) →
    default DefaultResolver (dl_Resolver dialer) host w = (Ok ips, w1) → Exists (λ ip, IsBlockedIP ip = true) ips →
    ∃ e, do w = (Some (Err e), w1) ∧ errors_Is e errBlockedAddress = true).
Proof.
  intros dialer Hlook Hdial Hex Hf c do.
  assert (∀ w, ∃ r, do w = (Some r, (round_trip address exchange c q w).2) ∧
    (is_Ok r = true → (round_trip address exchange c q w).1 = r)) as Hone by (intros w; by apply no_redirect).
  split_and!; [|exact Hone|].
  - intros w. destruct (Hone w) as (r & -> & _). simpl. revert w. change (keeps R (round_trip address exchange c q)).
    unfold round_trip. destruct (address (rq_URL q)) as [addr|err]; [|by apply keeps_ret].
    apply keeps_try; [done| |done]. by apply newGuardedDialer_keeps.
  - intros addr host port ips w w1 Ha Hs Hl He. unfold do. destruct fuel as [|fuel]; [lia|]. cbn [client_do].
    rewrite ST_bind_run. unfold round_trip. rewrite Ha, try_bind_run.
    destruct (newGuardedDialer_blocked (default DefaultResolver (dl_Resolver dialer)) (dl_DialContext dialer) "tcp" addr host port ips w w1
      Hs Hl He) as (e & Hd & Hb). change (hc_DialContext c "tcp" addr w) with
      (newGuardedDialer (default DefaultResolver (dl_Resolver dialer)) (dl_DialContext dialer) "tcp" addr w).
    rewrite Hd. by exists e.
Qed.

(** * Witnesses *)

(** A host that answers with a redirect to a private address. *)
Definition redirecting (_ : unit) (_ : HttpRequest) : ST (list string) (result Answer) :=
  mret (Ok (mkAnswer 302 "http://10.0.0.5/admin" "")).
Definition hook_call : HttpRequest := mkHttpRequest "POST" "https://hooks.example.com/x" ∅ "{}".
Definition hook_address (_ : string) : result string := Ok "hooks.example.com:443".
Definition absolute (_ loc : string) : result string := Ok loc.

Lemma guarded_client_witness :
  let c := NewGuardedHTTPClient public (λ _, mkDialer None logging) (10 * Second) in
  let do := client_do hook_address redirecting absolute (λ _ _, ∅) 11 c [] hook_call in
  keeps dialled_approved do ∧ do [] = (Some (Ok (mkAnswer 302 "http://10.0.0.5/admin" "")), ["93.184.216.34:443"]).
Proof.
  destruct (guarded_client_safe dialled_approved hook_address redirecting absolute (λ _ _, ∅) public (λ _, mkDialer None logging)
    (10 * Second) 11 hook_call) as (H1 & H2 & _).
  - intros host w H. exact H.
  - intros ip port Hip w H. apply Forall_app. split; [exact H|]. constructor; [|constructor]. by exists ip, port.
  - intros conn w H. exact H.
  - lia.
  - split; [exact H1|]. destruct (H2 []) as (r & Hr & Hok). vm_compute. reflexivity.
Defined.
