(* ===== verification/Services.v ===== *)
(** * Services: internal/service

    The application services on top of the repositories: sending notifications,
    channels, tenants, API keys and webhook endpoints.  Every method is written
    over the PostgreSQL repositories, as cmd/api wires them. *)
From Stdlib Require Import Ascii.
From S2P Require Import Prelude GoTime Json Hex Domain World Repository Tasks Provider Net Ssrf.

(** ** [strings.TrimSpace] *)

(** The length of the white space character (unicode.IsSpace, in UTF-8) a text
    starts with. *)
Definition space_length (s : string) : option nat :=
  match N_of_ascii <$> String.list_ascii_of_string s with
  | 9 :: _ | 10 :: _ | 11 :: _ | 12 :: _ | 13 :: _ | 32 :: _ => Some 1%nat
  | 0xc2 :: 0x85 :: _ | 0xc2 :: 0xa0 :: _ => Some 2%nat
  | 0xe1 :: 0x9a :: 0x80 :: _ | 0xe2 :: 0x81 :: 0x9f :: _ | 0xe3 :: 0x80 :: 0x80 :: _ => Some 3%nat
  | 0xe2 :: 0x80 :: c :: _ =>
      if ((0x80 <=? c) && (c <=? 0x8a) || (c =? 0xa8) || (c =? 0xa9) || (c =? 0xaf))%N then Some 3%nat else None
  | _ => None
  end%N.

(** [TrimSpace(s) == ""]: only white space; the length is enough fuel. *)
Fixpoint all_space (fuel : nat) (s : string) : bool :=
  match s, fuel with
  | EmptyString, _ => true
  | _, O => false
  | _, S fuel => match space_length s with Some n => all_space fuel (string_drop n s) | None => false end
  end.

Definition blank (s : string) : bool := all_space (String.length s) s.

(** ** notification_service.go *)

(** [(nil, err)] when [subject] is missing or blank on an email channel. *)
Definition validateSubjectForChannel (channel : ChannelType) (subject : option string) : result unit :=
  if bool_decide (channel ≠ ChannelEmail) then Ok tt
  else if match subject with None => true | Some s => blank s end
  then Err (errorf_s ErrValidationFailed "subject is required for email notifications")
  else Ok tt.

Record SendMultiInput := mkSendMultiInput { smi_Channels : list SendNotificationInput }.

Section NotificationService.
Context `{E : Env} (s_maxRetries : Z).

Definition effectiveMaxRetries (cfg : ChannelConfig) : Z :=
  match cc_DeliveryPrefs cfg with
  | Some d => match dp_MaxRetries d with Some n => n | None => s_maxRetries end
  | None => s_maxRetries
  end.

Definition NotificationService_Send (tenantID : uuid) (input : SendNotificationInput) : M (result Notification) :=
  channelCfg ←? on_err (errorf_w "get channel config") (PgChannelConfigRepo_GetByID (sni_ChannelConfigID input));
  if negb (bool_decide (cc_TenantID channelCfg = tenantID))
  then mret (Err (errorf_s ErrValidationFailed "channel config does not belong to this tenant"))
  else if negb (cc_IsActive channelCfg)
  then mret (Err (errorf_s ErrValidationFailed "channel config is disabled"))
  else match validateSubjectForChannel (cc_Channel channelCfg) (sni_Subject input) with
  | Err err => mret (Err err)
  | Ok _ =>
      ent ←? EntitlementsOrFree PgEntitlementRepo_GetByTenantID time_Now tenantID;
      if negb (AllowsChannel ent (cc_Channel channelCfg))
      then mret (Err (errorf_s ErrChannelNotInPlan (cc_Channel channelCfg)))
      else
        let maxRetries := effectiveMaxRetries channelCfg in
        now ← time_Now;
        id ← uuid_New;
        let notif := mkNotification id tenantID (cc_ID channelCfg) (cc_Channel channelCfg) (sni_Subject input)
                       (sni_Body input) (sni_Metadata input) StatusPending None 0 maxRetries None None None now now in
        _ ←? on_err (errorf_w "create notification") (PgNotificationRepo_Create notif);
        let subject := default "" (n_Subject notif) in
        let task := NewNotificationDeliverTask
          (mkNotificationDeliverPayload (n_ID notif) tenantID (cc_Channel channelCfg) (cc_ID channelCfg) subject
             (n_Body notif) (n_Metadata notif) (cc_DeliveryPrefs channelCfg)) [MaxRetry maxRetries] in
        info ←? on_err (errorf_w "enqueue task") (EnqueueContext task);
        _ ← log_err (PgNotificationRepo_SetAsynqTaskID (n_ID notif) (ti_ID info))
              "failed to store asynq task ID; notification is still enqueued";
        mret (Ok notif)
  end.

(** [SendMulti] starts one goroutine per channel; each stores its outcome under
    the mutex when its [Send] returns.  A state is the inputs still to be sent,
    the results and errors so far; a step runs one pending [Send].  The limit of
    five goroutines in flight only removes orders. *)
Inductive SendMulti_step (tenantID : uuid) :
    list SendNotificationInput * list Notification * list error * World →
    list SendNotificationInput * list Notification * list error * World → Prop :=
| multi_ok pre ch post results errs w w' notif :
    NotificationService_Send tenantID ch w = (Ok notif, w') →
    SendMulti_step tenantID (pre ++ ch :: post, results, errs, w) (pre ++ post, results ++ [notif], errs, w')
| multi_err pre ch post results errs w w' err :
    NotificationService_Send tenantID ch w = (Err err, w') →
    SendMulti_step tenantID (pre ++ ch :: post, results, errs, w) (pre ++ post, results, errs ++ [err], w').

(** Runs that return: every goroutine is done. *)
Definition NotificationService_SendMulti (tenantID : uuid) (input : SendMultiInput) (w : World)
    (results : list Notification) (errs : list error) (w' : World) : Prop :=
  rtc (SendMulti_step tenantID) (smi_Channels input, [], [], w) ([], results, errs, w').

Definition NotificationService_GetByID (id : uuid) : M (result Notification) := PgNotificationRepo_GetByID id.

Definition NotificationService_List (filter : NotificationFilter) : M (result (list Notification * Z)) :=
  let filter := if (nf_Limit filter <=? 0)%Z
                then mkNotificationFilter (nf_TenantID filter) (nf_Status filter) (nf_Channel filter) 20 (nf_Offset filter)
                else filter in
  PgNotificationRepo_List filter.

Definition NotificationService_CountByStatus : M (result (gmap string Z)) := PgNotificationRepo_CountByStatus.
End NotificationService.

(** ** channel_service.go *)

Section ChannelService.
Context `{E : Env} (registry : Registry).

Definition ChannelService_Create (tenantID : uuid) (input : CreateChannelConfigInput) : M (result ChannelConfig) :=
  if negb (IsValidChannelType (cci_Channel input))
  then mret (Err (errorf_s ErrValidationFailed ("invalid channel type: " +:+ cci_Channel input)))
  else
    ent ←? EntitlementsOrFree PgEntitlementRepo_GetByTenantID time_Now tenantID;
    if negb (AllowsChannel ent (cci_Channel input))
    then mret (Err (errorf_s ErrChannelNotInPlan (cci_Channel input)))
    else if bool_decide (cci_Name input = "")
    then mret (Err (errorf_s ErrValidationFailed "name is required"))
    else match Registry_Get registry (cci_Channel input) with
    | Err err => mret (Err (errorf_sw ErrUnsupportedChannel err))
    | Ok prov =>
        match pr_ValidateConfig prov (cci_Config input) with
        | Err err => mret (Err (errorf_smw ErrValidationFailed "invalid channel config" err))
        | Ok _ =>
            match DeliveryPreferences_Validate (cci_DeliveryPrefs input) with
            | Err err => mret (Err err)
            | Ok _ =>
                now ← time_Now;
                id ← uuid_New;
                let cfg := mkChannelConfig id tenantID (cci_Channel input) (cci_Name input) (cci_Config input) true
                             (cci_DeliveryPrefs input) now now in
                _ ←? PgChannelConfigRepo_Create cfg;
                mret (Ok cfg)
            end
        end
    end.

Definition ChannelService_GetByID (id : uuid) : M (result ChannelConfig) := PgChannelConfigRepo_GetByID id.
Definition ChannelService_ListByTenant (tenantID : uuid) : M (result (list ChannelConfig)) :=
  PgChannelConfigRepo_ListByTenant tenantID.

Definition ChannelService_Update (id tenantID : uuid) (input : UpdateChannelConfigInput) : M (result ChannelConfig) :=
  checked ← match uci_Config input with
            | None => mret (Ok tt)
            | Some config =>
                existing ←? PgChannelConfigRepo_GetByID id;
                mret match Registry_Get registry (cc_Channel existing) with
                     | Err err => Err (errorf_sw ErrUnsupportedChannel err)
                     | Ok prov => map_err (errorf_smw ErrValidationFailed "invalid channel config")
                                    (pr_ValidateConfig prov config)
                     end
            end;
  match checked with
  | Err err => mret (Err err)
  | Ok _ =>
      match DeliveryPreferences_Validate (uci_DeliveryPrefs input) with
      | Err err => mret (Err err)
      | Ok _ => PgChannelConfigRepo_Update id tenantID input
      end
  end.

Definition ChannelService_Delete (id tenantID : uuid) : M (result unit) := PgChannelConfigRepo_Delete id tenantID.
End ChannelService.

(** ** tenant_service.go *)

Record CreateTenantResult := mkCreateTenantResult {
  ctr_Tenant : Tenant;
  ctr_APIKey : string;
  ctr_APISecret : string
}.

Section TenantService.
Context `{E : Env}.

Definition generateRandomHex (bytes : nat) : M (result string) :=
  b ←? rand_Read bytes;
  mret (Ok (hex_EncodeToString b)).

Definition TenantService_Create (input : CreateTenantInput) : M (result CreateTenantResult) :=
  if bool_decide (cti_Name input = "") then mret (Err (errorf_s ErrValidationFailed "name is required"))
  else if bool_decide (cti_Slug input = "") then mret (Err (errorf_s ErrValidationFailed "slug is required"))
  else
    apiKey ←? on_err (errorf_w "generate api key") (generateRandomHex 32);
    rawSecret ←? on_err (errorf_w "generate api secret") (generateRandomHex 32);
    hashedSecret ←? on_err (errorf_w "hash api secret") (bcrypt_GenerateFromPassword rawSecret);
    now ← time_Now;
    id ← uuid_New;
    let tenant := mkTenant id (cti_Name input) (cti_Slug input) apiKey hashedSecret true now now in
    _ ←? PgTenantRepo_Create tenant;
    keyID ← uuid_New;
    _ ←? PgAPIKeyRepo_Create (mkAPIKey keyID (t_ID tenant) apiKey hashedSecret "default" now None);
    mret (Ok (mkCreateTenantResult tenant apiKey rawSecret)).

Definition TenantService_GetByID (id : uuid) : M (result Tenant) := PgTenantRepo_GetByID id.
Definition TenantService_GetBySlug (slug : string) : M (result Tenant) := PgTenantRepo_GetBySlug slug.
Definition TenantService_Update (id : uuid) (input : UpdateTenantInput) : M (result Tenant) :=
  PgTenantRepo_Update id input.
Definition TenantService_Delete (id : uuid) : M (result unit) := PgTenantRepo_Delete id.
Definition TenantService_List (limit offset : Z) : M (result (list Tenant * Z)) :=
  let limit := if (limit <=? 0)%Z then 20%Z else limit in
  PgTenantRepo_List limit offset.

(** ** apikey_service.go *)

Definition APIKeyService_Create (tenantID : uuid) (label : string) : M (result (APIKey * string)) :=
  ent ←? EntitlementsOrFree PgEntitlementRepo_GetByTenantID time_Now tenantID;
  apiKey ←? generateRandomHex 32;
  rawSecret ←? generateRandomHex 32;
  hash ←? bcrypt_GenerateFromPassword rawSecret;
  let label := if bool_decide (label = "") then "default" else label in
  id ← uuid_New;
  now ← time_Now;
  let k := mkAPIKey id tenantID apiKey hash label now None in
  _ ←? PgAPIKeyRepo_CreateWithinLimit k (ent_APIKeyLimit ent);
  mret (Ok (k, rawSecret)).

Definition APIKeyService_ListByTenant (tenantID : uuid) : M (result (list APIKey)) :=
  PgAPIKeyRepo_ListByTenant tenantID.
Definition APIKeyService_Revoke (id tenantID : uuid) : M (result unit) := PgAPIKeyRepo_Revoke id tenantID.

(** ** webhook_endpoint_service.go *)

Definition maxWebhookEndpointsPerTenant : Z := 3.
Definition webhookEndpointSecretBytes : nat := 32.

Definition validateWebhookEndpointURL (rawURL : string) : result unit :=
  map_err (errorf_sw ErrValidationFailed) (ValidateHTTPSDestinationURL rawURL).

Definition WebhookEndpointService_Create (tenantID : uuid) (input : CreateWebhookEndpointInput)
    : M (result (WebhookEndpoint * string)) :=
  match validateWebhookEndpointURL (cwi_URL input) with
  | Err err => mret (Err err)
  | Ok _ =>
      match ValidateWebhookEvents (cwi_Events input) with
      | Err err => mret (Err err)
      | Ok _ =>
          secret ←? on_err (errorf_w "generate webhook secret") (generateRandomHex webhookEndpointSecretBytes);
          id ← uuid_New;
          now ← time_Now;
          let endpoint := mkWebhookEndpoint id tenantID (cwi_URL input) secret (cwi_Events input) true now in
          _ ←? PgWebhookEndpointRepo_CreateWithinLimit endpoint maxWebhookEndpointsPerTenant;
          mret (Ok (endpoint, secret))
      end
  end.

Definition WebhookEndpointService_GetByID (id : uuid) : M (result WebhookEndpoint) :=
  PgWebhookEndpointRepo_GetByID id.
Definition WebhookEndpointService_ListByTenant (tenantID : uuid) : M (result (list WebhookEndpoint)) :=
  PgWebhookEndpointRepo_ListByTenant tenantID.

Definition WebhookEndpointService_Update (id tenantID : uuid) (input : UpdateWebhookEndpointInput)
    : M (result WebhookEndpoint) :=
  match from_option validateWebhookEndpointURL (Ok tt) (uwi_URL input) with
  | Err err => mret (Err err)
  | Ok _ =>
      match from_option ValidateWebhookEvents (Ok tt) (uwi_Events input) with
      | Err err => mret (Err err)
      | Ok _ => PgWebhookEndpointRepo_Update id tenantID input
      end
  end.

Definition WebhookEndpointService_Delete (id tenantID : uuid) : M (result unit) :=
  PgWebhookEndpointRepo_Delete id tenantID.
End TenantService.
