(* ===== verification/ServicesFacts.v ===== *)
(** * ServicesFacts: what a call of a service does

    [Send_outcome] sorts the runs of [Send] by what they leave behind, whatever
    fails; [Send_fine] says when a notification is accepted.  Every service
    method preserves the tables' contract. *)
From S2P Require Import Prelude GoTime Json Hex Domain World Repository Integrity RepositoryProps Tasks.
From S2P Require Import Provider Net Ssrf Services.

Section send.
Context `{E : Env} (maxRetries : Z).

(** The input is one the tenant may send, under the plan [ent]. *)
Record sendable (tid : uuid) (input : SendNotificationInput) (db : DB) (c : ChannelRow) (ent : Entitlements) : Prop := {
  sd_channel : channel_configs db !! sni_ChannelConfigID input = Some c;
  sd_tenant : cr_TenantID c = tid;
  sd_active : cr_IsActive c = true;
  sd_subject : validateSubjectForChannel (cr_Channel c) (sni_Subject input) = Ok tt;
  sd_plan : entitled db tid ent;
  sd_allowed : AllowsChannel ent (cr_Channel c) = true
}.

(** The notification [Send] creates for the channel [c]. *)
Definition new_notification (tid : uuid) (input : SendNotificationInput) (c : ChannelRow) (id : uuid) (now : Time)
    : Notification :=
  mkNotification id tid (cr_ID c) (cr_Channel c) (sni_Subject input) (sni_Body input) (sni_Metadata input)
    StatusPending None 0 (effectiveMaxRetries maxRetries (config_of_row c)) None None None now now.

(** Its row. *)
Definition notification_row (n : Notification) (task : option string) (updated : Time) : Notification :=
  mkNotification (n_ID n) (n_TenantID n) (n_ChannelConfigID n) (n_Channel n) (n_Subject n) (n_Body n)
    (jsonb <$> n_Metadata n) (n_Status n) task 0 (n_MaxRetries n) None None None (timestamptz (n_CreatedAt n)) updated.

Definition stored (n : Notification) (task : option string) (updated : Time) (db : DB) : DB :=
  set_notifications (<[n_ID n := notification_row n task updated]> (notifications db)) db.

(** Its task. *)
Definition send_payload (n : Notification) (c : ChannelRow) : NotificationDeliverPayload :=
  mkNotificationDeliverPayload (n_ID n) (n_TenantID n) (n_Channel n) (n_ChannelConfigID n) (default "" (n_Subject n))
    (n_Body n) (n_Metadata n) (cc_DeliveryPrefs (config_of_row c)).
Definition send_task (n : Notification) (c : ChannelRow) : Task :=
  NewNotificationDeliverTask (send_payload n c) [MaxRetry (n_MaxRetries n)].

(** The tables take the new row. *)
Definition storable (n : Notification) (db : DB) : Prop :=
  in_int4 (n_MaxRetries n) = true ∧ notifications db !! n_ID n = None ∧
  is_Some (tenants db !! n_TenantID n) ∧ is_Some (channel_configs db !! n_ChannelConfigID n).

Lemma create_outcome n w :
  ∃ r w', PgNotificationRepo_Create n w = (r, w') ∧ w_tasks w' = w_tasks w ∧
    (is_Ok r = false ∧ w_db w' = w_db w ∨
     storable n (w_db w) ∧ w_db w' = stored n None (timestamptz (n_UpdatedAt n)) (w_db w)).
Proof.
  unfold PgNotificationRepo_Create, db_exec, insert_checked.
  destruct (env_fault _); [| |]; try (eexists _, _; split; [done|]; split; [done|]; by left).
  all: eexists _, _; split; [done|]; split; [done|]; cbn [w_db set_db fst snd].
  all: destruct (first_violation _) eqn:Hv; [by left|right].
  all: apply first_violation_None in Hv; checks_true Hv; by split.
Qed.

Lemma create_fine n w :
  no_faults → storable n (w_db w) →
  PgNotificationRepo_Create n w =
    (Ok tt, set_db (stored n None (timestamptz (n_UpdatedAt n)) (w_db w)) (next_tick w)).
Proof.
  intros Hf (H1 & H2 & H3 & H4). unfold PgNotificationRepo_Create. rewrite db_exec_fine by done.
  unfold insert_checked, absent, present. cbn [first_violation].
  rewrite H1, !bool_decide_eq_true_2 by done. done.
Qed.

Lemma stored_twice n t u t' u' db : stored n t u (stored n t' u' db) = stored n t u db.
Proof. unfold stored, set_notifications. simpl. by rewrite insert_insert_eq. Qed.

(** Storing the task id changes that column at most. *)
Lemma store_task_id n task w :
  (∃ u, w_db w = stored n None u (w_db w)) →
  ∃ w', (log_err (PgNotificationRepo_SetAsynqTaskID (n_ID n) task)
           "failed to store asynq task ID; notification is still enqueued" w).2 = w' ∧
    w_tasks w' = w_tasks w ∧ ∃ t u, w_db w' = stored n t u (w_db w).
Proof.
  intros [u Hu]. eexists. split; [done|].
  destruct (log_err_state (PgNotificationRepo_SetAsynqTaskID (n_ID n) task)
    "failed to store asynq task ID; notification is still enqueued" w) as [-> | ->].
  all: unfold PgNotificationRepo_SetAsynqTaskID; rewrite ST_bind_run; unfold db_exec.
  all: assert (notifications (w_db w) !! n_ID n = Some (notification_row n None u)) as Hl
    by (rewrite Hu; simpl; apply lookup_insert_eq).
  all: destruct (env_fault _); simpl; (split; [done|]).
  all: unfold update_notification; rewrite ?Hl; eauto.
Qed.

(** A run that ends with an error and changes neither tables nor queue. *)
Ltac rejected_run := eexists _, _; split; [reflexivity|left; split_and!; first [done|simpl; congruence]].

(** What a call leaves behind; a row without a task only when a service failed. *)
Lemma Send_run tid input w :
  ∃ r w', NotificationService_Send maxRetries tid input w = (r, w') ∧
    ((is_Ok r = false ∧ w_db w' = w_db w ∧ w_tasks w' = w_tasks w) ∨
     ∃ c ent id now, let n := new_notification tid input c id now in
       sendable tid input (w_db w) c ent ∧ storable n (w_db w) ∧ (∃ t u, w_db w' = stored n t u (w_db w)) ∧
       ((is_Ok r = false ∧ w_tasks w' = w_tasks w ∧ ¬ services_up) ∨
        (r = Ok n ∧ w_tasks w' = w_tasks w ++ [send_task n c]))).
Proof.
  unfold NotificationService_Send. rewrite try_bind_run, on_err_run. cbn [fst snd].
  unfold PgChannelConfigRepo_GetByID.
  destruct (db_query_outcome (λ db, scanConfig (channel_configs db !! sni_ChannelConfigID input)) w)
    as (r1 & w1 & -> & Hdb1 & _ & Ht1 & [->|[msg ->]]); cbn [fst snd map_err]; [|rejected_run].
  destruct (channel_configs (w_db w) !! sni_ChannelConfigID input) as [c|] eqn:Hc; cbn [scanConfig map_err];
    [|rejected_run].
  change (cc_TenantID (config_of_row c)) with (cr_TenantID c). change (cc_IsActive (config_of_row c)) with (cr_IsActive c).
  change (cc_Channel (config_of_row c)) with (cr_Channel c). change (cc_ID (config_of_row c)) with (cr_ID c).
  case_bool_decide as Ht; cbn [negb]; [|rejected_run].
  destruct (cr_IsActive c) eqn:Hact; cbn [negb]; [|rejected_run].
  destruct (validateSubjectForChannel _ _) as [[]|] eqn:Hs; [|rejected_run].
  rewrite try_bind_run. destruct (EntitlementsOrFree_outcome tid w1) as (r2 & w2 & -> & Hdb2 & _ & Ht2 & Hent).
  cbn [fst snd]. rewrite Hdb1 in *. rewrite Ht1 in Ht2.
  destruct r2 as [ent|]; [|rejected_run].
  destruct (AllowsChannel ent (cr_Channel c)) eqn:Hal; cbn [negb]; [|rejected_run].
  assert (sendable tid input (w_db w) c ent) as Hsend by (split; eauto).
  rewrite ST_bind_run. cbn [fst snd time_Now]. rewrite ST_bind_run. cbn [fst snd uuid_New].
  set (n := new_notification tid input c (env_uuid (w_tick (next_tick w2))) (env_now (w_tick w2))).
  rewrite try_bind_run, on_err_run. cbn [fst snd].
  change (mkNotification _ _ _ _ _ _ _ _ _ _ _ _ _ _ _ _) with n.
  destruct (create_outcome n (next_tick (next_tick w2))) as (r3 & w3 & Hcr & Ht3 & Ho). rewrite Hcr. cbn [fst snd].
  change (w_db (next_tick (next_tick w2))) with (w_db w2) in Ho. change (w_tasks (next_tick _)) with (w_tasks w2) in Ht3.
  rewrite Hdb2 in Ho. rewrite Ht2 in Ht3.
  destruct Ho as [[Herr Hdb3]|[Hst Hdb3]].
  { destruct r3; [done|]. rejected_run. }
  destruct r3 as [[]|e3]; cbn [map_err]; last first.
  { eexists _, _; split; [reflexivity|right]. exists c, ent. do 2 eexists. cbv zeta. split; [done|].
    split; [exact Hst|]. split; [by eauto|]. left. split_and!; [done..|]. intros Hup.
    rewrite create_fine in Hcr; [done|apply Hup|]. cbn [w_db next_tick]. by rewrite Hdb2. }
  rewrite try_bind_run, on_err_run. cbn [fst snd]. change (NewNotificationDeliverTask _ _) with (send_task n c).
  destruct (Enqueue_outcome (send_task n c) w3) as (r4 & w4 & Hen & Hdb4 & Ht4). rewrite Hen.
  destruct r4 as [info|e4]; cbn [fst snd map_err]; last first.
  { eexists _, _; split; [reflexivity|right]. exists c, ent. do 2 eexists. cbv zeta. split; [done|].
    split; [exact Hst|]. split; [rewrite Hdb4; by eauto|]. left. split_and!; [done|congruence|]. intros Hup.
    pose proof (up_queue Hup (w_tick w3) (send_task n c)) as Hq. unfold EnqueueContext in Hen.
    by destruct (env_enqueue _ _). }
  rewrite ST_bind_run.
  destruct (store_task_id n (ti_ID info) w4) as (w5 & -> & Ht5 & t & u & Hdb5).
  { exists (timestamptz (n_UpdatedAt n)). rewrite Hdb4, Hdb3. symmetry. apply stored_twice. }
  eexists _, _; split; [reflexivity|right]. exists c, ent. do 2 eexists. cbv zeta. split; [done|].
  split; [exact Hst|]. split; [exists t, u; rewrite Hdb5, Hdb4, Hdb3; apply stored_twice|].
  right. split; [done|]. by rewrite Ht5, Ht4, Ht3.
Qed.

Lemma Send_outcome tid input w :
  ∃ r w', NotificationService_Send maxRetries tid input w = (r, w') ∧
    ((is_Ok r = false ∧ w_db w' = w_db w ∧ w_tasks w' = w_tasks w) ∨
     ∃ c ent id now, let n := new_notification tid input c id now in
       sendable tid input (w_db w) c ent ∧ storable n (w_db w) ∧ (∃ t u, w_db w' = stored n t u (w_db w)) ∧
       ((is_Ok r = false ∧ w_tasks w' = w_tasks w) ∨ (r = Ok n ∧ w_tasks w' = w_tasks w ++ [send_task n c]))).
Proof.
  destruct (Send_run tid input w) as (r & w' & Hr & Ho). exists r, w'. split; [done|].
  destruct Ho as [?|(c & ent & id & now & Hs & Hst & Hdb & Hq)]; [by left|right].
  exists c, ent, id, now. split_and!; [done..|]. destruct Hq as [(? & ? & _)|?]; [by left|by right].
Qed.
End send.

Lemma entitled_channels `{E : Env} db tid e1 e2 :
  entitled db tid e1 → entitled db tid e2 → ent_AllowedChannels e1 = ent_AllowedChannels e2.
Proof. unfold entitled. destruct (tenant_entitlements db !! tid); [by intros -> ->|]. by intros [? ->] [? ->]. Qed.

Section send_fine.
Context `{E : Env} (maxRetries : Z) (Hup : services_up).

(** A sendable input is accepted when every service answers. *)
Lemma Send_fine tid input c ent w :
  sendable tid input (w_db w) c ent → cr_ID c = sni_ChannelConfigID input → is_Some (tenants (w_db w) !! tid) →
  in_int4 (effectiveMaxRetries maxRetries (config_of_row c)) = true →
  (∀ k, notifications (w_db w) !! env_uuid k = None) →
  is_Ok (NotificationService_Send maxRetries tid input w).1 = true.
Proof.
  intros [Hc Ht Hact Hs Hent Hal] Hid Hten Hmax Hfresh. pose proof (up_faults Hup) as Hf.
  unfold NotificationService_Send. rewrite try_bind_run, on_err_run. cbn [fst snd].
  unfold PgChannelConfigRepo_GetByID. rewrite db_query_fine by done. cbn [fst snd]. rewrite Hc. cbn [scanConfig map_err].
  change (cc_TenantID (config_of_row c)) with (cr_TenantID c). change (cc_IsActive (config_of_row c)) with (cr_IsActive c).
  change (cc_Channel (config_of_row c)) with (cr_Channel c). change (cc_ID (config_of_row c)) with (cr_ID c).
  rewrite Ht, Hact, Hs, bool_decide_eq_true_2 by done. cbn [negb]. set (w1 := set_db _ _).
  rewrite try_bind_run. destruct (EntitlementsOrFree_fine Hf tid w1) as (ent' & w2 & -> & Hdb2 & _ & Hent').
  change (w_db w1) with (w_db w) in *. cbn [fst snd].
  assert (AllowsChannel ent' (cr_Channel c) = true) as ->.
  { unfold AllowsChannel. rewrite <- (entitled_channels (w_db w) tid ent ent'); done. }
  cbn [negb]. rewrite ST_bind_run. cbn [fst snd time_Now]. rewrite ST_bind_run. cbn [fst snd uuid_New].
  rewrite try_bind_run, on_err_run, create_fine; [| |].
  2: done.
  2: { change (w_db (next_tick (next_tick w2))) with (w_db w2). rewrite Hdb2. split_and!; [done|apply Hfresh|done|].
       cbn [n_ChannelConfigID]. rewrite Hid, Hc. eauto. }
  cbn [fst snd map_err]. rewrite try_bind_run, on_err_run. cbn [fst snd].
  unfold EnqueueContext at 1. set (t := NewNotificationDeliverTask _ _). set (w3 := set_db _ _).
  pose proof (up_queue Hup (w_tick w3) t) as Hq. unfold EnqueueContext.
  destruct (env_enqueue (w_tick w3) t) as [info|]; [|done]. cbn [fst snd map_err]. by rewrite ST_bind_run.
Qed.
End send_fine.
