(* ===== verification/Application.v ===== *)
(** * Application: what holds after any history of calls

    [app_ok] is the invariant of the whole service: the tables' contract, no
    notification on another tenant's channel, only known channel types, and
    webhook endpoints that were validated and stay within their number.  Every
    operation of the services, of the worker and of the retention job preserves
    it, whatever round trips fail. *)
From S2P Require Import Prelude GoTime Json Hex Domain World Repository Integrity SampleEnv RepositoryProps.
From S2P Require Import Tasks Emitter Provider Samples Dispatcher DispatcherFacts Net Ssrf Services.
From S2P Require Import ServicesFacts Http Quota QuotaProps Maintenance.

(** ** The invariant *)

(** A notification belongs to the tenant of its channel and repeats its type. *)
Definition consistent (db : DB) : Prop :=
  ∀ nid n c, notifications db !! nid = Some n → channel_configs db !! n_ChannelConfigID n = Some c →
  n_TenantID n = cr_TenantID c ∧ n_Channel n = cr_Channel c.

Definition endpoint_valid `{E : Env} (e : WebhookEndpoint) : Prop :=
  is_Ok (ValidateHTTPSDestinationURL (e_URL e)) = true ∧ ValidateWebhookEvents (e_Events e) = Ok tt.

Record app_ok `{E : Env} (db : DB) : Prop := mkAppOk {
  app_db : db_ok db;
  app_consistent : consistent db;
  app_channels : map_Forall (λ _ c, cr_Channel c ∈ ValidChannelTypes) (channel_configs db);
  app_endpoints : map_Forall (λ _ e, endpoint_valid e) (webhook_endpoints db);
  app_cap tid : (sql_count (endpoint_of tid) (webhook_endpoints db) ≤ maxWebhookEndpointsPerTenant)%Z
}.

(** The columns the invariant reads beyond the contract. *)
Definition app_view (db : DB) :=
  ((λ n, (n_TenantID n, n_ChannelConfigID n, n_Channel n)) <$> notifications db,
   (λ c, (cr_TenantID c, cr_Channel c)) <$> channel_configs db, webhook_endpoints db).

(** ** Counting under deletion and replacement *)

Lemma sql_count_mono {A} (p : A → bool) (m m' : gmap uuid A) : m' ⊆ m → (sql_count p m' ≤ sql_count p m)%Z.
Proof.
  intros Hs. unfold sql_count. apply Nat2Z.inj_le.
  apply submseteq_length. apply NoDup_submseteq.
  - apply NoDup_filter, NoDup_map_to_list.
  - intros [k x]. rewrite !list_elem_of_filter, !elem_of_map_to_list. intros [? Hk]. split; [done|].
    by eapply lookup_weaken.
Qed.

Lemma sql_count_replace {A} (p : A → bool) (m : gmap uuid A) k x y :
  m !! k = Some x → p y = p x → sql_count p (<[k := y]> m) = sql_count p m.
Proof.
  intros Hk Hp. rewrite <- (insert_delete_id m k x Hk) at 2. rewrite <- (insert_delete_eq m k y).
  rewrite !sql_count_insert by apply lookup_delete_eq. by rewrite Hp.
Qed.

Section invariant.
Context `{E : Env}.

Lemma app_ok_view db db' : db_ok db' → app_view db' = app_view db → app_ok db → app_ok db'.
Proof.
  unfold app_view. intros Hok Hv [_ Hc Ht He Hcap]. injection Hv as Hn Hch Hw.
  assert (∀ k c', channel_configs db' !! k = Some c' → ∃ c, channel_configs db !! k = Some c ∧
    cr_TenantID c = cr_TenantID c' ∧ cr_Channel c = cr_Channel c') as Hchan.
  { intros k c' Hk. apply (f_equal (.!! k)) in Hch. rewrite !lookup_fmap, Hk in Hch.
    destruct (channel_configs db !! k) as [c|]; [|done]. exists c. naive_solver. }
  split; [done| | |by rewrite Hw|by rewrite Hw].
  - intros nid n' c' Hn' Hc'. apply (f_equal (.!! nid)) in Hn. rewrite !lookup_fmap, Hn' in Hn.
    destruct (notifications db !! nid) as [n|] eqn:Hn0; [|done]. injection Hn as H1 H2 H3.
    destruct (Hchan _ _ Hc') as (c & Hcc & <- & <-). rewrite H1, H3. eapply Hc; [done|]. by rewrite <- H2.
  - intros k c' Hk. destruct (Hchan _ _ Hk) as (c & Hcc & _ & <-). by eapply Ht.
Qed.

(** Deleting rows is safe. *)
Lemma app_ok_shrink db db' :
  db_ok db' → notifications db' ⊆ notifications db → channel_configs db' ⊆ channel_configs db →
  webhook_endpoints db' ⊆ webhook_endpoints db → app_ok db → app_ok db'.
Proof.
  intros Hok Hn Hc He [_ H1 H2 H3 H4]. split; [done| | | |].
  - intros nid n c Hnid Hcc. eapply H1; by eapply lookup_weaken.
  - intros k c Hk. eapply H2. by eapply lookup_weaken.
  - intros k e Hk. eapply H3. by eapply lookup_weaken.
  - intros tid. etrans; [by apply sql_count_mono|apply H4].
Qed.

Lemma preserves_view {A} (m : M A) :
  preserves db_ok m → keeps (same (app_view ∘ w_db)) m → preserves app_ok m.
Proof. intros Hok Hv w H. eapply app_ok_view; [|apply Hv|done]. apply Hok, H. Qed.

Lemma del_notifications_shrinks p db :
  notifications (del_notifications p db) ⊆ notifications db ∧
  channel_configs (del_notifications p db) = channel_configs db ∧
  webhook_endpoints (del_notifications p db) = webhook_endpoints db.
Proof. split_and!; [|done..]. apply map_filter_subseteq. Qed.

Lemma del_channel_configs_shrinks p db :
  notifications (del_channel_configs p db) ⊆ notifications db ∧
  channel_configs (del_channel_configs p db) ⊆ channel_configs db ∧
  webhook_endpoints (del_channel_configs p db) = webhook_endpoints db.
Proof. split_and!; [apply map_filter_subseteq..|done]. Qed.

Lemma del_tenant_shrinks id db :
  notifications (del_tenant id db) ⊆ notifications db ∧
  channel_configs (del_tenant id db) ⊆ channel_configs db ∧
  webhook_endpoints (del_tenant id db) ⊆ webhook_endpoints db.
Proof.
  split_and!; [|apply map_filter_subseteq..]. unfold del_tenant. simpl.
  etrans; apply map_filter_subseteq.
Qed.
End invariant.

(** ** Every writing method *)

Create HintDb app.

Section writers.
Context `{E : Env}.

(** Reads, the queue, HTTP and the clock. *)
Lemma app_reads {A} (m : M A) : keeps (same w_db) m → preserves app_ok m.
Proof. apply preserves_same. Qed.

(** A statement that leaves the viewed columns alone. *)
Lemma app_exec {A} (f : DB → result A * DB) :
  preserves db_ok (db_exec f) → (∀ db, app_view (f db).2 = app_view db) → preserves app_ok (db_exec f).
Proof. intros. apply preserves_view; [done|]. by apply exec_same. Qed.

Lemma app_exec_at {A} (f : nat → DB → result A * DB) :
  preserves db_ok (db_exec_at f) → (∀ t db, app_view (f t db).2 = app_view db) → preserves app_ok (db_exec_at f).
Proof. intros H Hv. apply preserves_view; [done|]. intros w. by apply (exec_same app_view (f (w_tick w))). Qed.

(** An UPDATE of a notification outside the viewed columns. *)
Lemma update_notification_view id g db :
  (∀ n, n_TenantID (g n) = n_TenantID n ∧ n_ChannelConfigID (g n) = n_ChannelConfigID n ∧ n_Channel (g n) = n_Channel n) →
  app_view (update_notification id g db).2 = app_view db.
Proof.
  intros Hg. unfold update_notification. destruct (notifications db !! id) as [n|] eqn:Hn; [|done].
  unfold app_view; simpl. destruct (Hg n) as (H1 & H2 & H3). f_equal. f_equal. rewrite fmap_insert.
  apply insert_id. rewrite lookup_fmap, Hn; simpl. by rewrite H1, H2, H3.
Qed.

Lemma app_update_notification id (g : Time → Notification → Notification) :
  preserves db_ok (now ← time_Now; db_exec (update_notification id (g now))) →
  (∀ t n, n_TenantID (g t n) = n_TenantID n ∧ n_ChannelConfigID (g t n) = n_ChannelConfigID n ∧ n_Channel (g t n) = n_Channel n) →
  preserves app_ok (now ← time_Now; db_exec (update_notification id (g now))).
Proof. intros H Hg. apply preserves_view; [done|]. apply (now_exec_same app_view). intros. by apply update_notification_view. Qed.

Lemma app_UpdateStatus id st e : preserves app_ok (PgNotificationRepo_UpdateStatus id st e).
Proof. apply app_update_notification; [apply PgNotificationRepo_UpdateStatus_ok|done]. Qed.
Lemma app_SetAsynqTaskID id t : preserves app_ok (PgNotificationRepo_SetAsynqTaskID id t).
Proof. apply app_update_notification; [apply PgNotificationRepo_SetAsynqTaskID_ok|done]. Qed.
Lemma app_SetProviderMsgID id m : preserves app_ok (PgNotificationRepo_SetProviderMsgID id m).
Proof. apply app_update_notification; [apply PgNotificationRepo_SetProviderMsgID_ok|done]. Qed.
Lemma app_MarkDelivered id : preserves app_ok (PgNotificationRepo_MarkDelivered id).
Proof. apply app_update_notification; [apply PgNotificationRepo_MarkDelivered_ok|done]. Qed.
Lemma app_IncrementRetry id e : preserves app_ok (PgNotificationRepo_IncrementRetry id e).
Proof.
  apply preserves_view; [apply PgNotificationRepo_IncrementRetry_ok|]. apply (now_exec_same app_view).
  intros. destruct (from_option _ _ _); [by apply update_notification_view|done].
Qed.

Lemma insert_checked_view h checks ins db :
  app_view (ins db) = app_view db → app_view (insert_checked h checks ins db).2 = app_view db.
Proof. intros H. unfold insert_checked. by destruct (first_violation _). Qed.

Lemma app_AttemptCreate a : preserves app_ok (PgDeliveryAttemptRepo_Create a).
Proof. apply app_exec; [apply PgDeliveryAttemptRepo_Create_ok|]. intros. by apply insert_checked_view. Qed.
Lemma app_MetricUpsert m : preserves app_ok (PgDeliveryMetricRepo_Upsert m).
Proof.
  apply preserves_view; [apply PgDeliveryMetricRepo_Upsert_ok|]. apply keeps_on_err, (exec_same app_view).
  intros. by apply insert_checked_view.
Qed.
Lemma app_EntitlementUpsert e : preserves app_ok (PgEntitlementRepo_Upsert e).
Proof. apply app_exec_at; [apply PgEntitlementRepo_Upsert_ok|]. intros. by apply insert_checked_view. Qed.
Lemma app_TenantCreate t : preserves app_ok (PgTenantRepo_Create t).
Proof. apply app_exec; [apply PgTenantRepo_Create_ok|]. intros. by apply insert_checked_view. Qed.
Lemma app_TenantUpdate id i : preserves app_ok (PgTenantRepo_Update id i).
Proof. apply app_exec_at; [apply PgTenantRepo_Update_ok|]. intros. by case_match. Qed.
Lemma app_KeyCreate k : preserves app_ok (PgAPIKeyRepo_Create k).
Proof. apply app_exec; [apply PgAPIKeyRepo_Create_ok|]. intros. by apply insert_checked_view. Qed.
Lemma app_KeyRevoke id tid : preserves app_ok (PgAPIKeyRepo_Revoke id tid).
Proof. apply app_exec_at; [apply PgAPIKeyRepo_Revoke_ok|]. intros. by repeat case_match. Qed.

Lemma app_KeyCreateWithinLimit k limit : preserves app_ok (PgAPIKeyRepo_CreateWithinLimit k limit).
Proof.
  apply preserves_view; [apply PgAPIKeyRepo_CreateWithinLimit_ok|]. intros w. unfold same; simpl.
  destruct (within_limit_outcome (k_TenantID k) (λ db, sql_count (active_key_of (k_TenantID k)) (api_keys db))
    limit ErrKeyLimitReached (insert_api_key k) w) as [[Hw _]|(_ & _ & _ & Hw)].
  all: change (within_limit _ _ _ _ _ w) with (PgAPIKeyRepo_CreateWithinLimit k limit w) in Hw; rewrite Hw.
  - done.
  - by apply insert_checked_view.
Qed.

Lemma app_ChannelUpdate id tid i : preserves app_ok (PgChannelConfigRepo_Update id tid i).
Proof.
  apply app_exec_at; [apply PgChannelConfigRepo_Update_ok|]. intros t db.
  destruct (channel_configs db !! id) as [c|] eqn:Hc; [|done]. case_bool_decide; [|done]. cbv zeta.
  destruct (no_row _ _); [|done]. unfold app_view; simpl. f_equal. f_equal. rewrite fmap_insert.
  apply insert_id. by rewrite lookup_fmap, Hc.
Qed.

Lemma app_ChannelDelete id tid : preserves app_ok (PgChannelConfigRepo_Delete id tid).
Proof.
  apply preserves_exec. intros db H. cbv zeta. destruct (_ =? _)%Z; [done|]. simpl.
  match goal with |- app_ok (del_channel_configs ?p _) =>
    destruct (del_channel_configs_shrinks p db) as (H1 & H2 & H3) end.
  eapply app_ok_shrink; [by apply del_channel_configs_ok, H|done|done|by rewrite H3|done].
Qed.

Lemma app_TenantDelete id : preserves app_ok (PgTenantRepo_Delete id).
Proof.
  apply preserves_exec. intros db H. case_match; [|done]. simpl.
  destruct (del_tenant_shrinks id db) as (H1 & H2 & H3).
  eapply app_ok_shrink; [by apply del_tenant_ok, H|done..].
Qed.

Lemma app_DeleteOlderThan tid cutoff : preserves app_ok (PgNotificationRepo_DeleteOlderThan tid cutoff).
Proof.
  intros w H. destruct (DeleteOlderThan_outcome tid cutoff w) as [[-> _]|[-> _]]; [done|].
  destruct (del_notifications_shrinks (older_than tid cutoff) (w_db w)) as (H1 & H2 & H3).
  eapply app_ok_shrink; [by apply del_notifications_ok, H|done|unfold purged; by rewrite H2|unfold purged; by rewrite H3|done].
Qed.

(** What an INSERT leaves behind. *)
Lemma insert_outcome h checks ins w :
  w_db (db_exec (insert_checked h checks ins) w).2 = w_db w ∨
  Forall (λ c, c.1 = true) (checks (w_db w)) ∧ w_db (db_exec (insert_checked h checks ins) w).2 = ins (w_db w).
Proof.
  unfold db_exec, insert_checked. destruct (env_fault _); simpl; [|by left|].
  all: destruct (first_violation _) eqn:Hv; [by left|right]; split; [by apply first_violation_None|done].
Qed.

(** A new channel has no notifications yet. *)
Lemma app_ChannelCreate cfg :
  cc_Channel cfg ∈ ValidChannelTypes → preserves app_ok (PgChannelConfigRepo_Create cfg).
Proof.
  intros Hv w H. pose proof (PgChannelConfigRepo_Create_ok cfg w (app_db _ H)) as Hok.
  unfold PgChannelConfigRepo_Create in *. cbv zeta in *.
  match goal with |- context [db_exec (insert_checked ?h ?c ?i) w] =>
    destruct (insert_outcome h c i w) as [Heq|[Hc Heq]]; rewrite Heq in * end; [done|].
  checks_true Hc. destruct H as [H0 H1 H2 H3 H4]. split; [done| | |done|done]; simpl in *.
  - intros nid n c Hn Hcc0. simpl in *. apply lookup_insert_Some in Hcc0 as [[Hid _]|[Hne Hcc]]; [|by eapply H1].
    rewrite Hid in *. destruct (ok_notification_channel _ H0 _ _ Hn) as [? Hcc]. congruence.
  - by apply map_Forall_insert_2.
Qed.

(** A new notification is on a channel of its tenant. *)
Lemma app_stored n c t u db :
  db_ok (stored n t u db) → channel_configs db !! n_ChannelConfigID n = Some c →
  n_TenantID n = cr_TenantID c → n_Channel n = cr_Channel c → app_ok db → app_ok (stored n t u db).
Proof.
  intros Hok Hc Ht Hch [H0 H1 H2 H3 H4]. split; [done| |done..].
  intros nid n' c' Hn' Hcc. simpl in *. apply lookup_insert_Some in Hn' as [[<- <-]|[Hne Hn]]; [|by eapply H1].
  simpl in *. assert (c' = c) as -> by congruence. done.
Qed.

(** The endpoint methods, on validated input. *)
Lemma app_EndpointCreate e :
  endpoint_valid e →
  preserves app_ok (PgWebhookEndpointRepo_CreateWithinLimit e maxWebhookEndpointsPerTenant).
Proof.
  intros Hv w H.
  pose proof (PgWebhookEndpointRepo_CreateWithinLimit_ok e maxWebhookEndpointsPerTenant w (app_db _ H)) as Hok.
  destruct (within_limit_outcome (e_TenantID e)
    (λ db, sql_count (endpoint_of (e_TenantID e)) (webhook_endpoints db)) maxWebhookEndpointsPerTenant
    ErrWebhookLimitReached (insert_webhook_endpoint e) w) as [[Hw _]|(_ & Hlt & Hi & Hw)].
  all: change (within_limit _ _ _ _ _ w) with
    (PgWebhookEndpointRepo_CreateWithinLimit e maxWebhookEndpointsPerTenant w) in Hw; rewrite Hw in *.
  { done. }
  pose proof (λ tid, insert_webhook_endpoint_count e tid (w_db w) Hi) as Hcnt.
  apply insert_checked_Ok in Hi as [Heq Hc]. unfold insert_webhook_endpoint in *. rewrite Heq in *.
  destruct H as [H0 H1 H2 H3 H4]. split; [done|done|done| |].
  - apply map_Forall_insert_2; [exact Hv|done].
  - intros tid. rewrite Hcnt. specialize (H4 tid). case_bool_decide; [subst tid|]; lia.
Qed.

Lemma app_EndpointUpdate id tid i :
  (∀ url, uwi_URL i = Some url → is_Ok (ValidateHTTPSDestinationURL url) = true) →
  (∀ evs, uwi_Events i = Some evs → ValidateWebhookEvents evs = Ok tt) →
  preserves app_ok (PgWebhookEndpointRepo_Update id tid i).
Proof.
  intros Hu He w H. pose proof (PgWebhookEndpointRepo_Update_ok id tid i w (app_db _ H)) as Hok. revert Hok.
  unfold PgWebhookEndpointRepo_Update, db_exec. destruct (env_fault _); simpl; intros Hok; [|done|].
  all: destruct (webhook_endpoints (w_db w) !! id) as [e|] eqn:Hl; [|done]; case_bool_decide as Htid; [|done]; simpl in *.
  all: destruct H as [H0 H1 H2 H3 H4]; split; [done|done|done| |]; simpl.
  1, 3: apply map_Forall_insert_2; [|done]; destruct (H3 _ _ Hl); split; simpl;
    [destruct (uwi_URL i); simpl; eauto|destruct (uwi_Events i); simpl; eauto].
  all: intros tid'; by rewrite (sql_count_replace _ _ _ e).
Qed.

Lemma app_EndpointDelete id tid : preserves app_ok (PgWebhookEndpointRepo_Delete id tid).
Proof.
  intros w H. pose proof (PgWebhookEndpointRepo_Delete_ok id tid w (app_db _ H)) as Hok. revert Hok.
  unfold PgWebhookEndpointRepo_Delete, db_exec. destruct (env_fault _); simpl; intros Hok; [|done|].
  all: destruct (webhook_endpoints (w_db w) !! id) as [e|]; [|done]; case_bool_decide as Htid; [|done]; simpl in *.
  all: apply (app_ok_shrink (w_db w)); [done|done|done|apply delete_subseteq|done].
Qed.
End writers.

#[export] Hint Resolve app_UpdateStatus app_SetAsynqTaskID app_SetProviderMsgID app_MarkDelivered app_IncrementRetry
  app_AttemptCreate app_MetricUpsert app_EntitlementUpsert app_TenantCreate app_TenantUpdate app_TenantDelete
  app_KeyCreate app_KeyRevoke app_KeyCreateWithinLimit app_ChannelCreate app_ChannelUpdate app_ChannelDelete
  app_DeleteOlderThan app_EndpointCreate app_EndpointUpdate app_EndpointDelete : app.

(** ** Every operation *)

Section operations.
Context `{E : Env}.

Section combinators.
Context (P : DB → Prop).

Lemma op_ret {A} (a : A) : preserves P (mret a).
Proof. apply keeps_ret, _. Qed.
Lemma op_bind {A B} (m : M A) (f : A → M B) :
  preserves P m → (∀ a, preserves P (f a)) → preserves P (m ≫= f).
Proof. apply keeps_bind, _. Qed.
Lemma op_try {A B} (m : M (result A)) (f : A → M (result B)) :
  preserves P m → (∀ a, preserves P (f a)) → preserves P (try_bind m f).
Proof. apply keeps_try, _. Qed.
Lemma op_on_err {A} g (m : M (result A)) : preserves P m → preserves P (on_err g m).
Proof. apply keeps_on_err. Qed.
Lemma op_log_err {A} (m : M (result A)) msg : preserves P m → preserves P (log_err m msg).
Proof. intros H. apply keeps_log_err; [apply _|done|]. apply preserves_same, log_db. Qed.
End combinators.

(** Splits an operation into its calls, casing on every test. *)
Ltac app_op :=
  lazymatch goal with
  | |- preserves _ (mret _) => apply op_ret
  | |- preserves _ (mbind _ _) => apply op_bind; [|intros ?]
  | |- preserves _ (try_bind _ _) => apply op_try; [|intros ?]
  | |- preserves _ (on_err _ _) => apply op_on_err
  | |- preserves _ (log_err _ _) => apply op_log_err
  | |- preserves _ (match ?x with _ => _ end) => destruct x eqn:?
  | |- preserves _ _ => solve [eauto 3 with app db_ok | apply preserves_same; eauto 3 with keeps]
  end.

Lemma EntitlementsOrFree_db tid : keeps (same w_db) (EntitlementsOrFree PgEntitlementRepo_GetByTenantID time_Now tid).
Proof. intros w. by destruct (EntitlementsOrFree_outcome tid w) as (r & w' & -> & ? & _). Qed.
Lemma generateRandomHex_db n : keeps (same w_db) (generateRandomHex n).
Proof. unfold generateRandomHex. keeps_auto. Qed.
Lemma ChannelGetByID_db id : keeps (same w_db) (PgChannelConfigRepo_GetByID id).
Proof. apply db_query_db. Qed.
Hint Resolve EntitlementsOrFree_db generateRandomHex_db ChannelGetByID_db : keeps.

Lemma app_Send_db_ok maxRetries tid input : preserves db_ok (NotificationService_Send maxRetries tid input).
Proof. unfold NotificationService_Send. cbv zeta. repeat app_op. Qed.

Lemma app_Send maxRetries tid input : preserves app_ok (NotificationService_Send maxRetries tid input).
Proof.
  intros w H. pose proof (app_Send_db_ok maxRetries tid input w (app_db _ H)) as Hok.
  destruct (Send_outcome maxRetries tid input w) as (r & w' & Hr & Ho). rewrite Hr in *. simpl in *.
  destruct Ho as [(_ & -> & _)|(c & ent & id & now & Hs & _ & (t & u & Hdb) & _)]; [done|].
  rewrite Hdb in *. pose proof (sd_channel _ _ _ _ _ Hs) as Hc.
  apply (app_stored _ c); [done| |simpl; symmetry; apply Hs|done|done].
  simpl. by rewrite (ok_channel_key _ (app_db _ H) _ _ Hc).
Qed.

Lemma app_ChannelService_Create registry tid input : preserves app_ok (ChannelService_Create registry tid input).
Proof.
  unfold ChannelService_Create. repeat app_op. all: try (apply app_ChannelCreate; simpl).
  all: apply IsValidChannelType_spec; by destruct (IsValidChannelType _).
Qed.

Lemma app_ChannelService_Update registry id tid input : preserves app_ok (ChannelService_Update registry id tid input).
Proof. unfold ChannelService_Update. repeat app_op. Qed.

Lemma app_TenantService_Create input : preserves app_ok (TenantService_Create input).
Proof. unfold TenantService_Create. repeat app_op. Qed.

Lemma app_APIKeyService_Create tid label : preserves app_ok (APIKeyService_Create tid label).
Proof. unfold APIKeyService_Create. cbv zeta. repeat app_op. Qed.

Lemma validate_url_ok url : validateWebhookEndpointURL url = Ok tt → is_Ok (ValidateHTTPSDestinationURL url) = true.
Proof. unfold validateWebhookEndpointURL. by destruct (ValidateHTTPSDestinationURL url). Qed.

Lemma app_WebhookEndpointService_Create tid input : preserves app_ok (WebhookEndpointService_Create tid input).
Proof.
  unfold WebhookEndpointService_Create. cbv zeta.
  destruct (validateWebhookEndpointURL _) as [[]|] eqn:Hu; [|app_op].
  destruct (ValidateWebhookEvents _) as [[]|] eqn:He; [|app_op]. apply validate_url_ok in Hu.
  repeat app_op. apply app_EndpointCreate. by split.
Qed.

Lemma app_WebhookEndpointService_Update id tid input : preserves app_ok (WebhookEndpointService_Update id tid input).
Proof.
  unfold WebhookEndpointService_Update.
  destruct (from_option validateWebhookEndpointURL _ _) as [[]|] eqn:Hu; [|app_op].
  destruct (from_option ValidateWebhookEvents _ _) as [[]|] eqn:He; [|app_op].
  apply app_EndpointUpdate; [intros url Heq|intros evs Heq]; rewrite Heq in *; [by apply validate_url_ok|done].
Qed.

Context (registry : Registry) (Emit : EmitParams → M (result unit)) `{!TerminalEventEmitter Emit}.
Hint Resolve Emit_keeps_db : keeps.

Lemma app_HandleNotificationDeliver ctx t :
  registry_ok registry → preserves app_ok (HandleNotificationDeliver registry Emit ctx t).
Proof.
  intros Hr. unfold HandleNotificationDeliver, Registry_Get.
  destruct (dec_NotificationDeliverPayload _) as [p|]; [|app_op]. cbv zeta.
  destruct (registry !! p_ChannelType p) as [prov|] eqn:Hpr; [destruct (Hr _ _ Hpr) as [_ HL]|].
  all: unfold handleDeliveryError, handleProviderFailure, handlePermanentProviderFailure, recordSuccessfulDelivery,
    emitTerminalEvent, createInitialDeliveryMetric; cbv zeta.
  all: repeat app_op.
Qed.

Lemma app_HandleError ctx t e : preserves app_ok (HandleError Emit ctx t e).
Proof.
  unfold HandleError, handleNotificationRetriesExhausted, handleWebhookEventRetriesExhausted. cbv zeta.
  repeat app_op.
Qed.

Lemma PgTenantRepo_List_db limit offset : keeps (same w_db) (PgTenantRepo_List limit offset).
Proof. unfold PgTenantRepo_List. keeps_auto. Qed.
Hint Resolve PgTenantRepo_List_db : keeps.

Lemma app_HandleRetentionPurge fuel : preserves app_ok (HandleRetentionPurge fuel).
Proof.
  assert (∀ ts, preserves app_ok (visit_page purge_tenant ts)) as Hpage.
  { induction ts as [|t ts IH]; simpl; [app_op|]. unfold visit_tenant, purge_tenant. cbv zeta.
    apply op_bind; [|done]. repeat app_op. }
  unfold HandleRetentionPurge, forEachTenant. generalize 0%Z. induction fuel as [|fuel IH]; intros offset; simpl; [app_op|].
  apply op_bind; [app_op|]. intros [[ts total]|e]; [|app_op]. apply op_bind; [done|]. intros _.
  destruct (_ || _); [app_op|done].
Qed.

(** ** Histories *)

(** One operation of the API, the worker or the retention job, with any
    arguments, or anything that leaves the tables alone. *)
Inductive app_step (maxRetries : Z) : World → World → Prop :=
| app_send tid i w : app_step maxRetries w (NotificationService_Send maxRetries tid i w).2
| app_channel_create tid i w : app_step maxRetries w (ChannelService_Create registry tid i w).2
| app_channel_update id tid i w : app_step maxRetries w (ChannelService_Update registry id tid i w).2
| app_channel_delete id tid w : app_step maxRetries w (ChannelService_Delete id tid w).2
| app_tenant_create i w : app_step maxRetries w (TenantService_Create i w).2
| app_tenant_update id i w : app_step maxRetries w (TenantService_Update id i w).2
| app_tenant_delete id w : app_step maxRetries w (TenantService_Delete id w).2
| app_key_create tid label w : app_step maxRetries w (APIKeyService_Create tid label w).2
| app_key_revoke id tid w : app_step maxRetries w (APIKeyService_Revoke id tid w).2
| app_endpoint_create tid i w : app_step maxRetries w (WebhookEndpointService_Create tid i w).2
| app_endpoint_update id tid i w : app_step maxRetries w (WebhookEndpointService_Update id tid i w).2
| app_endpoint_delete id tid w : app_step maxRetries w (WebhookEndpointService_Delete id tid w).2
| app_entitlement_upsert e w : app_step maxRetries w (PgEntitlementRepo_Upsert e w).2
| app_deliver ctx t w : app_step maxRetries w (HandleNotificationDeliver registry Emit ctx t w).2
| app_deliver_error ctx t e w : app_step maxRetries w (HandleError Emit ctx t e w).2
| app_purge fuel w : app_step maxRetries w (HandleRetentionPurge fuel w).2
| app_other w w' : w_db w' = w_db w → app_step maxRetries w w'.

Lemma app_step_ok maxRetries w w' :
  registry_ok registry → app_step maxRetries w w' → app_ok (w_db w) → app_ok (w_db w').
Proof.
  intros Hr. destruct 1 as [ | | | | | | | | | | | | | | | |w w' Heq]; [..|by rewrite Heq].
  - apply app_Send.
  - apply app_ChannelService_Create.
  - apply app_ChannelService_Update.
  - apply app_ChannelDelete.
  - apply app_TenantService_Create.
  - apply app_TenantUpdate.
  - apply app_TenantDelete.
  - apply app_APIKeyService_Create.
  - apply app_KeyRevoke.
  - apply app_WebhookEndpointService_Create.
  - apply app_WebhookEndpointService_Update.
  - apply app_EndpointDelete.
  - apply app_EntitlementUpsert.
  - by apply app_HandleNotificationDeliver.
  - apply app_HandleError.
  - apply app_HandleRetentionPurge.
Qed.
End operations.

Lemma empty_db_app_ok `{E : Env} : app_ok empty_db.
Proof. split; [apply empty_db_ok|by intros ???|apply map_Forall_empty..|by intros tid]. Qed.

(** The sample tables satisfy the invariant. *)
Lemma sample_app_ok : @app_ok healthy sample_db.
Proof.
  split; [exact sample_db_ok| | | |].
  - intros nid n c Hn Hc. cbn [notifications channel_configs sample_db] in *.
    apply lookup_singleton_Some in Hn as [<- <-]. apply lookup_singleton_Some in Hc as [_ <-]. done.
  - apply map_Forall_singleton. simpl. set_solver.
  - apply map_Forall_singleton. split; vm_compute; reflexivity.
  - intros tid. unfold sql_count. simpl. rewrite map_to_list_singleton. unfold filter. simpl.
    destruct (decide _); simpl; done.
Qed.
