(* ===== verification/ApplicationProps.v ===== *)
(** * ApplicationProps: the properties of the services and of the whole application *)
From S2P Require Import Prelude GoTime Json Hex Domain World Repository Integrity SampleEnv RepositoryProps.
From S2P Require Import Tasks Emitter Provider Samples Dispatcher DispatcherFacts Lifecycle Net Ssrf Services.
From S2P Require Import ServicesFacts Http Quota QuotaProps Maintenance Application.
From S2P Require Import Email ProviderFacts SampleMail.

(** ** A notification from the API call to its end *)

Section end_to_end.
Context {E : Env} {UL : UuidLaws E} {PL : PgLaws E} (maxRetries : Z).

(** The row a successful [Send] leaves. *)
Lemma Send_Ok tid input n w w1 :
  NotificationService_Send maxRetries tid input w = (Ok n, w1) →
  ∃ c ent id now t u, n = new_notification maxRetries tid input c id now ∧ sendable tid input (w_db w) c ent ∧
    storable n (w_db w) ∧ w_db w1 = stored n t u (w_db w) ∧ w_tasks w1 = w_tasks w ++ [send_task n c].
Proof.
  intros Hs. destruct (Send_outcome maxRetries tid input w) as (r & w' & Hr & Ho). rewrite Hs in Hr.
  injection Hr as <- <-. destruct Ho as [(Hf & _)|(c & ent & id & now & Hsd & Hst & (t & u & Hdb) & [[Hf _]|[Hn Ht]])];
    [done..|]. injection Hn as ->. by exists c, ent, id, now, t, u.
Qed.
End end_to_end.

(** ** Many channels at once *)

Section multi.
Context `{E : Env} (maxRetries : Z) (tid : uuid).

(** What the states of a run have in common with its start. *)
Definition multi_inv (total : nat) (w0 : World)
    (s : list SendNotificationInput * list Notification * list error * World) : Prop :=
  let '(pending, results, errs, w) := s in
  (length pending + length results + length errs = total)%nat ∧
  length (w_tasks w) = (length (w_tasks w0) + length results)%nat ∧
  Forall (λ n, n_TenantID n = tid ∧ is_Some (notifications (w_db w) !! n_ID n)) results.

Lemma Send_grows input w nid :
  is_Some (notifications (w_db w) !! nid) →
  is_Some (notifications (w_db (NotificationService_Send maxRetries tid input w).2) !! nid).
Proof.
  intros H. destruct (Send_outcome maxRetries tid input w) as (r & w' & -> & Ho). simpl.
  destruct Ho as [(_ & -> & _)|(c & ent & id & now & _ & _ & (t & u & ->) & _)]; [done|]. simpl.
  apply lookup_insert_is_Some'. by right.
Qed.

Lemma multi_step_inv total w0 s s' :
  SendMulti_step maxRetries tid s s' → multi_inv total w0 s → multi_inv total w0 s'.
Proof.
  destruct 1 as [pre ch post results errs w w' n Hs|pre ch post results errs w w' e Hs];
    intros (H1 & H2 & H3); (assert (∀ nid, is_Some (notifications (w_db w) !! nid) →
      is_Some (notifications (w_db w') !! nid)) as Hg by
      (intros nid Hn; pose proof (Send_grows ch w nid Hn) as Hg; by rewrite Hs in Hg)).
  - destruct (Send_Ok maxRetries tid ch n w w' Hs) as (c & ent & id & now & t & u & -> & _ & _ & Hdb & Ht).
    split_and!.
    + rewrite length_app in *. simpl in *. rewrite length_app. simpl. lia.
    + rewrite Ht, !length_app. simpl. lia.
    + apply Forall_app. split; [eapply Forall_impl; [exact H3|]; naive_solver|].
      constructor; [|constructor]. split; [done|]. rewrite Hdb. simpl. rewrite lookup_insert_eq. eauto.
  - destruct (Send_outcome maxRetries tid ch w) as (r & w2 & Hr & Ho). rewrite Hs in Hr. injection Hr as <- <-.
    assert (w_tasks w' = w_tasks w) as Ht.
    { destruct Ho as [(_ & _ & ?)|(c & ent & id & now & _ & _ & _ & [[_ ?]|[? _]])]; done. }
    split_and!.
    + rewrite length_app in *. simpl in *. rewrite length_app. simpl. lia.
    + by rewrite Ht.
    + eapply Forall_impl; [exact H3|]. naive_solver.
Qed.
End multi.

(** ** Creating tenants *)

Section tenants.
Context `{E : Env}.

Definition tenant_row (t : Tenant) : Tenant :=
  mkTenant (t_ID t) (t_Name t) (t_Slug t) (t_APIKey t) (t_APISecret t) (t_IsActive t)
    (timestamptz (t_CreatedAt t)) (timestamptz (t_UpdatedAt t)).
Definition key_row (k : APIKey) : APIKey :=
  mkAPIKey (k_ID k) (k_TenantID k) (k_APIKey k) (k_APISecretHash k) (k_Label k) (timestamptz (k_CreatedAt k)) None.

Lemma TenantRepo_Create_Ok t w u w' :
  PgTenantRepo_Create t w = (Ok u, w') →
  w_db w' = set_tenants (<[t_ID t := tenant_row t]> (tenants (w_db w))) (w_db w).
Proof.
  unfold PgTenantRepo_Create, db_exec, insert_checked. destruct (env_fault _); [|done..].
  destruct (first_violation _); [done|]. by intros [= _ <-].
Qed.

(** Slugs are unique. *)
Lemma TenantRepo_slug_taken id t0 t w :
  tenants (w_db w) !! id = Some t0 → t_Slug t0 = t_Slug t → is_Ok (PgTenantRepo_Create t w).1 = false.
Proof.
  intros H0 Hs. unfold PgTenantRepo_Create, db_exec, insert_checked. destruct (env_fault _); [|done..].
  destruct (first_violation _) eqn:Hv; [done|]. apply first_violation_None in Hv. checks_true Hv.
  apply Hc0, bool_decide_eq_false in H0. by destruct H0.
Qed.

Lemma KeyRepo_Create_Ok k w u w' :
  PgAPIKeyRepo_Create k w = (Ok u, w') →
  w_db w' = set_api_keys (<[k_ID k := key_row k]> (api_keys (w_db w))) (w_db w).
Proof.
  unfold PgAPIKeyRepo_Create, db_exec, insert_api_key, insert_checked. destruct (env_fault _); [|done..].
  destruct (first_violation _); [done|]. by intros [= _ <-].
Qed.

(** The steps of a call that got through its checks. *)
Lemma try_Ok {A B} (m : M (result A)) (k : A → M (result B)) w b w' :
  try_bind m k w = (Ok b, w') → ∃ a w1, m w = (Ok a, w1) ∧ k a w1 = (Ok b, w').
Proof. rewrite try_bind_run. destruct (m w) as [[a|e] w1]; simpl; [eauto|done]. Qed.

Lemma on_err_Ok {A} f (m : M (result A)) w a w1 : on_err f m w = (Ok a, w1) → m w = (Ok a, w1).
Proof. rewrite on_err_run. destruct (m w) as [[x|e] w2]; simpl; [|done]. by intros [= -> ->]. Qed.

Lemma generateRandomHex_Ok n w s w1 : generateRandomHex n w = (Ok s, w1) → w1 = next_tick w.
Proof.
  unfold generateRandomHex. intros (a & w2 & Hr & Hk)%try_Ok. unfold rand_Read in Hr. injection Hr as _ <-.
  by injection Hk as _ <-.
Qed.
End tenants.

(** * Claims *)


(** After any sequence of operations of the services, the worker and the retention job from an empty database,
    whatever round trips failed, the invariant of the application holds: the tables satisfy their keys and
    references, every notification is on a channel of its own tenant and of its own type, channels have known
    types, webhook endpoints are validated and at most three per tenant. *)
Theorem application_invariant {E : Env} (registry : Registry) (Emit : EmitParams → M (result unit))
    `{!TerminalEventEmitter Emit} maxRetries w0 w :
  registry_ok registry → w_db w0 = empty_db → rtc (app_step registry Emit maxRetries) w0 w → app_ok (w_db w).
Proof.
  intros Hr H0 Hrun. assert (app_ok (w_db w0)) as Hok by (rewrite H0; apply empty_db_app_ok). clear H0.
  induction Hrun as [|w1 w2 w3 Hs _ IH]; [done|]. by eapply IH, app_step_ok.
Qed.



(** SendMulti returns on every input, and in whatever order its goroutines run each channel yields one result or
    one error, one task is enqueued per result, and every result is a stored notification of the tenant. *)
Theorem send_multi_accounts {E : Env} maxRetries tid input w :
  (∃ results errs w', NotificationService_SendMulti maxRetries tid input w results errs w') ∧
  ∀ results errs w', NotificationService_SendMulti maxRetries tid input w results errs w' →
    (length results + length errs = length (smi_Channels input))%nat ∧
    length (w_tasks w') = (length (w_tasks w) + length results)%nat ∧
    Forall (λ n, n_TenantID n = tid ∧ is_Some (notifications (w_db w') !! n_ID n)) results.
Proof.
  unfold NotificationService_SendMulti. split.
  - generalize ([] : list Notification), ([] : list error). revert w. generalize (smi_Channels input) as l.
    induction l as [|ch l IH]; intros w rs es; [by exists rs, es, w|].
    destruct (NotificationService_Send maxRetries tid ch w) as [[n|e] w1] eqn:Hs.
    + destruct (IH w1 (rs ++ [n]) es) as (rs' & es' & w' & Hrun). exists rs', es', w'.
      eapply rtc_l; [by apply (multi_ok _ _ [])|done].
    + destruct (IH w1 rs (es ++ [e])) as (rs' & es' & w' & Hrun). exists rs', es', w'.
      eapply rtc_l; [by apply (multi_err _ _ [])|done].
  - intros results errs w' Hrun.
    assert (multi_inv tid (length (smi_Channels input)) w ([], results, errs, w')) as (H1 & H2 & H3); [|done].
    remember ([], results, errs, w') as s' eqn:Hs'. clear Hs'.
    assert (multi_inv tid (length (smi_Channels input)) w (smi_Channels input, [], [], w)) as Hinv.
    { split_and!; [simpl; lia|simpl; lia|constructor]. }
    revert Hinv. induction Hrun as [|s1 s2 s3 Hstep _ IH]; [done|]. intros Hinv. by eapply IH, multi_step_inv.
Qed.

(** When creating a tenant succeeds, the tenant is stored active under the given name and slug with an unrevoked
    key of its own, whose value is the returned API key and whose hash is one of the returned secret. *)
Theorem created_tenant_can_authenticate {E : Env} input res w w' :
  TenantService_Create input w = (Ok res, w') →
  ∃ tid kid t k tick,
    tenants (w_db w') !! tid = Some t ∧ t_Name t = cti_Name input ∧ t_Slug t = cti_Slug input ∧ t_IsActive t = true ∧
    api_keys (w_db w') !! kid = Some k ∧ k_TenantID k = tid ∧ k_APIKey k = ctr_APIKey res ∧ k_RevokedAt k = None ∧
    bcrypt_Generate tick (ctr_APISecret res) = Ok (k_APISecretHash k) ∧ cti_Name input ≠ "" ∧ cti_Slug input ≠ "".
Proof.
  unfold TenantService_Create. case_bool_decide as Hname; [done|]. case_bool_decide as Hslug; [done|].
  intros (apiKey & w1 & _ & H)%try_Ok. apply try_Ok in H as (raw & w2 & _ & H).
  apply try_Ok in H as (hash & w3 & Hh & H). apply on_err_Ok in Hh.
  unfold bcrypt_GenerateFromPassword in Hh. injection Hh as Hh <-.
  rewrite !ST_bind_run in H. cbv zeta in H. cbn [fst snd] in H.
  apply try_Ok in H as (u & w4 & Ht%TenantRepo_Create_Ok & H). rewrite ST_bind_run in H.
  apply try_Ok in H as (u' & w5 & Hk%KeyRepo_Create_Ok & H). injection H as <- <-.
  cbn [uuid_New fst snd t_ID k_ID] in *.
  do 5 eexists. rewrite Hk. simpl. rewrite lookup_insert_eq.
  change (w_db (next_tick w4)) with (w_db w4). rewrite Ht. simpl. rewrite lookup_insert_eq.
  split_and!; done.
Qed.

(** When storing the key of a new tenant fails, creating the tenant reports an error but leaves a tenant without
    a key, and every later attempt to create a tenant with that slug fails. *)
Theorem tenant_creation_not_atomic {E : Env} input key secret hash msg w :
  cti_Name input ≠ "" → cti_Slug input ≠ "" →
  env_rand_bytes (w_tick w) 32 = Ok key → env_rand_bytes (S (w_tick w)) 32 = Ok secret →
  bcrypt_Generate (S (S (w_tick w))) (hex_EncodeToString secret) = Ok hash →
  env_fault (5 + w_tick w) = Fine → env_fault (7 + w_tick w) = Lost msg →
  tenants (w_db w) = ∅ →
  let res := TenantService_Create input w in
  is_Ok res.1 = false ∧ api_keys (w_db res.2) = api_keys (w_db w) ∧
  (∃ tid t, tenants (w_db res.2) !! tid = Some t ∧ t_Slug t = cti_Slug input) ∧
  ∀ t w2, t_Slug t = cti_Slug input → w_db w2 = w_db res.2 → is_Ok (PgTenantRepo_Create t w2).1 = false.
Proof.
  intros Hname Hslug Hk Hs Hh Hf5 Hf7 Hempty. cbv zeta.
  set (t := mkTenant (env_uuid (4 + w_tick w)) (cti_Name input) (cti_Slug input) (hex_EncodeToString key) hash true
              (env_now (3 + w_tick w)) (env_now (3 + w_tick w))).
  assert (∃ e w', TenantService_Create input w = (Err e, w') ∧
    w_db w' = set_tenants (<[t_ID t := tenant_row t]> (tenants (w_db w))) (w_db w)) as (e & w' & -> & Hdb).
  { unfold TenantService_Create. rewrite !bool_decide_eq_false_2 by done.
    unfold generateRandomHex, bcrypt_GenerateFromPassword, rand_Read, time_Now, uuid_New, on_err, try_bind, mbind, ST_bind,
      fmap, ST_fmap, PgTenantRepo_Create, PgAPIKeyRepo_Create, db_exec, mret, ST_ret.
    simpl. rewrite Hk. simpl. rewrite Hs. simpl. rewrite Hh. simpl. simpl in Hf5, Hf7. rewrite Hf5. simpl.
    unfold insert_checked. rewrite Hempty. unfold absent, no_row. rewrite lookup_empty, map_to_list_empty. simpl.
    rewrite Hf7. eexists _, _. split; reflexivity. }
  simpl. rewrite Hdb. split_and!; [done|done| |].
  - exists (t_ID t), (tenant_row t). split; [apply lookup_insert_eq|done].
  - intros t2 w2 Hsl Hw2. apply (TenantRepo_slug_taken (t_ID t) (tenant_row t)); [|by rewrite Hsl].
    rewrite Hw2. apply lookup_insert_eq.
Qed.

(** * Witnesses *)

Section witnesses.
#[local] Existing Instance healthy.

Definition sample_input : SendNotificationInput := mkSendNotificationInput id_channel None "hello" None.

(** The sample database accepts a message on its channel. *)
Definition sent_notification : Notification :=
  mkNotification (env_uuid 4) id_tenant id_channel ChannelDiscord None "hello" None StatusPending None 0 5 None None None
    (env_now 3) (env_now 3).

Lemma sample_send : (NotificationService_Send 5 id_tenant sample_input (healthy_world sample_db)).1 = Ok sent_notification.
Proof. vm_compute. reflexivity. Qed.

Definition sent_world : World := (NotificationService_Send 5 id_tenant sample_input (healthy_world sample_db)).2.

Lemma sample_send_run :
  NotificationService_Send 5 id_tenant sample_input (healthy_world sample_db) = (Ok sent_notification, sent_world).
Proof. unfold sent_world. rewrite <- sample_send. apply surjective_pairing. Qed.


(** Creating a tenant on an empty installation. *)
Definition new_tenant : CreateTenantInput := mkCreateTenantInput "Acme" "acme".
Definition tenant_world : World := (TenantService_Create new_tenant (healthy_world empty_db)).2.

Lemma application_invariant_witness : app_ok (w_db tenant_world).
Proof.
  apply (application_invariant (sample_registry accepted) worker_Emit 5 (healthy_world empty_db) tenant_world).
  - by apply sample_registry_ok.
  - reflexivity.
  - eapply rtc_l; [|apply rtc_refl]. apply app_tenant_create.
Defined.

Lemma sample_plan_free : ∃ ent, sendable id_tenant sample_input sample_db sample_channel ent.
Proof.
  assert (is_Ok (NotificationService_Send 5 id_tenant sample_input (healthy_world sample_db)).1 = true) as H.
  { by rewrite sample_send. }
  destruct (Send_outcome 5 id_tenant sample_input (healthy_world sample_db)) as (r & w' & Hr & Ho). rewrite Hr in H.
  destruct Ho as [(Hf & _)|(c & ent & id & now & Hs & _)]; [simpl in H; congruence|].
  pose proof (sd_channel _ _ _ _ _ Hs) as Hc. exists ent.
  assert (c = sample_channel) as ->; [|exact Hs].
  change (({[id_channel := sample_channel]} : gmap uuid ChannelRow) !! id_channel = Some c) in Hc.
  rewrite lookup_singleton_eq in Hc. congruence.
Qed.


Lemma created_tenant_witness :
  ∃ res tid kid t k tick,
    tenants (w_db tenant_world) !! tid = Some t ∧ t_Slug t = "acme" ∧ t_IsActive t = true ∧
    api_keys (w_db tenant_world) !! kid = Some k ∧ k_TenantID k = tid ∧ k_APIKey k = ctr_APIKey res ∧
    k_RevokedAt k = None ∧ bcrypt_Generate tick (ctr_APISecret res) = Ok (k_APISecretHash k).
Proof.
  destruct (TenantService_Create new_tenant (healthy_world empty_db)) as [r w'] eqn:Hrun.
  assert (is_Ok (TenantService_Create new_tenant (healthy_world empty_db)).1 = true) as Hok by (vm_compute; reflexivity).
  rewrite Hrun in Hok. destruct r as [res|]; [|discriminate Hok].
  destruct (created_tenant_can_authenticate new_tenant res (healthy_world empty_db) w' Hrun)
    as (tid & kid & t & k & tick & H1 & H2 & H3 & H4 & H5 & H6 & H7 & H8 & H9 & _).
  exists res, tid, kid, t, k, tick. unfold tenant_world. rewrite Hrun. auto 10.
Defined.
End witnesses.

Section failing.
(** The round trip that stores the key is lost. *)
#[local] Instance key_lost : Env :=
  sample_env (λ t, if bool_decide (t = 7%nat) then Lost "connection reset" else Fine)
    (λ _, Ok (mkHttpResponse 200 "{}")) (λ t, Ok (mkTaskInfo (task_Type t))).

Lemma tenant_not_atomic_witness :
  let res := TenantService_Create (mkCreateTenantInput "Acme" "acme") (@world_of key_lost empty_db (∅ : gmap string Z)) in
  is_Ok res.1 = false ∧ ∃ tid t, tenants (w_db res.2) !! tid = Some t ∧ t_Slug t = "acme".
Proof.
  destruct (tenant_creation_not_atomic (mkCreateTenantInput "Acme" "acme")
    (String.concat "" (replicate 32 "a")) (String.concat "" (replicate 32 "a"))
    ("hash:" +:+ hex_EncodeToString (String.concat "" (replicate 32 "a"))) "connection reset"
    (@world_of key_lost empty_db (∅ : gmap string Z))) as (H1 & _ & H3 & _).
  - discriminate.
  - discriminate.
  - reflexivity.
  - reflexivity.
  - reflexivity.
  - reflexivity.
  - reflexivity.
  - reflexivity.
  - split; [exact H1|exact H3].
Defined.
End failing.
