(* ===== verification/Transactions.v ===== *)
(** * Transactions: limits under concurrent requests

    The two [CreateWithinLimit] methods (pg_apikey_repo.go, pg_webhook_endpoint.go)
    statement by statement.  Elsewhere a call is one step; here any number of calls
    run in sessions of their own, their statements interleave with each other and
    with the other statements of the program, each statement sees what is
    committed when it runs (READ COMMITTED), and SELECT ... FOR UPDATE on the
    tenant's row makes whoever else needs that row wait.  Any round trip can be
    lost. *)
From S2P Require Import Prelude GoTime Json Domain World Repository Integrity SampleEnv Samples RepositoryProps.
From S2P Require Import Provider Tasks Services Application.

(** ** The calls *)

Inductive call :=
| CreateKey (k : APIKey) (limit : Z)
| CreateEndpoint (e : WebhookEndpoint) (limit : Z).

Definition c_TenantID (c : call) : uuid := match c with CreateKey k _ => k_TenantID k | CreateEndpoint e _ => e_TenantID e end.
Definition c_limit (c : call) : Z := match c with CreateKey _ l => l | CreateEndpoint _ l => l end.
Definition c_full (c : call) : sentinel :=
  match c with CreateKey _ _ => ErrKeyLimitReached | CreateEndpoint _ _ => ErrWebhookLimitReached end.

(** SELECT COUNT, and INSERT. *)
Definition c_count (c : call) (db : DB) : Z :=
  match c with
  | CreateKey k _ => sql_count (active_key_of (k_TenantID k)) (api_keys db)
  | CreateEndpoint e _ => sql_count (endpoint_of (e_TenantID e)) (webhook_endpoints db)
  end.
Definition c_insert (c : call) : DB → result unit * DB :=
  match c with CreateKey k _ => insert_api_key k | CreateEndpoint e _ => insert_webhook_endpoint e end.

(** Two rows that a unique index does not admit together. *)
Definition clash (c c' : call) : bool :=
  match c, c' with
  | CreateKey k _, CreateKey k' _ => bool_decide (k_ID k = k_ID k' ∨ k_APIKey k = k_APIKey k')
  | CreateEndpoint e _, CreateEndpoint e' _ => bool_decide (e_ID e = e_ID e')
  | _, _ => false
  end.

(** How far a call has come.  [Aborting] is before the deferred ROLLBACK, with or
    without the tenant's row locked. *)
Inductive progress :=
| Idle
| Begun
| Locked
| Counted
| Inserted
| Aborting (locked : bool) (e : error)
| Ended (r : result unit).

Definition locks (p : progress) : bool :=
  match p with Locked | Counted | Inserted => true | Aborting locked _ => locked | _ => false end.

Abbreviation session := (call * progress)%type (only parsing).

(** Somebody holds the lock on the tenant's row; somebody has inserted a row that
    clashes and not committed it. *)
Definition locked_by (tid : uuid) (s : session) : bool := locks s.2 && bool_decide (c_TenantID s.1 = tid).
Definition row_free (tid : uuid) (ss : list session) : bool := negb (existsb (locked_by tid) ss).
Definition pending_clash (c : call) (s : session) : bool :=
  match s.2 with Inserted => clash c s.1 | _ => false end.
Definition index_free (c : call) (ss : list session) : bool := negb (existsb (pending_clash c) ss).

(** ** The other statements on these tables *)

Inductive statement :=
| TenantCreate (t : Tenant)
| TenantUpdate (id : uuid) (input : UpdateTenantInput)
| TenantDelete (id : uuid)
| KeyCreate (k : APIKey)
| KeyRevoke (id tenantID : uuid)
| EndpointUpdate (id tenantID : uuid) (input : UpdateWebhookEndpointInput)
| EndpointDelete (id tenantID : uuid).

(** An UPDATE or DELETE of a tenant waits for its row, and so does an INSERT that
    refers to it; an INSERT also waits for a clashing row to be decided. *)
Definition may_run (o : statement) (ss : list session) : bool :=
  match o with
  | TenantUpdate id _ | TenantDelete id => row_free id ss
  | KeyCreate k => row_free (k_TenantID k) ss && index_free (CreateKey k 0) ss
  | _ => true
  end.

Section transactions.
Context `{E : Env}.

Definition run_statement (o : statement) (w : World) : World :=
  match o with
  | TenantCreate t => (PgTenantRepo_Create t w).2
  | TenantUpdate id input => (PgTenantRepo_Update id input w).2
  | TenantDelete id => (PgTenantRepo_Delete id w).2
  | KeyCreate k => (PgAPIKeyRepo_Create k w).2
  | KeyRevoke id tid => (PgAPIKeyRepo_Revoke id tid w).2
  | EndpointUpdate id tid input => (PgWebhookEndpointRepo_Update id tid input w).2
  | EndpointDelete id tid => (PgWebhookEndpointRepo_Delete id tid w).2
  end.

(** ** Steps *)

(** What an observer sees: a call's result is decided, a statement of somebody
    else, or something that does not touch these tables. *)
Inductive event := Call (i : nat) (r : result unit) | Statement (o : statement) | Elsewhere.

(** A statement of call [i] that succeeds leads on to [p]; one that fails decides
    the result. *)
Definition on_result (held : bool) {A} (r : result A) (p : progress) : progress :=
  match r with Ok _ => p | Err e => Aborting held e end.
Definition decided (i : nat) {A} (r : result A) : list event :=
  match r with Ok _ => [] | Err e => [Call i (Err e)] end.

(** The comparison after the count. *)
Definition check_limit (c : call) (r : result Z) : result unit :=
  match r with
  | Ok n => if (c_limit c <=? n)%Z then Err (sentinel_error (c_full c)) else Ok tt
  | Err e => Err e
  end.

(** The next statement of call [i]. *)
Inductive session_step : World * list session → list event → World * list session → Prop :=
| s_begin w ss i c r w' :
    ss !! i = Some (c, Idle) → tx_stmt (Ok tt) w = (r, w') →
    session_step (w, ss) (decided i r) (w', <[i := (c, on_result false r Begun)]> ss)
| s_lock w ss i c r w' :
    ss !! i = Some (c, Begun) → row_free (c_TenantID c) ss = true →
    tx_stmt (lock_tenant (c_TenantID c) (w_db w)) w = (r, w') →
    session_step (w, ss) (decided i r) (w', <[i := (c, on_result false r Locked)]> ss)
| s_count w ss i c r w' :
    ss !! i = Some (c, Locked) → tx_stmt (Ok (c_count c (w_db w))) w = (r, w') →
    session_step (w, ss) (decided i (check_limit c r)) (w', <[i := (c, on_result true (check_limit c r) Counted)]> ss)
| s_insert w ss i c r w' :
    ss !! i = Some (c, Counted) → index_free c ss = true → tx_stmt (c_insert c (w_db w)).1 w = (r, w') →
    session_step (w, ss) (decided i r) (w', <[i := (c, on_result true r Inserted)]> ss)
| s_commit w ss i c r w' :
    ss !! i = Some (c, Inserted) → db_exec (λ db, (Ok tt, (c_insert c db).2)) w = (r, w') →
    session_step (w, ss) [Call i r] (w', <[i := (c, Ended r)]> ss)
| s_rollback w ss i c held e :
    ss !! i = Some (c, Aborting held e) →
    session_step (w, ss) [] (next_tick w, <[i := (c, Ended (Err e))]> ss).

(** The same as a function, for runs that are evaluated. *)
Definition advance (i : nat) (s : World * list session) : option (list event * (World * list session)) :=
  let '(w, ss) := s in
  match ss !! i with
  | Some (c, Idle) =>
      let '(r, w') := tx_stmt (Ok tt) w in Some (decided i r, (w', <[i := (c, on_result false r Begun)]> ss))
  | Some (c, Begun) =>
      if row_free (c_TenantID c) ss then
        let '(r, w') := tx_stmt (lock_tenant (c_TenantID c) (w_db w)) w in
        Some (decided i r, (w', <[i := (c, on_result false r Locked)]> ss))
      else None
  | Some (c, Locked) =>
      let '(r, w') := tx_stmt (Ok (c_count c (w_db w))) w in
      Some (decided i (check_limit c r), (w', <[i := (c, on_result true (check_limit c r) Counted)]> ss))
  | Some (c, Counted) =>
      if index_free c ss then
        let '(r, w') := tx_stmt (c_insert c (w_db w)).1 w in Some (decided i r, (w', <[i := (c, on_result true r Inserted)]> ss))
      else None
  | Some (c, Inserted) =>
      let '(r, w') := db_exec (λ db, (Ok tt, (c_insert c db).2)) w in Some ([Call i r], (w', <[i := (c, Ended r)]> ss))
  | Some (c, Aborting _ e) => Some ([], (next_tick w, <[i := (c, Ended (Err e))]> ss))
  | _ => None
  end.

Inductive cstep : World * list session → list event → World * list session → Prop :=
| c_session s tr s' : session_step s tr s' → cstep s tr s'
| c_statement w ss o : may_run o ss = true → cstep (w, ss) [Statement o] (run_statement o w, ss)
| c_elsewhere w w' ss :
    tenants (w_db w') = tenants (w_db w) → api_keys (w_db w') = api_keys (w_db w) →
    webhook_endpoints (w_db w') = webhook_endpoints (w_db w) →
    cstep (w, ss) [Elsewhere] (w', ss).

Inductive csteps : World * list session → list event → World * list session → Prop :=
| csteps_refl s : csteps s [] s
| csteps_step s tr s' tr' s'' : csteps s tr s' → cstep s' tr' s'' → csteps s (tr ++ tr') s''.

(** ** The specification: one call at a time *)

(** What a call that runs alone does: the answers in their order, or a lost
    connection, at COMMIT with or without effect. *)
Inductive atomic (c : call) (db : DB) : result unit → DB → Prop :=
| a_missing : tenants db !! c_TenantID c = None → atomic c db (Err (sentinel_error ErrNotFound)) db
| a_full : is_Some (tenants db !! c_TenantID c) → (c_limit c ≤ c_count c db)%Z → atomic c db (Err (sentinel_error (c_full c))) db
| a_refused e :
    is_Some (tenants db !! c_TenantID c) → (c_count c db < c_limit c)%Z → (c_insert c db).1 = Err e → atomic c db (Err e) db
| a_created :
    is_Some (tenants db !! c_TenantID c) → (c_count c db < c_limit c)%Z → (c_insert c db).1 = Ok tt →
    atomic c db (Ok tt) (c_insert c db).2
| a_lost msg : atomic c db (Err (errors_New msg)) db
| a_unacked msg :
    is_Some (tenants db !! c_TenantID c) → (c_count c db < c_limit c)%Z → (c_insert c db).1 = Ok tt →
    atomic c db (Err (errors_New msg)) (c_insert c db).2.

(** The events in sequence. *)
Inductive sequential (calls : list call) : DB → list event → DB → Prop :=
| seq_refl db : sequential calls db [] db
| seq_call db tr db' i c r db'' :
    sequential calls db tr db' → calls !! i = Some c → atomic c db' r db'' → sequential calls db (tr ++ [Call i r]) db''
| seq_statement db tr db' o w :
    sequential calls db tr db' → w_db w = db' → sequential calls db (tr ++ [Statement o]) (w_db (run_statement o w))
| seq_elsewhere db tr db' db'' :
    sequential calls db tr db' → tenants db'' = tenants db' → api_keys db'' = api_keys db' →
    webhook_endpoints db'' = webhook_endpoints db' → sequential calls db (tr ++ [Elsewhere]) db''.

(** Calls that count the same rows. *)
Definition same_cap (c c' : call) : bool :=
  match c, c' with
  | CreateKey _ _, CreateKey _ _ | CreateEndpoint _ _, CreateEndpoint _ _ => bool_decide (c_TenantID c = c_TenantID c')
  | _, _ => false
  end.

(** The results of call [i] in a trace, and those its session stands for. *)
Definition results (i : nat) (tr : list event) : list (result unit) :=
  omap (λ ev, match ev with Call j r => if decide (j = i) then Some r else None | _ => None end) tr.
Definition result_of (p : progress) : list (result unit) :=
  match p with Ended r => [r] | Aborting _ e => [Err e] | _ => [] end.

(** The calls when nobody has begun. *)
Definition fresh (calls : list call) : list session := (λ c, (c, Idle)) <$> calls.
End transactions.
