(* ===== verification/TransactionProps.v ===== *)
(** * TransactionProps: concurrent calls behave as if they ran one at a time

    While a call holds the lock on its tenant's row nothing else can disturb what
    it has read: the tenant stays, the count does not grow, and the index still
    admits its row ([undisturbed]).  So the moment a call commits, it does what
    it would do alone, and every interleaving is a sequence of whole calls
    ([concurrent_creates_linearizable]); and no call waits for ever
    ([concurrent_creates_return]). *)
From S2P Require Import Prelude GoTime Json Domain World Repository Integrity SampleEnv Samples RepositoryProps.
From S2P Require Import Provider Tasks Services Application Transactions.

(** ** Inserting *)

(** The unique indexes admit the row. *)
Definition admitted (c : call) (db : DB) : Prop :=
  match c with
  | CreateKey k _ =>
      api_keys db !! k_ID k = None ∧ map_Forall (λ _ x, k_APIKey x ≠ k_APIKey k) (api_keys db)
  | CreateEndpoint e _ => webhook_endpoints db !! e_ID e = None
  end.

Lemma insert_checked_first h checks ins db :
  (insert_checked h checks ins db).1 = Ok tt ↔ Forall (λ c, c.1 = true) (checks db).
Proof.
  rewrite <- first_violation_None. unfold insert_checked. by destruct (first_violation _).
Qed.

Lemma insert_admitted c db :
  (c_insert c db).1 = Ok tt ↔ admitted c db ∧ is_Some (tenants db !! c_TenantID c).
Proof.
  destruct c as [k l|e l]; cbn [c_insert]; unfold insert_api_key, insert_webhook_endpoint;
    rewrite insert_checked_first, !Forall_cons, Forall_nil; unfold absent, present; simpl.
  - rewrite !bool_decide_eq_true, no_row_spec. unfold map_Forall.
    setoid_rewrite bool_decide_eq_false. naive_solver.
  - rewrite !bool_decide_eq_true. naive_solver.
Qed.

Lemma insert_tables c db : tenants (c_insert c db).2 = tenants db.
Proof.
  destruct c; cbn [c_insert]; unfold insert_api_key, insert_webhook_endpoint, insert_checked;
    by destruct (first_violation _).
Qed.

Lemma insert_refused c db e : (c_insert c db).1 = Err e → (c_insert c db).2 = db.
Proof.
  destruct c; cbn [c_insert]; unfold insert_api_key, insert_webhook_endpoint, insert_checked;
    by destruct (first_violation _).
Qed.

(** ** What others may do while a call holds its lock *)

Record undisturbed (c : call) (p : progress) (db db' : DB) : Prop := {
  u_tenant : is_Some (tenants db !! c_TenantID c) → is_Some (tenants db' !! c_TenantID c);
  u_count : (c_count c db' ≤ c_count c db)%Z;
  u_admitted : p = Inserted → admitted c db → admitted c db'
}.

#[export] Instance undisturbed_preorder c p : PreOrder (undisturbed c p).
Proof.
  split; [by split|]. intros db1 db2 db3 [t1 n1 a1] [t2 n2 a2]. split; [auto|lia|auto].
Qed.

Lemma undisturbed_tables c p db db' :
  tenants db' = tenants db → api_keys db' = api_keys db → webhook_endpoints db' = webhook_endpoints db →
  undisturbed c p db db'.
Proof. intros Ht Hk He. split; [by rewrite Ht|destruct c; simpl; by rewrite ?Hk, ?He..]. Qed.

(** Counting rows of which some are gone or no longer count. *)
Lemma sql_count_le {A} (p : A → bool) (m m' : gmap uuid A) :
  (∀ i x, m' !! i = Some x → p x = true → ∃ y, m !! i = Some y ∧ p y = true) → (sql_count p m' ≤ sql_count p m)%Z.
Proof.
  intros H. assert (∀ m : gmap uuid A, sql_count p m = Z.of_nat (length (omap (λ '(i, x), if p x then Some i else None) (map_to_list m)))) as Heq.
  { clear. intros m. unfold sql_count. f_equal. induction (map_to_list m) as [|[i x] l IH]; [done|].
    rewrite filter_cons. simpl. destruct (p x); simpl; by rewrite IH. }
  rewrite !Heq. apply Nat2Z.inj_le, submseteq_length, NoDup_submseteq.
  - assert (NoDup (map_to_list m').*1) as Hnd by apply NoDup_fst_map_to_list. revert Hnd. clear.
    induction (map_to_list m') as [|[i x] l IH]; [constructor|]. simpl. intros [Hi Hl]%NoDup_cons.
    destruct (p x); [|auto]. constructor; [|auto]. intros ([j y] & Hj & Hy)%list_elem_of_omap. simpl in Hy.
    destruct (p y); [|done]. injection Hy as ->. apply Hi. by apply (list_elem_of_fmap_2 fst l (i, y)).
  - intros i ([j x] & Hj & Hx)%list_elem_of_omap. apply elem_of_map_to_list in Hj. simpl in Hx.
    destruct (p x) eqn:Hp; [|done]. injection Hx as ->. destruct (H i x Hj Hp) as (y & Hy & Hpy).
    apply list_elem_of_omap. exists (i, y). split; [by apply elem_of_map_to_list|]. by rewrite Hpy.
Qed.

(** The tables after an INSERT that succeeded. *)
Ltac after_insert Hi :=
  let Heq := fresh "Heq" in
  destruct (insert_checked_Ok _ _ _ _ _ Hi) as [Heq _];
  unfold insert_api_key, insert_webhook_endpoint; rewrite Heq; clear Heq.

(** Another call's row: it is of another tenant and does not clash. *)
Lemma undisturbed_insert c p c' db :
  c_TenantID c' ≠ c_TenantID c → (p = Inserted → clash c c' = false) → undisturbed c p db (c_insert c' db).2.
Proof.
  intros Ht Hc. destruct ((c_insert c' db).1) as [[]|e] eqn:Hi; [|by rewrite (insert_refused c' db e Hi)].
  split; [by rewrite insert_tables|..]; destruct c as [k l|e l], c' as [k' l'|e' l']; simpl in *.
  - rewrite insert_api_key_count, bool_decide_eq_false_2 by done. lia.
  - by after_insert Hi.
  - by after_insert Hi.
  - rewrite insert_webhook_endpoint_count, bool_decide_eq_false_2 by done. lia.
  - after_insert Hi. simpl. intros Hp. specialize (Hc Hp). apply bool_decide_eq_false in Hc.
    intros [Hid Hkeys]. split; [rewrite lookup_insert_ne by naive_solver; done|].
    apply map_Forall_insert_2; [simpl; naive_solver|done].
  - by after_insert Hi.
  - by after_insert Hi.
  - after_insert Hi. simpl. intros Hp. specialize (Hc Hp). apply bool_decide_eq_false in Hc.
    intros Hid. rewrite lookup_insert_ne by naive_solver. done.
Qed.

(** The three tables get smaller for other tenants only. *)
Lemma undisturbed_delete c p id db : id ≠ c_TenantID c → undisturbed c p db (del_tenant id db).
Proof.
  intros Hne. split.
  - simpl. by rewrite lookup_delete_ne.
  - destruct c; simpl; apply sql_count_mono, map_filter_subseteq.
  - destruct c as [k l|e l]; simpl.
    + intros _ [Hid Hk]. split; [by apply map_lookup_filter_None_2; left|]. intros i x [Hx _]%map_lookup_filter_Some. by apply (Hk i).
    + intros _ Hid. by apply map_lookup_filter_None_2; left.
Qed.

(** A row replaced by one that counts no more, has the same key and the same
    tenant. *)
Lemma undisturbed_key c p db id k k' :
  api_keys db !! id = Some k → k_APIKey k' = k_APIKey k → k_TenantID k' = k_TenantID k →
  (k_RevokedAt k' = None → k_RevokedAt k = None) →
  undisturbed c p db (set_api_keys (<[id := k']> (api_keys db)) db).
Proof.
  intros Hk Hkey Ht Hr. split; [done|..]; destruct c as [k0 l|e l]; simpl; [|done| |done].
  - apply sql_count_le. intros i x [[<- <-]|[Hi Hx]]%lookup_insert_Some Hpx; [|by exists x].
    exists k. split; [done|]. unfold active_key_of in *. apply bool_decide_eq_true in Hpx as [Hp1 Hp2].
    apply bool_decide_eq_true. split; [congruence|auto].
  - intros _ [Hid Hkeys]. split; [rewrite lookup_insert_ne by congruence; done|].
    apply map_Forall_insert_2; [|done]. rewrite Hkey. by apply (Hkeys id).
Qed.

Lemma undisturbed_endpoint c p db id e e' :
  webhook_endpoints db !! id = Some e → e_TenantID e' = e_TenantID e →
  undisturbed c p db (set_webhook_endpoints (<[id := e']> (webhook_endpoints db)) db).
Proof.
  intros He Ht. split; [done|..]; destruct c as [k l|e0 l]; simpl; [done| |done|].
  - apply sql_count_le. intros i x [[<- <-]|[Hi Hx]]%lookup_insert_Some Hpx; [|by exists x].
    exists e. split; [done|]. unfold endpoint_of in *. apply bool_decide_eq_true in Hpx.
    apply bool_decide_eq_true. congruence.
  - intros _ Hid. rewrite lookup_insert_ne by congruence. done.
Qed.

Lemma undisturbed_endpoint_delete c p db id :
  undisturbed c p db (set_webhook_endpoints (delete id (webhook_endpoints db)) db).
Proof.
  split; [done|..]; destruct c as [k l|e0 l]; simpl; [done| |done|].
  - apply sql_count_mono, delete_subseteq.
  - intros _ Hid. apply lookup_delete_None. by right.
Qed.

Section facts.
Context `{E : Env}.

(** ** The repository's own methods are atomic calls *)

Definition run_call (c : call) : M (result unit) :=
  match c with
  | CreateKey k limit => PgAPIKeyRepo_CreateWithinLimit k limit
  | CreateEndpoint e limit => PgWebhookEndpointRepo_CreateWithinLimit e limit
  end.

Lemma run_call_atomic c w : atomic c (w_db w) (run_call c w).1 (w_db (run_call c w).2).
Proof.
  assert (run_call c w = within_limit (c_TenantID c) (c_count c) (c_limit c) (c_full c) (c_insert c) w) as -> by by destruct c.
  unfold within_limit, tx_begin, tx_stmt, tx_commit, db_exec, try_bind, mbind, ST_bind, lock_tenant.
  destruct (env_fault _); simpl; [|apply a_lost..].
  destruct (env_fault _); simpl; [|apply a_lost..].
  destruct (tenants _ !! _) eqn:Ht; simpl; [|by apply a_missing].
  destruct (env_fault _); simpl; [|apply a_lost..].
  destruct (Z.leb_spec (c_limit c) (c_count c (w_db w))); simpl; [by apply a_full|].
  destruct (env_fault _); simpl; [|apply a_lost..].
  destruct ((c_insert c (w_db w)).1) as [[]|e] eqn:Hi; simpl; [|by apply a_refused].
  destruct (env_fault _); simpl; [by apply a_created|apply a_lost|by apply a_unacked].
Qed.

(** ** Statements of others *)

Lemma row_free_other tid ss i c p :
  row_free tid ss = true → ss !! i = Some (c, p) → locks p = true → tid ≠ c_TenantID c.
Proof.
  intros Hf Hi Hl ->. apply negb_true_iff, not_true_iff_false in Hf. apply Hf, existsb_exists.
  exists (c, p). split; [by eapply list_elem_of_In, list_elem_of_lookup_2|].
  unfold locked_by. simpl. by rewrite Hl, bool_decide_eq_true_2.
Qed.

Lemma clash_sym c c' : clash c c' = clash c' c.
Proof. destruct c, c'; simpl; try done; apply bool_decide_ext; naive_solver. Qed.

Lemma index_free_other c0 ss i c :
  index_free c0 ss = true → ss !! i = Some (c, Inserted) → clash c c0 = false.
Proof.
  intros Hf Hi. rewrite clash_sym. apply not_true_iff_false. intros Hc.
  apply negb_true_iff, not_true_iff_false in Hf. apply Hf, existsb_exists.
  exists (c, Inserted). split; [by eapply list_elem_of_In, list_elem_of_lookup_2|done].
Qed.

Lemma undisturbed_statement c p o ss i w :
  ss !! i = Some (c, p) → locks p = true → may_run o ss = true →
  undisturbed c p (w_db w) (w_db (run_statement o w)).
Proof.
  intros Hi Hl Hm. destruct o as [t|id input|id|k|id tid|id tid input|id tid]; simpl in *.
  - apply (db_exec_keeps (undisturbed c p)). intros db. unfold insert_checked. destruct (first_violation _); [done|].
    split; [|by destruct c..]. simpl. intros Ht. apply lookup_insert_is_Some'. by right.
  - apply (db_exec_at_keeps (undisturbed c p)). intros t db. destruct (tenants db !! id); [|done].
    split; [|by destruct c..]. simpl. intros Ht. apply lookup_insert_is_Some'. by right.
  - apply (db_exec_keeps (undisturbed c p)). intros db. destruct (tenants db !! id); [|done].
    apply undisturbed_delete. by eapply row_free_other.
  - apply andb_true_iff in Hm as [Hr Hx]. apply (db_exec_keeps (undisturbed c p)). intros db.
    apply (undisturbed_insert c p (CreateKey k 0)); [by eapply row_free_other|]. intros ->. by eapply index_free_other.
  - apply (db_exec_at_keeps (undisturbed c p)). intros t db. destruct (api_keys db !! id) as [k|] eqn:Hk; [|done].
    case_bool_decide; [|done]. by eapply undisturbed_key.
  - apply (db_exec_keeps (undisturbed c p)). intros db. destruct (webhook_endpoints db !! id) as [e|] eqn:He; [|done].
    case_bool_decide; [|done]. by eapply undisturbed_endpoint.
  - apply (db_exec_keeps (undisturbed c p)). intros db. destruct (webhook_endpoints db !! id) as [e|] eqn:He; [|done].
    case_bool_decide; [|done]. apply undisturbed_endpoint_delete.
Qed.

(** ** The invariant of a run *)

(** What a call has learned and can rely on. *)
Definition standing (db : DB) (c : call) (p : progress) : Prop :=
  match p with
  | Locked => is_Some (tenants db !! c_TenantID c)
  | Counted => is_Some (tenants db !! c_TenantID c) ∧ (c_count c db < c_limit c)%Z
  | Inserted => is_Some (tenants db !! c_TenantID c) ∧ (c_count c db < c_limit c)%Z ∧ admitted c db
  | _ => True
  end.

Lemma standing_undisturbed db db' c p :
  (locks p = true → undisturbed c p db db') → standing db c p → standing db' c p.
Proof.
  destruct p; try done; intros H; specialize (H eq_refl) as [Ht Hn Ha]; simpl; try naive_solver lia.
Qed.

Record good (calls : list call) (db0 : DB) (tr : list event) (w : World) (ss : list session) : Prop := {
  g_calls : ss.*1 = calls;
  g_sequential : sequential calls db0 tr (w_db w);
  g_results i c p : ss !! i = Some (c, p) → results i tr = result_of p;
  g_standing i c p : ss !! i = Some (c, p) → standing (w_db w) c p;
  g_locks i j c c' p p' : ss !! i = Some (c, p) → ss !! j = Some (c', p') → i ≠ j →
    locks p = true → locks p' = true → c_TenantID c ≠ c_TenantID c';
  g_index i j c c' : ss !! i = Some (c, Inserted) → ss !! j = Some (c', Inserted) → i ≠ j → clash c c' = false
}.

Lemma results_app i tr tr' : results i (tr ++ tr') = results i tr ++ results i tr'.
Proof. unfold results. apply omap_app. Qed.

Lemma results_other i j r : i ≠ j → results j [Call i r] = [].
Proof. intros H. unfold results. simpl. by destruct (decide (i = j)). Qed.

Lemma results_own i r : results i [Call i r] = [r].
Proof. unfold results. simpl. by rewrite decide_True. Qed.

(** One call moves on. *)
Lemma good_update calls db0 tr w ss i c p w' p' tr' :
  good calls db0 tr w ss → ss !! i = Some (c, p) →
  (tr' = [] ∧ w_db w' = w_db w) ∨ (∃ r, tr' = [Call i r] ∧ atomic c (w_db w) r (w_db w')) →
  result_of p' = result_of p ++ results i tr' →
  (∀ j c' q, j ≠ i → ss !! j = Some (c', q) → locks q = true → undisturbed c' q (w_db w) (w_db w')) →
  standing (w_db w') c p' → (locks p' = true → locks p = true ∨ row_free (c_TenantID c) ss = true) →
  (p' = Inserted → index_free c ss = true) →
  good calls db0 (tr ++ tr') w' (<[i := (c, p')]> ss).
Proof.
  intros G Hi Htr Hres Hund Hst Hlock Hidx. pose proof (lookup_lt_Some _ _ _ Hi) as Hlen.
  assert (∀ j c' q, (<[i := (c, p')]> ss) !! j = Some (c', q) →
    (j = i ∧ c' = c ∧ q = p') ∨ (j ≠ i ∧ ss !! j = Some (c', q))) as Hcase.
  { intros j c' q. rewrite list_lookup_insert_Some. naive_solver. }
  split.
  - rewrite list_fmap_insert. simpl. rewrite list_insert_id; [apply (g_calls _ _ _ _ _ G)|].
    by rewrite list_lookup_fmap, Hi.
  - destruct Htr as [[-> Hdb]|(r & -> & Ha)].
    + rewrite app_nil_r, Hdb. apply (g_sequential _ _ _ _ _ G).
    + eapply seq_call; [apply (g_sequential _ _ _ _ _ G)| |exact Ha].
      rewrite <- (g_calls _ _ _ _ _ G), list_lookup_fmap, Hi. done.
  - intros j c' q [(-> & -> & ->)|[Hne Hj]]%Hcase.
    + by rewrite results_app, (g_results _ _ _ _ _ G i c p Hi).
    + rewrite results_app, (g_results _ _ _ _ _ G j c' q Hj).
      destruct Htr as [[-> _]|(r & -> & _)]; [by rewrite app_nil_r|]. by rewrite results_other, app_nil_r by done.
  - intros j c' q [(-> & -> & ->)|[Hne Hj]]%Hcase; [done|].
    apply (standing_undisturbed (w_db w)); [by apply (Hund j)|]. by apply (g_standing _ _ _ _ _ G j).
  - intros j j' c1 c2 q q' [(-> & -> & ->)|[Hne Hj]]%Hcase [(-> & -> & ->)|[Hne' Hj']]%Hcase Hd Hq Hq'; [done|..].
    + destruct (Hlock Hq) as [Hp|Hf]; [by eapply (g_locks _ _ _ _ _ G i j')|]. by eapply row_free_other.
    + destruct (Hlock Hq') as [Hp|Hf]; [by eapply (g_locks _ _ _ _ _ G j i)|]. symmetry. by eapply row_free_other.
    + by eapply (g_locks _ _ _ _ _ G j j').
  - intros j j' c1 c2 [(-> & -> & Hp)|[Hne Hj]]%Hcase [(-> & -> & Hp')|[Hne' Hj']]%Hcase Hd; [done|..].
    + rewrite clash_sym. eapply index_free_other; [by apply Hidx|done].
    + eapply index_free_other; [by apply Hidx|done].
    + by eapply (g_index _ _ _ _ _ G j j').
Qed.

(** A statement inside the transaction. *)
Lemma tx_stmt_cases {A} (x : result A) w r w' :
  tx_stmt x w = (r, w') → w_db w' = w_db w ∧ (r = x ∨ ∃ msg, r = Err (errors_New msg)).
Proof. unfold tx_stmt. destruct (env_fault _); intros [= <- <-]; split; eauto. Qed.

(** It fails, which decides the result, or the call moves on. *)
Lemma good_statement calls db0 tr w ss i c p w' p' held {A} (r : result A) :
  good calls db0 tr w ss → ss !! i = Some (c, p) → result_of p = [] → w_db w' = w_db w →
  (held = true → locks p = true) → (∀ e, r = Err e → atomic c (w_db w) (Err e) (w_db w)) →
  (is_Ok r = true → result_of p' = [] ∧ standing (w_db w) c p' ∧
    (locks p' = true → locks p = true ∨ row_free (c_TenantID c) ss = true) ∧ (p' = Inserted → index_free c ss = true)) →
  good calls db0 (tr ++ decided i r) w' (<[i := (c, on_result held r p')]> ss).
Proof.
  intros G Hi Hp Hdb Hheld Herr Hok. eapply good_update; [done|done|..].
  - destruct r as [a|e]; simpl; [by left|right]. eexists. split; [done|]. rewrite Hdb. auto.
  - rewrite Hp. destruct r as [a|e]; cbn [on_result decided app]; [by apply Hok|]. by rewrite results_own.
  - intros. by rewrite Hdb.
  - destruct r as [a|e]; simpl; [|done]. rewrite Hdb. by apply Hok.
  - destruct r as [a|e]; simpl; [by apply Hok|]. intros ->. left. auto.
  - destruct r as [a|e]; simpl; [by apply Hok|done].
Qed.

Lemma good_session_step calls db0 tr w ss tr' w' ss' :
  good calls db0 tr w ss → session_step (w, ss) tr' (w', ss') → good calls db0 (tr ++ tr') w' ss'.
Proof.
  intros G Hs. inversion Hs as [? ? i c r ? Hi Hx|? ? i c r ? Hi Hf Hx|? ? i c r ? Hi Hx|? ? i c r ? Hi Hf Hx|? ? i c r ? Hi Hx|? ? i c held e Hi];
    subst; pose proof (g_standing _ _ _ _ _ G i _ _ Hi) as Hst; simpl in Hst;
    try (apply tx_stmt_cases in Hx as [Hdb Hr]).
  - eapply good_statement; [done..| |].
    + intros e ->. destruct Hr as [Hr|[msg [= ->]]]; [done|apply a_lost].
    + done.
  - eapply good_statement; [done..| |].
    + intros e ->. destruct Hr as [Hr|[msg [= ->]]]; [|apply a_lost].
      unfold lock_tenant in Hr. destruct (tenants _ !! _) eqn:Ht; [done|]. injection Hr as ->. by apply a_missing.
    + intros Hok. destruct Hr as [->|[msg ->]]; [|done]. unfold lock_tenant in Hok.
      destruct (tenants _ !! _) eqn:Ht; [|done]. split; [done|]. split; [by eexists|]. split; [by right|done].
  - eapply good_statement; [done..| |].
    + intros e. destruct Hr as [->|[msg ->]]; simpl; [|intros [= <-]; apply a_lost].
      destruct (Z.leb_spec (c_limit c) (c_count c (w_db w))); [|done]. intros [= <-]. by apply a_full.
    + destruct Hr as [->|[msg ->]]; [|done]. simpl. destruct (Z.leb_spec (c_limit c) (c_count c (w_db w))); [done|].
      intros _. split; [done|]. split; [done|]. split; [by left|done].
  - eapply good_statement; [done..| |].
    + intros e ->. destruct Hr as [Hr|[msg [= ->]]]; [|apply a_lost]. apply a_refused; naive_solver.
    + intros Hok. destruct Hr as [->|[msg ->]]; [|done]. simpl. destruct ((c_insert c (w_db w)).1) as [[]|] eqn:Hi'; [|done].
      apply insert_admitted in Hi' as [Ha _]. split_and!; naive_solver.
  - destruct Hst as (Ht & Hn & Ha). assert ((c_insert c (w_db w)).1 = Ok tt) as Hins by by apply insert_admitted.
    assert (atomic c (w_db w) r (w_db w') ∧ (w_db w' = w_db w ∨ w_db w' = (c_insert c (w_db w)).2)) as [Hat Hdb].
    { unfold db_exec in Hx. destruct (env_fault _); injection Hx as <- <-; simpl; split; eauto using atomic. }
    eapply good_update; [done|done|by right; eexists|by rewrite results_own| |done..].
    intros j c' q Hne Hj Hq. destruct Hdb as [-> | ->]; [done|]. apply undisturbed_insert.
    + by eapply (g_locks _ _ _ _ _ G i j).
    + intros ->. by eapply (g_index _ _ _ _ _ G j i).
  - eapply good_update; [done|done|by left|by rewrite app_nil_r|done..].
Qed.

Lemma good_step calls db0 tr w ss tr' w' ss' :
  good calls db0 tr w ss → cstep (w, ss) tr' (w', ss') → good calls db0 (tr ++ tr') w' ss'.
Proof.
  intros G Hs. inversion Hs as [? ? ? Hs'|? ? o Hm|? ? ? Ht Hk He]; subst; [by eapply good_session_step|..].
  - destruct G as [G1 G2 G3 G4 G5 G6]. split; [done| | | |done|done].
    + by eapply seq_statement.
    + intros i c p Hi. rewrite results_app, (G3 i c p Hi). by rewrite app_nil_r.
    + intros i c p Hi. apply (standing_undisturbed (w_db w)); [|by apply (G4 i)].
      intros Hl. by eapply undisturbed_statement.
  - destruct G as [G1 G2 G3 G4 G5 G6]. split; [done| | | |done|done].
    + by eapply seq_elsewhere.
    + intros i c p Hi. rewrite results_app, (G3 i c p Hi). by rewrite app_nil_r.
    + intros i c p Hi. apply (standing_undisturbed (w_db w)); [|by apply (G4 i)].
      intros Hl. by apply undisturbed_tables.
Qed.

Lemma good_start calls w : good calls (w_db w) [] w (fresh calls).
Proof.
  assert (∀ i c p, fresh calls !! i = Some (c, p) → p = Idle) as Hidle.
  { intros i c p. unfold fresh. rewrite list_lookup_fmap. destruct (calls !! i); simpl; congruence. }
  split; [|constructor|..].
  - unfold fresh. rewrite <- list_fmap_compose. apply list_fmap_id.
  - intros i c p Hi. by rewrite (Hidle i c p Hi).
  - intros i c p Hi. by rewrite (Hidle i c p Hi).
  - intros i j c c' p p' Hi _ _ Hl. by rewrite (Hidle i c p Hi) in Hl.
  - intros i j c c' Hi. by apply Hidle in Hi.
Qed.

Lemma good_run calls w tr w' ss' : csteps (w, fresh calls) tr (w', ss') → good calls (w_db w) tr w' ss'.
Proof.
  intros H. remember (w, fresh calls) as s eqn:Hs. remember (w', ss') as s' eqn:Hs'. revert w' ss' Hs'.
  induction H as [s|s tr1 s1 tr2 s2 H1 IH H2]; intros w' ss' ->.
  - injection Hs as -> ->. apply good_start.
  - destruct s1 as [w1 ss1]. eapply good_step; [by apply IH|done].
Qed.

Lemma advance_step i s tr s' : advance i s = Some (tr, s') → session_step s tr s'.
Proof.
  destruct s as [w ss]. unfold advance. destruct (ss !! i) as [[c []]|] eqn:Hi; try done.
  - destruct (tx_stmt _ w) eqn:Hx. intros [= <- <-]. by econstructor.
  - destruct (row_free _ ss) eqn:Hf; [|done]. destruct (tx_stmt _ w) eqn:Hx. intros [= <- <-]. by econstructor.
  - destruct (tx_stmt _ w) eqn:Hx. intros [= <- <-]. by econstructor.
  - destruct (index_free c ss) eqn:Hf; [|done]. destruct (tx_stmt _ w) eqn:Hx. intros [= <- <-]. by econstructor.
  - destruct (db_exec _ w) eqn:Hx. intros [= <- <-]. by econstructor.
  - intros [= <- <-]. by econstructor.
Qed.

(** ** Caps *)

(** An atomic call adds at most one row, below its limit. *)
Lemma atomic_count c c' db r db' : atomic c' db r db' →
  (c_count c db' ≤ c_count c db)%Z ∨ (same_cap c c' = true ∧ c_count c db' ≤ c_limit c')%Z.
Proof.
  assert (is_Some (tenants db !! c_TenantID c') → (c_count c' db < c_limit c')%Z → (c_insert c' db).1 = Ok tt →
    (c_count c (c_insert c' db).2 ≤ c_count c db)%Z ∨ (same_cap c c' = true ∧ c_count c (c_insert c' db).2 ≤ c_limit c')%Z) as H.
  { intros _ Hn Hi. destruct c as [k l|e l], c' as [k' l'|e' l']; simpl in *.
    - rewrite insert_api_key_count by done. destruct (decide (k_TenantID k' = k_TenantID k)) as [Ht|Ht].
      + right. rewrite !bool_decide_eq_true_2 by done. rewrite Ht in Hn. split; [done|lia].
      + left. rewrite bool_decide_eq_false_2 by done. lia.
    - left. by after_insert Hi.
    - left. by after_insert Hi.
    - rewrite insert_webhook_endpoint_count by done. destruct (decide (e_TenantID e' = e_TenantID e)) as [Ht|Ht].
      + right. rewrite !bool_decide_eq_true_2 by done. rewrite Ht in Hn. split; [done|lia].
      + left. rewrite bool_decide_eq_false_2 by done. lia. }
  intros Ha. destruct Ha; auto; by left.
Qed.

(** Statements of others add no row but those of [PgAPIKeyRepo_Create]. *)
Lemma statement_count c o w :
  (∀ k, o = KeyCreate k → same_cap c (CreateKey k 0) = false) →
  (c_count c (w_db (run_statement o w)) ≤ c_count c (w_db w))%Z.
Proof.
  intros Hk. set (R := λ db db', (c_count c db' ≤ c_count c db)%Z).
  assert (PreOrder R) as HR by (split; [intros db; unfold R; lia|intros d1 d2 d3; unfold R; lia]).
  change (R (w_db w) (w_db (run_statement o w))).
  destruct o as [t|id input|id|k|id tid|id tid input|id tid]; simpl;
    apply (db_exec_keeps R); unfold R.
  - intros db. unfold insert_checked. destruct (first_violation _); [done|]. by destruct c.
  - intros db. destruct (tenants db !! id); [|done]. by destruct c.
  - intros db. destruct (tenants db !! id); [|done]. destruct c; simpl; apply sql_count_mono, map_filter_subseteq.
  - intros db. specialize (Hk k eq_refl). destruct ((insert_api_key k db).1) as [[]|e] eqn:Hi.
    + destruct c as [k' l|e l]; simpl in *; [|by after_insert Hi].
      rewrite insert_api_key_count, bool_decide_eq_false_2; [lia| |done]. apply bool_decide_eq_false in Hk. congruence.
    + pose proof (insert_refused (CreateKey k 0) db e Hi) as Hd. cbn [c_insert] in Hd. by rewrite Hd.
  - intros db. destruct (api_keys db !! id) as [k|] eqn:He; [|done].
    case_bool_decide; [|done]. apply (u_count c Locked). by eapply undisturbed_key.
  - intros db. destruct (webhook_endpoints db !! id) as [e|] eqn:He; [|done].
    case_bool_decide; [|done]. apply (u_count c Locked). by eapply undisturbed_endpoint.
  - intros db. destruct (webhook_endpoints db !! id) as [e|] eqn:He; [|done].
    case_bool_decide; [|done]. apply (u_count c Locked), undisturbed_endpoint_delete.
Qed.

(** No sequence of whole calls exceeds the largest of their limits. *)
Lemma sequential_cap calls db tr db' c L :
  sequential calls db tr db' → (∀ c', c' ∈ calls → same_cap c c' = true → (c_limit c' ≤ L)%Z) →
  (∀ k, Statement (KeyCreate k) ∈ tr → same_cap c (CreateKey k 0) = false) →
  (c_count c db' ≤ Z.max L (c_count c db))%Z.
Proof.
  intros H HL. induction H as [db|db tr db' i c' r db'' _ IH Hc Ha|db tr db' o w _ IH Hw|db tr db' db'' _ IH Ht Hk He]; intros Hno.
  - lia.
  - ospecialize (IH _). { intros k Hin. apply Hno. by apply elem_of_app; left. }
    destruct (atomic_count c c' db' r db'' Ha) as [Hle|[Hs Hle]]; [lia|].
    pose proof (HL c' (list_elem_of_lookup_2 _ _ _ Hc) Hs). lia.
  - ospecialize (IH _). { intros k Hin. apply Hno. by apply elem_of_app; left. }
    pose proof (statement_count c o w) as Hle. ospecialize (Hle _); [|subst; lia].
    intros k ->. apply Hno. apply elem_of_app. right. by left.
  - ospecialize (IH _). { intros k Hin. apply Hno. by apply elem_of_app; left. }
    assert (c_count c db'' = c_count c db') as -> by (destruct c; simpl; by rewrite ?Hk, ?He). lia.
Qed.

(** ** Nobody waits for ever *)

Definition rank (p : progress) : nat :=
  match p with Idle => 5 | Begun => 4 | Locked => 3 | Counted => 2 | Inserted | Aborting _ _ => 1 | Ended _ => 0 end.
Definition work_left (s : World * list session) : nat := sum_list_with (λ x, rank x.2) s.2.

Lemma work_left_insert w w' ss i c p p' :
  ss !! i = Some (c, p) → (rank p' < rank p)%nat → (work_left (w', <[i := (c, p')]> ss) < work_left (w, ss))%nat.
Proof.
  unfold work_left. simpl. revert i. induction ss as [|x ss IH]; intros [|i] Hi Hr; simplify_eq/=; [lia|].
  specialize (IH i Hi Hr). lia.
Qed.

Lemma rank_on_result held {A} (r : result A) p n : (1 < n)%nat → (rank p < n)%nat → (rank (on_result held r p) < n)%nat.
Proof. destruct r; simpl; lia. Qed.

Lemma session_step_decreases s tr s' : session_step s tr s' → (work_left s' < work_left s)%nat.
Proof.
  intros Hs. destruct Hs as [w ss i c r w' Hi Hx|w ss i c r w' Hi Hf Hx|w ss i c r w' Hi Hx|w ss i c r w' Hi Hf Hx|w ss i c r w' Hi Hx|w ss i c held e Hi];
    eapply work_left_insert; [exact Hi| |exact Hi| |exact Hi| |exact Hi| |exact Hi| |exact Hi|]; simpl; try (apply rank_on_result; simpl; lia); lia.
Qed.

(** Whoever holds a lock or has inserted a row can go on. *)
Definition moves (s s' : World * list session) : Prop := ∃ tr, session_step s tr s'.

Lemma advance_moves i s : is_Some (advance i s) → ∃ s', moves s s'.
Proof. intros [[tr s'] H]. exists s'. exists tr. by eapply advance_step. Qed.

Lemma inserted_moves w ss i c : ss !! i = Some (c, Inserted) → ∃ s', moves (w, ss) s'.
Proof. intros Hi. apply (advance_moves i). unfold advance. rewrite Hi. destruct (db_exec _ w). by eexists. Qed.

Lemma counted_moves w ss i c : ss !! i = Some (c, Counted) → ∃ s', moves (w, ss) s'.
Proof.
  intros Hi. destruct (index_free c ss) eqn:Hf.
  - apply (advance_moves i). unfold advance. rewrite Hi, Hf. destruct (tx_stmt _ w). by eexists.
  - apply negb_false_iff, existsb_exists in Hf as ([c' p] & Hin & Hp). apply list_elem_of_In, list_elem_of_lookup in Hin as [j Hj].
    unfold pending_clash in Hp. simpl in Hp. destruct p; try done. by eapply inserted_moves.
Qed.

Lemma lock_holder_moves w ss i c p : ss !! i = Some (c, p) → locks p = true → ∃ s', moves (w, ss) s'.
Proof.
  intros Hi Hl. destruct p; try done; [|by eapply counted_moves|by eapply inserted_moves|].
  - apply (advance_moves i). unfold advance. rewrite Hi. destruct (tx_stmt _ w). by eexists.
  - apply (advance_moves i). unfold advance. rewrite Hi. by eexists.
Qed.

Lemma unfinished_moves w ss i c p : ss !! i = Some (c, p) → (∀ r, p ≠ Ended r) → ∃ s', moves (w, ss) s'.
Proof.
  intros Hi Hp. destruct p as [| | | | |held e|r]; [| |by eapply lock_holder_moves..| |by destruct (Hp r)].
  - apply (advance_moves i). unfold advance. rewrite Hi. destruct (tx_stmt _ w). by eexists.
  - destruct (row_free (c_TenantID c) ss) eqn:Hf.
    + apply (advance_moves i). unfold advance. rewrite Hi, Hf. destruct (tx_stmt _ w). by eexists.
    + apply negb_false_iff, existsb_exists in Hf as ([c' p] & Hin & Hl). apply list_elem_of_In, list_elem_of_lookup in Hin as [j Hj].
      apply andb_true_iff in Hl as [Hl _]. by eapply lock_holder_moves.
  - apply (advance_moves i). unfold advance. rewrite Hi. by eexists.
Qed.
End facts.

(** * Claims *)

(** C24: However the statements of any number of CreateWithinLimit calls for API keys and webhook endpoints
    interleave with each other and with the other statements on tenants, keys and endpoints, and whichever round
    trips are lost, the run is a sequence of whole calls: each call that has returned appears in it exactly
    once, with the result and the effect it would have alone, and the number of active keys or endpoints of a
    tenant never exceeds the largest limit its calls were given, unless it did before. *)
Theorem concurrent_creates_linearizable `{E : Env} calls w tr w' ss' :
  csteps (w, fresh calls) tr (w', ss') →
  sequential calls (w_db w) tr (w_db w') ∧ ss'.*1 = calls ∧
  (∀ i c p, ss' !! i = Some (c, p) → results i tr = result_of p) ∧
  (∀ c L, (∀ c', c' ∈ calls → same_cap c c' = true → (c_limit c' ≤ L)%Z) →
    (∀ k, Statement (KeyCreate k) ∈ tr → same_cap c (CreateKey k 0) = false) →
    (c_count c (w_db w') ≤ Z.max L (c_count c (w_db w)))%Z).
Proof.
  intros H. destruct (good_run calls w tr w' ss' H) as [G1 G2 G3 _ _ _]. split_and!; [done..|].
  intros c L. by apply sequential_cap.
Qed.

(** C26: Concurrent CreateWithinLimit calls never deadlock and always end: from any state of their transactions
    no run of their statements goes on for ever, and a run stops only when every call has returned. *)
Theorem concurrent_creates_return `{E : Env} s :
  sn moves s ∧ ∀ s', rtc moves s s' → nf moves s' → Forall (λ x, ∃ r, x.2 = Ended r) s'.2.
Proof.
  split.
  - apply (wf_projected (R1 := flip moves) lt work_left); [|apply lt_wf]. intros x y [tr Hs]. by eapply session_step_decreases.
  - intros [w ss] _ Hnf. apply Forall_lookup. intros i [c p] Hi.
    destruct p as [| | | | |held e|r]; [..|by eexists]; exfalso; apply Hnf; by eapply unfinished_moves.
Qed.

(** * Witnesses *)

Section witnesses.
#[local] Existing Instance healthy.

Fixpoint schedule_of (turns : list nat) (s : World * list session) : option (list event * (World * list session)) :=
  match turns with
  | [] => Some ([], s)
  | i :: turns => '(tr, s') ← advance i s; '(tr', s'') ← schedule_of turns s'; Some (tr ++ tr', s'')
  end.

Lemma schedule_steps turns s0 tr0 s tr s' : csteps s0 tr0 s → schedule_of turns s = Some (tr, s') → csteps s0 (tr0 ++ tr) s'.
Proof.
  revert s tr0 tr. induction turns as [|i turns IH]; intros s tr0 tr H0 Hs; simpl in Hs.
  - injection Hs as <- <-. by rewrite app_nil_r.
  - destruct (advance i s) as [[tr1 s1]|] eqn:Ha; [|done]. simpl in Hs.
    destruct (schedule_of turns s1) as [[tr2 s2]|] eqn:Hr; [|done]. injection Hs as <- <-. rewrite app_assoc.
    eapply IH; [|exact Hr]. econstructor; [exact H0|]. constructor. by eapply advance_step.
Qed.

(** Two requests race for the second of two endpoints. *)
Definition race : list call :=
  [CreateEndpoint (sample_endpoint id_endpoint2 [WebhookEventFailed]) 2;
   CreateEndpoint (sample_endpoint id_notification [WebhookEventDelivered]) 2].
Definition race_turns : list nat := [0; 1; 0; 0; 0; 0; 1; 1; 1]%nat.
Definition race_end : list event * (World * list session) :=
  default ([], (healthy_world sample_db, [])) (schedule_of race_turns (healthy_world sample_db, fresh race)).

Lemma race_runs : csteps (healthy_world sample_db, fresh race) race_end.1 race_end.2.
Proof.
  assert (match schedule_of race_turns (healthy_world sample_db, fresh race) with Some _ => true | None => false end = true) as H
    by (vm_compute; reflexivity).
  unfold race_end. destruct (schedule_of _ _) as [[tr s]|] eqn:Hs; [|done].
  by apply (schedule_steps race_turns _ [] (healthy_world sample_db, fresh race) tr s (csteps_refl _)).
Qed.

Lemma linearizable_witness :
  race_end.1 = [Call 0 (Ok tt); Call 1 (Err (sentinel_error ErrWebhookLimitReached))] ∧
  sequential race sample_db race_end.1 (w_db race_end.2.1) ∧
  (c_count (CreateEndpoint (sample_endpoint id_endpoint []) 0) (w_db race_end.2.1) ≤ 2)%Z.
Proof.
  split; [vm_compute; reflexivity|].
  pose proof race_runs as Hr. rewrite (surjective_pairing race_end.2) in Hr.
  destruct (concurrent_creates_linearizable race (healthy_world sample_db) race_end.1 race_end.2.1 race_end.2.2 Hr)
    as (H1 & _ & _ & H4).
  split; [exact H1|]. etrans; [apply (H4 (CreateEndpoint (sample_endpoint id_endpoint []) 0) 2%Z)|vm_compute; discriminate].
  - intros c' Hc' _. repeat (apply elem_of_cons in Hc' as [->|Hc']; [done|]). by apply elem_of_nil in Hc'.
  - intros k Hk. exfalso. revert Hk. assert (race_end.1 = [Call 0 (Ok tt); Call 1 (Err (sentinel_error ErrWebhookLimitReached))]) as ->
      by (vm_compute; reflexivity).
    intros Hk. repeat (apply elem_of_cons in Hk as [Hk|Hk]; [done|]). by apply elem_of_nil in Hk.
Defined.

Lemma creates_return_witness :
  sn moves (healthy_world sample_db, fresh race) ∧
  ∀ s', rtc moves (healthy_world sample_db, fresh race) s' → nf moves s' → Forall (λ x, ∃ r, x.2 = Ended r) s'.2.
Proof. exact (concurrent_creates_return (healthy_world sample_db, fresh race)). Defined.
End witnesses.
