(* ===== verification/Auth.v ===== *)
(** * Auth: tokens and the middleware that check callers

    internal/auth and handler/auth_handler.go.  github.com/golang-jwt/jwt is a
    parameter: signing a set of claims, and parsing a token with a key function
    that sees the token's signing method. *)
From Stdlib Require Import Ascii.
From S2P Require Import Prelude GoTime Utf8 Json Durations Hex Domain World Repository Tasks Http.

(** The signing method a token's header names. *)
Inductive SigningMethod :=
| SigningMethodHMAC (alg : string)
| OtherMethod (alg : string).

Definition SigningMethodHS256 : SigningMethod := SigningMethodHMAC "HS256".

Class Jwt := {
  (** [NewWithClaims(method, claims).SignedString(key)] *)
  SignedString : SigningMethod → string → TenantClaims → result string;
  (** [ParseWithClaims] at a clock reading: the claims and [token.Valid] *)
  ParseWithClaims : (SigningMethod → result string) → Time → string → result (TenantClaims * bool);
  (** the token carries a valid signature under this method and key *)
  verifies : SigningMethod → string → string → Prop
}.

(** [NewNumericDate] keeps whole seconds. *)
Definition NewNumericDate (t : Time) : Time := (t / Second * Second)%Z.

(** What the program relies on of the library: a signed token is text that
    parses back under its key inside its validity period, and a token that parses as valid was
    verified with the key the key function chose, inside its validity period. *)
Class JwtLaws (J : Jwt) : Prop := {
  SignedString_HS256 key c : is_Ok (SignedString SigningMethodHS256 key c) = true;
  SignedString_text key c tok : SignedString SigningMethodHS256 key c = Ok tok → ValidString tok = true;
  Parse_Signed key c tok kf now :
    SignedString SigningMethodHS256 key c = Ok tok → kf SigningMethodHS256 = Ok key →
    (tc_NotBefore c ≤ now < tc_ExpiresAt c)%Z →
    ParseWithClaims kf now tok = Ok (c, true);
  Parse_sound kf now tok c :
    ParseWithClaims kf now tok = Ok (c, true) →
    ∃ m key, kf m = Ok key ∧ verifies m key tok ∧ (tc_NotBefore c ≤ now < tc_ExpiresAt c)%Z
}.

(** ** jwt.go *)

Record JWTManager := mkJWTManager {
  jm_signingKey : string;
  jm_issuer : string;
  jm_expiration : Duration
}.

Section jwt.
Context `{E : Env} {J : Jwt}.

Definition GenerateToken (m : JWTManager) (tenantID : uuid) (tenantSlug : string) (isAdmin : bool) : M (result string) :=
  now ← time_Now;
  id ← uuid_New;
  let claims := mkTenantClaims (jm_issuer m) (uuid_String tenantID) (NewNumericDate (now + jm_expiration m))
                  (NewNumericDate now) (NewNumericDate now) (uuid_String id) tenantID tenantSlug isAdmin in
  mret (SignedString SigningMethodHS256 (jm_signingKey m) claims).

(** The key function: only HMAC methods get the key. *)
Definition jwt_keyfunc (m : JWTManager) (method : SigningMethod) : result string :=
  match method with
  | SigningMethodHMAC _ => Ok (jm_signingKey m)
  | OtherMethod alg => Err (errors_New ("unexpected signing method: " +:+ alg))
  end.

Definition ValidateToken (m : JWTManager) (tokenString : string) : M (result TenantClaims) :=
  now ← time_Now;
  mret match ParseWithClaims (jwt_keyfunc m) now tokenString with
       | Err err => Err (errorf_w "invalid token" err)
       | Ok (claims, valid) => if valid then Ok claims else Err (errors_New "invalid token claims")
       end.

(** ** middleware.go *)

(** [strings.SplitN(s, " ", 2)]: the parts around the first blank. *)
Fixpoint split_blank (s : string) : option (string * string) :=
  match s with
  | EmptyString => None
  | String c s' =>
      if bool_decide (c = " "%char) then Some ("", s')
      else match split_blank s' with Some (a, b) => Some (String c a, b) | None => None end
  end.

Definition auth_Middleware (jwtMgr : JWTManager) (next : Request → M Response) (r : Request) : M Response :=
  let authHeader := Header_Get r "Authorization" in
  if bool_decide (authHeader = "") then mret (response_Error StatusUnauthorized "missing authorization header")
  else match split_blank authHeader with
  | None => mret (response_Error StatusUnauthorized "invalid authorization format")
  | Some (scheme, token) =>
      if negb (EqualFold scheme "bearer") then mret (response_Error StatusUnauthorized "invalid authorization format")
      else
        claims ← ValidateToken jwtMgr token;
        match claims with
        | Err _ => mret (response_Error StatusUnauthorized "invalid or expired token")
        | Ok claims => next (with_Claims claims r)
        end
  end.

Definition GetClaims (r : Request) : option TenantClaims := r_Claims r.

(** ** admin_middleware.go *)

Definition AdminMiddleware (next : Request → M Response) (r : Request) : M Response :=
  match GetClaims r with
  | None => mret (response_Error StatusForbidden "admin access required")
  | Some claims => if tc_IsAdmin claims then next r
                   else mret (response_Error StatusForbidden "admin access required")
  end.

(** ** hmac_middleware.go *)

Definition maxBodyBytes : Z := 2 ^ 20.
Definition timestampWindow : Duration := 5 * Minute.

Definition newline : string := String "010"%char "".

Definition hmac_canonical (method requestURI timestamp body : string) : string :=
  method +:+ newline +:+ requestURI +:+ newline +:+ timestamp +:+ newline +:+ hex_EncodeToString (sha256 body).

(** [time.Since] of a timestamp saturates far outside the window. *)
Definition HMACMiddleware (secret : string) (next : Request → M Response) (r : Request) : M Response :=
  let reject := mret (response_Error StatusUnauthorized "invalid credentials") in
  if bool_decide (secret = "") then mret (response_Error StatusServiceUnavailable "service auth not configured")
  else match io_ReadAll (MaxBytesReader maxBodyBytes (r_Body r)) with
  | Err _ => mret (response_Error StatusBadRequest "failed to read body")
  | Ok body =>
      let tsHeader := Header_Get r "X-Service-Timestamp" in
      if bool_decide (tsHeader = "") then reject
      else match time_Parse tsHeader with
      | None => reject
      | Some ts =>
          now ← time_Now;
          let diff := (now - ts)%Z in
          if (timestampWindow <? diff)%Z || (diff <? - timestampWindow)%Z then reject
          else
            let canonical := hmac_canonical (r_Method r) (r_RequestURI r) tsHeader body in
            let expected := hex_EncodeToString (hmac_sha256 secret canonical) in
            let provided := Header_Get r "X-Service-Signature" in
            if bool_decide (provided = "") || negb (bool_decide (expected = provided)) then reject
            else next (with_Body (NewReader body) r)
      end
  end.

(** ** auth_handler.go *)

Record tokenRequest := mkTokenRequest { tr_APIKey : string; tr_APISecret : string }.

Definition dec_tokenRequest (j : json) : result tokenRequest :=
  kvs <-? json_object j;
  k <-? field dec_string "api_key" "" kvs;
  s <-? field dec_string "api_secret" "" kvs;
  Ok (mkTokenRequest k s).

(** [json.NewDecoder(r.Body).Decode]: the first document of the body. *)
Definition decode_body {A} (dec : json → result A) (r : Request) : result A :=
  match r_First r with
  | Some j => dec j
  | None => Err (errors_New "invalid JSON")
  end.

Definition token_response (m : JWTManager) (token : string) : Response :=
  response_JSON StatusOK
    (JObj [("token", JStr token); ("expires_in", JStr (Duration_String (jm_expiration m)))]).

Definition issueAdminToken (m : JWTManager) (adminAPISecret providedSecret : string) : M Response :=
  if negb (bool_decide (providedSecret = adminAPISecret))
  then mret (response_Error StatusUnauthorized "invalid credentials")
  else
    token ← GenerateToken m uuid_Nil "" true;
    mret match token with
         | Err _ => response_Error StatusInternalServerError "failed to generate token"
         | Ok token => token_response m token
         end.

Definition issueTenantToken (m : JWTManager) (req : tokenRequest) : M Response :=
  key ← PgAPIKeyRepo_GetByAPIKey (tr_APIKey req);
  match key with
  | Err _ => mret (response_Error StatusUnauthorized "invalid credentials")
  | Ok key =>
      if bool_decide (is_Some (k_RevokedAt key))
      then mret (response_Error StatusUnauthorized "invalid credentials")
      else
        tenant ← PgTenantRepo_GetByID (k_TenantID key);
        match tenant with
        | Err _ => mret (response_Error StatusUnauthorized "invalid credentials")
        | Ok tenant =>
            if negb (t_IsActive tenant) then mret (response_Error StatusForbidden "tenant is disabled")
            else if negb (bcrypt_Compare (k_APISecretHash key) (tr_APISecret req))
            then mret (response_Error StatusUnauthorized "invalid credentials")
            else
              token ← GenerateToken m (t_ID tenant) (t_Slug tenant) false;
              mret match token with
                   | Err _ => response_Error StatusInternalServerError "failed to generate token"
                   | Ok token => token_response m token
                   end
        end
  end.

Definition IssueToken (m : JWTManager) (adminAPIKey adminAPISecret : string) (r : Request) : M Response :=
  match decode_body dec_tokenRequest r with
  | Err _ => mret (response_Error StatusBadRequest "invalid request body")
  | Ok req =>
      if bool_decide (tr_APIKey req = "") || bool_decide (tr_APISecret req = "")
      then mret (response_Error StatusBadRequest "api_key and api_secret are required")
      else if bool_decide (adminAPIKey ≠ "") && bool_decide (tr_APIKey req = adminAPIKey)
      then issueAdminToken m adminAPISecret (tr_APISecret req)
      else issueTenantToken m req
  end.
End jwt.
