(* ===== verification/SampleJwt.v ===== *)
(** * SampleJwt: a token library that satisfies the laws

    Tokens spell out the key and the claims, so that parsing is decoding: an
    instance of [Jwt] on which the theorems that use it can be evaluated. *)
From Stdlib Require Import Ascii.
From S2P Require Import Prelude GoTime Utf8 Json Hex Domain World Repository Tasks Http Auth.

(** ** Positive numbers as binary text *)

Fixpoint bits_of (p : positive) : string :=
  match p with
  | xH => ""
  | xO p => String "0"%char (bits_of p)
  | xI p => String "1"%char (bits_of p)
  end.

Fixpoint of_bits (s : string) : positive :=
  match s with
  | EmptyString => xH
  | String c s => if bool_decide (c = "1"%char) then xI (of_bits s) else xO (of_bits s)
  end.

Lemma of_bits_of p : of_bits (bits_of p) = p.
Proof. induction p as [p IH|p IH|]; simpl; by rewrite ?IH. Qed.

Lemma bits_text p : ValidString (bits_of p) = true.
Proof. unfold ValidString. induction p as [p IH|p IH|]; simpl; [exact IH..|done]. Qed.

(** ** Claims as a countable type *)

#[export] Instance TenantClaims_eq_dec : EqDecision TenantClaims.
Proof. solve_decision. Defined.

#[export] Instance TenantClaims_countable : Countable TenantClaims.
Proof.
  refine (inj_countable'
    (λ c, (tc_Issuer c, tc_Subject c, tc_ExpiresAt c, tc_IssuedAt c, tc_NotBefore c, tc_ID c,
           tc_TenantID c, tc_TenantSlug c, tc_IsAdmin c))
    (λ '(a1, a2, a3, a4, a5, a6, a7, a8, a9), mkTenantClaims a1 a2 a3 a4 a5 a6 a7 a8 a9) _).
  by intros [].
Defined.

Definition sample_sign (key : string) (c : TenantClaims) : string := bits_of (encode (key, c)).

Definition sample_read (tok : string) : option (string * TenantClaims) := decode (of_bits tok).

Lemma sample_read_sign key c : sample_read (sample_sign key c) = Some (key, c).
Proof. unfold sample_read, sample_sign. by rewrite of_bits_of, decode_encode. Qed.

Definition sample_parse (kf : SigningMethod → result string) (now : Time) (tok : string)
    : result (TenantClaims * bool) :=
  match sample_read tok, kf SigningMethodHS256 with
  | Some (key, c), Ok key' =>
      if bool_decide (key = key' ∧ (tc_NotBefore c ≤ now < tc_ExpiresAt c)%Z) then Ok (c, true)
      else Err (errors_New "token signature is invalid")
  | _, Err e => Err e
  | None, _ => Err (errors_New "token is malformed")
  end.

#[export] Instance sample_jwt : Jwt := {|
  SignedString := λ _ key c, Ok (sample_sign key c);
  ParseWithClaims := sample_parse;
  verifies := λ m key tok, m = SigningMethodHS256 ∧ ∃ c, sample_read tok = Some (key, c)
|}.

#[export] Instance sample_jwt_laws : JwtLaws sample_jwt.
Proof.
  split; simpl.
  - done.
  - intros key c tok [= <-]. apply bits_text.
  - intros key c tok kf now [= <-] Hk Hw. unfold sample_parse. rewrite sample_read_sign, Hk.
    by rewrite bool_decide_eq_true_2.
  - intros kf now tok c. unfold sample_parse. destruct (sample_read tok) as [[key c']|] eqn:Hr; [|by destruct (kf _)].
    destruct (kf SigningMethodHS256) as [key'|] eqn:Hk; [|done]. case_bool_decide as Hw; [|done].
    intros [= <-]. destruct Hw as [-> Hw]. exists SigningMethodHS256, key'. eauto.
Qed.
