(* ===== verification/Handlers.v ===== *)
(** * Handlers: internal/handler, the HTTP API over the services

    Requests to responses.  [with_claims], [with_id] and [with_body] are the
    checks every handler opens with; the rest is written out per handler. *)
From Stdlib Require Import Ascii.
From S2P Require Import Prelude GoTime Json Hex Domain World Repository Tasks Provider Net Ssrf Services Http.
From S2P Require Import Auth.

(** ** pagination.go *)

(** [strconv.Atoi]. *)
Fixpoint atoi_digits (acc : Z) (s : string) : option Z :=
  match s with
  | EmptyString => Some acc
  | String c s' => if is_digit c then atoi_digits (acc * 10 + digit_val c) s' else None
  end.
Definition Atoi (s : string) : option Z :=
  let '(sign, digits) := match s with
                         | String c s' => if bool_decide (c = "-"%char) then ((-1)%Z, s')
                                          else if bool_decide (c = "+"%char) then (1%Z, s') else (1%Z, s)
                         | EmptyString => (1%Z, s)
                         end in
  if bool_decide (digits = "") then None
  else n ← atoi_digits 0 digits;
       if bool_decide (int64_min ≤ sign * n ≤ int64_max)%Z then Some (sign * n)%Z else None.

Definition parsePagination (r : Request) : Z * Z :=
  let limit :=
    if bool_decide (Query_Get r "limit" = "") then 20%Z
    else match Atoi (Query_Get r "limit") with
         | Some v => if ((0 <? v) && (v <=? 100))%Z then v else 20%Z
         | None => 20%Z
         end in
  let offset :=
    if bool_decide (Query_Get r "offset" = "") then 0%Z
    else match Atoi (Query_Get r "offset") with
         | Some v => if (0 <=? v)%Z then v else 0%Z
         | None => 0%Z
         end in
  (limit, offset).

(** ** Decoding request bodies *)

Section decoding.
Context `{E : Env}.

Definition zero_SendNotificationInput : SendNotificationInput := mkSendNotificationInput uuid_Nil None "" None.
Definition dec_SendNotificationInput : decoder SendNotificationInput := λ cur j,
  kvs <-? json_object j;
  id <-? field dec_uuid "channel_config_id" (sni_ChannelConfigID cur) kvs;
  subject <-? field (dec_ptr dec_string "") "subject" (sni_Subject cur) kvs;
  body <-? field dec_string "body" (sni_Body cur) kvs;
  metadata <-? field dec_raw "metadata" (sni_Metadata cur) kvs;
  Ok (mkSendNotificationInput id subject body metadata).

Definition dec_SendMultiInput (j : json) : result SendMultiInput :=
  kvs <-? json_object j;
  chs <-? field (dec_slice dec_SendNotificationInput zero_SendNotificationInput) "channels" [] kvs;
  Ok (mkSendMultiInput chs).

Definition dec_prefs : decoder (option DeliveryPreferences) := dec_ptr dec_DeliveryPreferences zero_DeliveryPreferences.

Definition dec_CreateChannelConfigInput (j : json) : result CreateChannelConfigInput :=
  kvs <-? json_object j;
  channel <-? field dec_string "channel" "" kvs;
  name <-? field dec_string "name" "" kvs;
  config <-? field dec_raw "config" None kvs;
  prefs <-? field dec_prefs "delivery_prefs" None kvs;
  Ok (mkCreateChannelConfigInput channel name config prefs).

Definition dec_UpdateChannelConfigInput (j : json) : result UpdateChannelConfigInput :=
  kvs <-? json_object j;
  name <-? field (dec_ptr dec_string "") "name" None kvs;
  config <-? field (dec_ptr dec_raw None) "config" None kvs;
  active <-? field (dec_ptr dec_bool false) "is_active" None kvs;
  prefs <-? field dec_prefs "delivery_prefs" None kvs;
  Ok (mkUpdateChannelConfigInput name config active prefs).

Definition dec_CreateTenantInput (j : json) : result CreateTenantInput :=
  kvs <-? json_object j;
  name <-? field dec_string "name" "" kvs;
  slug <-? field dec_string "slug" "" kvs;
  Ok (mkCreateTenantInput name slug).

Definition dec_UpdateTenantInput (j : json) : result UpdateTenantInput :=
  kvs <-? json_object j;
  name <-? field (dec_ptr dec_string "") "name" None kvs;
  active <-? field (dec_ptr dec_bool false) "is_active" None kvs;
  Ok (mkUpdateTenantInput name active).

Definition dec_strings : decoder (option (list string)) := λ _ j,
  match j with
  | JNull => Ok None
  | _ => l <-? dec_slice dec_string "" [] j; Ok (Some l)
  end.

Definition dec_CreateWebhookEndpointInput (j : json) : result CreateWebhookEndpointInput :=
  kvs <-? json_object j;
  url <-? field dec_string "url" "" kvs;
  events <-? field dec_strings "events" None kvs;
  Ok (mkCreateWebhookEndpointInput url (default [] events)).

Definition dec_UpdateWebhookEndpointInput (j : json) : result UpdateWebhookEndpointInput :=
  kvs <-? json_object j;
  url <-? field (dec_ptr dec_string "") "url" None kvs;
  events <-? field dec_strings "events" None kvs;
  active <-? field (dec_ptr dec_bool false) "is_active" None kvs;
  Ok (mkUpdateWebhookEndpointInput url events active).
End decoding.

(** ** entitlement_handler.go: its request *)

Record putEntitlementsRequest := mkPutEntitlementsRequest {
  pe_TenantID : uuid;
  pe_PlanCode : string;
  pe_MessageLimit : Z;
  pe_AllowedChannels : list string;
  pe_APIKeyLimit : Z;
  pe_RetentionDays : Z;
  pe_PeriodStart : Time;
  pe_PeriodEnd : Time
}.

Section handlers.
Context `{E : Env}.

(** [claims := auth.GetClaims(...); if claims == nil] *)
Definition with_claims (r : Request) (k : TenantClaims → M Response) : M Response :=
  match GetClaims r with
  | None => mret (response_Error StatusUnauthorized "unauthorized")
  | Some claims => k claims
  end.

(** [uuid.Parse(chi.URLParam(r, name))] *)
Definition with_id (r : Request) (name msg : string) (k : uuid → M Response) : M Response :=
  match uuid_Parse (URLParam r name) with
  | None => mret (response_Error StatusBadRequest msg)
  | Some id => k id
  end.

(** [json.NewDecoder(r.Body).Decode(&input)] *)
Definition with_body {A} (dec : json → result A) (r : Request) (k : A → M Response) : M Response :=
  match decode_body dec r with
  | Err _ => mret (response_Error StatusBadRequest "invalid request body")
  | Ok input => k input
  end.

(** The chain of [errors.Is] tests, with 500 at its end. *)
Fixpoint classify (cases : list (sentinel * Z * string)) (err : error) : Response :=
  match cases with
  | [] => response_Error StatusInternalServerError "internal server error"
  | (s, status, msg) :: rest => if errors_Is err s then response_Error status msg else classify rest err
  end.

(** ** notification_handler.go *)

Definition sanitizeNotificationError (err : error) : string :=
  if errors_Is err ErrNotFound then "channel config not found"
  else if errors_Is err ErrValidationFailed then "validation failed"
  else if errors_Is err ErrUnsupportedChannel then "unsupported channel"
  else if errors_Is err ErrChannelNotInPlan then "CHANNEL_NOT_IN_PLAN"
  else "internal server error".

Definition NotificationHandler_Send (maxRetries : Z) (r : Request) : M Response :=
  with_claims r (λ claims,
  with_body (dec_SendNotificationInput zero_SendNotificationInput) r (λ input,
    if bool_decide (sni_ChannelConfigID input = uuid_Nil)
    then mret (response_Error StatusBadRequest "channel_config_id is required")
    else if bool_decide (sni_Body input = "") then mret (response_Error StatusBadRequest "body is required")
    else
      notif ← NotificationService_Send maxRetries (tc_TenantID claims) input;
      mret match notif with
           | Err err => classify [(ErrNotFound, StatusNotFound, "channel config not found");
                                  (ErrValidationFailed, StatusBadRequest, "validation failed");
                                  (ErrChannelNotInPlan, StatusForbidden, "CHANNEL_NOT_IN_PLAN")] err
           | Ok notif => response_data StatusAccepted (json_Notification notif)
           end)).

(** What [SendMulti] writes for the outcome of the service call. *)
Definition multi_response (results : list Notification) (errs : list error) : Response :=
  response_data StatusAccepted (enc_object
    (("sent", enc_array json_Notification results) ::
     match errs with
     | [] => []
     | _ => [("errors", Ok (JArr (JStr ∘ sanitizeNotificationError <$> errs)))]
     end)).

(** The goroutines of the service make this a relation between the world
    before, the response and the world after. *)
Inductive NotificationHandler_SendMulti (maxRetries : Z) (r : Request) (w : World) : Response → World → Prop :=
| multi_unauthorized :
    GetClaims r = None →
    NotificationHandler_SendMulti maxRetries r w (response_Error StatusUnauthorized "unauthorized") w
| multi_bad_body claims e :
    GetClaims r = Some claims → decode_body dec_SendMultiInput r = Err e →
    NotificationHandler_SendMulti maxRetries r w (response_Error StatusBadRequest "invalid request body") w
| multi_bad_count claims input :
    GetClaims r = Some claims → decode_body dec_SendMultiInput r = Ok input →
    (length (smi_Channels input) = 0 ∨ 50 < length (smi_Channels input))%nat →
    NotificationHandler_SendMulti maxRetries r w
      (response_Error StatusBadRequest "channels count must be between 1 and 50") w
| multi_sent claims input results errs w' :
    GetClaims r = Some claims → decode_body dec_SendMultiInput r = Ok input →
    (1 ≤ length (smi_Channels input) ≤ 50)%nat →
    NotificationService_SendMulti maxRetries (tc_TenantID claims) input w results errs w' →
    NotificationHandler_SendMulti maxRetries r w (multi_response results errs) w'.

(** The notification of the path, when it is the caller's. *)
Definition own_notification (r : Request) (claims : TenantClaims) (k : Notification → uuid → M Response) : M Response :=
  with_id r "notificationID" "invalid notification ID" (λ id,
    notif ← NotificationService_GetByID id;
    match notif with
    | Err err => mret (classify [(ErrNotFound, StatusNotFound, "notification not found")] err)
    | Ok notif =>
        if negb (bool_decide (n_TenantID notif = tc_TenantID claims))
        then mret (response_Error StatusNotFound "notification not found")
        else k notif id
    end).

Definition NotificationHandler_GetByID (r : Request) : M Response :=
  with_claims r (λ claims, own_notification r claims (λ notif _,
    mret (response_data StatusOK (json_Notification notif)))).

Definition NotificationHandler_List (r : Request) : M Response :=
  with_claims r (λ claims,
    let '(limit, offset) := parsePagination r in
    let s := Query_Get r "status" in
    let c := Query_Get r "channel" in
    if bool_decide (s ≠ "") && negb (IsValidNotificationStatus s)
    then mret (response_Error StatusBadRequest "invalid status filter")
    else if bool_decide (c ≠ "") && negb (IsValidChannelType c)
    then mret (response_Error StatusBadRequest "invalid channel filter")
    else
      let filter := mkNotificationFilter (tc_TenantID claims)
                      (if bool_decide (s = "") then None else Some s)
                      (if bool_decide (c = "") then None else Some c) limit offset in
      res ← NotificationService_List filter;
      mret match res with
           | Err _ => response_Error StatusInternalServerError "internal server error"
           | Ok (notifications, total) =>
               response_data StatusOK
                 (json_ListResponse (enc_array json_Notification notifications) total limit offset)
           end).

Definition NotificationHandler_ListAttempts (r : Request) : M Response :=
  with_claims r (λ claims, own_notification r claims (λ _ id,
    attempts ← PgDeliveryAttemptRepo_ListByNotification id;
    mret match attempts with
         | Err _ => response_Error StatusInternalServerError "internal server error"
         | Ok attempts => response_data StatusOK (enc_array json_DeliveryAttempt attempts)
         end)).

Definition NotificationHandler_GetMetrics (r : Request) : M Response :=
  with_claims r (λ claims, own_notification r claims (λ _ id,
    metric ← PgDeliveryMetricRepo_GetByNotificationID id;
    mret match metric with
         | Err err => classify [(ErrNotFound, StatusNotFound, "delivery metrics not yet available")] err
         | Ok metric => response_data StatusOK (json_DeliveryMetric metric)
         end)).

(** ** channel_handler.go *)

Definition ChannelHandler_Create (registry : Registry) (r : Request) : M Response :=
  with_claims r (λ claims,
  with_body dec_CreateChannelConfigInput r (λ input,
    cfg ← ChannelService_Create registry (tc_TenantID claims) input;
    mret match cfg with
         | Err err => classify [(ErrValidationFailed, StatusBadRequest, "validation failed");
                                (ErrUnsupportedChannel, StatusBadRequest, "unsupported channel");
                                (ErrChannelNotInPlan, StatusForbidden, "CHANNEL_NOT_IN_PLAN")] err
         | Ok cfg => response_data StatusCreated (json_ChannelConfig cfg)
         end)).

Definition ChannelHandler_GetByID (r : Request) : M Response :=
  with_claims r (λ claims,
  with_id r "channelID" "invalid channel ID" (λ id,
    cfg ← ChannelService_GetByID id;
    mret match cfg with
         | Err err => classify [(ErrNotFound, StatusNotFound, "channel config not found")] err
         | Ok cfg => if negb (bool_decide (cc_TenantID cfg = tc_TenantID claims))
                     then response_Error StatusNotFound "channel config not found"
                     else response_data StatusOK (json_ChannelConfig cfg)
         end)).

Definition ChannelHandler_List (r : Request) : M Response :=
  with_claims r (λ claims,
    configs ← ChannelService_ListByTenant (tc_TenantID claims);
    mret match configs with
         | Err _ => response_Error StatusInternalServerError "internal server error"
         | Ok configs => response_data StatusOK (enc_array json_ChannelConfig configs)
         end).

Definition ChannelHandler_Update (registry : Registry) (r : Request) : M Response :=
  with_claims r (λ claims,
  with_id r "channelID" "invalid channel ID" (λ id,
  with_body dec_UpdateChannelConfigInput r (λ input,
    updated ← ChannelService_Update registry id (tc_TenantID claims) input;
    mret match updated with
         | Err err => classify [(ErrValidationFailed, StatusBadRequest, "invalid channel configuration");
                                (ErrUnsupportedChannel, StatusBadRequest, "unsupported channel");
                                (ErrNotFound, StatusNotFound, "channel config not found")] err
         | Ok updated => response_data StatusOK (json_ChannelConfig updated)
         end))).

Definition ChannelHandler_Delete (r : Request) : M Response :=
  with_claims r (λ claims,
  with_id r "channelID" "invalid channel ID" (λ id,
    res ← ChannelService_Delete id (tc_TenantID claims);
    mret match res with
         | Err err => classify [(ErrNotFound, StatusNotFound, "channel config not found")] err
         | Ok _ => response_empty StatusNoContent
         end)).

(** ** apikey_handler.go *)

Definition APIKeyHandler_List (r : Request) : M Response :=
  with_claims r (λ claims,
    keys ← APIKeyService_ListByTenant (tc_TenantID claims);
    mret match keys with
         | Err _ => response_Error StatusInternalServerError "internal server error"
         | Ok keys => response_data StatusOK (enc_array json_APIKey keys)
         end).

Definition dec_label (j : json) : result string :=
  kvs <-? json_object j; field dec_string "label" "" kvs.

Definition APIKeyHandler_Create (r : Request) : M Response :=
  with_claims r (λ claims,
  with_body dec_label r (λ label,
    res ← APIKeyService_Create (tc_TenantID claims) label;
    mret match res with
         | Err err => classify [(ErrKeyLimitReached, StatusForbidden, "KEY_LIMIT_REACHED")] err
         | Ok (key, rawSecret) =>
             response_data StatusCreated (enc_object [("api_secret", ok_str rawSecret); ("key", json_APIKey key)])
         end)).

Definition APIKeyHandler_Revoke (r : Request) : M Response :=
  with_claims r (λ claims,
  with_id r "keyID" "invalid key ID" (λ id,
    res ← APIKeyService_Revoke id (tc_TenantID claims);
    mret match res with
         | Err err => classify [(ErrNotFound, StatusNotFound, "key not found")] err
         | Ok _ => response_empty StatusNoContent
         end)).

(** ** webhook_endpoint_handler.go *)

Definition WebhookEndpointHandler_List (r : Request) : M Response :=
  with_claims r (λ claims,
    endpoints ← WebhookEndpointService_ListByTenant (tc_TenantID claims);
    mret match endpoints with
         | Err _ => response_Error StatusInternalServerError "internal server error"
         | Ok endpoints => response_data StatusOK (enc_array json_WebhookEndpoint endpoints)
         end).

(** The embedded endpoint's members, then the secret. *)
Definition newWebhookEndpointCreatedResponse (endpoint : WebhookEndpoint) (secret : string) : result json :=
  enc_object (members_WebhookEndpoint endpoint ++ [("secret", ok_str secret)]).

Definition WebhookEndpointHandler_Create (r : Request) : M Response :=
  with_claims r (λ claims,
  with_body dec_CreateWebhookEndpointInput r (λ input,
    res ← WebhookEndpointService_Create (tc_TenantID claims) input;
    mret match res with
         | Err err => classify [(ErrValidationFailed, StatusBadRequest, "validation failed");
                                (ErrWebhookLimitReached, StatusForbidden, "WEBHOOK_LIMIT_REACHED")] err
         | Ok (endpoint, secret) => response_data StatusCreated (newWebhookEndpointCreatedResponse endpoint secret)
         end)).

Definition WebhookEndpointHandler_Update (r : Request) : M Response :=
  with_claims r (λ claims,
  with_id r "webhookID" "invalid webhook ID" (λ id,
  with_body dec_UpdateWebhookEndpointInput r (λ input,
    updated ← WebhookEndpointService_Update id (tc_TenantID claims) input;
    mret match updated with
         | Err err => classify [(ErrValidationFailed, StatusBadRequest, "validation failed");
                                (ErrNotFound, StatusNotFound, "webhook endpoint not found")] err
         | Ok updated => response_data StatusOK (json_WebhookEndpoint updated)
         end))).

Definition WebhookEndpointHandler_Delete (r : Request) : M Response :=
  with_claims r (λ claims,
  with_id r "webhookID" "invalid webhook ID" (λ id,
    res ← WebhookEndpointService_Delete id (tc_TenantID claims);
    mret match res with
         | Err err => classify [(ErrNotFound, StatusNotFound, "webhook endpoint not found")] err
         | Ok _ => response_empty StatusNoContent
         end)).

(** ** tenant_handler.go *)

Definition json_CreateTenantResult (t : CreateTenantResult) : result json := enc_object
  [("tenant", json_Tenant (ctr_Tenant t)); ("api_key", ok_str (ctr_APIKey t)); ("api_secret", ok_str (ctr_APISecret t))].

Definition TenantHandler_Create (r : Request) : M Response :=
  with_body dec_CreateTenantInput r (λ input,
    res ← TenantService_Create input;
    mret match res with
         | Err err => classify [(ErrValidationFailed, StatusBadRequest, "validation failed")] err
         | Ok result => response_data StatusCreated (json_CreateTenantResult result)
         end).

Definition TenantHandler_GetByID (r : Request) : M Response :=
  with_id r "tenantID" "invalid tenant ID" (λ id,
    tenant ← TenantService_GetByID id;
    mret match tenant with
         | Err err => classify [(ErrNotFound, StatusNotFound, "tenant not found")] err
         | Ok tenant => response_data StatusOK (json_Tenant tenant)
         end).

Definition TenantHandler_GetBySlug (r : Request) : M Response :=
  let slug := URLParam r "slug" in
  if bool_decide (slug = "") then mret (response_Error StatusBadRequest "slug is required")
  else
    tenant ← TenantService_GetBySlug slug;
    mret match tenant with
         | Err err => classify [(ErrNotFound, StatusNotFound, "tenant not found")] err
         | Ok tenant => response_data StatusOK (json_Tenant tenant)
         end.

Definition TenantHandler_Update (r : Request) : M Response :=
  with_id r "tenantID" "invalid tenant ID" (λ id,
  with_body dec_UpdateTenantInput r (λ input,
    tenant ← TenantService_Update id input;
    mret match tenant with
         | Err err => classify [(ErrNotFound, StatusNotFound, "tenant not found");
                                (ErrValidationFailed, StatusBadRequest, "validation failed")] err
         | Ok tenant => response_data StatusOK (json_Tenant tenant)
         end)).

Definition TenantHandler_Delete (r : Request) : M Response :=
  with_id r "tenantID" "invalid tenant ID" (λ id,
    res ← TenantService_Delete id;
    mret match res with
         | Err err => classify [(ErrNotFound, StatusNotFound, "tenant not found")] err
         | Ok _ => response_empty StatusNoContent
         end).

Definition TenantHandler_List (r : Request) : M Response :=
  let '(limit, offset) := parsePagination r in
  res ← TenantService_List limit offset;
  mret match res with
       | Err _ => response_Error StatusInternalServerError "internal server error"
       | Ok (tenants, total) =>
           response_data StatusOK (json_ListResponse (enc_array json_Tenant tenants) total limit offset)
       end.

(** ** entitlement_handler.go *)

Definition dec_putEntitlementsRequest (j : json) : result putEntitlementsRequest :=
  kvs <-? json_object j;
  tid <-? field dec_uuid "tenant_id" uuid_Nil kvs;
  plan <-? field dec_string "plan_code" "" kvs;
  msgs <-? field dec_int "message_limit" 0%Z kvs;
  chs <-? field (dec_slice dec_string "") "allowed_channels" [] kvs;
  keys <-? field dec_int "api_key_limit" 0%Z kvs;
  days <-? field dec_int "retention_days" 0%Z kvs;
  from <-? field dec_time "period_start" time_zero kvs;
  to <-? field dec_time "period_end" time_zero kvs;
  Ok (mkPutEntitlementsRequest tid plan msgs chs keys days from to).

Definition EntitlementHandler_Put (r : Request) : M Response :=
  with_id r "tenantID" "invalid tenant ID" (λ tenantID,
  with_body dec_putEntitlementsRequest r (λ req,
    if bool_decide (pe_TenantID req = uuid_Nil) || negb (bool_decide (pe_TenantID req = tenantID))
    then mret (response_Error StatusBadRequest "validation failed")
    else if bool_decide (pe_PlanCode req = "") || (pe_MessageLimit req <? 0)%Z || (pe_APIKeyLimit req <? 1)%Z ||
            (pe_RetentionDays req <? 1)%Z || negb (pe_PeriodStart req <? pe_PeriodEnd req)%Z
    then mret (response_Error StatusBadRequest "validation failed")
    else match list_find (λ c, IsValidChannelType c = false) (pe_AllowedChannels req) with
    | Some (_, c) => mret (response_Error StatusBadRequest ("invalid channel: " +:+ c))
    | None =>
        let ent := mkEntitlements tenantID (pe_PlanCode req) (pe_MessageLimit req) (pe_AllowedChannels req)
                     (pe_APIKeyLimit req) (pe_RetentionDays req) (pe_PeriodStart req) (pe_PeriodEnd req) time_zero in
        res ← PgEntitlementRepo_Upsert ent;
        mret match res with
             | Err _ => response_Error StatusInternalServerError "internal server error"
             | Ok _ => response_data StatusOK (json_Entitlements ent)
             end
    end)).

Definition EntitlementHandler_Usage (r : Request) : M Response :=
  with_id r "tenantID" "invalid tenant ID" (λ tenantID,
    match time_Parse (Query_Get r "period_start") with
    | None => mret (response_Error StatusBadRequest "invalid period_start")
    | Some from =>
        match time_Parse (Query_Get r "period_end") with
        | None => mret (response_Error StatusBadRequest "invalid period_end")
        | Some to =>
            report ← PgNotificationRepo_UsageByTenant tenantID from to;
            mret match report with
                 | Err _ => response_Error StatusInternalServerError "internal server error"
                 | Ok report => response_data StatusOK (json_UsageReport report)
                 end
        end
    end).
(** ** health_handler.go *)

(** Pinging a pool or a client is a round trip without an effect. *)
Definition HealthHandler_Health (r : Request) : M Response :=
  db ← db_query (λ _, Ok tt);
  redis ← redis_do (λ r, (tt, r));
  let check {A} (res : result A) : json := JStr (if is_Ok res then "ok" else "error") in
  let ok := is_Ok db && is_Ok redis in
  mret (response_JSON (if ok then StatusOK else StatusServiceUnavailable)
    (JObj [("checks", JObj [("postgres", check db); ("redis", check redis)]);
           ("status", JStr (if ok then "ok" else "degraded"))])).
End handlers.
