(* ===== verification/Router.v ===== *)
(** * Router: the routes of the API and the middleware in front of them

    internal/router/router.go.  A route is a method, a pattern and the chain that
    serves it; finding the route of a request is chi's, and so are the request
    id, logging, recovery, timeout and CORS layers around every route; the limit on
    the body's size is the program's own.
    [SendMulti] runs goroutines, so its handler is a relation; [send_multi] is the
    run a scheduler makes of it. *)
From S2P Require Import Prelude GoTime Json Hex Domain World Repository Tasks Provider Net Ssrf Services Http.
From S2P Require Import Quota Auth Handlers.

Record Deps `{E : Env} := mkDeps {
  dp_jwtMgr : JWTManager;
  dp_registry : Registry;
  dp_maxRetries : Z;
  dp_adminAPIKey : string;
  dp_adminAPISecret : string;
  dp_svcHMACSecret : string;
  dp_quotaWebhookURL : string;
  dp_upgradeURL : string
}.

Record Route `{E : Env} := mkRoute { rt_Method : string; rt_Pattern : string; rt_serve : Request → M Response }.

Definition maxBodySize `{E : Env} (maxBytes : Z) (next : Request → M Response) (r : Request) : M Response :=
  next (with_Body (MaxBytesReader maxBytes (r_Body r)) r).

(** 1 MiB *)
Definition bodyLimit : Z := 2 ^ 20.

Section router.
Context `{E : Env} {J : Jwt} (d : Deps) (send_multi : Request → M Response).

(** [send_multi] is a run of the handler. *)
Definition multi_runs : Prop :=
  ∀ r w, NotificationHandler_SendMulti (dp_maxRetries d) r w (send_multi r w).1 (send_multi r w).2.

Definition quotaMW : (Request → M Response) → Request → M Response :=
  quota_Middleware (Reserve (dp_quotaWebhookURL d)) Refund (dp_upgradeURL d).

Definition with_mw (mw : (Request → M Response) → Request → M Response) (rt : Route) : Route :=
  mkRoute _ (rt_Method rt) (rt_Pattern rt) (mw (rt_serve rt)).

Definition public_routes : list Route :=
  [mkRoute _ "GET" "/health" HealthHandler_Health;
   mkRoute _ "POST" "/auth/token"
     (IssueToken (dp_jwtMgr d) (dp_adminAPIKey d) (dp_adminAPISecret d))].

(** The group behind [auth.Middleware]. *)
Definition tenant_routes : list Route :=
  [mkRoute _ "GET" "/keys/" APIKeyHandler_List;
   mkRoute _ "POST" "/keys/" APIKeyHandler_Create;
   mkRoute _ "DELETE" "/keys/{keyID}" APIKeyHandler_Revoke;
   mkRoute _ "GET" "/channels/" ChannelHandler_List;
   mkRoute _ "POST" "/channels/" (ChannelHandler_Create (dp_registry d));
   mkRoute _ "GET" "/channels/{channelID}/" ChannelHandler_GetByID;
   mkRoute _ "PATCH" "/channels/{channelID}/" (ChannelHandler_Update (dp_registry d));
   mkRoute _ "DELETE" "/channels/{channelID}/" ChannelHandler_Delete;
   mkRoute _ "GET" "/webhooks/" WebhookEndpointHandler_List;
   mkRoute _ "POST" "/webhooks/" WebhookEndpointHandler_Create;
   mkRoute _ "PUT" "/webhooks/{webhookID}/" WebhookEndpointHandler_Update;
   mkRoute _ "DELETE" "/webhooks/{webhookID}/" WebhookEndpointHandler_Delete;
   mkRoute _ "POST" "/notifications/send" (quotaMW (NotificationHandler_Send (dp_maxRetries d)));
   mkRoute _ "POST" "/notifications/send-multi" (quotaMW send_multi);
   mkRoute _ "GET" "/notifications/" NotificationHandler_List;
   mkRoute _ "GET" "/notifications/{notificationID}/" NotificationHandler_GetByID;
   mkRoute _ "GET" "/notifications/{notificationID}/attempts" NotificationHandler_ListAttempts;
   mkRoute _ "GET" "/notifications/{notificationID}/metrics" NotificationHandler_GetMetrics].

(** Behind [auth.Middleware] and [auth.AdminMiddleware]. *)
Definition admin_routes : list Route :=
  [mkRoute _ "GET" "/admin/tenants/" TenantHandler_List;
   mkRoute _ "POST" "/admin/tenants/" TenantHandler_Create;
   mkRoute _ "GET" "/admin/tenants/by-slug/{slug}" TenantHandler_GetBySlug;
   mkRoute _ "GET" "/admin/tenants/{tenantID}/" TenantHandler_GetByID;
   mkRoute _ "PATCH" "/admin/tenants/{tenantID}/" TenantHandler_Update;
   mkRoute _ "DELETE" "/admin/tenants/{tenantID}/" TenantHandler_Delete].

(** Behind [auth.HMACMiddleware]. *)
Definition service_routes : list Route :=
  [mkRoute _ "PUT" "/admin/tenants/{tenantID}/entitlements" EntitlementHandler_Put;
   mkRoute _ "GET" "/admin/tenants/{tenantID}/usage" EntitlementHandler_Usage].

Definition router_New : list Route :=
  with_mw (maxBodySize bodyLimit) <$>
  (public_routes ++
   (with_mw (auth_Middleware (dp_jwtMgr d)) <$> tenant_routes) ++
   (with_mw (auth_Middleware (dp_jwtMgr d) ∘ AdminMiddleware) <$> admin_routes) ++
   (with_mw (HMACMiddleware (dp_svcHMACSecret d)) <$> service_routes)).
End router.
