(* ===== verification/SdkTypes.v ===== *)
(** * SdkTypes: the values the Go SDK exchanges with the API

    sdks/go/types.go.  The SDK keeps ids as text and free-form documents as
    [map[string]any]; a value of type [any] is kept as the document it was read
    from, which must hold no number outside the range of float64.  Names clash
    with those of the server, so that they carry the prefix [sdk_];
    DeliveryPreferences has the server's fields and is its type. *)
From Stdlib Require Import Ascii.
From S2P Require Import Prelude GoTime Utf8 Json JsonText Domain World Tasks.

(** ** Documents of unknown shape *)

(** The digits of a literal up to its exponent, and how many follow the point. *)
Fixpoint mantissa (acc : N) (places : Z) (point : bool) (s : string) : N * Z * string :=
  match s with
  | String c s' =>
      if digit c then mantissa (10 * acc + (byte_of c - 48)) (if point then places + 1 else places) point s'
      else if bool_decide (c = "."%char) then mantissa acc places true s'
      else (acc, places, s)
  | EmptyString => (acc, places, s)
  end.

Definition exponent (s : string) : Z :=
  match s with
  | String _ (String "-" s') => - Z.of_N (digits_value 0 s')
  | String _ (String "+" s') => Z.of_N (digits_value 0 s')
  | String _ s' => Z.of_N (digits_value 0 s')
  | EmptyString => 0
  end%Z.

(** What rounds to an infinity: half a unit beyond the largest float64. *)
Definition float_limit : Z := 2 ^ 1024 - 2 ^ 970.

Definition float_fits (lit : string) : bool :=
  let s := match lit with String "-" s => s | _ => lit end in
  let '(m, places, rest) := mantissa 0 0 false s in
  let e := (exponent rest - places)%Z in
  if (0 <=? e)%Z then (Z.of_N m * 10 ^ e <? float_limit)%Z else (Z.of_N m <? float_limit * 10 ^ (- e))%Z.

Fixpoint any_fits (j : json) : bool :=
  match j with
  | JInt z => (Z.abs z <? float_limit)%Z
  | JFloat lit => float_fits lit
  | JArr l => forallb any_fits l
  | JObj kvs => forallb (λ '(_, v), any_fits v) kvs
  | _ => true
  end.

Definition anymap : Type := gmap string json.

Fixpoint any_members (m : anymap) (kvs : list (string * json)) : result anymap :=
  match kvs with
  | [] => Ok m
  | (k, v) :: kvs' => if any_fits v then any_members (<[k := v]> m) kvs' else Err type_error
  end.

(** A [map[string]any] field, [None] for nil: members are added to those it has. *)
Definition dec_anymap : decoder (option anymap) := λ cur v,
  match v with
  | JNull => Ok None
  | JObj kvs => m <-? any_members (default ∅ cur) kvs; Ok (Some m)
  | _ => Err type_error
  end.

(** Go writes the keys of a map in order. *)
Definition key_le : relation (string * json) := λ x y, String.leb x.1 y.1 = true.
#[global] Instance key_le_dec : RelDecision key_le.
Proof. intros x y. unfold key_le. apply _. Defined.
Definition json_anymap (m : anymap) : json := JObj (merge_sort key_le (map_to_list m)).

Example float_samples :
  map float_fits ["1e308"; "1e309"; "1.7976931348623157e308"; "1.8e308"; "-0.5e+1"; "1e-400"] =
  [true; false; true; false; true; true].
Proof. vm_compute. reflexivity. Qed.

(** ** Types *)

Record sdk_ChannelConfig := mkSdkChannelConfig {
  scc_ID : string;
  scc_TenantID : string;
  scc_Channel : string;
  scc_Name : string;
  scc_Config : option anymap;
  scc_IsActive : bool;
  scc_DeliveryPrefs : option DeliveryPreferences;
  scc_CreatedAt : Time;
  scc_UpdatedAt : Time
}.

Record sdk_CreateChannelInput := mkSdkCreateChannelInput {
  sci_Channel : string;
  sci_Name : string;
  sci_Config : option anymap;
  sci_DeliveryPrefs : option DeliveryPreferences
}.

Record sdk_UpdateChannelInput := mkSdkUpdateChannelInput {
  suc_Name : option string;
  suc_Config : option anymap;
  suc_IsActive : option bool;
  suc_DeliveryPrefs : option DeliveryPreferences
}.

Record sdk_Notification := mkSdkNotification {
  sn_ID : string;
  sn_TenantID : string;
  sn_ChannelConfigID : string;
  sn_Channel : string;
  sn_Subject : option string;
  sn_Body : string;
  sn_Metadata : option anymap;
  sn_Status : string;
  sn_RetryCount : Z;
  sn_MaxRetries : Z;
  sn_LastError : option string;
  sn_DeliveredAt : option Time;
  sn_ProviderMsgID : option string;
  sn_CreatedAt : Time;
  sn_UpdatedAt : Time
}.

Record sdk_SendInput := mkSdkSendInput {
  si_ChannelConfigID : string;
  si_Subject : string;
  si_Body : string;
  si_Metadata : option anymap
}.

Record sdk_SendMultiResponse := mkSdkSendMultiResponse { sm_Sent : list sdk_Notification; sm_Errors : list string }.

Record sdk_NotificationList := mkSdkNotificationList {
  nl_Data : list sdk_Notification;
  nl_Total : Z;
  nl_Limit : Z;
  nl_Offset : Z
}.

Record sdk_ListNotificationsParams := mkSdkListNotificationsParams {
  lp_Limit : Z;
  lp_Offset : Z;
  lp_Status : string;
  lp_Channel : string
}.

Record sdk_DeliveryAttempt := mkSdkDeliveryAttempt {
  sa_ID : string;
  sa_NotificationID : string;
  sa_AttemptNumber : Z;
  sa_Status : string;
  sa_ProviderResponse : option anymap;
  sa_ErrorMessage : option string;
  sa_DurationMs : Z;
  sa_AttemptedAt : Time
}.

Record sdk_DeliveryMetric := mkSdkDeliveryMetric {
  sdm_ID : string;
  sdm_NotificationID : string;
  sdm_ProviderMsgID : string;
  sdm_DeliveredAt : option Time;
  sdm_ReadAt : option Time;
  sdm_Interactions : option anymap;
  sdm_CollectedAt : Time
}.

Record sdk_APIKey := mkSdkAPIKey {
  sk_ID : string;
  sk_TenantID : string;
  sk_APIKey : string;
  sk_Label : string;
  sk_CreatedAt : Time;
  sk_RevokedAt : option Time
}.

Record sdk_CreateAPIKeyResponse := mkSdkCreateAPIKeyResponse { ck_Key : sdk_APIKey; ck_APISecret : string }.

Record sdk_WebhookEndpoint := mkSdkWebhookEndpoint {
  sw_ID : string;
  sw_TenantID : string;
  sw_URL : string;
  sw_Events : list string;
  sw_IsActive : bool;
  sw_CreatedAt : Time
}.

Record sdk_WebhookEndpointCreated := mkSdkWebhookEndpointCreated { wc_WebhookEndpoint : sdk_WebhookEndpoint; wc_Secret : string }.

Record sdk_CreateWebhookInput := mkSdkCreateWebhookInput { cw_URL : string; cw_Events : option (list string) }.

Record sdk_UpdateWebhookInput := mkSdkUpdateWebhookInput {
  uw_URL : option string;
  uw_Events : list string;
  uw_IsActive : option bool
}.

(** ** What is written *)

Definition omit_nil {A} (k : string) (enc : A → json) (o : option A) : list (string * json) :=
  match o with None => [] | Some a => [(k, enc a)] end.
(** A map that is nil or empty is left out. *)
Definition omit_map (k : string) (o : option anymap) : list (string * json) :=
  if bool_decide (default ∅ o = ∅) then [] else [(k, json_anymap (default ∅ o))].

Definition json_sdk_CreateChannelInput (i : sdk_CreateChannelInput) : json := JObj
  ([("channel", JStr (sci_Channel i)); ("name", JStr (sci_Name i)); ("config", from_option json_anymap JNull (sci_Config i))] ++
   omit_nil "delivery_prefs" json_DeliveryPreferences (sci_DeliveryPrefs i)).

Definition json_sdk_UpdateChannelInput (i : sdk_UpdateChannelInput) : json := JObj
  (omit_nil "name" JStr (suc_Name i) ++ omit_map "config" (suc_Config i) ++ omit_nil "is_active" JBool (suc_IsActive i) ++
   omit_nil "delivery_prefs" json_DeliveryPreferences (suc_DeliveryPrefs i)).

Definition json_sdk_SendInput (i : sdk_SendInput) : json := JObj
  ([("channel_config_id", JStr (si_ChannelConfigID i))] ++
   (if bool_decide (si_Subject i = "") then [] else [("subject", JStr (si_Subject i))]) ++
   [("body", JStr (si_Body i))] ++ omit_map "metadata" (si_Metadata i)).

Definition json_sdk_CreateWebhookInput (i : sdk_CreateWebhookInput) : json := JObj
  [("url", JStr (cw_URL i)); ("events", from_option (λ l, JArr (JStr <$> l)) JNull (cw_Events i))].

Definition json_sdk_UpdateWebhookInput (i : sdk_UpdateWebhookInput) : json := JObj
  (omit_nil "url" JStr (uw_URL i) ++
   (if bool_decide (uw_Events i = []) then [] else [("events", JArr (JStr <$> uw_Events i))]) ++
   omit_nil "is_active" JBool (uw_IsActive i)).

(** ** What is read *)

Definition dec_ptr_string : decoder (option string) := dec_ptr dec_string "".
Definition dec_ptr_time : decoder (option Time) := dec_ptr dec_time time_zero.
Definition dec_ptr_prefs : decoder (option DeliveryPreferences) := dec_ptr dec_DeliveryPreferences zero_DeliveryPreferences.

Definition zero_sdk_ChannelConfig : sdk_ChannelConfig := mkSdkChannelConfig "" "" "" "" None false None time_zero time_zero.
Definition dec_sdk_ChannelConfig : decoder sdk_ChannelConfig := λ cur j,
  kvs <-? json_object j;
  id <-? field dec_string "id" (scc_ID cur) kvs;
  tid <-? field dec_string "tenant_id" (scc_TenantID cur) kvs;
  channel <-? field dec_string "channel" (scc_Channel cur) kvs;
  name <-? field dec_string "name" (scc_Name cur) kvs;
  config <-? field dec_anymap "config" (scc_Config cur) kvs;
  active <-? field dec_bool "is_active" (scc_IsActive cur) kvs;
  prefs <-? field dec_ptr_prefs "delivery_prefs" (scc_DeliveryPrefs cur) kvs;
  created <-? field dec_time "created_at" (scc_CreatedAt cur) kvs;
  updated <-? field dec_time "updated_at" (scc_UpdatedAt cur) kvs;
  Ok (mkSdkChannelConfig id tid channel name config active prefs created updated).

Definition zero_sdk_Notification : sdk_Notification :=
  mkSdkNotification "" "" "" "" None "" None "" 0 0 None None None time_zero time_zero.
Definition dec_sdk_Notification : decoder sdk_Notification := λ cur j,
  kvs <-? json_object j;
  id <-? field dec_string "id" (sn_ID cur) kvs;
  tid <-? field dec_string "tenant_id" (sn_TenantID cur) kvs;
  cid <-? field dec_string "channel_config_id" (sn_ChannelConfigID cur) kvs;
  channel <-? field dec_string "channel" (sn_Channel cur) kvs;
  subject <-? field dec_ptr_string "subject" (sn_Subject cur) kvs;
  body <-? field dec_string "body" (sn_Body cur) kvs;
  metadata <-? field dec_anymap "metadata" (sn_Metadata cur) kvs;
  status <-? field dec_string "status" (sn_Status cur) kvs;
  retries <-? field dec_int "retry_count" (sn_RetryCount cur) kvs;
  max <-? field dec_int "max_retries" (sn_MaxRetries cur) kvs;
  err <-? field dec_ptr_string "last_error" (sn_LastError cur) kvs;
  delivered <-? field dec_ptr_time "delivered_at" (sn_DeliveredAt cur) kvs;
  msgid <-? field dec_ptr_string "provider_msg_id" (sn_ProviderMsgID cur) kvs;
  created <-? field dec_time "created_at" (sn_CreatedAt cur) kvs;
  updated <-? field dec_time "updated_at" (sn_UpdatedAt cur) kvs;
  Ok (mkSdkNotification id tid cid channel subject body metadata status retries max err delivered msgid created updated).

Definition dec_sdk_SendMultiResponse (j : json) : result sdk_SendMultiResponse :=
  kvs <-? json_object j;
  sent <-? field (dec_slice dec_sdk_Notification zero_sdk_Notification) "sent" [] kvs;
  errors <-? field (dec_slice dec_string "") "errors" [] kvs;
  Ok (mkSdkSendMultiResponse sent errors).

Definition dec_sdk_NotificationList (j : json) : result sdk_NotificationList :=
  kvs <-? json_object j;
  data <-? field (dec_slice dec_sdk_Notification zero_sdk_Notification) "data" [] kvs;
  total <-? field dec_int "total" 0%Z kvs;
  limit <-? field dec_int "limit" 0%Z kvs;
  offset <-? field dec_int "offset" 0%Z kvs;
  Ok (mkSdkNotificationList data total limit offset).

Definition zero_sdk_DeliveryAttempt : sdk_DeliveryAttempt := mkSdkDeliveryAttempt "" "" 0 "" None None 0 time_zero.
Definition dec_sdk_DeliveryAttempt : decoder sdk_DeliveryAttempt := λ cur j,
  kvs <-? json_object j;
  id <-? field dec_string "id" (sa_ID cur) kvs;
  nid <-? field dec_string "notification_id" (sa_NotificationID cur) kvs;
  number <-? field dec_int "attempt_number" (sa_AttemptNumber cur) kvs;
  status <-? field dec_string "status" (sa_Status cur) kvs;
  resp <-? field dec_anymap "provider_response" (sa_ProviderResponse cur) kvs;
  err <-? field dec_ptr_string "error_message" (sa_ErrorMessage cur) kvs;
  ms <-? field dec_int "duration_ms" (sa_DurationMs cur) kvs;
  at_ <-? field dec_time "attempted_at" (sa_AttemptedAt cur) kvs;
  Ok (mkSdkDeliveryAttempt id nid number status resp err ms at_).

Definition dec_sdk_DeliveryMetric (j : json) : result sdk_DeliveryMetric :=
  kvs <-? json_object j;
  id <-? field dec_string "id" "" kvs;
  nid <-? field dec_string "notification_id" "" kvs;
  msgid <-? field dec_string "provider_msg_id" "" kvs;
  delivered <-? field dec_ptr_time "delivered_at" None kvs;
  read <-? field dec_ptr_time "read_at" None kvs;
  interactions <-? field dec_anymap "interactions" None kvs;
  collected <-? field dec_time "collected_at" time_zero kvs;
  Ok (mkSdkDeliveryMetric id nid msgid delivered read interactions collected).

Definition zero_sdk_APIKey : sdk_APIKey := mkSdkAPIKey "" "" "" "" time_zero None.
Definition dec_sdk_APIKey : decoder sdk_APIKey := λ cur j,
  kvs <-? json_object j;
  id <-? field dec_string "id" (sk_ID cur) kvs;
  tid <-? field dec_string "tenant_id" (sk_TenantID cur) kvs;
  key <-? field dec_string "api_key" (sk_APIKey cur) kvs;
  label <-? field dec_string "label" (sk_Label cur) kvs;
  created <-? field dec_time "created_at" (sk_CreatedAt cur) kvs;
  revoked <-? field dec_ptr_time "revoked_at" (sk_RevokedAt cur) kvs;
  Ok (mkSdkAPIKey id tid key label created revoked).

Definition dec_sdk_CreateAPIKeyResponse (j : json) : result sdk_CreateAPIKeyResponse :=
  kvs <-? json_object j;
  key <-? field dec_sdk_APIKey "key" zero_sdk_APIKey kvs;
  secret <-? field dec_string "api_secret" "" kvs;
  Ok (mkSdkCreateAPIKeyResponse key secret).

Definition zero_sdk_WebhookEndpoint : sdk_WebhookEndpoint := mkSdkWebhookEndpoint "" "" "" [] false time_zero.
Definition dec_sdk_WebhookEndpoint : decoder sdk_WebhookEndpoint := λ cur j,
  kvs <-? json_object j;
  id <-? field dec_string "id" (sw_ID cur) kvs;
  tid <-? field dec_string "tenant_id" (sw_TenantID cur) kvs;
  url <-? field dec_string "url" (sw_URL cur) kvs;
  events <-? field (dec_slice dec_string "") "events" (sw_Events cur) kvs;
  active <-? field dec_bool "is_active" (sw_IsActive cur) kvs;
  created <-? field dec_time "created_at" (sw_CreatedAt cur) kvs;
  Ok (mkSdkWebhookEndpoint id tid url events active created).

(** The embedded endpoint's fields are members of the same object. *)
Definition dec_sdk_WebhookEndpointCreated (j : json) : result sdk_WebhookEndpointCreated :=
  e <-? dec_sdk_WebhookEndpoint zero_sdk_WebhookEndpoint j;
  kvs <-? json_object j;
  secret <-? field dec_string "secret" "" kvs;
  Ok (mkSdkWebhookEndpointCreated e secret).

(** ** Named values

    The constants of each enumeration, in the order of the source. *)

Definition sdk_ChannelTypes : list string := ["discord"; "telegram"; "whatsapp"; "email"; "slack"; "webhook"].
Definition sdk_NotificationStatuses : list string := ["pending"; "processing"; "delivered"; "failed"; "retrying"].
Definition sdk_AttemptStatuses : list string := ["success"; "failure"].
Definition sdk_FormatModes : list string := ["plain"; "markdown"; "html"].
Definition sdk_WebhookEventTypes : list string := ["notification.delivered"; "notification.failed"].

(** They name exactly the values the server accepts and stores: its channels,
    statuses and events, and the format modes its validation lets through. *)
Lemma sdk_vocabulary :
  (∀ ct, IsValidChannelType ct = true ↔ ct ∈ sdk_ChannelTypes) ∧
  (∀ s, IsValidNotificationStatus s = true ↔ s ∈ sdk_NotificationStatuses) ∧
  sdk_AttemptStatuses = [AttemptSuccess; AttemptFailure] ∧
  (∀ t, IsValidWebhookEventType t = true ↔ t ∈ sdk_WebhookEventTypes) ∧
  (∀ p, DeliveryPreferences_Validate (Some p) = Ok tt → dp_FormatMode p = "" ∨ dp_FormatMode p ∈ sdk_FormatModes) ∧
  (∀ m, m ∈ sdk_FormatModes → DeliveryPreferences_Validate (Some (mkDeliveryPreferences "" None m)) = Ok tt).
Proof.
  split_and!.
  - apply IsValidChannelType_spec.
  - intros s. apply bool_decide_eq_true.
  - done.
  - apply IsValidWebhookEventType_spec.
  - intros p. unfold DeliveryPreferences_Validate. destruct (bool_decide _ && _); [done|].
    destruct (decide (dp_FormatMode p = "")) as [He|He]; [by left|]. rewrite bool_decide_eq_true_2 by done. cbn [andb].
    case_bool_decide as Hm; [by right|done].
  - apply Forall_forall. repeat constructor.
Qed.
