(* ===== verification/Sdk.v ===== *)
(** * Sdk: the Go client of the API

    sdks/go/client.go and the methods of channels.go, keys.go, notifications.go
    and webhooks.go.  A [Client] is its credentials and the token it has cached;
    calls take the client and give it back.  [tokenMu] serialises the exchanges:
    [tstep] is the interleaving of goroutines that ask for a token.  On an error
    the methods return a value besides the error that callers do not use; only
    the error is kept here. *)
From Stdlib Require Import Ascii.
From S2P Require Import Prelude GoTime Utf8 Json JsonText Durations Mime Domain World Tasks Http ChatProviders SdkTypes.

#[export] Instance HttpRequest_eq_dec : EqDecision HttpRequest.
Proof. solve_decision. Defined.

Definition DefaultBaseURL : string := "https://notifyd.fluxintek.com/api".

Record Config := mkConfig { cf_APIKey : string; cf_APISecret : string; cf_BaseURL : string }.

Record Client := mkClient {
  c_apiKey : string;
  c_apiSecret : string;
  c_baseURL : string;
  c_cachedToken : string;
  c_expiresAt : Time
}.

Definition set_token (token : string) (expiresAt : Time) (c : Client) : Client :=
  mkClient (c_apiKey c) (c_apiSecret c) (c_baseURL c) token expiresAt.

Definition sdk_New (cfg : Config) : result Client :=
  if bool_decide (cf_APIKey cfg = "") || bool_decide (cf_APISecret cfg = "")
  then Err (errors_New "notifyd: APIKey and APISecret are required")
  else
    let baseURL := if bool_decide (cf_BaseURL cfg = "") then DefaultBaseURL else cf_BaseURL cfg in
    Ok (mkClient (cf_APIKey cfg) (cf_APISecret cfg) baseURL "" time_zero).

(** ** Errors *)

Record RequestError := mkRequestError {
  re_StatusCode : Z;
  re_Code : string;
  re_Message : string;
  re_Body : option anymap
}.

Definition RequestError_Error (e : RequestError) : string :=
  "notifyd: " +:+ pretty (re_StatusCode e) +:+ " " +:+
  (if bool_decide (re_Code e = "") then re_Message e else re_Code e).

(** The value and whether there is one. *)
Definition RequestError_Field (e : RequestError) (key : string) : string * bool :=
  match re_Body e with
  | None => ("", false)
  | Some body => match body !! key with Some (JStr s) => (s, true) | _ => ("", false) end
  end.

(** An error is a [*RequestError] or another one. *)
Inductive sdkError :=
| OtherError (e : error)
| AsRequestError (e : RequestError).

Abbreviation sdkResult A := (A + sdkError)%type.

(** [json.Unmarshal] of a text. *)
Definition unmarshal {A} (dec : json → result A) (text : string) : result A :=
  match parse_json text with
  | None => Err (errors_New "invalid JSON")
  | Some j => dec j
  end.

Definition requestErrorFromBody (statusCode : Z) (body : string) : RequestError :=
  let code := match unmarshal (dec_anymap None) body with
              | Ok (Some m) => match m !! "error" with Some (JStr code) => Some (code, m) | _ => None end
              | _ => None
              end in
  match code with
  | Some (code, m) => if bool_decide (code = "") then mkRequestError statusCode "" body None
                      else mkRequestError statusCode code "" (Some m)
  | None => mkRequestError statusCode "" body None
  end.

(** ** Requests *)

(** [url.QueryEscape] and [url.Values.Encode] of single values. *)
Definition unreserved (c : ascii) : bool :=
  digit c || ((65 <=? byte_of c) && (byte_of c <=? 90))%N || ((97 <=? byte_of c) && (byte_of c <=? 122))%N ||
  bool_decide (byte_of c ∈ [45; 46; 95; 126]%N).
Fixpoint QueryEscape (s : string) : string :=
  match s with
  | EmptyString => ""
  | String c s' =>
      (if unreserved c then String c "" else if bool_decide (c = " "%char) then "+" else "%" +:+ hex2 c) +:+ QueryEscape s'
  end.
Definition pair_le : relation (string * string) := λ x y, String.leb x.1 y.1 = true.
#[global] Instance pair_le_dec : RelDecision pair_le.
Proof. intros x y. unfold pair_le. apply _. Defined.
Definition Values_Encode (v : gmap string string) : string :=
  String.concat "&" (map (λ '(k, x), QueryEscape k +:+ "=" +:+ QueryEscape x) (merge_sort pair_le (map_to_list v))).

Record requestOptions := mkRequestOptions {
  ro_method : string;
  ro_path : string;
  ro_query : gmap string string;
  ro_body : option json
}.

Definition api_request (c : Client) (token : string) (opts : requestOptions) : HttpRequest :=
  let header := Header_Set "Authorization" ("Bearer " +:+ token) ∅ in
  mkHttpRequest (ro_method opts)
    (c_baseURL c +:+ ro_path opts +:+ (if bool_decide (ro_query opts = ∅) then "" else "?" +:+ Values_Encode (ro_query opts)))
    (match ro_body opts with Some _ => Header_Set "Content-Type" "application/json" header | None => header end)
    (from_option Marshal "" (ro_body opts)).

Definition token_request (c : Client) : HttpRequest :=
  mkHttpRequest "POST" (c_baseURL c +:+ "/auth/token") (Header_Set "Content-Type" "application/json" ∅)
    (Marshal (JObj [("api_key", JStr (c_apiKey c)); ("api_secret", JStr (c_apiSecret c))])).

Record sdk_tokenResponse := mkSdkTokenResponse { st_Token : string; st_ExpiresIn : string }.
Definition dec_sdk_tokenResponse (j : json) : result sdk_tokenResponse :=
  kvs <-? json_object j;
  token <-? field dec_string "token" "" kvs;
  expires <-? field dec_string "expires_in" "" kvs;
  Ok (mkSdkTokenResponse token expires).

Definition expiryMargin : Duration := 30 * Second.

Section client.
Context `{E : Env}.

Definition other {A} (msg : string) (e : error) : sdkResult A := inr (OtherError (errorf_w msg e)).

(** ** client.go *)

Definition fetchAndCacheToken (c : Client) : M (sdkResult string * Client) :=
  let req := token_request c in
  if negb (url_parses (rq_URL req)) then mret (other "notifyd: building token request" (errors_New "parse URL"), c)
  else
    resp ← client_Do req;
    match resp with
    | Err err => mret (other "notifyd: token exchange" err, c)
    | Ok resp =>
        if negb (rs_StatusCode resp =? StatusOK)%Z
        then mret (inr (AsRequestError (requestErrorFromBody (rs_StatusCode resp) (rs_Body resp))), c)
        else match unmarshal dec_sdk_tokenResponse (rs_Body resp) with
        | Err err => mret (other "notifyd: decoding token response" err, c)
        | Ok tr =>
            match ParseDuration (st_ExpiresIn tr) with
            | Err err => mret (other ("notifyd: unparseable expires_in " +:+ strconv_Quote (st_ExpiresIn tr)) err, c)
            | Ok expiresIn =>
                now ← time_Now;
                mret (inl (st_Token tr), set_token (st_Token tr) (now + expiresIn)%Z c)
            end
        end
    end.

(** Whether the cached token can still be used; the clock is read only when
    there is one. *)
Definition cache_fresh (c : Client) : M bool :=
  if bool_decide (c_cachedToken c = "") then mret false
  else now ← time_Now; mret (now + expiryMargin <? c_expiresAt c)%Z.

Definition authenticatedToken (c : Client) : M (sdkResult string * Client) :=
  fresh ← cache_fresh c;
  if fresh : bool then mret (inl (c_cachedToken c), c) else fetchAndCacheToken c.

Definition forceRefreshToken (c : Client) : M (sdkResult string * Client) :=
  fetchAndCacheToken (set_token "" (c_expiresAt c) c).

Definition send (c : Client) (token : string) (opts : requestOptions) : M (sdkResult HttpResponse) :=
  let req := api_request c token opts in
  if negb (url_parses (rq_URL req)) then mret (other "notifyd: building request" (errors_New "parse URL"))
  else
    resp ← client_Do req;
    mret match resp with
         | Err err => other ("notifyd: " +:+ ro_method opts +:+ " " +:+ ro_path opts) err
         | Ok resp => inl resp
         end.

(** What is made of the last response; [out] is [None] when no value is expected. *)
Definition finish {A} (opts : requestOptions) (out : option (json → result A)) (resp : HttpResponse) : sdkResult (option A) :=
  if (300 <=? rs_StatusCode resp)%Z
  then inr (AsRequestError (requestErrorFromBody (rs_StatusCode resp) (rs_Body resp)))
  else match out with
  | None => inl None
  | Some dec =>
      match unmarshal dec (rs_Body resp) with
      | Err err => other ("notifyd: decoding response from " +:+ ro_method opts +:+ " " +:+ ro_path opts) err
      | Ok a => inl (Some a)
      end
  end.

Definition doRequest {A} (c : Client) (opts : requestOptions) (out : option (json → result A))
    : M (sdkResult (option A) * Client) :=
  '(token, c) ← authenticatedToken c;
  match token with
  | inr err => mret (inr err, c)
  | inl token =>
      resp ← send c token opts;
      match resp with
      | inr err => mret (inr err, c)
      | inl resp =>
          if (rs_StatusCode resp =? StatusUnauthorized)%Z then
            '(token, c) ← forceRefreshToken c;
            match token with
            | inr err => mret (inr err, c)
            | inl token =>
                resp ← send c token opts;
                match resp with
                | inr err => mret (inr err, c)
                | inl resp => mret (finish opts out resp, c)
                end
            end
          else mret (finish opts out resp, c)
      end
  end.

(** ** The methods *)

Definition get (path : string) : requestOptions := mkRequestOptions "GET" path ∅ None.
Definition with_payload (method path : string) (body : json) : requestOptions := mkRequestOptions method path ∅ (Some body).
Definition del (path : string) : requestOptions := mkRequestOptions "DELETE" path ∅ None.

(** A response that is an array. *)
Definition dec_list {A} (dec : decoder A) (zero : A) : json → result (list A) := dec_slice dec zero [].

(** channels.go *)
Definition ListChannels (c : Client) :=
  doRequest c (get "/channels") (Some (dec_list dec_sdk_ChannelConfig zero_sdk_ChannelConfig)).
Definition CreateChannel (c : Client) (input : sdk_CreateChannelInput) :=
  doRequest c (with_payload "POST" "/channels" (json_sdk_CreateChannelInput input)) (Some (dec_sdk_ChannelConfig zero_sdk_ChannelConfig)).
Definition GetChannel (c : Client) (channelID : string) :=
  doRequest c (get ("/channels/" +:+ channelID)) (Some (dec_sdk_ChannelConfig zero_sdk_ChannelConfig)).
Definition UpdateChannel (c : Client) (channelID : string) (input : sdk_UpdateChannelInput) :=
  doRequest c (with_payload "PATCH" ("/channels/" +:+ channelID) (json_sdk_UpdateChannelInput input))
    (Some (dec_sdk_ChannelConfig zero_sdk_ChannelConfig)).
Definition DeleteChannel (c : Client) (channelID : string) :=
  doRequest c (del ("/channels/" +:+ channelID)) (None : option (json → result unit)).

(** keys.go *)
Definition ListAPIKeys (c : Client) := doRequest c (get "/keys") (Some (dec_list dec_sdk_APIKey zero_sdk_APIKey)).
Definition CreateAPIKey (c : Client) (label : string) :=
  doRequest c (with_payload "POST" "/keys" (JObj [("label", JStr label)])) (Some dec_sdk_CreateAPIKeyResponse).
Definition RevokeAPIKey (c : Client) (keyID : string) :=
  doRequest c (del ("/keys/" +:+ keyID)) (None : option (json → result unit)).

(** notifications.go *)
Definition sdk_Send (c : Client) (input : sdk_SendInput) :=
  doRequest c (with_payload "POST" "/notifications/send" (json_sdk_SendInput input))
    (Some (dec_sdk_Notification zero_sdk_Notification)).
Definition sdk_SendMulti (c : Client) (inputs : list sdk_SendInput) :=
  doRequest c (with_payload "POST" "/notifications/send-multi" (JObj [("channels", JArr (json_sdk_SendInput <$> inputs))]))
    (Some dec_sdk_SendMultiResponse).
Definition list_query (params : sdk_ListNotificationsParams) : gmap string string :=
  let query := if (0 <? lp_Limit params)%Z then <["limit" := pretty (lp_Limit params)]> ∅ else ∅ in
  let query := if (0 <? lp_Offset params)%Z then <["offset" := pretty (lp_Offset params)]> query else query in
  let query := if bool_decide (lp_Status params = "") then query else <["status" := lp_Status params]> query in
  if bool_decide (lp_Channel params = "") then query else <["channel" := lp_Channel params]> query.
Definition ListNotifications (c : Client) (params : sdk_ListNotificationsParams) :=
  doRequest c (mkRequestOptions "GET" "/notifications" (list_query params) None) (Some dec_sdk_NotificationList).
Definition GetNotification (c : Client) (notificationID : string) :=
  doRequest c (get ("/notifications/" +:+ notificationID)) (Some (dec_sdk_Notification zero_sdk_Notification)).
Definition ListAttempts (c : Client) (notificationID : string) :=
  doRequest c (get ("/notifications/" +:+ notificationID +:+ "/attempts"))
    (Some (dec_list dec_sdk_DeliveryAttempt zero_sdk_DeliveryAttempt)).
Definition GetMetrics (c : Client) (notificationID : string) :=
  doRequest c (get ("/notifications/" +:+ notificationID +:+ "/metrics")) (Some dec_sdk_DeliveryMetric).

(** webhooks.go *)
Definition ListWebhooks (c : Client) :=
  doRequest c (get "/webhooks") (Some (dec_list dec_sdk_WebhookEndpoint zero_sdk_WebhookEndpoint)).
Definition CreateWebhook (c : Client) (input : sdk_CreateWebhookInput) :=
  doRequest c (with_payload "POST" "/webhooks" (json_sdk_CreateWebhookInput input)) (Some dec_sdk_WebhookEndpointCreated).
Definition UpdateWebhook (c : Client) (webhookID : string) (input : sdk_UpdateWebhookInput) :=
  doRequest c (with_payload "PUT" ("/webhooks/" +:+ webhookID) (json_sdk_UpdateWebhookInput input))
    (Some (dec_sdk_WebhookEndpoint zero_sdk_WebhookEndpoint)).
Definition DeleteWebhook (c : Client) (webhookID : string) :=
  doRequest c (del ("/webhooks/" +:+ webhookID)) (None : option (json → result unit)).

(** ** Goroutines that ask for a token *)

(** A caller of [authenticatedToken]: before it, holding [tokenMu], and with its
    answer.  The holder runs to the end before it releases the lock; in between,
    others may do anything that leaves the client alone. *)
Inductive caller :=
| Waiting
| Holding
| Got (r : sdkResult string).

Record callers := mkCallers { cs_locked : bool; cs_client : Client; cs_world : World; cs_pcs : list caller }.

Inductive tstep : callers → callers → Prop :=
| step_lock c w pcs i :
    pcs !! i = Some Waiting → tstep (mkCallers false c w pcs) (mkCallers true c w (<[i := Holding]> pcs))
| step_run c w pcs i r c' w' :
    pcs !! i = Some Holding → authenticatedToken c w = ((r, c'), w') →
    tstep (mkCallers true c w pcs) (mkCallers false c' w' (<[i := Got r]> pcs))
| step_other l c w pcs q :
    q ≠ token_request c → tstep (mkCallers l c w pcs) (mkCallers l c (client_Do q w).2 pcs).
End client.
