(* ===== verification/BotFormat.v ===== *)
(** * BotFormat: the texts of the admin bot

    internal/bot/format.go and redact.go, with what they use of html, strings
    and regexp.  Messages are sent in Telegram's HTML mode: what comes from the
    database is escaped before it is placed between tags. *)
From Stdlib Require Import Ascii.
From S2P Require Import Prelude GoTime Utf8 Json Domain World Provider Services Markdown ChatProviders.

(** ** strings and html *)

(** [strings.TrimSpace]: [space_length] recognises white space in UTF-8. *)
Fixpoint trim_left (fuel : nat) (s : string) : string :=
  match fuel, space_length s with
  | S fuel, Some n => trim_left fuel (string_drop n s)
  | _, _ => s
  end.
Fixpoint trim_right (s : string) : string :=
  match s with
  | EmptyString => ""
  | String c s' => if blank s then "" else String c (trim_right s')
  end.
Definition strings_TrimSpace (s : string) : string := trim_right (trim_left (String.length s) s).

(** [strings.Fields]: [word] is the field being read. *)
Fixpoint fields_from (fuel : nat) (word s : string) : list string :=
  let done := if bool_decide (word = "") then [] else [word] in
  match fuel, s with
  | S fuel, String c s' =>
      match space_length s with
      | Some n => done ++ fields_from fuel "" (string_drop n s)
      | None => fields_from fuel (word +:+ String c "") s'
      end
  | _, _ => done
  end.
Definition strings_Fields (s : string) : list string := fields_from (String.length s) "" s.

(** [strings.TrimRight] of newlines. *)
Fixpoint trim_newlines (s : string) : string :=
  match s with
  | EmptyString => ""
  | String c s' =>
      match trim_newlines s' with
      | EmptyString => if bool_decide (byte_of c = 10%N) then "" else String c ""
      | t => String c t
      end
  end.

Definition html_escape_char (c : ascii) : string :=
  match byte_of c with
  | 38 => "&amp;"
  | 39 => "&#39;"
  | 60 => "&lt;"
  | 62 => "&gt;"
  | 34 => "&#34;"
  | _ => String c ""
  end%N.

Fixpoint html_EscapeString (s : string) : string :=
  match s with
  | EmptyString => ""
  | String c s' => html_escape_char c +:+ html_EscapeString s'
  end.

Example trim_sample : strings_TrimSpace (" " +:+ nl +:+ "a  b " +:+ nl) = "a  b".
Proof. reflexivity. Qed.
Example fields_sample : strings_Fields ("  acme   acme-slug" +:+ nl) = ["acme"; "acme-slug"].
Proof. reflexivity. Qed.
Example escape_sample : html_EscapeString "<a> & 'b'" = "&lt;a&gt; &amp; &#39;b&#39;".
Proof. reflexivity. Qed.

(** ** format.go *)

Definition welcomeMessage : string :=
  "<b>notifyd Admin Bot</b>" +:+ nl +:+ nl +:+
  "Available commands:" +:+ nl +:+ nl +:+
  "<b>Tenants</b>" +:+ nl +:+
  "/tenants — list all tenants" +:+ nl +:+
  "/tenant &lt;id&gt; — show tenant details" +:+ nl +:+
  "/create_tenant &lt;name&gt; &lt;slug&gt; — create a new tenant" +:+ nl +:+
  "/toggle_tenant &lt;id&gt; — toggle tenant active state" +:+ nl +:+
  "/delete_tenant &lt;id&gt; — delete a tenant (asks for confirmation)" +:+ nl +:+ nl +:+
  "<b>Notifications</b>" +:+ nl +:+
  "/notifications &lt;tenant_id&gt; — list recent notifications (last 10)" +:+ nl +:+
  "/notification &lt;id&gt; — show notification details" +:+ nl +:+ nl +:+
  "<b>Stats</b>" +:+ nl +:+
  "/stats — show system-wide counts".

Definition activeLabel (isActive : bool) : string := if isActive then "✅" else "❌".
Definition activeWord (isActive : bool) : string := if isActive then "active" else "inactive".

(** ["2006-01-02 15:04 UTC"] *)
Definition formatTime (t : Time) : string :=
  let c := time_clock t in
  pad 4 (time_Year t) +:+ "-" +:+ pad 2 (time_Month t) +:+ "-" +:+ pad 2 (time_Day t) +:+ " " +:+
  pad 2 (c / Hour) +:+ ":" +:+ pad 2 (c / Minute mod 60) +:+ " UTC".

Definition code (s : string) : string := "<code>" +:+ s +:+ "</code>".
Definition bold (s : string) : string := "<b>" +:+ s +:+ "</b>".

Section format.
Context `{E : Env}.

Definition formatTenantList (tenants : list Tenant) (total : Z) : string :=
  if bool_decide (tenants = []) then "<b>No tenants found.</b>"
  else trim_newlines
    ("<b>Tenants</b> (" +:+ pretty total +:+ " total)" +:+ nl +:+ nl +:+
     String.concat "" (map (λ t,
       activeLabel (t_IsActive t) +:+ " " +:+ code (html_EscapeString (t_Name t)) +:+ nl +:+
       "   ID: " +:+ code (uuid_String (t_ID t)) +:+ nl +:+
       "   Slug: " +:+ code (html_EscapeString (t_Slug t)) +:+ nl +:+ nl) tenants)).

Definition formatTenantDetail (t : Tenant) : string :=
  "<b>Tenant: " +:+ html_EscapeString (t_Name t) +:+ "</b>" +:+ nl +:+ nl +:+
  "ID:      " +:+ code (uuid_String (t_ID t)) +:+ nl +:+
  "Slug:    " +:+ code (html_EscapeString (t_Slug t)) +:+ nl +:+
  "Active:  " +:+ activeLabel (t_IsActive t) +:+ nl +:+
  "API Key: " +:+ code (html_EscapeString (t_APIKey t)) +:+ nl +:+
  "Created: " +:+ formatTime (t_CreatedAt t) +:+ nl +:+
  "Updated: " +:+ formatTime (t_UpdatedAt t).

Definition formatNewTenant (result : CreateTenantResult) : string :=
  "<b>Tenant created successfully.</b>" +:+ nl +:+ nl +:+
  "ID:         " +:+ code (uuid_String (t_ID (ctr_Tenant result))) +:+ nl +:+
  "Name:       " +:+ code (html_EscapeString (t_Name (ctr_Tenant result))) +:+ nl +:+
  "Slug:       " +:+ code (html_EscapeString (t_Slug (ctr_Tenant result))) +:+ nl +:+
  "API Key:    " +:+ code (html_EscapeString (ctr_APIKey result)) +:+ nl +:+
  "API Secret: " +:+ code (html_EscapeString (ctr_APISecret result)) +:+ nl +:+ nl +:+
  "<i>Store the API secret now — it will not be shown again.</i>".

Definition formatToggleResult (t : Tenant) : string :=
  "Tenant " +:+ code (html_EscapeString (t_Name t)) +:+ " is now " +:+ bold (activeWord (t_IsActive t)) +:+ ".".

Definition formatNotificationList (notifications : list Notification) (total : Z) : string :=
  if bool_decide (notifications = []) then "<b>No notifications found for this tenant.</b>"
  else trim_newlines
    ("<b>Recent Notifications</b> (" +:+ pretty total +:+ " total)" +:+ nl +:+ nl +:+
     String.concat "" (map (λ n,
       "• " +:+ code (uuid_String (n_ID n)) +:+ nl +:+
       "  Status: " +:+ bold (n_Status n) +:+ "  Channel: " +:+ code (n_Channel n) +:+ nl +:+
       "  Sent: " +:+ formatTime (n_CreatedAt n) +:+ nl +:+ nl) notifications)).

Definition formatNotificationDetail (n : Notification) : string :=
  "<b>Notification</b>" +:+ nl +:+ nl +:+
  "ID:      " +:+ code (uuid_String (n_ID n)) +:+ nl +:+
  "Tenant:  " +:+ code (uuid_String (n_TenantID n)) +:+ nl +:+
  "Channel: " +:+ code (n_Channel n) +:+ nl +:+
  "Status:  " +:+ bold (n_Status n) +:+ nl +:+
  "Retries: " +:+ pretty (n_RetryCount n) +:+ " / " +:+ pretty (n_MaxRetries n) +:+ nl +:+
  (match n_LastError n with Some e => "Error:   " +:+ code (html_EscapeString e) +:+ nl | None => "" end) +:+
  (match n_DeliveredAt n with Some t => "Delivered: " +:+ formatTime t +:+ nl | None => "" end) +:+
  "Created: " +:+ formatTime (n_CreatedAt n) +:+ nl +:+
  "Updated: " +:+ formatTime (n_UpdatedAt n).
End format.

(** A status without notifications reads as 0, the zero value of the map. *)
Definition formatStats (tenantCount : Z) (notifCounts : gmap string Z) : string :=
  trim_newlines
    ("<b>System Stats</b>" +:+ nl +:+ nl +:+
     "Total Tenants: " +:+ bold (pretty tenantCount) +:+ nl +:+ nl +:+
     "<b>Notifications by Status</b>" +:+ nl +:+
     String.concat "" (map (λ s, "  " +:+ s +:+ ": " +:+ bold (pretty (default 0%Z (notifCounts !! s))) +:+ nl)
       [StatusPending; StatusProcessing; StatusRetrying; StatusDelivered; StatusFailed])).

(** ** redact.go *)

Definition digit_byte (c : ascii) : bool := ((48 <=? byte_of c) && (byte_of c <=? 57))%N.
Definition token_byte (c : ascii) : bool :=
  digit_byte c || ((65 <=? byte_of c) && (byte_of c <=? 90))%N || ((97 <=? byte_of c) && (byte_of c <=? 122))%N ||
  (byte_of c =? 95)%N || (byte_of c =? 45)%N.

(** [x+], as much as there is. *)
Fixpoint span (ok : ascii → bool) (s : string) : string * string :=
  match s with
  | String c s' => if ok c then let '(t, r) := span ok s' in (String c t, r) else ("", s)
  | EmptyString => ("", "")
  end.
Definition greedy1 (ok : ascii → bool) (s : string) : option (string * string) :=
  let '(t, r) := span ok s in if bool_decide (t = "") then None else Some (t, r).

(** [bot(\d+):[A-Za-z0-9_-]+]; a digit is never a colon, so that taking all
    digits is the only way to match. *)
Definition telegramTokenPattern : matcher string := λ s,
  '(id, s) ← (lit "bot" s ≫= greedy1 digit_byte);
  '(_, s) ← (lit ":" s ≫= greedy1 token_byte);
  Some (id, s).

Definition redactToken (token msg : string) : string :=
  let msg := ReplaceAllString telegramTokenPattern (λ id, "bot" +:+ id +:+ ":REDACTED") msg in
  if bool_decide (token = "") then msg else strings_ReplaceAll msg token "REDACTED".

Example redact_sample :
  redactToken "123:AA-x_9" "Post https://api.telegram.org/bot123:AA-x_9/getMe: EOF (123:AA-x_9)" =
  "Post https://api.telegram.org/bot123:REDACTED/getMe: EOF (REDACTED)".
Proof. vm_compute. reflexivity. Qed.
