(* ===== verification/Bot.v ===== *)
(** * Bot: the Telegram admin bot

    internal/bot/bot.go and handlers.go.  The state is the world of the services
    and the calls made to Telegram, oldest first; the calls' answers are the
    class [Telegram].  Of a message the library hands over the chat, the sender
    and the command it finds in the text. *)
From S2P Require Import Prelude GoTime Utf8 Json Domain World Repository Provider Services Markdown ChatProviders BotFormat.

(** ** What the library exchanges *)

Record User := mkUser { u_FirstName : string; u_LastName : string; u_UserName : string }.

Record Message := mkMessage {
  mg_Chat : Z;
  mg_From : User;
  mg_IsCommand : bool;
  mg_Command : string;
  mg_CommandArguments : string
}.

Record CallbackQuery := mkCallbackQuery {
  cq_ID : string;
  cq_Chat : Z;             (* Message.Chat.ID *)
  cq_MessageID : Z;
  cq_Data : string
}.

Record Update := mkUpdate { up_Message : option Message; up_CallbackQuery : option CallbackQuery }.

(** Messages and edits are in HTML mode; a keyboard is its buttons with their data. *)
Inductive Call :=
| SendMessage (chat : Z) (text : string) (keyboard : list (string * string))
| AnswerCallback (id text : string)
| EditMessageText (chat message : Z) (text : string).

Class Telegram := { tg_answer : nat → Call → result unit }.

(** ** The bot's state *)

Record BotState `{E : Env} := mkBotState { bs_world : World; bs_calls : list Call }.

Abbreviation BM := (ST BotState).

Section bot.
Context `{E : Env} {T : Telegram} (adminChatID : Z).

(** A service call. *)
Definition svc {A} (m : M A) : BM A := λ s,
  let '(a, w) := m (bs_world s) in (a, mkBotState _ w (bs_calls s)).

Definition api_Call (c : Call) : BM (result unit) := λ s,
  (tg_answer (length (bs_calls s)) c, mkBotState _ (bs_world s) (bs_calls s ++ [c])).

(** A call whose failure is only logged. *)
Definition call_logged (c : Call) (msg : string) : BM unit :=
  r ← api_Call c;
  match r with Err _ => svc (log msg) | Ok _ => mret tt end.

(** ** bot.go: helpers *)

Definition isAuthorized (chatID : Z) : bool := negb (adminChatID =? 0)%Z && (chatID =? adminChatID)%Z.

Definition sendMessage (chatID : Z) (text : string) (keyboard : list (string * string)) : BM unit :=
  call_logged (SendMessage chatID text keyboard) "failed to send message".
Definition sendHTML (chatID : Z) (text : string) : BM unit := sendMessage chatID text [].
Definition answerCallback (id text : string) : BM unit :=
  call_logged (AnswerCallback id text) "failed to answer callback".
Definition editMessageText (chatID messageID : Z) (text : string) : BM unit :=
  call_logged (EditMessageText chatID messageID text) "failed to edit message".

(** The error itself goes to the log only. *)
Definition sendError (chatID : Z) (description : string) (err : error) : BM unit :=
  _ ← svc (log "bot handler error");
  sendHTML chatID ("<b>Error:</b> " +:+ description).

Definition parseUUID (chatID : Z) (raw usageHint : string) : BM (option uuid) :=
  match uuid_Parse (strings_TrimSpace raw) with
  | Some id => mret (Some id)
  | None => _ ← sendHTML chatID ("Invalid UUID." +:+ nl +:+ "<i>" +:+ usageHint +:+ "</i>"); mret None
  end.

(** ** handlers.go *)

Definition callbackDeleteConfirm : string := "delete_confirm:".
Definition callbackDeleteCancel : string := "delete_cancel".

Definition handleStart (chatID : Z) : BM unit := sendHTML chatID welcomeMessage.

Definition handlePublicStart (chatID : Z) (user : User) : BM unit :=
  let name := if bool_decide (u_LastName user = "") then u_FirstName user
              else u_FirstName user +:+ " " +:+ u_LastName user in
  _ ← sendHTML chatID
        ("Welcome, " +:+ bold name +:+ "!" +:+ nl +:+ nl +:+
         "Your chat ID is: " +:+ code (pretty chatID) +:+ nl +:+ nl +:+
         "Share this ID with your admin to receive notifications.");
  sendHTML adminChatID
    ("New user started the bot:" +:+ nl +:+
     "Name: " +:+ bold name +:+ nl +:+
     "Username: @" +:+ u_UserName user +:+ nl +:+
     "Chat ID: " +:+ code (pretty chatID)).

(** A service call whose error ends the handler with a message. *)
Definition or_error {A} (chatID : Z) (description : string) (m : M (result A)) (k : A → BM unit) : BM unit :=
  r ← svc m;
  match r with Err err => sendError chatID description err | Ok a => k a end.

(** A handler whose argument is an id. *)
Definition with_uuid (chatID : Z) (args usageHint : string) (k : uuid → BM unit) : BM unit :=
  id ← parseUUID chatID args usageHint;
  match id with None => mret tt | Some id => k id end.

Definition handleTenants (chatID : Z) : BM unit :=
  or_error chatID "Failed to fetch tenants" (TenantService_List 50 0) (λ '(tenants, total),
    sendHTML chatID (formatTenantList tenants total)).

Definition handleTenant (chatID : Z) (args : string) : BM unit :=
  with_uuid chatID args "Usage: /tenant <id>" (λ id,
    or_error chatID "Tenant not found" (TenantService_GetByID id) (λ tenant,
      sendHTML chatID (formatTenantDetail tenant))).

Definition handleCreateTenant (chatID : Z) (args : string) : BM unit :=
  match strings_Fields args with
  | name :: slug :: _ =>
      or_error chatID "Failed to create tenant" (TenantService_Create (mkCreateTenantInput name slug)) (λ result,
        sendHTML chatID (formatNewTenant result))
  | _ => sendHTML chatID "Usage: /create_tenant &lt;name&gt; &lt;slug&gt;"
  end.

Definition handleToggleTenant (chatID : Z) (args : string) : BM unit :=
  with_uuid chatID args "Usage: /toggle_tenant <id>" (λ id,
    or_error chatID "Tenant not found" (TenantService_GetByID id) (λ tenant,
      let flipped := negb (t_IsActive tenant) in
      or_error chatID "Failed to update tenant" (TenantService_Update id (mkUpdateTenantInput None (Some flipped)))
        (λ updated, sendHTML chatID (formatToggleResult updated)))).

Definition handleDeleteTenant (chatID : Z) (args : string) : BM unit :=
  with_uuid chatID args "Usage: /delete_tenant <id>" (λ id,
    sendMessage chatID ("Are you sure you want to delete tenant " +:+ code (uuid_String id) +:+ "?")
      [("Yes, delete it", callbackDeleteConfirm +:+ uuid_String id); ("Cancel", callbackDeleteCancel)]).

Definition handleDeleteConfirm (query : CallbackQuery) (tenantIDStr : string) : BM unit :=
  let chatID := cq_Chat query in
  match uuid_Parse tenantIDStr with
  | None =>
      _ ← answerCallback (cq_ID query) "Invalid tenant ID";
      sendHTML chatID "Invalid tenant ID."
  | Some id =>
      r ← svc (TenantService_Delete id);
      match r with
      | Err err =>
          _ ← answerCallback (cq_ID query) "Delete failed";
          sendError chatID "Failed to delete tenant" err
      | Ok _ =>
          _ ← answerCallback (cq_ID query) "Deleted";
          editMessageText chatID (cq_MessageID query)
            ("Tenant " +:+ code (uuid_String id) +:+ " has been deleted.")
      end
  end.

Definition handleDeleteCancel (query : CallbackQuery) : BM unit :=
  _ ← answerCallback (cq_ID query) "Cancelled";
  editMessageText (cq_Chat query) (cq_MessageID query) "Deletion cancelled.".

Definition handleNotifications (chatID : Z) (args : string) : BM unit :=
  with_uuid chatID args "Usage: /notifications <tenant_id>" (λ id,
    or_error chatID "Failed to fetch notifications" (NotificationService_List (mkNotificationFilter id None None 10 0))
      (λ '(notifications, total), sendHTML chatID (formatNotificationList notifications total))).

Definition handleNotification (chatID : Z) (args : string) : BM unit :=
  with_uuid chatID args "Usage: /notification <id>" (λ id,
    or_error chatID "Notification not found" (NotificationService_GetByID id) (λ n,
      sendHTML chatID (formatNotificationDetail n))).

Definition handleStats (chatID : Z) : BM unit :=
  or_error chatID "Failed to fetch tenant stats" (TenantService_List 1 0) (λ '(_, tenantTotal),
    or_error chatID "Failed to fetch notification stats" NotificationService_CountByStatus (λ notifCounts,
      sendHTML chatID (formatStats tenantTotal notifCounts))).

(** ** bot.go: dispatch *)

Definition unauthorized : string := "<b>Unauthorized.</b> This bot is restricted to the configured admin chat.".

Definition dispatchMessage (msg : Message) : BM unit :=
  let chatID := mg_Chat msg in
  if negb (mg_IsCommand msg) then
    if isAuthorized chatID then mret tt else sendHTML chatID unauthorized
  else
    let command := mg_Command msg in
    let args := strings_TrimSpace (mg_CommandArguments msg) in
    _ ← svc (log "received command");
    if bool_decide (command = "start") then
      if isAuthorized chatID then handleStart chatID else handlePublicStart chatID (mg_From msg)
    else if negb (isAuthorized chatID) then sendHTML chatID unauthorized
    else if bool_decide (command = "help") then handleStart chatID
    else if bool_decide (command = "tenants") then handleTenants chatID
    else if bool_decide (command = "tenant") then handleTenant chatID args
    else if bool_decide (command = "create_tenant") then handleCreateTenant chatID args
    else if bool_decide (command = "toggle_tenant") then handleToggleTenant chatID args
    else if bool_decide (command = "delete_tenant") then handleDeleteTenant chatID args
    else if bool_decide (command = "notifications") then handleNotifications chatID args
    else if bool_decide (command = "notification") then handleNotification chatID args
    else if bool_decide (command = "stats") then handleStats chatID
    else sendHTML chatID "Unknown command. Send /help for a list of available commands.".

Definition dispatchCallback (query : CallbackQuery) : BM unit :=
  if negb (isAuthorized (cq_Chat query)) then answerCallback (cq_ID query) "Unauthorized"
  else
    let data := cq_Data query in
    if HasPrefix data callbackDeleteConfirm then handleDeleteConfirm query (TrimPrefix data callbackDeleteConfirm)
    else if bool_decide (data = callbackDeleteCancel) then handleDeleteCancel query
    else answerCallback (cq_ID query) "Unknown action".

Definition dispatchUpdate (update : Update) : BM unit :=
  match up_Message update, up_CallbackQuery update with
  | Some msg, _ => dispatchMessage msg
  | None, Some query => dispatchCallback query
  | None, None => mret tt
  end.

(** The update loop, over the updates received before it was stopped. *)
Fixpoint Start (updates : list Update) : BM unit :=
  match updates with
  | [] => svc (log "bot update loop stopped")
  | update :: updates => _ ← dispatchUpdate update; Start updates
  end.

(** ** redact.go: the library's log, with the text [fmt] made of the arguments *)

Definition redactingLogger_Println (token line : string) : BM unit := svc (log (redactToken token (trim_newlines line))).
Definition redactingLogger_Printf (token text : string) : BM unit := svc (log (redactToken token text)).
End bot.
