(* ===== verification/BotHtml.v ===== *)
(** * BotHtml: how Telegram reads the bot's messages

    A reader of the HTML mode of the Bot API, as its documentation describes it:
    the tags the bot uses must be nested, any other tag is an error, and the
    entities stand for their characters.  Text the bot escapes is read back as it
    was. *)
From Stdlib Require Import Ascii.
From S2P Require Import Prelude GoTime Utf8 Json Domain World Provider Services Markdown ChatProviders BotFormat.

(** The tag at the start of a text: its length, its name, and whether it opens. *)
Definition tag_at (s : string) : option (nat * string * bool) :=
  head (omap (λ '(t, name, opening), if HasPrefix s t then Some (String.length t, name, opening) else None)
    [("<b>", "b", true); ("</b>", "b", false); ("<i>", "i", true); ("</i>", "i", false);
     ("<code>", "code", true); ("</code>", "code", false)]).

(** The entity at the start of a text: its length and its character. *)
Definition entity_at (s : string) : option (nat * string) :=
  head (omap (λ '(t, c), if HasPrefix s t then Some (String.length t, c) else None)
    [("&amp;", "&"); ("&lt;", "<"); ("&gt;", ">"); ("&#39;", "'"); ("&#34;", quote_char); ("&quot;", quote_char)]).

(** Reading under the open tags; [k] bytes of a tag or entity are still to be
    skipped.  The tags left open and the text. *)
Fixpoint html_read (k : nat) (open : list string) (s : string) : option (list string * string) :=
  match s with
  | EmptyString => Some (open, "")
  | String c s' =>
      match k with
      | S k => html_read k open s'
      | O =>
          if bool_decide (byte_of c = 60%N) then
            match tag_at s with
            | Some (n, name, true) => html_read (pred n) (name :: open) s'
            | Some (n, name, false) =>
                match open with
                | name' :: open => if bool_decide (name = name') then html_read (pred n) open s' else None
                | [] => None
                end
            | None => None
            end
          else
            match (if bool_decide (byte_of c = 38%N) then entity_at s else None) with
            | Some (n, x) => prod_map id (String.append x) <$> html_read (pred n) open s'
            | None => prod_map id (String c) <$> html_read 0 open s'
            end
      end
  end.

(** What the reader of a message sees; none when Telegram refuses it. *)
Definition html_text (s : string) : option string :=
  match html_read 0 [] s with Some ([], text) => Some text | _ => None end.

Example html_sample : html_text "<b>a</b> &lt;<code>b &amp;&amp; c</code>" = Some "a <b && c".
Proof. reflexivity. Qed.

(** ** Texts that read the same wherever they stand *)

Definition renders (open : list string) (a : string) (open' : list string) (x : string) : Prop :=
  ∀ rest, html_read 0 open (a +:+ rest) = prod_map id (String.append x) <$> html_read 0 open' rest.

Lemma renders_text a x : renders [] a [] x → html_text a = Some x.
Proof.
  intros H. specialize (H ""). rewrite string_app_nil_r in H. unfold html_text. rewrite H. simpl. by rewrite string_app_nil_r.
Qed.

Lemma renders_app o1 o2 o3 a b x y : renders o1 a o2 x → renders o2 b o3 y → renders o1 (a +:+ b) o3 (x +:+ y).
Proof.
  intros Ha Hb rest. rewrite string_app_assoc, Ha, Hb. destruct (html_read 0 o3 rest) as [[o z]|]; [|done]. simpl.
  by rewrite string_app_assoc.
Qed.

Lemma renders_eq o a o' x y : renders o a o' x → x = y → renders o a o' y.
Proof. by intros H <-. Qed.

Lemma renders_nil o : renders o "" o "".
Proof. intros rest. change ("" +:+ rest) with rest. by destruct (html_read 0 o rest) as [[]|]. Qed.

(** Bytes that are text. *)
Definition plain_byte (c : ascii) : bool := negb (bool_decide (byte_of c = 60%N)) && negb (bool_decide (byte_of c = 38%N)).
Fixpoint plain (s : string) : bool := match s with EmptyString => true | String c s' => plain_byte c && plain s' end.

Lemma read_plain o c s : plain_byte c = true → html_read 0 o (String c s) = prod_map id (String c) <$> html_read 0 o s.
Proof.
  unfold plain_byte. intros [H1 H2]%andb_true_iff. cbn [html_read].
  apply negb_true_iff in H1, H2. by rewrite H1, H2.
Qed.

Lemma renders_plain o s : plain s = true → renders o s o s.
Proof.
  induction s as [|c s IH]; intros Hp; [apply renders_nil|]. cbn [plain] in Hp. apply andb_true_iff in Hp as [Hc Hp].
  intros rest. rewrite string_app_cons, read_plain, (IH Hp rest) by done. by destruct (html_read 0 o rest) as [[]|].
Qed.

Lemma html_skip p o rest : html_read (String.length p) o (p +:+ rest) = html_read 0 o rest.
Proof. induction p as [|c p IH]; [done|]. rewrite string_app_cons. cbn [String.length html_read]. exact IH. Qed.

(** A tag or an entity, recognised whatever follows it. *)
Lemma renders_open o t name :
  (∀ rest, tag_at (String "<" t +:+ rest) = Some (S (String.length t), name, true)) → renders o (String "<" t) (name :: o) "".
Proof.
  intros Ht rest. specialize (Ht rest). rewrite string_app_cons in Ht |- *. cbn [html_read].
  rewrite bool_decide_eq_true_2, Ht by done. cbn [pred]. rewrite html_skip. by destruct (html_read 0 _ rest) as [[]|].
Qed.

Lemma renders_close o t name :
  (∀ rest, tag_at (String "<" t +:+ rest) = Some (S (String.length t), name, false)) → renders (name :: o) (String "<" t) o "".
Proof.
  intros Ht rest. specialize (Ht rest). rewrite string_app_cons in Ht |- *. cbn [html_read].
  rewrite bool_decide_eq_true_2, Ht by done. rewrite bool_decide_eq_true_2 by done. cbn [pred]. rewrite html_skip.
  by destruct (html_read 0 _ rest) as [[]|].
Qed.

Lemma renders_entity o t x :
  (∀ rest, entity_at (String "&" t +:+ rest) = Some (S (String.length t), x)) → renders o (String "&" t) o x.
Proof.
  intros Ht rest. specialize (Ht rest). rewrite string_app_cons in Ht |- *. cbn [html_read].
  rewrite bool_decide_eq_false_2, bool_decide_eq_true_2, Ht by done. cbn [pred]. by rewrite html_skip.
Qed.

(** An escaped text reads back as the text. *)
Lemma renders_char o c : renders o (html_escape_char c) o (String c "").
Proof.
  destruct (plain_byte c && bool_decide (html_escape_char c = String c "")) eqn:Hc.
  - apply andb_true_iff in Hc as [Hp He]. apply bool_decide_eq_true in He. rewrite He. apply renders_plain. simpl. by rewrite Hp.
  - destruct c as [[] [] [] [] [] [] [] []]; vm_compute in Hc; try discriminate Hc;
      match goal with |- renders _ ?a _ _ => let v := eval vm_compute in a in change a with v end;
      apply renders_entity; intros []; reflexivity.
Qed.

Lemma renders_escape o s : renders o (html_EscapeString s) o s.
Proof.
  induction s as [|c s IH]; [apply renders_nil|]. cbn [html_EscapeString].
  change (String c s) with (String c "" +:+ s). apply (renders_app _ o); [apply renders_char|done].
Qed.

(** ** The pieces of the bot's messages *)

Lemma renders_between o t t' name a x :
  renders o t (name :: o) "" → renders (name :: o) t' o "" → renders (name :: o) a (name :: o) x →
  renders o (t +:+ a +:+ t') o x.
Proof.
  intros Ht Ht' Ha. pose proof (renders_app _ _ _ _ _ _ _ Ht (renders_app _ _ _ _ _ _ _ Ha Ht')) as H.
  by rewrite string_app_nil_r in H.
Qed.

Lemma renders_code o a x : renders ("code" :: o) a ("code" :: o) x → renders o (code a) o x.
Proof. apply renders_between; [apply renders_open|apply renders_close]; intros []; reflexivity. Qed.
Lemma renders_bold o a x : renders ("b" :: o) a ("b" :: o) x → renders o (bold a) o x.
Proof. apply renders_between; [apply renders_open|apply renders_close]; intros []; reflexivity. Qed.
Lemma renders_italic o a x : renders ("i" :: o) a ("i" :: o) x → renders o ("<i>" +:+ a +:+ "</i>") o x.
Proof. apply renders_between; [apply renders_open|apply renders_close]; intros []; reflexivity. Qed.

(** Texts of the form built by format.go, piece by piece. *)
Ltac rend :=
  repeat first
    [ apply renders_escape | apply renders_code | apply renders_bold
    | apply renders_plain; first [reflexivity | done | solve [auto]]
    | eapply renders_app ].
