(* ===== verification/ApiFacts.v ===== *)
(** * ApiFacts: what a tenant's request can touch *)
From S2P Require Import Prelude GoTime Json Hex Domain World Repository Integrity SampleEnv RepositoryProps.
From S2P Require Import Tasks Emitter Provider Samples Dispatcher DispatcherFacts Net Ssrf Services.
From S2P Require Import ServicesFacts Http Quota QuotaProps Maintenance Application Auth Handlers Router.

(** ** The rows of the other tenants *)

Definition foreign_notification (tid : uuid) (db : DB) (nid : uuid) : bool :=
  from_option (λ n, bool_decide (n_TenantID n ≠ tid)) false (notifications db !! nid).

Definition foreign (tid : uuid) (db : DB) :=
  (tenants db, tenant_entitlements db,
   filter (λ '(_, c), cr_TenantID c ≠ tid) (channel_configs db),
   filter (λ '(_, n), n_TenantID n ≠ tid) (notifications db),
   filter (λ '(_, k), k_TenantID k ≠ tid) (api_keys db),
   filter (λ '(_, e), e_TenantID e ≠ tid) (webhook_endpoints db),
   filter (λ '(_, a), foreign_notification tid db (a_NotificationID a) = true) (delivery_attempts db),
   filter (λ '(_, m), foreign_notification tid db (m_NotificationID m) = true) (delivery_metrics db)).

Section tables.
Context {A : Type}.
Implicit Types m : gmap uuid A.

(** Writing a row of the tenant over another of its rows or a free key. *)
Lemma filter_insert_own (P : A → Prop) `{∀ x, base.Decision (P x)} m k x :
  ¬ P x → (∀ y, m !! k = Some y → ¬ P y) →
  filter (λ '(_, x), P x) (<[k := x]> m) = filter (λ '(_, x), P x) m.
Proof. intros Hx Hy. by apply map_filter_insert_not'. Qed.

(** Removing only rows of the tenant. *)
Lemma filter_filter_own (P : A → Prop) `{∀ x, base.Decision (P x)} (Q : uuid * A → Prop) `{∀ x, base.Decision (Q x)} m :
  (∀ k x, m !! k = Some x → P x → Q (k, x)) →
  filter (λ '(_, x), P x) (filter Q m) = filter (λ '(_, x), P x) m.
Proof.
  intros HQ. apply map_eq. intros k. apply option_eq. intros x. rewrite !map_lookup_filter_Some. naive_solver.
Qed.

Lemma filter_delete_own (P : A → Prop) `{∀ x, base.Decision (P x)} m k :
  (∀ y, m !! k = Some y → ¬ P y) →
  filter (λ '(_, x), P x) (delete k m) = filter (λ '(_, x), P x) m.
Proof. intros Hy. by apply map_filter_delete_not. Qed.
End tables.

Section foreign.
Context `{E : Env} (tid : uuid).

(** A call made for the tenant leaves the others' rows alone. *)
Definition confined {A} (m : M A) : Prop :=
  ∀ w, app_ok (w_db w) → app_ok (w_db (m w).2) ∧ foreign tid (w_db (m w).2) = foreign tid (w_db w).

Lemma confined_reads {A} (m : M A) : keeps (same w_db) m → confined m.
Proof. intros H w Hw. by rewrite (H w). Qed.
Lemma confined_ret {A} (a : A) : confined (mret a).
Proof. by intros w. Qed.
Lemma confined_bind {A B} (m : M A) (f : A → M B) : confined m → (∀ a, confined (f a)) → confined (m ≫= f).
Proof.
  intros Hm Hf w Hw. rewrite ST_bind_run. destruct (Hm w Hw) as [H1 H2]. destruct (Hf (m w).1 (m w).2 H1) as [H3 H4].
  split; [done|]. by rewrite H4.
Qed.
Lemma confined_try {A B} (m : M (result A)) (f : A → M (result B)) :
  confined m → (∀ a, confined (f a)) → confined (try_bind m f).
Proof. intros. apply confined_bind; [done|]. intros []; [done|apply confined_ret]. Qed.
Lemma confined_on_err {A} g (m : M (result A)) : confined m → confined (on_err g m).
Proof. intros H w Hw. rewrite on_err_run. by apply H. Qed.

(** A statement with a confined effect. *)
Lemma confined_exec {A} (f : DB → result A * DB) :
  preserves app_ok (db_exec f) → (∀ db, app_ok db → foreign tid (f db).2 = foreign tid db) → confined (db_exec f).
Proof.
  intros Hok Hf w Hw. split; [by apply Hok|]. unfold db_exec. destruct (env_fault _); simpl; auto.
Qed.

Lemma confined_exec_at {A} (f : nat → DB → result A * DB) :
  preserves app_ok (db_exec_at f) → (∀ t db, app_ok db → foreign tid (f t db).2 = foreign tid db) → confined (db_exec_at f).
Proof.
  intros Hok Hf w Hw. split; [by apply Hok|]. unfold db_exec_at, db_exec. destruct (env_fault _); simpl; auto.
Qed.

(** Writes to a single table. *)
Lemma foreign_parts db db' :
  tenants db' = tenants db → tenant_entitlements db' = tenant_entitlements db →
  filter (λ '(_, c), cr_TenantID c ≠ tid) (channel_configs db') = filter (λ '(_, c), cr_TenantID c ≠ tid) (channel_configs db) →
  filter (λ '(_, n), n_TenantID n ≠ tid) (notifications db') = filter (λ '(_, n), n_TenantID n ≠ tid) (notifications db) →
  filter (λ '(_, k), k_TenantID k ≠ tid) (api_keys db') = filter (λ '(_, k), k_TenantID k ≠ tid) (api_keys db) →
  filter (λ '(_, e), e_TenantID e ≠ tid) (webhook_endpoints db') = filter (λ '(_, e), e_TenantID e ≠ tid) (webhook_endpoints db) →
  filter (λ '(_, a), foreign_notification tid db (a_NotificationID a) = true) (delivery_attempts db') =
  filter (λ '(_, a), foreign_notification tid db (a_NotificationID a) = true) (delivery_attempts db) →
  filter (λ '(_, m), foreign_notification tid db (m_NotificationID m) = true) (delivery_metrics db') =
  filter (λ '(_, m), foreign_notification tid db (m_NotificationID m) = true) (delivery_metrics db) →
  foreign tid db' = foreign tid db.
Proof.
  intros H1 H2 H3 H4 H5 H6 H7 H8.
  assert (∀ nid, foreign_notification tid db' nid = foreign_notification tid db nid) as Hf.
  { intros nid. apply (f_equal (.!! nid)) in H4. rewrite !map_lookup_filter in H4. revert H4. unfold foreign_notification.
    destruct (notifications db' !! nid) as [n'|], (notifications db !! nid) as [n|]; simpl; [| | |done].
    all: repeat case_bool_decide; simpl; intros; try done; case_guard; try case_guard; try done; simplify_eq/=. }
  unfold foreign. rewrite H1, H2, H3, H4, H5, H6, <- H7, <- H8. f_equal; [f_equal|].
  all: apply map_filter_ext; intros i x _; by rewrite Hf.
Qed.

Lemma foreign_stored n t u db :
  notifications db !! n_ID n = None → n_TenantID n = tid → foreign tid (stored n t u db) = foreign tid db.
Proof.
  intros Hn Ht. apply foreign_parts; try done.
  apply (filter_insert_own (λ n, n_TenantID n ≠ tid)); [simpl; by intros []|]. intros y Hy. congruence.
Qed.

Lemma confined_Send maxRetries input : confined (NotificationService_Send maxRetries tid input).
Proof.
  intros w Hw. split; [by apply app_Send|].
  destruct (Send_outcome maxRetries tid input w) as (r & w' & -> & Ho). simpl.
  destruct Ho as [(_ & -> & _)|(c & ent & id & now & _ & Hst & (t & u & ->) & _)]; [done|].
  apply foreign_stored; [apply Hst|done].
Qed.

Lemma confined_ChannelCreate cfg :
  cc_Channel cfg ∈ ValidChannelTypes → cc_TenantID cfg = tid → confined (PgChannelConfigRepo_Create cfg).
Proof.
  intros Hv Ht. apply confined_exec; [by apply app_ChannelCreate|]. intros db _. unfold insert_checked.
  destruct (first_violation _) eqn:Hf; [done|]. apply first_violation_None in Hf. checks_true Hf. simpl.
  apply foreign_parts; try done.
  apply (filter_insert_own (λ c, cr_TenantID c ≠ tid)); [simpl; by intros []|]. intros y Hy. congruence.
Qed.

Lemma confined_ChannelUpdate id i : confined (PgChannelConfigRepo_Update id tid i).
Proof.
  apply confined_exec_at; [apply app_ChannelUpdate|]. intros t db _.
  destruct (channel_configs db !! id) as [c|] eqn:Hc; [|done]. case_bool_decide as Ht; [|done]. cbv zeta.
  destruct (no_row _ _); [|done]. simpl. apply foreign_parts; try done.
  apply (filter_insert_own (λ c, cr_TenantID c ≠ tid)); [simpl; by intros []|]. intros y Hy. naive_solver.
Qed.

(** Deleting a channel takes its notifications along: all of them are the
    tenant's, because notifications stay on their tenant's channels. *)
Lemma foreign_del_channel p db :
  app_ok db → (∀ k c, channel_configs db !! k = Some c → p c = true → cr_TenantID c = tid) →
  foreign tid (del_channel_configs p db) = foreign tid db.
Proof.
  intros Hok Hp. unfold del_channel_configs. cbv zeta.
  assert (∀ nid n, notifications db !! nid = Some n →
    present (filter (λ '(_, c), p c = true) (channel_configs db)) (n_ChannelConfigID n) = true → n_TenantID n = tid) as Hn.
  { intros nid n Hn Hg. unfold present in Hg. apply bool_decide_eq_true in Hg as [c Hc].
    apply map_lookup_filter_Some in Hc as [Hc Hpc]. rewrite <- (Hp _ _ Hc Hpc).
    by destruct (app_consistent _ Hok _ _ _ Hn Hc). }
  assert (∀ nid, foreign_notification tid db nid = true →
    filter (λ '(_, n), present (filter (λ '(_, c), p c = true) (channel_configs db)) (n_ChannelConfigID n) = true)
      (notifications db) !! nid = None) as Hg.
  { intros nid Hf. apply map_lookup_filter_None. right. intros n Hnid Hpres. unfold foreign_notification in Hf.
    rewrite Hnid in Hf. apply bool_decide_eq_true in Hf. by apply Hf, (Hn nid). }
  apply foreign_parts; try done.
  - apply (filter_filter_own (λ c, cr_TenantID c ≠ tid)). intros k c Hk Hne. destruct (p c) eqn:He; [|done]. naive_solver.
  - apply (filter_filter_own (λ n, n_TenantID n ≠ tid)). intros k n Hk Hne.
    destruct (present _ _) eqn:He; [|done]. by destruct (Hne (Hn _ _ Hk He)).
  - apply (filter_filter_own (λ a, foreign_notification tid db (a_NotificationID a) = true)). intros k a _. apply Hg.
  - apply (filter_filter_own (λ m, foreign_notification tid db (m_NotificationID m) = true)). intros k m _. apply Hg.
Qed.

Lemma confined_ChannelDelete id : confined (PgChannelConfigRepo_Delete id tid).
Proof.
  apply confined_exec; [apply app_ChannelDelete|]. intros db Hok. cbv zeta. destruct (_ =? _)%Z; [done|].
  apply foreign_del_channel; [done|]. intros k c _ Hc. by apply bool_decide_eq_true in Hc as [_ ?].
Qed.

Lemma confined_KeyCreate k limit : k_TenantID k = tid → confined (PgAPIKeyRepo_CreateWithinLimit k limit).
Proof.
  intros Ht w Hw. split; [by apply app_KeyCreateWithinLimit|].
  destruct (within_limit_outcome (k_TenantID k) (λ db, sql_count (active_key_of (k_TenantID k)) (api_keys db))
    limit ErrKeyLimitReached (insert_api_key k) w) as [[Heq _]|(_ & _ & Hi & Heq)].
  all: change (within_limit _ _ _ _ _ w) with (PgAPIKeyRepo_CreateWithinLimit k limit w) in Heq; rewrite Heq.
  { done. }
  apply insert_checked_Ok in Hi as [Hins Hc]. unfold insert_api_key. rewrite Hins. checks_true Hc.
  apply foreign_parts; try done.
  apply (filter_insert_own (λ k, k_TenantID k ≠ tid)); [simpl; by intros []|]. intros y Hy. congruence.
Qed.

Lemma confined_KeyRevoke id : confined (PgAPIKeyRepo_Revoke id tid).
Proof.
  apply confined_exec_at; [apply app_KeyRevoke|]. intros t db _.
  destruct (api_keys db !! id) as [k|] eqn:Hk; [|done]. case_bool_decide as Ht; [|done]. destruct Ht as [Ht _].
  simpl. apply foreign_parts; try done.
  apply (filter_insert_own (λ k, k_TenantID k ≠ tid)); [simpl; by intros []|]. intros y Hy. naive_solver.
Qed.

Lemma confined_EndpointCreate e :
  endpoint_valid e → e_TenantID e = tid →
  confined (PgWebhookEndpointRepo_CreateWithinLimit e maxWebhookEndpointsPerTenant).
Proof.
  intros Hv Ht w Hw. split; [by apply app_EndpointCreate|].
  destruct (within_limit_outcome (e_TenantID e)
    (λ db, sql_count (endpoint_of (e_TenantID e)) (webhook_endpoints db)) maxWebhookEndpointsPerTenant
    ErrWebhookLimitReached (insert_webhook_endpoint e) w) as [[Heq _]|(_ & _ & Hi & Heq)].
  all: change (within_limit _ _ _ _ _ w) with
    (PgWebhookEndpointRepo_CreateWithinLimit e maxWebhookEndpointsPerTenant w) in Heq; rewrite Heq.
  { done. }
  apply insert_checked_Ok in Hi as [Hins Hc]. unfold insert_webhook_endpoint. rewrite Hins. checks_true Hc.
  apply foreign_parts; try done.
  apply (filter_insert_own (λ e, e_TenantID e ≠ tid)); [simpl; by intros []|]. intros y Hy. congruence.
Qed.

Lemma confined_EndpointUpdate id i :
  (∀ url, uwi_URL i = Some url → is_Ok (ValidateHTTPSDestinationURL url) = true) →
  (∀ evs, uwi_Events i = Some evs → ValidateWebhookEvents evs = Ok tt) →
  confined (PgWebhookEndpointRepo_Update id tid i).
Proof.
  intros Hu He. apply confined_exec; [by apply app_EndpointUpdate|]. intros db _.
  destruct (webhook_endpoints db !! id) as [e|] eqn:Hl; [|done]. case_bool_decide as Ht; [|done]. simpl.
  apply foreign_parts; try done.
  apply (filter_insert_own (λ e, e_TenantID e ≠ tid)); [simpl; by intros []|]. intros y Hy. naive_solver.
Qed.

Lemma confined_EndpointDelete id : confined (PgWebhookEndpointRepo_Delete id tid).
Proof.
  apply confined_exec; [apply app_EndpointDelete|]. intros db _.
  destruct (webhook_endpoints db !! id) as [e|] eqn:Hl; [|done]. case_bool_decide as Ht; [|done]. simpl.
  apply foreign_parts; try done.
  apply (filter_delete_own (λ e, e_TenantID e ≠ tid)). intros y Hy. naive_solver.
Qed.
End foreign.

Create HintDb confined.
#[export] Hint Resolve confined_Send confined_ChannelCreate confined_ChannelUpdate confined_ChannelDelete
  confined_KeyCreate confined_KeyRevoke confined_EndpointCreate confined_EndpointUpdate confined_EndpointDelete : confined.
#[export] Hint Resolve EntitlementsOrFree_db generateRandomHex_db ChannelGetByID_db PgTenantRepo_List_db : keeps.

(** Splits a call into its steps, casing on every test. *)
Ltac confined_op :=
  lazymatch goal with
  | |- confined _ (mret _) => apply confined_ret
  | |- confined _ (mbind _ _) => apply confined_bind; [|intros ?]
  | |- confined _ (try_bind _ _) => apply confined_try; [|intros ?]
  | |- confined _ (on_err _ _) => apply confined_on_err
  | |- confined _ (match ?x with _ => _ end) => destruct x eqn:?
  | |- confined _ _ => solve [eauto 3 with confined | apply confined_reads; eauto 3 with keeps]
  end.

(** ** The tenant's calls *)

Section services.
Context `{E : Env} (tid : uuid).

Lemma Reserve_db url n : keeps (same w_db) (Reserve url tid n).
Proof. unfold Reserve, EntitlementsFor, rdb_IncrBy, rdb_DecrBy, rdb_Expire, notifyThreshold, rdb_SetNX. keeps_auto. Qed.

Lemma Refund_db n : keeps (same w_db) (Refund tid n).
Proof. unfold Refund, EntitlementsFor, rdb_IncrBy, rdb_DecrBy. keeps_auto. Qed.

Lemma NotificationService_List_db f : keeps (same w_db) (NotificationService_List f).
Proof. unfold NotificationService_List, PgNotificationRepo_List. keeps_auto. Qed.

Lemma MetricGet_db id : keeps (same w_db) (PgDeliveryMetricRepo_GetByNotificationID id).
Proof. unfold PgDeliveryMetricRepo_GetByNotificationID. keeps_auto. Qed.

(** The queue stays as it is. *)
Lemma EntitlementsOrFree_tasks t : keeps (same w_tasks) (EntitlementsOrFree PgEntitlementRepo_GetByTenantID time_Now t).
Proof. intros w. by destruct (EntitlementsOrFree_outcome t w) as (r & w' & -> & _ & _ & ? & _). Qed.
Hint Resolve EntitlementsOrFree_tasks : keeps.

Lemma Reserve_tasks url n : keeps (same w_tasks) (Reserve url tid n).
Proof. unfold Reserve, EntitlementsFor, rdb_IncrBy, rdb_DecrBy, rdb_Expire, notifyThreshold, rdb_SetNX. keeps_auto. Qed.
Lemma Refund_tasks n : keeps (same w_tasks) (Refund tid n).
Proof. unfold Refund, EntitlementsFor, rdb_IncrBy, rdb_DecrBy. keeps_auto. Qed.
Lemma generateRandomHex_tasks n : keeps (same w_tasks) (generateRandomHex n).
Proof. unfold generateRandomHex. keeps_auto. Qed.
Lemma bcrypt_tasks pw : keeps (same w_tasks) (bcrypt_GenerateFromPassword pw).
Proof. done. Qed.
Lemma NotificationService_List_tasks f : keeps (same w_tasks) (NotificationService_List f).
Proof. unfold NotificationService_List, PgNotificationRepo_List. keeps_auto. Qed.
Lemma TenantList_tasks limit offset : keeps (same w_tasks) (PgTenantRepo_List limit offset).
Proof. unfold PgTenantRepo_List. keeps_auto. Qed.
Lemma MetricGet_tasks id : keeps (same w_tasks) (PgDeliveryMetricRepo_GetByNotificationID id).
Proof. unfold PgDeliveryMetricRepo_GetByNotificationID. keeps_auto. Qed.
Hint Resolve generateRandomHex_tasks bcrypt_tasks : keeps.

Lemma confined_ChannelService_Create registry input : confined tid (ChannelService_Create registry tid input).
Proof.
  unfold ChannelService_Create. repeat confined_op. all: apply confined_ChannelCreate; [simpl|done].
  all: apply IsValidChannelType_spec; by destruct (IsValidChannelType _).
Qed.

Lemma confined_ChannelService_Update registry id input : confined tid (ChannelService_Update registry id tid input).
Proof. unfold ChannelService_Update. repeat confined_op. Qed.

Lemma confined_APIKeyService_Create label : confined tid (APIKeyService_Create tid label).
Proof. unfold APIKeyService_Create. cbv zeta. repeat confined_op. Qed.

Lemma confined_WebhookEndpointService_Create input : confined tid (WebhookEndpointService_Create tid input).
Proof.
  unfold WebhookEndpointService_Create. cbv zeta.
  destruct (validateWebhookEndpointURL _) as [[]|] eqn:Hu; [|confined_op].
  destruct (ValidateWebhookEvents _) as [[]|] eqn:He; [|confined_op]. apply validate_url_ok in Hu.
  repeat confined_op. apply confined_EndpointCreate; [by split|done].
Qed.

Lemma confined_WebhookEndpointService_Update id input : confined tid (WebhookEndpointService_Update id tid input).
Proof.
  unfold WebhookEndpointService_Update.
  destruct (from_option validateWebhookEndpointURL _ _) as [[]|] eqn:Hu; [|confined_op].
  destruct (from_option ValidateWebhookEvents _ _) as [[]|] eqn:He; [|confined_op].
  apply confined_EndpointUpdate; [intros url Heq|intros evs Heq]; rewrite Heq in *; [by apply validate_url_ok|done].
Qed.

(** Any run of the goroutines of [SendMulti]. *)
Lemma confined_SendMulti maxRetries input w results errs w' :
  NotificationService_SendMulti maxRetries tid input w results errs w' →
  app_ok (w_db w) → app_ok (w_db w') ∧ foreign tid (w_db w') = foreign tid (w_db w).
Proof.
  unfold NotificationService_SendMulti. intros Hrun.
  assert (∀ s s', rtc (SendMulti_step maxRetries tid) s s' → app_ok (w_db s.2) →
    app_ok (w_db s'.2) ∧ foreign tid (w_db s'.2) = foreign tid (w_db s.2)) as H; [|by apply (H _ _ Hrun)].
  clear. intros s s'. induction 1 as [s|s1 s2 s3 Hs _ IH]; [done|]. intros Hok.
  assert (app_ok (w_db s2.2) ∧ foreign tid (w_db s2.2) = foreign tid (w_db s1.2)) as [H1 H2].
  { destruct Hs as [? ch ??? w1 w2 n Hs|? ch ??? w1 w2 e Hs]; simpl in *;
      destruct (confined_Send tid maxRetries ch w1 Hok) as [H1 H2]; rewrite Hs in H1, H2; done. }
  destruct (IH H1) as [H3 H4]. split; [done|by rewrite H4].
Qed.
End services.

#[export] Hint Resolve Reserve_db Refund_db NotificationService_List_db MetricGet_db : keeps.
#[export] Hint Resolve EntitlementsOrFree_tasks Reserve_tasks Refund_tasks generateRandomHex_tasks bcrypt_tasks
  NotificationService_List_tasks TenantList_tasks MetricGet_tasks : keeps.
#[export] Hint Resolve confined_ChannelService_Create confined_ChannelService_Update confined_APIKeyService_Create
  confined_WebhookEndpointService_Create confined_WebhookEndpointService_Update : confined.

(** ** The tenant's routes *)

Section routes.
Context `{E : Env} {J : Jwt} (d : Deps) (send_multi : Request → M Response) (Hmulti : multi_runs d send_multi).

(** A handler whose writes stay with the tenant of the request's claims. *)
Definition stays_home (h : Request → M Response) : Prop :=
  ∀ r claims, r_Claims r = Some claims → confined (tc_TenantID claims) (h r).

Lemma quotaMW_home h : stays_home h → stays_home (quotaMW d h).
Proof.
  intros Hh r claims Hr. unfold quotaMW, quota_Middleware. rewrite Hr. cbv zeta.
  destruct (if HasSuffix _ _ then _ else _); [|confined_op].
  apply confined_bind; [confined_op|]. intros [dec|]; [|repeat confined_op]. destruct (negb _); [confined_op|].
  apply confined_bind; [apply Hh; by destruct (HasSuffix _ _)|]. intros ?. repeat confined_op.
Qed.

Lemma send_multi_home : stays_home send_multi.
Proof.
  intros r claims Hr w Hok. destruct (Hmulti r w) as [Hn|c e Hn He|c i Hn He Hl|c i rs es w' Hn He Hl Hrun]; try done.
  unfold GetClaims in Hn. assert (c = claims) as -> by congruence. by eapply confined_SendMulti.
Qed.

Lemma tenant_routes_home : Forall (λ rt, stays_home (rt_serve rt)) (tenant_routes d send_multi).
Proof.
  repeat (apply Forall_cons; split); [..|by apply Forall_nil]; simpl.
  13, 14: apply quotaMW_home.
  14: exact send_multi_home.
  all: intros r claims Hr.
  all: unfold APIKeyHandler_List, APIKeyHandler_Create, APIKeyHandler_Revoke, ChannelHandler_List, ChannelHandler_Create,
    ChannelHandler_GetByID, ChannelHandler_Update, ChannelHandler_Delete, WebhookEndpointHandler_List,
    WebhookEndpointHandler_Create, WebhookEndpointHandler_Update, WebhookEndpointHandler_Delete,
    NotificationHandler_Send, NotificationHandler_List, NotificationHandler_GetByID, NotificationHandler_ListAttempts,
    NotificationHandler_GetMetrics, own_notification, with_claims, with_id, with_body, GetClaims; rewrite Hr.
  all: repeat confined_op.
Qed.
End routes.

(** ** One schedule of [SendMulti]: the channels in order *)

Section sequential.
Context `{E : Env} {J : Jwt} (maxRetries : Z).

Fixpoint send_each (tid : uuid) (chs : list SendNotificationInput) (results : list Notification) (errs : list error)
    : M (list Notification * list error) :=
  match chs with
  | [] => mret (results, errs)
  | ch :: chs =>
      res ← NotificationService_Send maxRetries tid ch;
      match res with
      | Ok notif => send_each tid chs (results ++ [notif]) errs
      | Err err => send_each tid chs results (errs ++ [err])
      end
  end.

Definition sequential_multi (r : Request) : M Response :=
  with_claims r (λ claims,
  with_body dec_SendMultiInput r (λ input,
    if bool_decide (length (smi_Channels input) = 0 ∨ 50 < length (smi_Channels input))%nat
    then mret (response_Error StatusBadRequest "channels count must be between 1 and 50")
    else
      res ← send_each (tc_TenantID claims) (smi_Channels input) [] [];
      mret (multi_response res.1 res.2))).

Lemma send_each_run tid chs results errs w :
  rtc (SendMulti_step maxRetries tid) (chs, results, errs, w)
    ([], (send_each tid chs results errs w).1.1, (send_each tid chs results errs w).1.2,
     (send_each tid chs results errs w).2).
Proof.
  revert results errs w. induction chs as [|ch chs IH]; intros results errs w; [done|]. cbn [send_each].
  rewrite !ST_bind_run. destruct (NotificationService_Send maxRetries tid ch w) as [[n|e] w1] eqn:Hs; cbn [fst snd].
  - eapply rtc_l; [by apply (multi_ok _ _ [])|apply IH].
  - eapply rtc_l; [by apply (multi_err _ _ [])|apply IH].
Qed.

Lemma sequential_multi_runs d : dp_maxRetries d = maxRetries → multi_runs d sequential_multi.
Proof.
  intros Hd r w. rewrite Hd. unfold sequential_multi, with_claims, with_body.
  destruct (GetClaims r) as [claims|] eqn:Hc; [|by constructor].
  destruct (decode_body _ r) as [input|] eqn:Hb; [|by econstructor].
  case_bool_decide; [by eapply multi_bad_count|]. rewrite !ST_bind_run.
  eapply multi_sent; [done|done|lia|]. apply send_each_run.
Qed.
End sequential.
