(* ===== verification/ApiProps.v ===== *)
(** * ApiProps: who may call what, and what a call reveals or changes

    The theorems on the routes of internal/router with the middleware of
    internal/auth and internal/quota in front of the handlers. *)
From S2P Require Import Prelude GoTime Json Hex Domain World Repository Integrity SampleEnv RepositoryProps.
From S2P Require Import Tasks Emitter Provider Samples Dispatcher DispatcherFacts Net Ssrf Services.
From S2P Require Import ServicesFacts Http Quota QuotaProps Maintenance Application Auth Handlers Router ApiFacts SampleJwt.

(** ** What the middleware lets through *)

(** The token of an [Authorization: Bearer] header. *)
Definition bearer_token (r : Request) : option string :=
  match split_blank (Header_Get r "Authorization") with
  | Some (scheme, token) => if EqualFold scheme "bearer" then Some token else None
  | None => None
  end.

(** A token signed with the server's key under an HMAC method, carrying
    [claims], inside its validity period. *)
Definition token_valid {J : Jwt} (m : JWTManager) (now : Time) (token : string) (claims : TenantClaims) : Prop :=
  ParseWithClaims (jwt_keyfunc m) now token = Ok (claims, true) ∧
  (∃ alg, verifies (SigningMethodHMAC alg) (jm_signingKey m) token) ∧
  (tc_NotBefore claims ≤ now < tc_ExpiresAt claims)%Z.

(** The request signature of a billing call. *)
Definition service_signed `{E : Env} (secret : string) (r : Request) (now : Time) : Prop :=
  secret ≠ "" ∧ ∃ body ts, io_ReadAll (r_Body r) = Ok body ∧ (Z.of_nat (String.length body) ≤ 2 ^ 20)%Z ∧
  time_Parse (Header_Get r "X-Service-Timestamp") = Some ts ∧ (Z.abs (now - ts) ≤ 5 * Minute)%Z ∧
  Header_Get r "X-Service-Signature" ≠ "" ∧
  Header_Get r "X-Service-Signature" = hex_EncodeToString (hmac_sha256 secret
    (hmac_canonical (r_Method r) (r_RequestURI r) (Header_Get r "X-Service-Timestamp") body)).

(** Nothing but the clock moved. *)
Definition untouched `{E : Env} (w w' : World) : Prop := w' = w ∨ w' = next_tick w.

Section middleware.
Context `{E : Env} {J : Jwt}.

Lemma auth_Middleware_cases {L : JwtLaws J} m next r w :
  (resp_Status (auth_Middleware m next r w).1 = StatusUnauthorized ∧ untouched w (auth_Middleware m next r w).2) ∨
  ∃ token claims, bearer_token r = Some token ∧ token_valid m (env_now (w_tick w)) token claims ∧
    auth_Middleware m next r w = next (with_Claims claims r) (next_tick w).
Proof.
  unfold auth_Middleware, bearer_token. case_bool_decide; [left; split; [done|by left]|].
  destruct (split_blank _) as [[scheme token]|]; [|left; split; [done|by left]].
  destruct (EqualFold scheme "bearer"); simpl; [|left; split; [done|by left]].
  unfold ValidateToken, time_Now. rewrite !ST_bind_run. cbn [fst snd].
  destruct (ParseWithClaims _ _ _) as [[claims []]|] eqn:Hp; [|left; split; [done|by right]..].
  right. exists token, claims. split; [done|]. split; [|done]. split; [done|].
  destruct (Parse_sound _ _ _ _ Hp) as ([alg|alg] & key & Hk & Hv & Ht); simpl in Hk; [|done].
  injection Hk as <-. eauto.
Qed.

Lemma auth_Middleware_accepts m next r w token claims :
  bearer_token r = Some token → ParseWithClaims (jwt_keyfunc m) (env_now (w_tick w)) token = Ok (claims, true) →
  auth_Middleware m next r w = next (with_Claims claims r) (next_tick w).
Proof.
  unfold auth_Middleware, bearer_token. intros Hb Hp.
  case_bool_decide as He; [by rewrite He in Hb|].
  destruct (split_blank _) as [[scheme tok]|]; [|done]. destruct (EqualFold scheme "bearer"); [|done].
  injection Hb as ->. simpl. unfold ValidateToken, time_Now. rewrite !ST_bind_run. cbn [fst snd]. by rewrite Hp.
Qed.

Lemma HMACMiddleware_accepts secret next r w :
  service_signed secret r (env_now (w_tick w)) → HMACMiddleware secret next r w = next r (next_tick w).
Proof.
  intros (Hs & body & ts & Hb & Hl & Hts & Hw & Hne & Hsig). unfold HMACMiddleware. cbv zeta.
  rewrite bool_decide_eq_false_2 by done. rewrite (proj2 (ReadAll_Max maxBodyBytes (r_Body r) body)) by done. case_bool_decide as He; [by rewrite He in Hts|]. rewrite Hts, ST_bind_run.
  unfold time_Now. cbn [fst snd]. unfold timestampWindow.
  rewrite (proj2 (Z.ltb_ge _ _)), (proj2 (Z.ltb_ge _ _)) by lia. cbn [orb].
  rewrite <- Hsig, (bool_decide_eq_false_2 _ Hne). rewrite bool_decide_eq_true_2 by done. by rewrite with_Body_read.
Qed.

Lemma HMACMiddleware_cases secret next r w :
  (resp_Status (HMACMiddleware secret next r w).1 ∈ [StatusBadRequest; StatusUnauthorized; StatusServiceUnavailable] ∧
   untouched w (HMACMiddleware secret next r w).2) ∨
  service_signed secret r (env_now (w_tick w)) ∧ HMACMiddleware secret next r w = next r (next_tick w).
Proof.
  unfold HMACMiddleware. cbv zeta.
  case_bool_decide; [left; split; [simpl; set_solver|by left]|].
  destruct (io_ReadAll _) as [body|] eqn:Hb; [|left; split; [simpl; set_solver|by left]]. apply ReadAll_Max in Hb as [Hb Hl].
  case_bool_decide; [left; split; [simpl; set_solver|by left]|].
  destruct (time_Parse _) as [ts|] eqn:Hts; [|left; split; [simpl; set_solver|by left]].
  rewrite ST_bind_run. unfold time_Now. cbn [fst snd]. unfold timestampWindow.
  destruct (Z.ltb_spec (5 * Minute) (env_now (w_tick w) - ts)); [left; split; [simpl; set_solver|by right]|].
  destruct (Z.ltb_spec (env_now (w_tick w) - ts) (- (5 * Minute))); [left; split; [simpl; set_solver|by right]|].
  cbn [orb]. case_bool_decide; [left; split; [simpl; set_solver|by right]|].
  case_bool_decide; [|left; split; [simpl; set_solver|by right]].
  right. split; [|by rewrite with_Body_read]. split; [done|]. exists body, ts. split_and!; try done. lia.
Qed.

(** The limit on all bodies is also the one of signed calls. *)
Lemma service_signed_limited limit secret r now :
  service_signed secret (with_Body (MaxBytesReader limit (r_Body r)) r) now → service_signed secret r now.
Proof.
  intros (Hs & body & ts & Hb & Hrest). split; [done|]. exists body, ts. cbn [with_Body r_Body] in Hb.
  apply ReadAll_Max in Hb as [Hb _]. by split.
Qed.
End middleware.

(** ** Charging *)

Lemma dec_elems_length {A} (dec : decoder A) zero cur l xs : dec_elems dec zero cur l = Ok xs → length xs = length l.
Proof.
  revert cur xs. induction l as [|j l IH]; intros cur xs; cbn [dec_elems]; [naive_solver|].
  destruct (dec _ j); [|done]. destruct (dec_elems dec zero (tail cur) l) as [ys|] eqn:He; [|done].
  intros [= <-]. simpl. by rewrite (IH _ ys He).
Qed.

Lemma dec_elems_raw cur l : ∃ xs, dec_elems dec_raw None cur l = Ok xs ∧ length xs = length l.
Proof.
  revert cur. induction l as [|j l IH]; intros cur; [by exists []|]. destruct (IH (tail cur)) as (xs & Hxs & Hl).
  exists (Some j :: xs). cbn [dec_elems]. rewrite Hxs. split; [done|]. simpl. by rewrite Hl.
Qed.

(** Reading a member as a list of raw documents finds as many elements. *)
Lemma field_raw_length {A} (dec : decoder A) zero kvs : ∀ (cur : list A) (raws : list RawMessage) xs,
  length raws = length cur → field (dec_slice dec zero) "channels" cur kvs = Ok xs →
  ∃ rs, field (dec_slice dec_raw None) "channels" raws kvs = Ok rs ∧ length rs = length xs.
Proof.
  induction kvs as [|[k v] kvs IH]; intros cur raws xs Hl; cbn [field].
  { intros [= <-]. by exists raws. }
  destruct (EqualFold k "channels"); [|by apply IH].
  destruct v as [| | | | |l|]; unfold dec_slice; try done.
  - by apply IH.
  - destruct (dec_elems dec zero cur l) as [ys|] eqn:He; [|done]. destruct (dec_elems_raw raws l) as (rs & -> & Hr).
    apply IH. by rewrite Hr, (dec_elems_length _ _ _ _ _ He).
Qed.

Lemma probe_channels_multi `{E : Env} r input :
  decode_body dec_SendMultiInput r = Ok input → smi_Channels input ≠ [] →
  probe_channels (r_First r) = Z.of_nat (length (smi_Channels input)).
Proof.
  unfold decode_body, dec_SendMultiInput, probe_channels. destruct (r_First r) as [j|]; [|done].
  destruct (json_object j) as [kvs|]; [|done]. cbn [rbind].
  destruct (field _ _ _ _) as [chs|] eqn:Hf; [|done]. cbn [rbind]. intros [= <-] Hne. simpl in *.
  destruct (field_raw_length dec_SendNotificationInput zero_SendNotificationInput kvs [] [] chs eq_refl Hf) as (rs & -> & Hl). rewrite <- Hl.
  destruct rs; [|done]. by destruct chs.
Qed.

(** ** Reading *)

Section reads.
Context `{E : Env}.

Lemma classify_status cases err :
  Forall (λ c, (400 ≤ c.1.2)%Z) cases → (400 ≤ resp_Status (classify cases err))%Z.
Proof.
  induction 1 as [|[[s st] msg] rest Hst _ IH]; simpl; [done|]. by destruct (errors_Is err s).
Qed.

(** A query sees the tick it runs at. *)
Lemma db_query_at_run {A} (f : nat → DB → result A) w : db_query_at f w = db_query (f (w_tick w)) w.
Proof. done. Qed.

(** A page of a tenant's notifications holds rows of the tenant only. *)
Lemma PgNotificationRepo_List_outcome {L : PgLaws E} f w ns total :
  (PgNotificationRepo_List f w).1 = Ok (ns, total) →
  Forall (λ n, n_TenantID n = nf_TenantID f ∧ ∃ id, notifications (w_db w) !! id = Some n) ns ∧
  (Z.of_nat (length ns) ≤ if (nf_Limit f <=? 0) then 20 else nf_Limit f)%Z.
Proof.
  unfold PgNotificationRepo_List. rewrite try_bind_run.
  destruct (db_query_outcome (λ db, Ok (sql_count (filter_where f) (notifications db))) w)
    as (r & w1 & -> & Hdb & _ & _ & [->|[msg ->]]); cbn [fst snd]; [|done]. cbv zeta.
  rewrite try_bind_run, db_query_at_run.
  match goal with |- context [db_query ?g w1] => destruct (db_query_outcome g w1) as (r & w2 & -> & _ & _ & _ & Hr) end.
  cbn [fst snd]. destruct Hr as [->|[msg ->]]; [|done]. unfold sql_page.
  set (lim := if (nf_Limit f <=? 0)%Z then 20%Z else nf_Limit f).
  destruct (Z.ltb_spec lim 0); [done|]. destruct (_ <? 0)%Z; [done|]. rewrite Hdb. simpl. intros [= <- _]. split.
  - apply Forall_forall. intros n Hn.
    apply (sublist_subseteq _ _ (sublist_take _ _)), (sublist_subseteq _ _ (sublist_drop _ _)) in Hn.
    rewrite merge_sort_Permutation, list_elem_of_filter, elem_of_pg_rows in Hn. destruct Hn as [Hf Hn].
    split; [|done]. unfold filter_where in Hf. rewrite !andb_true_iff in Hf. destruct Hf as [[Hf _] _].
    by apply bool_decide_eq_true in Hf.
  - rewrite length_take. lia.
Qed.

Lemma parsePagination_bounds r : (0 < (parsePagination r).1 ≤ 100)%Z ∧ (0 ≤ (parsePagination r).2)%Z.
Proof.
  unfold parsePagination. simpl. split.
  - case_bool_decide; [lia|]. destruct (Atoi _) as [v|]; [|lia].
    destruct (Z.ltb_spec 0 v); simpl; [|lia]. destruct (Z.leb_spec v 100); lia.
  - case_bool_decide; [lia|]. destruct (Atoi _) as [v|]; [|lia]. destruct (Z.leb_spec 0 v); lia.
Qed.

(** [own_notification] runs its continuation on a row of the caller. *)
Lemma own_notification_outcome r claims k w :
  let res := own_notification r claims k w in
  (400 ≤ resp_Status res.1)%Z ∨
  ∃ id n w', notifications (w_db w) !! id = Some n ∧ n_TenantID n = tc_TenantID claims ∧ w_db w' = w_db w ∧
    uuid_Parse (URLParam r "notificationID") = Some id ∧ res = k n id w'.
Proof.
  cbv zeta. unfold own_notification, with_id. destruct (uuid_Parse _) as [id|]; [|by left].
  unfold NotificationService_GetByID, PgNotificationRepo_GetByID. rewrite ST_bind_run.
  match goal with |- context [db_query ?g w] => destruct (db_query_outcome g w) as (res & w' & -> & Hdb & _ & _ & Hr) end.
  cbn [fst snd]. destruct res as [n|err]; [|left; apply classify_status; by repeat constructor].
  case_bool_decide as Ht; cbn [negb]; [|by left]. right. exists id, n, w'.
  destruct Hr as [Hr|[? Hr]]; [|done]. destruct (notifications (w_db w) !! id) as [n'|] eqn:Hn; [|done]. by simplify_eq.
Qed.
End reads.

(** ** The theorems *)

(** C9: Serving any route of the tenant group, with its authentication and quota middleware and whatever the
    request contains, keeps the invariant of the application, and either answers 401 without touching the tables
    or acts for the tenant of a token signed with the server's key and leaves every row of the other tenants,
    and the tenants and entitlements tables, unchanged. *)
Theorem tenant_requests_confined `{E : Env} {J : Jwt} {L : JwtLaws J} d send_multi rt r w :
  multi_runs d send_multi → rt ∈ tenant_routes d send_multi → app_ok (w_db w) →
  let res := rt_serve (with_mw (maxBodySize bodyLimit) (with_mw (auth_Middleware (dp_jwtMgr d)) rt)) r w in
  app_ok (w_db res.2) ∧
  (resp_Status res.1 = StatusUnauthorized ∧ w_db res.2 = w_db w ∨
   ∃ token claims, bearer_token r = Some token ∧ token_valid (dp_jwtMgr d) (env_now (w_tick w)) token claims ∧
     foreign (tc_TenantID claims) (w_db res.2) = foreign (tc_TenantID claims) (w_db w)).
Proof.
  intros Hm Hrt Hok. cbv zeta. set (r1 := with_Body (MaxBytesReader bodyLimit (r_Body r)) r).
  change (rt_serve (with_mw (maxBodySize bodyLimit) _) r w) with (auth_Middleware (dp_jwtMgr d) (rt_serve rt) r1 w).
  change (bearer_token r) with (bearer_token r1).
  pose proof (tenant_routes_home d send_multi Hm) as Hall. rewrite Forall_forall in Hall. specialize (Hall _ Hrt).
  destruct (auth_Middleware_cases (dp_jwtMgr d) (rt_serve rt) r1 w) as [[Hs Hu]|(token & claims & Hb & Hv & ->)].
  - destruct Hu as [->| ->]; auto.
  - destruct (Hall (with_Claims claims r1) claims eq_refl (next_tick w) Hok). split; [done|]. right. eauto 6.
Qed.

(** The request was turned away: an error status and nothing done. *)
Definition denied `{E : Env} (w : World) (res : Response * World) : Prop :=
  resp_Status res.1 ∈ [StatusBadRequest; StatusUnauthorized; StatusForbidden; StatusServiceUnavailable] ∧
  w_db res.2 = w_db w ∧ w_redis res.2 = w_redis w ∧ w_tasks res.2 = w_tasks w ∧ w_http res.2 = w_http w.

Lemma untouched_denied `{E : Env} w res :
  resp_Status res.1 ∈ [StatusBadRequest; StatusUnauthorized; StatusForbidden; StatusServiceUnavailable] →
  untouched w res.2 → denied w res.
Proof. intros Hs Hu. split; [done|]. by destruct Hu as [->| ->]. Qed.

(** C10: Every route of the router except the public ones turns a request away, with a 4xx or 503 status and no
    effect on the database, Redis, the queue or other servers, unless it carries a token signed with the
    server's key and inside its validity period (with the admin claim for the admin routes) or, for the billing
    routes, a valid service signature. *)
Theorem routes_require_credentials `{E : Env} {J : Jwt} {L : JwtLaws J} d send_multi rt r w :
  rt ∈ router_New d send_multi →
  let res := rt_serve rt r w in
  let now := env_now (w_tick w) in
  let bearer claims := ∃ token, bearer_token r = Some token ∧ token_valid (dp_jwtMgr d) now token claims in
  let behind mw routes := ∃ rt0, rt0 ∈ routes ∧ rt = with_mw (maxBodySize bodyLimit) (with_mw mw rt0) in
  (∃ rt0, rt0 ∈ public_routes d ∧ rt = with_mw (maxBodySize bodyLimit) rt0) ∨
  (behind (auth_Middleware (dp_jwtMgr d)) (tenant_routes d send_multi) ∧ (denied w res ∨ ∃ claims, bearer claims)) ∨
  (behind (auth_Middleware (dp_jwtMgr d) ∘ AdminMiddleware) admin_routes ∧
   (denied w res ∨ ∃ claims, bearer claims ∧ tc_IsAdmin claims = true)) ∨
  (behind (HMACMiddleware (dp_svcHMACSecret d)) service_routes ∧ (denied w res ∨ service_signed (dp_svcHMACSecret d) r now)).
Proof.
  intros Hin. cbv zeta. unfold router_New in Hin. apply list_elem_of_fmap in Hin as (rt1 & -> & Hin).
  set (r1 := with_Body (MaxBytesReader bodyLimit (r_Body r)) r).
  change (rt_serve (with_mw (maxBodySize bodyLimit) rt1) r w) with (rt_serve rt1 r1 w). change (bearer_token r) with (bearer_token r1).
  rewrite !elem_of_app, !list_elem_of_fmap in Hin.
  destruct Hin as [?|[(rt0 & -> & Hrt)|[(rt0 & -> & Hrt)|(rt0 & -> & Hrt)]]]; [by left; eauto|..]; right.
  - left. split; [eauto|]. cbn [rt_serve with_mw].
    destruct (auth_Middleware_cases (dp_jwtMgr d) (rt_serve rt0) r1 w) as [[Hs Hu]|(token & claims & Hb & Hv & _)].
    + left. apply untouched_denied; [rewrite Hs; set_solver|done].
    + right. eauto.
  - right. left. split; [eauto|]. cbn [rt_serve with_mw compose].
    destruct (auth_Middleware_cases (dp_jwtMgr d) (AdminMiddleware (rt_serve rt0)) r1 w)
      as [[Hs Hu]|(token & claims & Hb & Hv & ->)].
    + left. apply untouched_denied; [rewrite Hs; set_solver|done].
    + unfold AdminMiddleware, GetClaims; simpl. destruct (tc_IsAdmin claims) eqn:Ha; [right; eauto 6|].
      left. apply untouched_denied; [simpl; set_solver|by right].
  - right. right. split; [eauto|]. cbn [rt_serve with_mw].
    destruct (HMACMiddleware_cases (dp_svcHMACSecret d) (rt_serve rt0) r1 w) as [[Hs Hu]|[Hs _]];
      [|right; by apply service_signed_limited in Hs].
    left. apply untouched_denied; [set_solver|done].
Qed.

(** HMACMiddleware calls the handler exactly for requests with a configured secret, a readable body of at most 1
    MiB, a timestamp within five minutes of the clock and a signature header equal to the HMAC of method, URI,
    timestamp and body hash; any other request gets 400, 401 or 503 and has no effect. *)
Theorem service_requests_authenticated `{E : Env} secret next r w :
  (service_signed secret r (env_now (w_tick w)) → HMACMiddleware secret next r w = next r (next_tick w)) ∧
  (¬ service_signed secret r (env_now (w_tick w)) →
   resp_Status (HMACMiddleware secret next r w).1 ∈ [StatusBadRequest; StatusUnauthorized; StatusServiceUnavailable] ∧
   untouched w (HMACMiddleware secret next r w).2).
Proof.
  split; [apply HMACMiddleware_accepts|]. intros Hn.
  destruct (HMACMiddleware_cases secret next r w) as [?|[? _]]; [done|by destruct Hn].
Qed.

(** C34: Reading a notification, its attempts, a channel or the list of notifications either fails with a status
    of at least 400 or answers with rows of the caller's own tenant only; a page of the list has at most 100
    rows. *)
Theorem reads_reveal_own_rows `{E : Env} {L : PgLaws E} r claims w :
  r_Claims r = Some claims →
  let own n := n_TenantID n = tc_TenantID claims ∧ ∃ id, notifications (w_db w) !! id = Some n in
  let answers (h : Request → M Response) (ok : Response → Prop) :=
    (400 ≤ resp_Status (h r w).1)%Z ∨ ok (h r w).1 in
  answers NotificationHandler_GetByID (λ resp, ∃ n, own n ∧ resp = response_data StatusOK (json_Notification n)) ∧
  answers NotificationHandler_List (λ resp, ∃ ns total limit offset, Forall own ns ∧ (length ns ≤ 100)%nat ∧
    resp = response_data StatusOK (json_ListResponse (enc_array json_Notification ns) total limit offset)) ∧
  answers NotificationHandler_ListAttempts (λ resp, ∃ n l, own n ∧
    Forall (λ a, notifications (w_db w) !! a_NotificationID a = Some n) l ∧
    resp = response_data StatusOK (enc_array json_DeliveryAttempt l)) ∧
  answers ChannelHandler_GetByID (λ resp, ∃ id c, channel_configs (w_db w) !! id = Some c ∧
    cr_TenantID c = tc_TenantID claims ∧ resp = response_data StatusOK (json_ChannelConfig (config_of_row c))).
Proof.
  intros Hr own answers. split_and!.
  - unfold answers, NotificationHandler_GetByID, with_claims, GetClaims. rewrite Hr.
    destruct (own_notification_outcome r claims (λ n _, mret (response_data StatusOK (json_Notification n))) w)
      as [?|(id & n & w' & Hn & Ht & _ & _ & ->)]; [by left|right; unfold own; eauto 6].
  - unfold answers, NotificationHandler_List, with_claims, GetClaims. rewrite Hr.
    pose proof (parsePagination_bounds r) as [Hb _]. destruct (parsePagination r) as [limit offset]. cbv zeta. simpl in Hb.
    destruct (bool_decide (_ ≠ _) && _); [by left|]. destruct (bool_decide (_ ≠ _) && _); [by left|].
    rewrite ST_bind_run. unfold NotificationService_List. cbn [nf_Limit]. rewrite (proj2 (Z.leb_gt _ _)) by lia.
    match goal with |- context [PgNotificationRepo_List ?f w] =>
      pose proof (PgNotificationRepo_List_outcome f w) as Ho; destruct (PgNotificationRepo_List f w) as [[[ns total]|] w'] end.
    2: by left.
    right. cbn [fst snd] in *. destruct (Ho _ _ eq_refl) as [H1 H2]. cbn [nf_Limit nf_TenantID] in *.
    exists ns, total, limit, offset. split_and!; [done| |done]. destruct (_ <=? 0)%Z in H2; lia.
  - unfold answers, NotificationHandler_ListAttempts, with_claims, GetClaims. rewrite Hr.
    match goal with |- context [own_notification r claims ?k w] => destruct (own_notification_outcome r claims k w)
      as [?|(id & n & w' & Hn & Ht & Hdb & _ & ->)] end.
    { by left. }
    rewrite ST_bind_run.
    unfold PgDeliveryAttemptRepo_ListByNotification. rewrite db_query_at_run.
    match goal with |- context [db_query ?g w'] => destruct (db_query_outcome g w') as (res & w2 & -> & _ & _ & _ & Ho) end.
    cbn [fst snd]. destruct res as [l|]; [right|by left]. destruct Ho as [[= ->]|[? ?]]; [|done].
    exists n. eexists. split; [unfold own; eauto|]. split; [|done]. apply Forall_forall. intros a Ha.
    rewrite merge_sort_Permutation, list_elem_of_filter in Ha. destruct Ha as [-> _]. done.
  - unfold answers, ChannelHandler_GetByID, with_claims, with_id, GetClaims. rewrite Hr.
    destruct (uuid_Parse _) as [id|]; [|by left]. unfold ChannelService_GetByID, PgChannelConfigRepo_GetByID.
    rewrite ST_bind_run.
    match goal with |- context [db_query ?g w] => destruct (db_query_outcome g w) as (res & w2 & -> & _ & _ & _ & Ho) end.
    cbn [fst snd]. destruct res as [cfg|]; [|left; apply classify_status; by repeat constructor].
    destruct Ho as [Ho|[? ?]]; [|done]. destruct (channel_configs (w_db w) !! id) as [c|] eqn:Hc; [|done].
    injection Ho as ->. case_bool_decide as Ht; [|by left]. right. eauto 6.
Qed.

(** What [GenerateToken] signs, with the clock's first reading. *)
Lemma GenerateToken_outcome `{E : Env} {J : Jwt} {L : JwtLaws J} m tid slug admin w :
  ∃ claims token w', GenerateToken m tid slug admin w = (Ok token, w') ∧ (w_tick w < w_tick w')%nat ∧
    SignedString SigningMethodHS256 (jm_signingKey m) claims = Ok token ∧
    tc_TenantID claims = tid ∧ tc_IsAdmin claims = admin ∧ tc_NotBefore claims = NewNumericDate (env_now (w_tick w)) ∧
    tc_ExpiresAt claims = NewNumericDate (env_now (w_tick w) + jm_expiration m).
Proof.
  unfold GenerateToken, time_Now, uuid_New. rewrite !ST_bind_run. cbn [fst snd].
  match goal with |- context [SignedString _ _ ?c] => pose proof (SignedString_HS256 (jm_signingKey m) c) as Hs;
    destruct (SignedString SigningMethodHS256 (jm_signingKey m) c) as [token|] eqn:Ht; [|done];
    exists c, token end.
  eexists. split_and!; try done. simpl. lia.
Qed.

Lemma db_query_tick `{E : Env} {A} (f : DB → result A) w : w_tick (db_query f w).2 = S (w_tick w).
Proof. unfold db_query, db_exec. by destruct (env_fault _). Qed.

(** Looking a key up by its value finds a row with that value. *)
Lemma GetByAPIKey_outcome `{E : Env} {P : PgLaws E} apiKey w :
  ∃ r w', PgAPIKeyRepo_GetByAPIKey apiKey w = (r, w') ∧ (w_tick w ≤ w_tick w')%nat ∧ w_db w' = w_db w ∧
    match r with Ok k => (∃ kid, api_keys (w_db w) !! kid = Some k) ∧ k_APIKey k = apiKey | Err _ => True end.
Proof.
  unfold PgAPIKeyRepo_GetByAPIKey. rewrite db_query_at_run.
  match goal with |- context [db_query ?g w] =>
    pose proof (db_query_tick g w) as Hk; destruct (db_query_outcome g w) as (r & w' & Hq & Hdb & _ & _ & Hr) end.
  rewrite Hq in *. cbn [snd] in Hk. exists r, w'. split_and!; [done|lia|done|]. destruct Hr as [->|[? ->]]; [|done].
  destruct (head _) as [k|] eqn:Hh; [|done]. apply head_Some_elem_of in Hh.
  rewrite list_elem_of_filter, elem_of_pg_rows in Hh. naive_solver.
Qed.

(** A token signed now by [GenerateToken]. *)
Definition issued `{J : Jwt} (m : JWTManager) (token : string) (claims : TenantClaims) (t : Time) : Prop :=
  SignedString SigningMethodHS256 (jm_signingKey m) claims = Ok token ∧
  tc_NotBefore claims = NewNumericDate t ∧ tc_ExpiresAt claims = NewNumericDate (t + jm_expiration m).

(** The key, tenant and secret behind a tenant token. *)
Definition tenant_login `{E : Env} (w : World) (req : tokenRequest) (claims : TenantClaims) : Prop :=
  ∃ kid key tenant, api_keys (w_db w) !! kid = Some key ∧ k_APIKey key = tr_APIKey req ∧
    k_RevokedAt key = None ∧ bcrypt_Compare (k_APISecretHash key) (tr_APISecret req) = true ∧
    tenants (w_db w) !! k_TenantID key = Some tenant ∧ t_IsActive tenant = true ∧
    tc_TenantID claims = t_ID tenant.

Lemma issueTenantToken_outcome `{E : Env} {J : Jwt} {L : JwtLaws J} {P : PgLaws E} m req w resp w' :
  issueTenantToken m req w = (resp, w') → resp_Status resp = StatusOK →
  ∃ token claims k, resp = token_response m token ∧ issued m token claims (env_now k) ∧
    (w_tick w ≤ k < w_tick w')%nat ∧ tc_IsAdmin claims = false ∧ tenant_login w req claims.
Proof.
  unfold issueTenantToken. rewrite ST_bind_run.
  destruct (GetByAPIKey_outcome (tr_APIKey req) w) as ([key|] & w1 & -> & Hw1 & Hdb & Hk); cbn [fst snd];
    [|by intros [= <- <-]]. destruct Hk as [[kid Hkid] Hk].
  case_bool_decide as Hrev; [by intros [= <- <-]|]. rewrite ST_bind_run. unfold PgTenantRepo_GetByID.
  match goal with |- context [db_query ?g w1] =>
    pose proof (db_query_tick g w1) as Hw2; destruct (db_query_outcome g w1) as (r & w2 & Hq & _ & _ & _ & Hr) end.
  rewrite Hq in *. cbn [fst snd] in *. destruct r as [tenant|]; [|by intros [= <- <-]]. destruct Hr as [Hr|[? ?]]; [|done]. rewrite Hdb in Hr.
  destruct (tenants (w_db w) !! k_TenantID key) as [tn|] eqn:Ht; [|done]. injection Hr as ->.
  destruct (t_IsActive tn) eqn:Hact; [|by intros [= <- <-]]. cbn [negb].
  destruct (bcrypt_Compare _ _) eqn:Hcmp; [|by intros [= <- <-]]. cbn [negb]. rewrite ST_bind_run.
  destruct (GenerateToken_outcome m (t_ID tn) (t_Slug tn) false w2) as (c & tok & w3 & -> & Hw3 & Hs & Htid & Hadm & Hnb & Hex).
  cbn [fst snd]. intros [= <- <-] _. exists tok, c, (w_tick w2). split_and!; try done; [lia|].
  exists kid, key, tn. split_and!; try done. by apply eq_None_not_Some.
Qed.

(** Whose credentials a token was issued for. *)
Definition login `{E : Env} (adminKey adminSecret : string) (w : World) (req : tokenRequest) (claims : TenantClaims) : Prop :=
  if tc_IsAdmin claims
  then adminKey ≠ "" ∧ tr_APIKey req = adminKey ∧ tr_APISecret req = adminSecret
  else tenant_login w req claims.

Lemma IssueToken_issued `{E : Env} {J : Jwt} {L : JwtLaws J} {P : PgLaws E} m adminKey adminSecret r w resp w' :
  IssueToken m adminKey adminSecret r w = (resp, w') → resp_Status resp = StatusOK →
  ∃ req token claims k, decode_body dec_tokenRequest r = Ok req ∧ resp = token_response m token ∧
    login adminKey adminSecret w req claims ∧ (w_tick w ≤ k < w_tick w')%nat ∧ issued m token claims (env_now k).
Proof.
  unfold IssueToken, login. destruct (decode_body _ r) as [req|] eqn:Hd; [|by intros [= <- <-]].
  destruct (_ || _); [by intros [= <- <-]|]. destruct (bool_decide (adminKey ≠ "") && _) eqn:Hadmin.
  - apply andb_true_iff in Hadmin as [Hne Hk]. apply bool_decide_eq_true in Hne, Hk.
    unfold issueAdminToken. case_bool_decide as Hsec; cbn [negb]; [|by intros [= <- <-]]. rewrite ST_bind_run.
    destruct (GenerateToken_outcome m uuid_Nil "" true w) as (c & tok & w1 & -> & Hw1 & Hs & _ & Hadm & Hnb & Hex).
    cbn [fst snd]. intros [= <- <-] _. exists req, tok, c, (w_tick w). rewrite Hadm. by split_and!; try done; lia.
  - intros Hrun Hst. destruct (issueTenantToken_outcome _ _ _ _ _ Hrun Hst) as (tok & c & k & -> & Hi & Hk & Hadm & Hl).
    exists req, tok, c, k. rewrite Hadm. by split_and!; try done; lia.
Qed.

(** The middleware accepts an issued token while it is valid. *)
Lemma issued_accepted `{E : Env} {J : Jwt} {L : JwtLaws J} m token claims t next r w :
  issued m token claims t → bearer_token r = Some token →
  (NewNumericDate t ≤ env_now (w_tick w) < NewNumericDate (t + jm_expiration m))%Z →
  auth_Middleware m next r w = next (with_Claims claims r) (next_tick w).
Proof.
  intros (Hs & Hnb & Hex) Hb Hw. eapply auth_Middleware_accepts; [done|]. eapply Parse_Signed; [done|done|lia].
Qed.

(** A token IssueToken hands out was asked for with the admin credentials (and then carries the admin claim) or
    with an unrevoked API key and the matching secret of an active tenant (and then carries that tenant's id and
    no admin claim), and the authentication middleware accepts it with those claims throughout its validity
    period. *)
Theorem issued_token_authenticates `{E : Env} {J : Jwt} {L : JwtLaws J} {P : PgLaws E}
    m adminKey adminSecret r w resp w' :
  IssueToken m adminKey adminSecret r w = (resp, w') → resp_Status resp = StatusOK →
  ∃ req token claims k, decode_body dec_tokenRequest r = Ok req ∧ resp = token_response m token ∧
    login adminKey adminSecret w req claims ∧ (w_tick w ≤ k < w_tick w')%nat ∧
    ∀ next r2 w2, bearer_token r2 = Some token →
      (NewNumericDate (env_now k) ≤ env_now (w_tick w2) < NewNumericDate (env_now k + jm_expiration m))%Z →
      auth_Middleware m next r2 w2 = next (with_Claims claims r2) (next_tick w2).
Proof.
  intros Hrun Hst. destruct (IssueToken_issued _ _ _ _ _ _ _ Hrun Hst) as (req & token & claims & k & Hd & Hr & Hl & Hk & Hi).
  exists req, token, claims, k. split_and!; try done; [lia..|]. intros next r2 w2. by apply issued_accepted.
Qed.

(** C17: On a send-multi request whose first JSON document the handler can read, the middleware charges the
    number of channels the handler will send to, except when anything follows that document in the body: then it
    charges one slot, however many channels are sent. *)
Theorem multi_charge_counts_channels `{E : Env} reserve refund url next r claims input :
  r_Claims r = Some claims → HasSuffix (r_Path r) "/send-multi" = true → is_Ok (io_ReadAll (r_Body r)) = true →
  decode_body dec_SendMultiInput r = Ok input → smi_Channels input ≠ [] →
  quota_Middleware reserve refund url next r =
  charge reserve refund url (tc_TenantID claims)
    (if r_Trailing r then 1 else Z.of_nat (length (smi_Channels input))) (next r).
Proof.
  intros Hc Hp Hb Hd Hne. rewrite (quota_charges _ _ _ _ _ claims) by done. rewrite Hp. unfold r_JSON.
  pose proof (probe_channels_multi _ _ Hd Hne) as Hn. unfold decode_body in Hd. destruct (r_First r) as [j|] eqn:Hf; [|done].
  destruct (io_ReadAll (r_Body r)) as [body|] eqn:Hr; [|done]. rewrite (Decode_whole r body j Hr Hf).
  destruct (r_Trailing r); [done|]. by rewrite Hn.
Qed.

(** ** The theorems at work *)

Section witnesses.
#[local] Existing Instance healthy.

Definition sample_deps : Deps :=
  mkDeps _ (mkJWTManager "signing-key" "notifyd" Hour) (sample_registry accepted) 5 "admin" "admin-secret" "svc-secret"
    "" "https://example.com/upgrade".

Definition sample_claims : TenantClaims :=
  mkTenantClaims "notifyd" "" (sample_now + Hour) sample_now sample_now "" id_tenant "acme" false.

Definition bearer (token : string) : gmap string string := {["Authorization" := "Bearer " +:+ token]}.

(** A request to delete the sample channel with the tenant's token. *)
Definition delete_request : Request :=
  mkRequest "DELETE" "/channels/x/" "/channels/x/" (bearer (sample_sign "signing-key" sample_claims)) ∅
    {["channelID" := uuid_String id_channel]} (NewReader "") None.

Definition delete_route : Route := mkRoute _ "DELETE" "/channels/{channelID}/" ChannelHandler_Delete.

Lemma delete_route_listed : delete_route ∈ tenant_routes sample_deps (sequential_multi 5).
Proof. do 7 apply list_elem_of_further. apply list_elem_of_here. Qed.

(** The tenant's own channel goes, and nothing of the others. *)
Lemma tenant_confined_witness :
  app_ok (w_db (rt_serve (with_mw (maxBodySize bodyLimit) (with_mw (auth_Middleware (dp_jwtMgr sample_deps)) delete_route))
    delete_request (healthy_world sample_db)).2).
Proof.
  apply (tenant_requests_confined sample_deps (sequential_multi 5) delete_route delete_request (healthy_world sample_db)).
  - by apply sequential_multi_runs.
  - exact delete_route_listed.
  - exact sample_app_ok.
Defined.

Definition anonymous_request : Request := mkRequest "DELETE" "/channels/x/" "/channels/x/" ∅ ∅ ∅ (NewReader "") None.

(** Without a token nothing happens. *)
Lemma routes_guarded_witness :
  let rt := with_mw (maxBodySize bodyLimit) (with_mw (auth_Middleware (dp_jwtMgr sample_deps)) delete_route) in
  rt ∈ router_New sample_deps (sequential_multi 5) ∧
  denied (healthy_world sample_db) (rt_serve rt anonymous_request (healthy_world sample_db)).
Proof.
  cbv zeta. set (rt := with_mw _ _).
  assert (rt ∈ router_New sample_deps (sequential_multi 5)) as Hin.
  { apply list_elem_of_fmap_2. apply elem_of_app. right. apply elem_of_app. left. apply list_elem_of_fmap_2, delete_route_listed. }
  split; [exact Hin|].
  destruct (routes_require_credentials sample_deps (sequential_multi 5) _ anonymous_request (healthy_world sample_db) Hin)
    as [(rt0 & Hrt & Heq)|[[_ [Hd|(claims & token & Hb & _)]]|[[(rt0 & Hrt & Heq) _]|[(rt0 & Hrt & Heq) _]]]].
  - exfalso. apply (f_equal rt_Pattern) in Heq. apply (list_elem_of_fmap_2 rt_Pattern) in Hrt. simpl in *. rewrite <- Heq in Hrt. set_solver.
  - exact Hd.
  - exfalso. vm_compute in Hb. discriminate Hb.
  - exfalso. apply (f_equal rt_Pattern) in Heq. apply (list_elem_of_fmap_2 rt_Pattern) in Hrt. simpl in *. rewrite <- Heq in Hrt. set_solver.
  - exfalso. apply (f_equal rt_Pattern) in Heq. apply (list_elem_of_fmap_2 rt_Pattern) in Hrt. simpl in *. rewrite <- Heq in Hrt. set_solver.
Defined.

Definition read_request : Request :=
  mkRequest "GET" "/notifications/x/" "/notifications/x/" ∅ ∅ {["notificationID" := uuid_String id_notification]}
    (NewReader "") (Some sample_claims).

Lemma reads_own_witness :
  (400 ≤ resp_Status (NotificationHandler_GetByID read_request (healthy_world sample_db)).1)%Z ∨
  ∃ n, (n_TenantID n = id_tenant ∧ ∃ id, notifications sample_db !! id = Some n) ∧
    (NotificationHandler_GetByID read_request (healthy_world sample_db)).1 = response_data StatusOK (json_Notification n).
Proof. apply (reads_reveal_own_rows read_request sample_claims (healthy_world sample_db)). reflexivity. Defined.

(** The admin logs in. *)
Definition login_request : Request :=
  mkRequest "POST" "/auth/token" "/auth/token" ∅ ∅ ∅
    (NewReader (Marshal (JObj [("api_key", JStr "admin"); ("api_secret", JStr "admin-secret")]))) None.

Lemma issued_token_witness :
  ∃ token claims k, tc_IsAdmin claims = true ∧
    ∀ next r2 w2, bearer_token r2 = Some token →
      (NewNumericDate (env_now k) ≤ env_now (w_tick w2) < NewNumericDate (env_now k + Hour))%Z →
      auth_Middleware (dp_jwtMgr sample_deps) next r2 w2 = next (with_Claims claims r2) (next_tick w2).
Proof.
  destruct (issued_token_authenticates (J := sample_jwt) (dp_jwtMgr sample_deps) "admin" "admin-secret" login_request
    (healthy_world sample_db) _ _ eq_refl eq_refl) as (req & token & claims & k & Hreq & _ & Hl & _ & Hacc).
  exists token, claims, k. split; [|exact Hacc]. unfold login in Hl.
  destruct (tc_IsAdmin claims); [reflexivity|]. exfalso. destruct Hl as (kid & key & tenant & Hk & _).
  cbn [healthy_world world_of w_db sample_db api_keys] in Hk. by rewrite lookup_empty in Hk.
Defined.

(** A signed billing call. *)
Definition usage_request : Request :=
  mkRequest "GET" "/u" "/u"
    (<["X-Service-Signature" := hex_EncodeToString ("svc" +:+ hmac_canonical "GET" "/u" "2026-03-14T00:00:00Z" "")]>
      {["X-Service-Timestamp" := "2026-03-14T00:00:00Z"]}) ∅ ∅ (NewReader "") None.

Lemma service_auth_witness :
  HMACMiddleware "svc" EntitlementHandler_Usage usage_request (healthy_world sample_db) =
  EntitlementHandler_Usage usage_request (next_tick (healthy_world sample_db)).
Proof.
  apply (service_requests_authenticated "svc" EntitlementHandler_Usage usage_request (healthy_world sample_db)).
  split; [discriminate|]. exists "", sample_now. split_and!; [reflexivity|vm_compute; discriminate|vm_compute; reflexivity|
    vm_compute; discriminate|vm_compute; discriminate|vm_compute; reflexivity].
Defined.

(** Two channels followed by trailing data are charged as one. *)
Definition multi_body : json :=
  JObj [("channels", JArr [JObj [("body", JStr "a")]; JObj [("body", JStr "b")]])].
Definition multi_request (trailing : bool) : Request :=
  mkRequest "POST" "/notifications/send-multi" "/notifications/send-multi" ∅ ∅ ∅
    (NewReader (Marshal multi_body +:+ if trailing then "x" else "")) (Some sample_claims).

Definition multi_input : SendMultiInput :=
  mkSendMultiInput [mkSendNotificationInput uuid_Nil None "a" None; mkSendNotificationInput uuid_Nil None "b" None].

Lemma multi_charge_witness :
  let charged := λ trailing, quota_Middleware (Reserve "") Refund "" (sequential_multi 5) (multi_request trailing) in
  charged false = charge (Reserve "") Refund "" id_tenant 2 (sequential_multi 5 (multi_request false)) ∧
  charged true = charge (Reserve "") Refund "" id_tenant 1 (sequential_multi 5 (multi_request true)).
Proof.
  split.
  - apply (multi_charge_counts_channels (Reserve "") Refund "" (sequential_multi 5) (multi_request false) sample_claims multi_input);
      [reflexivity|vm_compute; reflexivity|vm_compute; reflexivity|vm_compute; reflexivity|discriminate].
  - apply (multi_charge_counts_channels (Reserve "") Refund "" (sequential_multi 5) (multi_request true) sample_claims multi_input);
      [reflexivity|vm_compute; reflexivity|reflexivity|vm_compute; reflexivity|discriminate].
Defined.
End witnesses.
