(* ===== verification/SdkProps.v ===== *)
(** * SdkProps: the SDK's client, alone and with the server

    How often a call talks to the API, that concurrent callers share a token,
    that a cached token is still valid at the server, and that both sides read
    the same messages. *)
From Stdlib Require Import Ascii.
From S2P Require Import Prelude GoTime Utf8 Json JsonText Durations Mime Domain World Repository Integrity Tasks Http.
From S2P Require Import ChatProviders Auth Handlers SdkTypes Sdk SampleEnv Samples SampleJwt Router ApiFacts ApiProps.

(** ** One exchange, one request *)

(** Clients of the same account at the same server. *)
Definition same_account (c c' : Client) : Prop :=
  c_apiKey c' = c_apiKey c ∧ c_apiSecret c' = c_apiSecret c ∧ c_baseURL c' = c_baseURL c.

Lemma same_account_token c c' : same_account c c' → token_request c' = token_request c.
Proof. intros (H1 & H2 & H3). unfold token_request. by rewrite H1, H2, H3. Qed.
Lemma same_account_api c c' t opts : same_account c c' → api_request c' t opts = api_request c t opts.
Proof. intros (H1 & H2 & H3). unfold api_request. by rewrite H3. Qed.
#[export] Instance same_account_preorder : PreOrder same_account.
Proof. split; [done|]. intros c1 c2 c3 (? & ? & ?) (? & ? & ?). unfold same_account. intuition congruence. Qed.

Section runs.
Context `{E : Env}.

(** The outcome of an exchange. *)
Definition exchanged (c : Client) (w : World) (out : sdkResult string * Client * World) : Prop :=
  w_http out.2 = w_http w ++ [token_request c] ∧ (w_tick w < w_tick out.2)%nat ∧ same_account c out.1.2 ∧
  match out.1.1 with inl t => c_cachedToken out.1.2 = t | inr _ => True end.

Lemma fetch_exchanged c w : url_parses (rq_URL (token_request c)) = true → exchanged c w (fetchAndCacheToken c w).
Proof.
  intros Hu. unfold fetchAndCacheToken. cbv zeta. rewrite Hu. cbn [negb]. rewrite ST_bind_run. cbn [fst snd client_Do].
  destruct (env_http _ _) as [resp|err]; [|split_and!; simpl; done || lia].
  destruct (negb _); [split_and!; simpl; done || lia|].
  destruct (unmarshal _ _) as [tr|err]; [|split_and!; simpl; done || lia].
  destruct (ParseDuration _) as [d|err]; [|split_and!; simpl; done || lia].
  rewrite ST_bind_run. split_and!; simpl; done || lia.
Qed.

Lemma refresh_exchanged c w : url_parses (rq_URL (token_request c)) = true → exchanged c w (forceRefreshToken c w).
Proof. apply (fetch_exchanged (set_token "" (c_expiresAt c) c)). Qed.

Lemma authenticated_fresh c w : c_cachedToken c ≠ "" → (env_now (w_tick w) + expiryMargin < c_expiresAt c)%Z →
  authenticatedToken c w = ((inl (c_cachedToken c), c), next_tick w).
Proof.
  intros Hc Hf. unfold authenticatedToken, cache_fresh. rewrite bool_decide_eq_false_2 by done. rewrite !ST_bind_run.
  cbn [fst snd mret ST_ret time_Now]. by rewrite (proj2 (Z.ltb_lt _ _) Hf).
Qed.

(** A token: the cached one, or one that was just exchanged. *)
Lemma token_run c w : url_parses (rq_URL (token_request c)) = true →
  (∃ w1, authenticatedToken c w = ((inl (c_cachedToken c), c), w1) ∧ w_http w1 = w_http w ∧ (w_tick w ≤ w_tick w1)%nat) ∨
  exchanged c w (authenticatedToken c w).
Proof.
  intros Hu. unfold authenticatedToken, cache_fresh. rewrite ST_bind_run. case_bool_decide; cbn [fst snd].
  - right. by apply fetch_exchanged.
  - rewrite ST_bind_run. cbn [fst snd mret ST_ret]. destruct (_ <? _)%Z.
    + left. eexists. split; [done|]. split; [done|]. simpl. lia.
    + right. destruct (fetch_exchanged c (time_Now w).2 Hu) as (H1 & H2 & H3 & H4).
      split_and!; [done|eapply Nat.lt_trans; [|exact H2]; simpl; lia|done|done].
Qed.

Lemma send_run c t opts w : url_parses (rq_URL (api_request c t opts)) = true →
  send c t opts w =
  (match env_http (w_tick w) (api_request c t opts) with
   | Err err => other ("notifyd: " +:+ ro_method opts +:+ " " +:+ ro_path opts) err
   | Ok resp => inl resp
   end, add_http (api_request c t opts) (next_tick w)).
Proof. intros Hu. unfold send. cbv zeta. by rewrite Hu. Qed.

(** A request that the API turned away for its token, in a run. *)
Definition rejected (w w' : World) (q : HttpRequest) : Prop :=
  ∃ k resp, (w_tick w ≤ k < w_tick w')%nat ∧ env_http k q = Ok resp ∧ rs_StatusCode resp = 401%Z.

(** The request that ended a run, and what was made of its answer. *)
Definition concludes {A} (opts : requestOptions) (out : option (json → result A)) (w' : World) (q : HttpRequest)
    (r : sdkResult (option A)) : Prop :=
  ∃ k, w_tick w' = S k ∧
    match env_http k q with Err _ => ∃ e, r = inr (OtherError e) | Ok resp => r = finish opts out resp end.

(** A call: an exchange if need be, then one request, or, if that is turned
    away, one more exchange and one more request. *)
Inductive protocol {A} (c : Client) (opts : requestOptions) (out : option (json → result A)) (w w' : World)
    (r : sdkResult (option A)) (token : string) : list HttpRequest → Prop :=
| no_token e : r = inr e → protocol c opts out w w' r token [token_request c]
| one_request pre :
    pre = [] ∨ pre = [token_request c] →
    (∀ resp, env_http (pred (w_tick w')) (api_request c token opts) = Ok resp → rs_StatusCode resp ≠ 401%Z) →
    concludes opts out w' (api_request c token opts) r →
    protocol c opts out w w' r token (pre ++ [api_request c token opts])
| no_new_token pre t1 e :
    pre = [] ∨ pre = [token_request c] → rejected w w' (api_request c t1 opts) → r = inr e →
    protocol c opts out w w' r token (pre ++ [api_request c t1 opts; token_request c])
| two_requests pre t1 :
    pre = [] ∨ pre = [token_request c] → rejected w w' (api_request c t1 opts) →
    concludes opts out w' (api_request c token opts) r →
    protocol c opts out w w' r token (pre ++ [api_request c t1 opts; token_request c; api_request c token opts]).

(** Once there is a token. *)
Lemma after_token {A} c opts (out : option (json → result A)) pre t w0 w :
  url_parses (rq_URL (token_request c)) = true → url_parses (rq_URL (api_request c "" opts)) = true →
  pre = [] ∨ pre = [token_request c] → c_cachedToken c = t → (w_tick w0 ≤ w_tick w)%nat → w_http w = w_http w0 ++ pre →
  let run := (resp ← send c t opts;
     match resp with
     | inr err => mret (inr err, c)
     | inl resp =>
         if (rs_StatusCode resp =? StatusUnauthorized)%Z then
           '(token, c) ← forceRefreshToken c;
           match token with
           | inr err => mret (inr err, c)
           | inl token =>
               resp ← send c token opts;
               match resp with
               | inr err => mret (inr err, c)
               | inl resp => mret (finish opts out resp, c)
               end
           end
         else mret (finish opts out resp, c)
     end) w in
  ∃ reqs, w_http run.2 = w_http w0 ++ reqs ∧ same_account c run.1.2 ∧
    protocol c opts out w0 run.2 run.1.1 (c_cachedToken run.1.2) reqs.
Proof.
  intros Hu Ha Hpre Ht Hw Hh run. unfold run. clear run. set (q := api_request c t opts).
  assert (∀ t, url_parses (rq_URL (api_request c t opts)) = true) as Ha' by done.
  rewrite ST_bind_run, send_run by done. fold q. cbn [fst snd].
  destruct (env_http (w_tick w) q) as [resp|err] eqn:Hq.
  2:{ exists (pre ++ [q]). unfold other. cbn [fst snd mret ST_ret]. split; [simpl; by rewrite Hh, app_assoc|]. split; [done|].
      rewrite Ht. apply one_request; [done|intros resp; simpl; fold q; by rewrite Hq|].
      exists (w_tick w). split; [done|]. fold q. rewrite Hq. by eexists. }
  destruct (Z.eqb_spec (rs_StatusCode resp) StatusUnauthorized) as [H401|Hne].
  2:{ exists (pre ++ [q]). cbn [fst snd mret ST_ret]. split; [simpl; by rewrite Hh, app_assoc|]. split; [done|].
      rewrite Ht. apply one_request; [done|intros resp'; simpl; fold q; rewrite Hq; by intros [= <-]|].
      exists (w_tick w). split; [done|]. fold q. by rewrite Hq. }
  rewrite ST_bind_run. set (w2 := add_http q (next_tick w)).
  assert (∀ w', (w_tick w2 ≤ w_tick w')%nat → rejected w0 w' q) as Hrej.
  { intros w' Hw'. exists (w_tick w), resp. split; [simpl in Hw'; lia|]. by split. }
  destruct (refresh_exchanged c w2 Hu) as (H1 & H2 & H3 & H4).
  destruct (forceRefreshToken c w2) as [[[t2|e] c2] w3]; cbn [fst snd] in *.
  - rewrite ST_bind_run, send_run by (by rewrite (same_account_api c c2)). rewrite (same_account_api c c2) by done.
    set (q2 := api_request c t2 opts). cbn [fst snd].
    assert (w_http (add_http q2 (next_tick w3)) = w_http w0 ++ (pre ++ [q; token_request c; q2])) as Hh3.
    { simpl. rewrite H1. simpl. rewrite Hh, <- !app_assoc. done. }
    destruct (env_http (w_tick w3) q2) as [resp2|err2] eqn:Hq2; unfold other; cbn [fst snd mret ST_ret];
      (eexists; split; [exact Hh3|]; split; [done|]; rewrite H4; apply two_requests; [done|apply Hrej; simpl in *; lia|]);
      exists (w_tick w3); (split; [done|]); fold q2; rewrite Hq2; [done|by eexists].
  - cbn [mret ST_ret fst snd]. exists (pre ++ [q; token_request c]).
    split; [rewrite H1; simpl; by rewrite Hh, <- !app_assoc|]. split; [done|].
    eapply no_new_token; [done|apply Hrej; simpl in *; lia|done].
Qed.
End runs.

(** ** Concurrent callers *)

Section callers.
Context `{E : Env} (c0 : Client) (w0 : World).

(** [n] exchanges were made since [w0]. *)
Definition asked (w : World) (n : nat) : Prop :=
  ∃ l, w_http w = w_http w0 ++ l ∧ length (filter (λ q, q = token_request c0) l) = n.

(** Every exchange is answered with a token that stays fresh. *)
Definition exchange_works (d : Duration) : Prop :=
  url_parses (rq_URL (token_request c0)) = true ∧ ParseDuration (Duration_String d) = Ok d ∧
  (∀ k, ∃ token body, env_http k (token_request c0) = Ok (mkHttpResponse 200 body) ∧ token ≠ "" ∧
     unmarshal dec_sdk_tokenResponse body = Ok (mkSdkTokenResponse token (Duration_String d))) ∧
  (∀ j k, env_now j + expiryMargin < env_now k + d)%Z.

(** The cache is empty and nothing was asked, or it holds the one token; the
    lock is held exactly by a caller inside. *)
Definition shared (s : callers) : Prop :=
  same_account c0 (cs_client s) ∧
  (if cs_locked s then ∃ i, ∀ k, cs_pcs s !! k = Some Holding ↔ k = i else ∀ i, cs_pcs s !! i ≠ Some Holding) ∧
  ((c_cachedToken (cs_client s) = "" ∧ asked (cs_world s) 0 ∧ ∀ i r, cs_pcs s !! i ≠ Some (Got r)) ∨
   (c_cachedToken (cs_client s) ≠ "" ∧ asked (cs_world s) 1 ∧
    (∀ j, env_now j + expiryMargin < c_expiresAt (cs_client s))%Z ∧
    ∀ i r, cs_pcs s !! i = Some (Got r) → r = inl (c_cachedToken (cs_client s)))).

Lemma asked_other w n q : q ≠ token_request c0 → asked w n → asked (client_Do q w).2 n.
Proof.
  intros Hq (l & Hl & Hn). exists (l ++ [q]). simpl. rewrite Hl, app_assoc. split; [done|].
  by rewrite filter_app, filter_cons_False, filter_nil, app_nil_r.
Qed.

Lemma asked_token w w' n : asked w n → w_http w' = w_http w ++ [token_request c0] → asked w' (S n).
Proof.
  intros (l & Hl & Hn) Hw. exists (l ++ [token_request c0]). rewrite Hw, Hl, app_assoc. split; [done|].
  rewrite filter_app, filter_cons_True, filter_nil, length_app by done. simpl. lia.
Qed.

Lemma lookup_moved (pcs : list caller) i x j y : pcs !! i = Some x → <[i := y]> pcs !! j = if decide (i = j) then Some y else pcs !! j.
Proof.
  intros Hi. destruct (decide (i = j)) as [<-|Hne]; [|by apply list_lookup_insert_ne].
  apply list_lookup_insert_eq. by eapply lookup_lt_Some.
Qed.

(** The lock after a caller has moved on. *)
Lemma released (pcs : list caller) i j r : pcs !! i = Some Holding → (∀ k, pcs !! k = Some Holding → k = i) →
  <[i := Got r]> pcs !! j ≠ Some Holding.
Proof.
  intros Hi Hu. rewrite (lookup_moved _ _ _ _ _ Hi). destruct (decide (i = j)) as [|Hne]; [done|]. intros H. by apply Hu in H.
Qed.

Lemma run_token_empty d c w : exchange_works d → same_account c0 c → c_cachedToken c = "" →
  ∃ token c' w', authenticatedToken c w = ((inl token, c'), w') ∧ token ≠ "" ∧ same_account c0 c' ∧ c_cachedToken c' = token ∧
    (∀ j, env_now j + expiryMargin < c_expiresAt c')%Z ∧ w_http w' = w_http w ++ [token_request c0].
Proof.
  intros (Hu & Hp & Hx & Hclk) Hc He. unfold authenticatedToken, cache_fresh. rewrite bool_decide_eq_true_2 by done.
  rewrite ST_bind_run. cbn [fst snd mret ST_ret]. unfold fetchAndCacheToken. cbv zeta.
  rewrite (same_account_token c0 c), Hu by done. cbn [negb]. rewrite ST_bind_run. cbn [fst snd client_Do].
  destruct (Hx (w_tick w)) as (token & body & -> & Ht & Hb). cbn [rs_StatusCode rs_Body].
  change (negb (200 =? StatusOK)%Z) with false. cbv iota. rewrite Hb. cbn [st_ExpiresIn st_Token]. rewrite Hp.
  eexists token, _, _. rewrite ST_bind_run. split; [reflexivity|]. split; [done|]. split; [etrans; [exact Hc|]; done|].
  split; [done|]. split; [|done]. intros j. cbn [c_expiresAt set_token fst time_Now]. apply Hclk.
Qed.

Lemma tstep_shared d s s' : exchange_works d → tstep s s' → shared s → shared s'.
Proof.
  intros Hx Hstep (Hacc & Hlock & Hcache). destruct Hstep as [c w pcs i Hi|c w pcs i r c' w' Hi Hrun|l c w pcs q Hq];
    unfold shared in *; cbn [cs_client cs_locked cs_pcs cs_world] in *.
  - split; [done|]. split.
    + exists i. intros k. rewrite (lookup_moved _ _ _ _ _ Hi). destruct (decide (i = k)) as [->|Hne]; [done|].
      split; [intros H; by apply Hlock in H|by intros ->].
    + destruct Hcache as [(H1 & H2 & H3)|(H1 & H2 & H3 & H4)]; [left|right]; split_and!; try done; intros j r;
        rewrite (lookup_moved _ _ _ _ _ Hi); destruct (decide (i = j)); naive_solver.
  - destruct Hlock as [i' Hl]. assert (i = i') as <- by (by apply Hl).
    assert (∀ j, <[i := Got r]> pcs !! j ≠ Some Holding) as Hfree.
    { intros j. apply released; [done|]. intros k. apply Hl. }
    destruct Hcache as [(H1 & H2 & H3)|(H1 & H2 & H3 & H4)].
    + destruct (run_token_empty d c w Hx Hacc H1) as (token & c1 & w1 & Hr & Ht & Ha & Hc & Hf & Hw).
      rewrite Hrun in Hr. injection Hr as -> -> ->. split; [done|]. split; [done|]. right. rewrite Hc.
      split_and!; [done|by eapply asked_token|done|]. intros j r. rewrite (lookup_moved _ _ _ _ _ Hi).
      destruct (decide (i = j)); [by intros [= <-]|]. intros H. by apply H3 in H.
    + rewrite authenticated_fresh in Hrun by done. injection Hrun as <- <- <-. split; [done|]. split; [done|]. right.
      split_and!; [done|done|done|]. intros j r'. rewrite (lookup_moved _ _ _ _ _ Hi).
      destruct (decide (i = j)); [by intros [= <-]|]. apply H4.
  - rewrite (same_account_token c0 c Hacc) in Hq. split; [done|]. split; [done|].
    destruct Hcache as [(H1 & H2 & H3)|(H1 & H2 & H3 & H4)]; [left|right]; split_and!; try done; by apply asked_other.
Qed.

Lemma waiting_shared n : c_cachedToken c0 = "" → shared (mkCallers false c0 w0 (replicate n Waiting)).
Proof.
  intros Hc. split; [done|]. split; [intros i H; by apply lookup_replicate in H as [? _]|]. left. split; [done|].
  split; [exists []; by rewrite app_nil_r|]. intros i r H. by apply lookup_replicate in H as [? _].
Qed.
End callers.

(** Callers that have no answer yet. *)
Definition waits (p : caller) : Prop := match p with Got _ => False | _ => True end.
#[export] Instance waits_dec p : Decision (waits p).
Proof. destruct p; simpl; apply _. Defined.
Definition pending (pcs : list caller) : nat :=
  length (filter waits pcs).

Lemma pending_insert pcs i p q : pcs !! i = Some p →
  (pending (<[i := q]> pcs) + length (filter waits [p]) = pending pcs + length (filter waits [q]))%nat.
Proof.
  intros (l1 & l2 & -> & ->)%list_elem_of_split_length. unfold pending.
  rewrite insert_app_r_alt, Nat.sub_diag by done. simpl. rewrite (filter_app _ l1 (p :: l2)), (filter_app _ l1 (q :: l2)).
  rewrite !length_app, !filter_cons, filter_nil. repeat case_decide; simpl; lia.
Qed.

Lemma pending_got pcs i p r : pcs !! i = Some p → waits p → pending pcs = S (pending (<[i := Got r]> pcs)).
Proof. intros Hi Hp. pose proof (pending_insert pcs i p (Got r) Hi) as H. destruct p; [| |done]; simpl in H; lia. Qed.

Lemma pending_moved pcs i : pcs !! i = Some Waiting → pending (<[i := Holding]> pcs) = pending pcs.
Proof. intros Hi. pose proof (pending_insert pcs i Waiting Holding Hi) as H. simpl in H. lia. Qed.

(** Whatever the state, the callers that wait can be served one after the other. *)
Lemma callers_finish `{E : Env} c0 w0 d s : exchange_works c0 d → shared c0 w0 s →
  ∃ s', rtc tstep s s' ∧ length (cs_pcs s') = length (cs_pcs s) ∧ pending (cs_pcs s') = 0.
Proof.
  intros Hx. remember (pending (cs_pcs s)) as n eqn:Hn. revert s Hn.
  induction n as [|n IH]; intros s Hn Hs; [by exists s|].
  assert (∀ s1, shared c0 w0 s1 → cs_locked s1 = true → pending (cs_pcs s1) = S n → rtc tstep s s1 →
    length (cs_pcs s1) = length (cs_pcs s) →
    ∃ s', rtc tstep s s' ∧ length (cs_pcs s') = length (cs_pcs s) ∧ pending (cs_pcs s') = 0) as Hrun.
  { intros [l c w pcs] Hs1 Hl Hp Hst Hlen. simpl in *. subst l. pose proof Hs1 as (_ & [i Hi] & _). simpl in Hi.
    assert (pcs !! i = Some Holding) as Hh by (by apply Hi).
    destruct (authenticatedToken c w) as [[r c'] w'] eqn:Hr.
    assert (tstep (mkCallers true c w pcs) (mkCallers false c' w' (<[i := Got r]> pcs))) as Hstep by (by eapply step_run).
    destruct (IH (mkCallers false c' w' (<[i := Got r]> pcs))) as (s' & H1 & H2 & H3).
    - simpl. rewrite (pending_got pcs i Holding r Hh) in Hp by done. lia.
    - by eapply tstep_shared.
    - exists s'. split; [etrans; [exact Hst|by eapply rtc_l]|]. split; [|done]. rewrite H2. simpl. by rewrite length_insert. }
  destruct s as [[] c w pcs]; [by apply (Hrun (mkCallers true c w pcs))|]. simpl in *.
  destruct (filter waits pcs) as [|p l] eqn:Hf;
    [unfold pending in Hn; by rewrite Hf in Hn|].
  assert (p ∈ pcs ∧ waits p) as [Hin Hp].
  { assert (p ∈ filter waits pcs) as Hin by (rewrite Hf; left).
    apply list_elem_of_filter in Hin. tauto. }
  apply list_elem_of_lookup in Hin as [i Hi].
  assert (p = Waiting) as ->.
  { destruct Hs as (_ & Hl & _). simpl in Hl. specialize (Hl i). rewrite Hi in Hl. by destruct p. }
  apply (Hrun (mkCallers true c w (<[i := Holding]> pcs))); simpl.
  - eapply tstep_shared; [done| |exact Hs]. by apply step_lock.
  - done.
  - by rewrite pending_moved.
  - apply rtc_once. by apply step_lock.
  - by rewrite length_insert.
Qed.

Lemma all_answered pcs i p : pending pcs = 0 → pcs !! i = Some p → ∃ r, p = Got r.
Proof.
  intros Hp Hi. destruct p as [| |r]; [| |by exists r]; by rewrite (pending_got _ _ _ (inl "") Hi) in Hp.
Qed.

(** ** Theorems *)


Lemma protocol_same {A} `{E : Env} c c' opts (out : option (json → result A)) w w' r token reqs :
  same_account c c' → protocol c' opts out w w' r token reqs → protocol c opts out w w' r token reqs.
Proof.
  intros Hc. destruct 1 as [e ->|pre Hpre Hne Hcon|pre t1 e Hpre Hrej ->|pre t1 Hpre Hrej Hcon];
    rewrite ?(same_account_token c c'), ?(same_account_api c c') in * by done.
  - by eapply no_token.
  - by apply one_request.
  - by eapply no_new_token.
  - by apply two_requests.
Qed.

(** C23: A call of the SDK sends, in this order, at most one token exchange, the request, and only if that was
    answered 401 one more exchange and the request once more; its result is made of the last answer, and no
    answer leads to a third request. *)
Theorem sdk_retries_once {A} `{E : Env} c opts (out : option (json → result A)) w :
  url_parses (rq_URL (token_request c)) = true → url_parses (rq_URL (api_request c "" opts)) = true →
  let res := doRequest c opts out w in
  ∃ reqs, w_http res.2 = w_http w ++ reqs ∧ same_account c res.1.2 ∧
    protocol c opts out w res.2 res.1.1 (c_cachedToken res.1.2) reqs.
Proof.
  intros Hu Ha. cbv zeta. unfold doRequest. rewrite ST_bind_run.
  destruct (token_run c w Hu) as [(w1 & -> & Hh & Hw)|(H1 & H2 & H3 & H4)].
  - cbn [fst snd]. apply (after_token c opts out [] (c_cachedToken c) w w1); [done..|by left|done|done|]. by rewrite app_nil_r.
  - destruct (authenticatedToken c w) as [[[t|e] c1] w1]; cbn [fst snd] in *.
    + destruct (after_token c1 opts out [token_request c] t w w1) as (reqs & Hr & Hs & Hp).
      * by rewrite (same_account_token c c1).
      * by rewrite (same_account_api c c1).
      * right. by rewrite (same_account_token c c1).
      * done.
      * lia.
      * done.
      * exists reqs. split; [done|]. split; [by etrans|]. by eapply protocol_same.
    + exists [token_request c]. cbn [mret ST_ret fst snd]. split; [done|]. split; [done|]. by eapply no_token.
Qed.

(** *** The token at the server *)

(** The header the SDK sends carries the token in the form the server reads. *)
Lemma api_bearer c token opts r :
  rq_Header (api_request c token opts) !! "Authorization" = Some (Header_Get r "Authorization") → bearer_token r = Some token.
Proof.
  unfold api_request, bearer_token. cbn [rq_Header].
  assert (∀ h : gmap string string, Header_Set "Content-Type" "application/json" h !! "Authorization" = h !! "Authorization") as Hct.
  { intros h. unfold Header_Set. by rewrite lookup_insert_ne. }
  intros H. assert (Header_Get r "Authorization" = "Bearer " +:+ token) as ->.
  { destruct (ro_body opts); rewrite ?Hct in H; unfold Header_Set in H; rewrite lookup_insert_eq in H; congruence. }
  reflexivity.
Qed.

(** What the client makes of the server's answer. *)
Lemma fetch_token_response `{E : Env} {J : Jwt} m token c w :
  url_parses (rq_URL (token_request c)) = true → ValidString token = true →
  (0 ≤ jm_expiration m ≤ int64_max)%Z → (jm_expiration m mod Second = 0)%Z →
  (∀ body, resp_Body (token_response m token) = Some body →
     env_http (w_tick w) (token_request c) = Ok (mkHttpResponse (resp_Status (token_response m token)) (Encode body))) →
  fetchAndCacheToken c w =
    ((inl token, set_token token (env_now (S (w_tick w)) + jm_expiration m) c),
     next_tick (add_http (token_request c) (next_tick w))).
Proof.
  intros Hu Hv Hd Hm Hresp. unfold fetchAndCacheToken. cbv zeta. rewrite Hu. cbn [negb]. rewrite ST_bind_run.
  cbn [fst snd client_Do]. rewrite (Hresp _ eq_refl). unfold token_response at 1. cbn [rs_StatusCode rs_Body resp_Status response_JSON].
  change (negb (StatusOK =? StatusOK)%Z) with false. cbv iota. unfold unmarshal.
  rewrite parse_Encode; [|cbn [json_wf forallb]; by rewrite Hv, Duration_String_text by lia|done].
  unfold dec_sdk_tokenResponse. cbn [json_object rbind field]. json_fields. cbn [st_ExpiresIn st_Token].
  by rewrite ParseDuration_String.
Qed.

Lemma authenticated_empty `{E : Env} c w : c_cachedToken c = "" → authenticatedToken c w = fetchAndCacheToken c w.
Proof. intros He. unfold authenticatedToken, cache_fresh. rewrite bool_decide_eq_true_2 by done. by rewrite ST_bind_run. Qed.

(** A token that is given out without an exchange is fresh. *)
Lemma reused `{E : Env} c w : url_parses (rq_URL (token_request c)) = true →
  w_http (authenticatedToken c w).2 = w_http w →
  (authenticatedToken c w).1 = (inl (c_cachedToken c), c) ∧ (env_now (w_tick w) + expiryMargin < c_expiresAt c)%Z.
Proof.
  intros Hu. unfold authenticatedToken, cache_fresh. rewrite ST_bind_run.
  assert (∀ w', w_http w' = w_http w → w_http (fetchAndCacheToken c w').2 ≠ w_http w) as Hno.
  { intros w' Hw H. destruct (fetch_exchanged c w' Hu) as [Hf _]. rewrite H, Hw in Hf.
    apply (f_equal length) in Hf. rewrite length_app in Hf. simpl in Hf. lia. }
  case_bool_decide; cbn [fst snd mret ST_ret]; [intros H0; by destruct (Hno w eq_refl)|]. rewrite ST_bind_run.
  cbn [fst snd mret ST_ret time_Now]. destruct (Z.ltb_spec (env_now (w_tick w) + expiryMargin) (c_expiresAt c)); [done|].
  intros H1. by destruct (Hno (next_tick w) eq_refl).
Qed.

(** The client's credentials, as the server reads them. *)
Lemma token_request_read c : ValidString (c_apiKey c) = true → ValidString (c_apiSecret c) = true →
  unmarshal dec_tokenRequest (rq_Body (token_request c)) = Ok (mkTokenRequest (c_apiKey c) (c_apiSecret c)).
Proof.
  intros Hk Hs. unfold token_request, unmarshal. cbn [rq_Body].
  rewrite parse_Marshal; [|cbn [json_wf forallb]; by rewrite Hk, Hs|done].
  unfold dec_tokenRequest. cbn [json_object rbind field]. by json_fields.
Qed.

Lemma decode_whole {A} (dec : json → result A) r text a :
  r_Body r = NewReader text → unmarshal dec text = Ok a → decode_body dec r = Ok a.
Proof.
  intros Hr. unfold unmarshal, decode_body. destruct (parse_json text) as [j|] eqn:Hj; [|done].
  by rewrite (First_whole r text j Hr Hj).
Qed.

Lemma token_request_decoded c rq : ValidString (c_apiKey c) = true → ValidString (c_apiSecret c) = true →
  r_Body rq = NewReader (rq_Body (token_request c)) →
  decode_body dec_tokenRequest rq = Ok (mkTokenRequest (c_apiKey c) (c_apiSecret c)).
Proof.
  intros Hk Hs Hrq. exact (decode_whole _ _ _ _ Hrq (token_request_read c Hk Hs)).
Qed.

Lemma NewNumericDate_within t : (t - Second < NewNumericDate t ≤ t)%Z.
Proof.
  unfold NewNumericDate. pose proof (Z.mod_pos_bound t Second ltac:(done)). pose proof (Z.div_mod t Second ltac:(done)). lia.
Qed.

(** The margin covers the second lost to rounding and 29 more. *)
Lemma margin_suffices issued now used cached d : (issued ≤ now)%Z → (used + expiryMargin < cached + d)%Z →
  (now - issued ≤ used - cached + 29 * Second)%Z → (NewNumericDate issued ≤ now < NewNumericDate (issued + d))%Z.
Proof.
  pose proof (NewNumericDate_within issued). pose proof (NewNumericDate_within (issued + d)). unfold expiryMargin. lia.
Qed.

(** C20: A client of the SDK whose token exchange the server's IssueToken answered is authenticated with the
    credentials it sent, and whenever it reuses the cached token, the server's middleware accepts the request
    that carries it, for clocks that need not agree, as long as the time since the token was issued exceeds the
    client's own count by at most 29 seconds. *)
Theorem cached_token_accepted {Ec Es : Env} {J : Jwt} {L : JwtLaws J} {P : PgLaws Es} m adminKey adminSecret
    rq (ws ws' : @World Es) resp c (w : @World Ec) :
  @url_parses Ec (rq_URL (token_request c)) = true → ValidString (c_apiKey c) = true → ValidString (c_apiSecret c) = true →
  (0 ≤ jm_expiration m ≤ int64_max)%Z → (jm_expiration m mod Second = 0)%Z → c_cachedToken c = "" →
  r_Body rq = NewReader (rq_Body (token_request c)) →
  IssueToken m adminKey adminSecret rq ws = (resp, ws') → resp_Status resp = StatusOK →
  (∀ body, resp_Body resp = Some body →
     @env_http Ec (w_tick w) (token_request c) = Ok (mkHttpResponse (resp_Status resp) (Encode body))) →
  ∃ token c1 w1 claims k, authenticatedToken c w = ((inl token, c1), w1) ∧ (w_tick ws ≤ k < w_tick ws')%nat ∧
    login adminKey adminSecret ws (mkTokenRequest (c_apiKey c) (c_apiSecret c)) claims ∧
    c_expiresAt c1 = (@env_now Ec (S (w_tick w)) + jm_expiration m)%Z ∧
    ∀ w2 : @World Ec, w_http (authenticatedToken c1 w2).2 = w_http w2 → (authenticatedToken c1 w2).1 = (inl token, c1) ∧
      ∀ opts r next (w3 : @World Es),
        rq_Header (api_request c1 token opts) !! "Authorization" = Some (Header_Get r "Authorization") →
        (@env_now Es k ≤ @env_now Es (w_tick w3))%Z →
        (@env_now Es (w_tick w3) - @env_now Es k ≤ @env_now Ec (w_tick w2) - @env_now Ec (S (w_tick w)) + 29 * Second)%Z →
        auth_Middleware m next r w3 = next (with_Claims claims r) (next_tick w3).
Proof.
  intros Hu Hk Hs Hd Hm He Hrq Hrun Hst Hresp.
  destruct (IssueToken_issued _ _ _ _ _ _ _ Hrun Hst) as (req & token & claims & k & Hdec & -> & Hl & Hk2 & Hi).
  rewrite (token_request_decoded c rq Hk Hs Hrq) in Hdec. injection Hdec as <-.
  assert (ValidString token = true) as Hv by (destruct Hi as [Hi _]; by eapply SignedString_text).
  pose proof (fetch_token_response m token c w Hu Hv Hd Hm Hresp) as Hf.
  exists token. eexists _, _, claims, k. split; [rewrite authenticated_empty by done; exact Hf|].
  split; [done|]. split; [done|]. split; [done|]. clear Hf. intros w2 Hw2.
  apply reused in Hw2 as [Hr Hf]; [|exact Hu].
  split; [exact Hr|]. intros opts r next w3 Hh Hge Hle. apply (issued_accepted _ token _ (@env_now Es k)); [done|by eapply api_bearer|].
  cbn [set_token c_expiresAt] in Hf. by apply (margin_suffices _ _ _ _ _ Hge Hf Hle).
Qed.

(** *** Messages *)

(** The map a document of unknown shape is read as; [None] when the SDK refuses it. *)
Definition members_map (kvs : list (string * json)) (m : anymap) : anymap := foldl (λ m kv, <[kv.1 := kv.2]> m) m kvs.
Definition metadata_map (r : RawMessage) : option (option anymap) :=
  match r with
  | None | Some JNull => Some None
  | Some (JObj kvs) => if forallb (λ kv, any_fits kv.2) kvs then Some (Some (members_map kvs ∅)) else None
  | Some _ => None
  end.

Lemma any_members_Ok kvs m :
  any_members m kvs = if forallb (λ kv, any_fits kv.2) kvs then Ok (members_map kvs m) else Err type_error.
Proof. revert m. induction kvs as [|[k v] kvs IH]; intros m; [done|]. simpl. destruct (any_fits v); [apply IH|done]. Qed.

Lemma dec_metadata j :
  dec_anymap None j = match metadata_map (Some j) with Some m => Ok m | None => Err type_error end.
Proof. destruct j as [| | | | | |kvs]; try done. simpl. rewrite any_members_Ok. by destruct (forallb _ _). Qed.

(** What the SDK shows of a notification. *)
Definition sdk_view `{E : Env} (n : Notification) (metadata : option anymap) : sdk_Notification :=
  mkSdkNotification (uuid_String (n_ID n)) (uuid_String (n_TenantID n)) (uuid_String (n_ChannelConfigID n)) (n_Channel n)
    (n_Subject n) (n_Body n) metadata (n_Status n) (n_RetryCount n) (n_MaxRetries n) (n_LastError n) (n_DeliveredAt n)
    (n_ProviderMsgID n) (n_CreatedAt n) (n_UpdatedAt n).

Definition time_text (t : Time) : json := JStr (rfc3339nano t).

(** Members that are present only for a value. *)
Lemma field_skip {A} (dec : decoder A) name zero k v kvs : EqualFold k name = false →
  field dec name zero ((k, v) :: kvs) = field dec name zero kvs.
Proof. intros Hk. simpl. by rewrite Hk. Qed.
Lemma field_omit_skip {A B} (dec : decoder A) name zero k (enc : B → json) o kvs : EqualFold k name = false →
  field dec name zero (omit_nil k enc o ++ kvs) = field dec name zero kvs.
Proof. intros Hk. destruct o; [by apply field_skip|done]. Qed.
Lemma field_once {A} (dec : decoder A) name zero v kvs : (∀ z, field dec name z kvs = Ok z) →
  field dec name zero ((name, v) :: kvs) = dec zero v.
Proof. intros Hk. cbn [field]. rewrite EqualFold_refl. destruct (dec zero v); [apply Hk|done]. Qed.
Lemma field_omit_once {A B} (dec : decoder A) name zero (enc : B → json) o kvs : (∀ z, field dec name z kvs = Ok z) →
  field dec name zero (omit_nil name enc o ++ kvs) = match o with None => Ok zero | Some b => dec zero (enc b) end.
Proof. intros Hk. destruct o; [by apply field_once|apply Hk]. Qed.

Ltac skip_fields := repeat first [rewrite field_skip by reflexivity | rewrite field_omit_skip by reflexivity | rewrite field_nil].
Ltac one_field :=
  skip_fields; first [rewrite field_once by (intros; by skip_fields) | rewrite field_omit_once by (intros; by skip_fields)].

Lemma ptr_string_read o : match o with None => Ok None | Some s => dec_ptr_string None (JStr s) end = Ok o.
Proof. by destruct o. Qed.
Lemma ptr_time_read o : (∀ t cur, o = Some t → dec_time cur (time_text t) = Ok t) →
  match o with None => Ok None | Some t => dec_ptr_time None (time_text t) end = Ok o.
Proof. destruct o as [t|]; [|done]. intros Ht. unfold dec_ptr_time, dec_ptr. cbn [time_text default].
  change (JStr (rfc3339nano t)) with (time_text t). by rewrite Ht. Qed.
Lemma int_read cur z : in_int64 z → dec_int cur (JInt z) = Ok z.
Proof. intros Hz. unfold dec_int. by rewrite bool_decide_eq_true_2. Qed.

Lemma enc_members_app a b :
  enc_members (a ++ b) = x <-? enc_members a; y <-? enc_members b; Ok (x ++ y).
Proof.
  induction a as [|[k v] a IH]; cbn [app enc_members]; [by destruct (enc_members b)|]. destruct v as [j|]; [|done]. cbn [rbind].
  rewrite IH. destruct (enc_members a); [|done]. cbn [rbind]. by destruct (enc_members b).
Qed.
Lemma enc_omitempty {A} k (enc : A → json) o : enc_members (omitempty k (λ a, Ok (enc a)) o) = Ok (omit_nil k enc o).
Proof. by destruct o. Qed.

Lemma json_time_text t j : json_time t = Ok j → j = time_text t ∧ ∀ cur, dec_time cur (time_text t) = Ok t.
Proof.
  intros H. assert (j = time_text t) as -> by (unfold json_time in H; case_bool_decide; [by injection H|done]).
  split; [done|]. intros cur. by apply dec_json_time.
Qed.
Lemma enc_time k o l : enc_members (omitempty k json_time o) = Ok l →
  l = omit_nil k time_text o ∧ ∀ t cur, o = Some t → dec_time cur (time_text t) = Ok t.
Proof.
  destruct o as [t|]; cbn [omitempty enc_members omit_nil]; [|by intros [= <-]].
  destruct (json_time t) as [j|] eqn:Ht; [|done]. apply json_time_text in Ht as [-> Ht]. intros [= <-]. split; [done|]. by intros ? cur [= <-].
Qed.

(** The members of a notification, once its times could be written. *)
Lemma Notification_members `{E : Env} n j : json_Notification n = Ok j →
  j = JObj ([("id", json_uuid (n_ID n)); ("tenant_id", json_uuid (n_TenantID n));
    ("channel_config_id", json_uuid (n_ChannelConfigID n)); ("channel", JStr (n_Channel n))] ++
    omit_nil "subject" JStr (n_Subject n) ++ [("body", JStr (n_Body n))] ++ omit_nil "metadata" id (n_Metadata n) ++
    [("status", JStr (n_Status n))] ++ omit_nil "asynq_task_id" JStr (n_AsynqTaskID n) ++
    [("retry_count", JInt (n_RetryCount n)); ("max_retries", JInt (n_MaxRetries n))] ++
    omit_nil "last_error" JStr (n_LastError n) ++ omit_nil "delivered_at" time_text (n_DeliveredAt n) ++
    omit_nil "provider_msg_id" JStr (n_ProviderMsgID n) ++
    [("created_at", time_text (n_CreatedAt n)); ("updated_at", time_text (n_UpdatedAt n))]) ∧
  (∀ t cur, n_DeliveredAt n = Some t → dec_time cur (time_text t) = Ok t) ∧
  (∀ cur, dec_time cur (time_text (n_CreatedAt n)) = Ok (n_CreatedAt n)) ∧
  (∀ cur, dec_time cur (time_text (n_UpdatedAt n)) = Ok (n_UpdatedAt n)).
Proof.
  unfold json_Notification, enc_object, ok_str. rewrite !enc_members_app, !enc_omitempty. cbn [enc_members rbind].
  destruct (enc_members (omitempty "delivered_at" _ _)) as [l|] eqn:Hd; [|done]. apply enc_time in Hd as [-> Hd].
  cbn [rbind]. destruct (json_time (n_CreatedAt n)) as [jc|] eqn:Hc; [|done]. apply json_time_text in Hc as [-> Hc].
  cbn [rbind]. destruct (json_time (n_UpdatedAt n)) as [ju|] eqn:Hu; [|done]. apply json_time_text in Hu as [-> Hu].
  cbn [rbind]. intros [= <-]. split; [by rewrite <- ?app_assoc|]. split_and!; done.
Qed.

Lemma dec_view `{E : Env} {U : UuidLaws E} n j : in_int64 (n_RetryCount n) → in_int64 (n_MaxRetries n) →
  json_Notification n = Ok j →
  dec_sdk_Notification zero_sdk_Notification j =
    match metadata_map (n_Metadata n) with Some m => Ok (sdk_view n m) | None => Err type_error end.
Proof.
  intros Hr Hm Hj. apply Notification_members in Hj as (-> & Hd & Hc & Hu).
  unfold dec_sdk_Notification. cbn [json_object rbind app].
  assert (match n_Metadata n with None => Ok None | Some j => dec_anymap None (id j) end =
    match metadata_map (n_Metadata n) with Some m => Ok m | None => Err type_error end) as Hmeta.
  { destruct (n_Metadata n) as [j|]; [apply dec_metadata|done]. }
  do 4 (one_field; cbn [rbind dec_string json_uuid]).
  one_field. rewrite ptr_string_read. cbn [rbind]. one_field. cbn [rbind dec_string].
  one_field. change (sn_Metadata zero_sdk_Notification) with (@None anymap). rewrite Hmeta. destruct (metadata_map (n_Metadata n)) as [m|]; [|done]. cbn [rbind].
  one_field. cbn [rbind dec_string]. do 2 (one_field; rewrite int_read by done; cbn [rbind]).
  one_field. rewrite ptr_string_read. cbn [rbind]. one_field. rewrite ptr_time_read by done. cbn [rbind].
  one_field. rewrite ptr_string_read. cbn [rbind]. one_field. rewrite Hc. cbn [rbind]. one_field. rewrite Hu. reflexivity.
Qed.

(** The input as the server reads it. *)
Definition sent_input (i : sdk_SendInput) (id : uuid) : SendNotificationInput :=
  mkSendNotificationInput id (if bool_decide (si_Subject i = "") then None else Some (si_Subject i)) (si_Body i)
    (if bool_decide (default ∅ (si_Metadata i) = ∅) then None else json_anymap <$> si_Metadata i).

Lemma send_input_read `{E : Env} {U : UuidLaws E} i id :
  si_ChannelConfigID i = uuid_String id → json_wf (json_sdk_SendInput i) = true →
  (json_depth (json_sdk_SendInput i) ≤ maxNestingDepth)%N →
  unmarshal (dec_SendNotificationInput zero_SendNotificationInput) (Marshal (json_sdk_SendInput i)) = Ok (sent_input i id).
Proof.
  intros Hid Hwi Hdi. unfold unmarshal. rewrite parse_Marshal by done.
  unfold json_sdk_SendInput, dec_SendNotificationInput, omit_map, sent_input.
  rewrite Hid. cbn [json_object rbind app].
  assert (∀ cur, dec_uuid cur (JStr (uuid_String id)) = Ok id) as Hu by (intros; apply dec_json_uuid).
  destruct (si_Metadata i) as [meta|]; cbn [default];
    repeat case_bool_decide; cbn [app]; repeat (one_field; rewrite ?Hu; cbn [rbind dec_string dec_raw dec_ptr]);
    skip_fields; done.
Qed.

Lemma notification_read `{E : Env} {U : UuidLaws E} n j opts status :
  json_Notification n = Ok j → json_wf j = true → (json_depth j ≤ maxNestingDepth)%N →
  in_int64 (n_RetryCount n) → in_int64 (n_MaxRetries n) → (status < 300)%Z →
  let read := finish opts (Some (dec_sdk_Notification zero_sdk_Notification)) (mkHttpResponse status (Encode j)) in
  match metadata_map (n_Metadata n) with
  | Some m => read = inl (Some (sdk_view n m))
  | None => ∃ e, read = inr (OtherError e)
  end.
Proof.
  intros Hj Hwj Hdj Hr Hm Hs. cbv zeta. unfold finish. cbn [rs_StatusCode rs_Body]. rewrite (proj2 (Z.leb_gt _ _)) by done.
  unfold unmarshal. rewrite parse_Encode, (dec_view n j) by done. destruct (metadata_map _); [done|]. by eexists.
Qed.


Lemma members_map_other kvs : ∀ m k, k ∉ kvs.*1 → members_map kvs m !! k = m !! k.
Proof.
  induction kvs as [|[k' v] kvs IH]; intros m k Hk; [done|]. csimpl in Hk. rewrite not_elem_of_cons in Hk.
  simpl. rewrite IH by tauto. apply lookup_insert_ne. naive_solver.
Qed.
Lemma members_map_lookup kvs m k v : NoDup kvs.*1 → (k, v) ∈ kvs → members_map kvs m !! k = Some v.
Proof.
  revert m. induction kvs as [|[k' v'] kvs IH]; intros m Hnd Hin; [by apply elem_of_nil in Hin|].
  csimpl in Hnd. apply NoDup_cons in Hnd as [Hk Hnd]. simpl. apply elem_of_cons in Hin as [[= <- <-]|Hin]; [|by apply IH].
  rewrite members_map_other by done. apply lookup_insert_eq.
Qed.

(** An answer of status 300 or more whose body is an object with an error code becomes a RequestError with that
    status and code, whose text shows both and whose Field method gives every other text member of the body. *)
Theorem sdk_reads_api_errors {A} opts (out : option (json → result A)) status code kvs :
  let body := JObj (("error", JStr code) :: kvs) in
  code ≠ "" → NoDup ("error" :: kvs.*1) → forallb (λ kv, any_fits kv.2) kvs = true →
  json_wf body = true → (json_depth body ≤ maxNestingDepth)%N → (300 ≤ status)%Z →
  ∃ e, finish opts out (mkHttpResponse status (Encode body)) = inr (AsRequestError e) ∧
    re_StatusCode e = status ∧ re_Code e = code ∧ RequestError_Error e = "notifyd: " +:+ pretty status +:+ " " +:+ code ∧
    ∀ k s, (k, JStr s) ∈ kvs → RequestError_Field e k = (s, true).
Proof.
  intros body Hne Hnd Hfit Hwf Hdep Hst. unfold finish. cbn [rs_StatusCode rs_Body]. rewrite (proj2 (Z.leb_le _ _)) by done.
  set (m := members_map (("error", JStr code) :: kvs) ∅).
  assert (requestErrorFromBody status (Encode body) = mkRequestError status code "" (Some m)) as ->.
  { unfold requestErrorFromBody, unmarshal. rewrite parse_Encode by done. unfold body. rewrite dec_metadata.
    cbn [metadata_map forallb any_fits andb fst snd]. rewrite Hfit. fold m.
    assert (m !! "error" = Some (JStr code)) as -> by (apply members_map_lookup; [done|left]).
    by rewrite bool_decide_eq_false_2. }
  eexists. split; [done|]. split; [done|]. split; [done|]. split.
  - unfold RequestError_Error. cbn [re_StatusCode re_Code]. by rewrite bool_decide_eq_false_2.
  - intros k s Hin. unfold RequestError_Field. cbn [re_Body]. unfold m.
    rewrite (members_map_lookup _ _ k (JStr s)); [done|done|]. by right.
Qed.

(** ** The theorems at work *)

Section witnesses.

Definition sdk_client : Client := mkClient "admin" "admin-secret" DefaultBaseURL "" time_zero.

(** A server that hands out a token and answers [status] to everything else. *)
Definition sdk_env (status : Z) : Env :=
  sample_env (λ _, Fine)
    (λ q, Ok (if bool_decide (q = token_request sdk_client)
              then mkHttpResponse 200 (Encode (JObj [("token", JStr "abc"); ("expires_in", JStr (Duration_String Hour))]))
              else mkHttpResponse status ""))
    (λ t, Ok (mkTaskInfo (task_Type t))).
Definition sdk_world (status : Z) : @World (sdk_env status) := @world_of (sdk_env status) empty_db (∅ : gmap string Z).

Lemma sdk_exchange_works status : @exchange_works (sdk_env status) sdk_client Hour.
Proof.
  split; [reflexivity|]. split; [reflexivity|]. split.
  - intros k. eexists "abc", _. split; [simpl; rewrite bool_decide_eq_true_2; reflexivity|]. split; [discriminate|]. reflexivity.
  - intros j k. simpl. unfold expiryMargin, Hour, Minute, Second. lia.
Qed.

(** A server that rejects every token: the call is sent twice and then fails. *)
Lemma sdk_retries_witness :
  let res := @DeleteChannel (sdk_env 401) sdk_client "x" (sdk_world 401) in
  length (w_http res.2) = 4 ∧
  ∃ reqs, w_http res.2 = reqs ∧
    @protocol (sdk_env 401) _ sdk_client (del "/channels/x") (None : option (json → result unit)) (sdk_world 401) res.2 res.1.1
      (c_cachedToken res.1.2) reqs.
Proof.
  cbv zeta. split; [vm_compute; reflexivity|].
  destruct (@sdk_retries_once unit (sdk_env 401) sdk_client (del "/channels/x") None (sdk_world 401))
    as (reqs & Hr & _ & Hp); [reflexivity|reflexivity|]. exists reqs. split; [exact Hr|exact Hp].
Defined.


(** The administrator's client against the server. *)
Definition sdk_manager : JWTManager := mkJWTManager "signing-key" "notifyd" Hour.
Definition sdk_login : Request :=
  mkRequest "POST" "/auth/token" "/auth/token" ∅ ∅ ∅ (NewReader (rq_Body (token_request sdk_client))) None.
Definition server_run : Response * @World healthy :=
  @IssueToken healthy sample_jwt sdk_manager "admin" "admin-secret" sdk_login (healthy_world sample_db).
Lemma server_status : resp_Status server_run.1 = 200%Z.
Proof. vm_compute. reflexivity. Qed.
Definition login_env : Env :=
  sample_env (λ _, Fine) (λ _, Ok (mkHttpResponse 200 (Encode (default JNull (resp_Body server_run.1)))))
    (λ t, Ok (mkTaskInfo (task_Type t))).
Definition login_world : @World login_env := @world_of login_env empty_db (∅ : gmap string Z).

Lemma cached_token_witness :
  ∃ token c1 w1, @authenticatedToken login_env sdk_client login_world = ((inl token, c1), w1) ∧
    c_expiresAt c1 = (@env_now login_env 1 + Hour)%Z.
Proof.
  destruct (@cached_token_accepted login_env healthy sample_jwt _ _ sdk_manager "admin" "admin-secret" sdk_login
    (healthy_world sample_db) server_run.2 server_run.1 sdk_client login_world)
    as (token & c1 & w1 & claims & k & H1 & _ & _ & H2 & _).
  - reflexivity.
  - reflexivity.
  - reflexivity.
  - vm_compute; split; discriminate.
  - reflexivity.
  - reflexivity.
  - reflexivity.
  - apply surjective_pairing.
  - exact server_status.
  - intros body Hb. rewrite server_status. cbn [login_env sample_env env_http]. by rewrite Hb.
  - exists token, c1, w1. split; [exact H1|exact H2].
Defined.

Definition sdk_input : sdk_SendInput :=
  mkSdkSendInput (@uuid_String healthy id_channel) "hi" "text" (Some {["user" := JInt 7]}).


(** The answer to a message over the quota. *)
Lemma sdk_errors_witness :
  let body := JObj [("error", JStr "QUOTA_EXCEEDED"); ("upgrade_url", JStr "https://x")] in
  ∃ e, finish (get "/") (None : option (json → result unit)) (mkHttpResponse 429 (Encode body)) = inr (AsRequestError e) ∧
    RequestError_Error e = "notifyd: 429 QUOTA_EXCEEDED" ∧ RequestError_Field e "upgrade_url" = ("https://x", true).
Proof.
  cbv zeta.
  destruct (sdk_reads_api_errors (get "/") (None : option (json → result unit)) 429 "QUOTA_EXCEEDED"
    [("upgrade_url", JStr "https://x")]) as (e & H1 & _ & _ & H2 & H3).
  - discriminate.
  - by repeat (constructor; [set_solver|]); constructor.
  - reflexivity.
  - reflexivity.
  - vm_compute; discriminate.
  - vm_compute; discriminate.
  - exists e. split; [exact H1|]. split; [exact H2|]. apply H3. left.
Defined.
End witnesses.
