(* ===== verification/SdkServer.v ===== *)
(** * SdkServer: a message from the SDK to the tables

    The SDK's [Send] on one side, the route of internal/router with its
    middleware, handler and service on the other, and the text between them. *)
From Stdlib Require Import Ascii.
From S2P Require Import Prelude GoTime Utf8 Json JsonText Domain World Repository Integrity Tasks Provider Services ServicesFacts Http.
From S2P Require Import ChatProviders Quota QuotaProps Auth Handlers Router SdkTypes Sdk SampleEnv Samples SampleJwt ApiFacts ApiProps SdkProps.

(** ** The server's side *)

Section server.
Context `{E : Env}.

(** An accepted request went through the quota to the handler. *)
Lemma charge_accepted refund url hook tid n serve w :
  resp_Status (charge (Reserve hook) refund url tid n serve w).1 = StatusAccepted →
  ∃ w1, w_db w1 = w_db w ∧ w_tasks w1 = w_tasks w ∧ charge (Reserve hook) refund url tid n serve w = serve w1.
Proof.
  unfold charge. rewrite ST_bind_run. pose proof (Reserve_db tid hook n w) as Hdb. pose proof (Reserve_tasks tid hook n w) as Ht.
  destruct (Reserve hook tid n w) as [[dec|err] w1]; cbn [fst snd] in *; [|by destruct (errors_Is _ _)].
  destruct (d_Allowed dec); cbn [negb]; [|done]. rewrite ST_bind_run. destruct (serve w1) as [resp w2] eqn:Hs. cbn [fst snd].
  rewrite ST_bind_run. destruct (Z.leb_spec 400 (resp_Status resp)) as [Hle|Hlt]; cbn [fst snd].
  - rewrite ST_bind_run. cbn [fst snd mret ST_ret]. intros Hr. rewrite Hr in Hle. by unfold StatusAccepted in Hle.
  - intros _. exists w1. by rewrite Hs.
Qed.

Lemma handler_accepted maxRetries r claims input w :
  r_Claims r = Some claims → decode_body (dec_SendNotificationInput zero_SendNotificationInput) r = Ok input →
  resp_Status (NotificationHandler_Send maxRetries r w).1 = StatusAccepted →
  ∃ n w', NotificationService_Send maxRetries (tc_TenantID claims) input w = (Ok n, w') ∧
    NotificationHandler_Send maxRetries r w = (response_data StatusAccepted (json_Notification n), w').
Proof.
  intros Hc Hd. unfold NotificationHandler_Send, with_claims, with_body, GetClaims. rewrite Hc, Hd.
  case_bool_decide; [done|]. case_bool_decide; [done|]. rewrite ST_bind_run.
  destruct (NotificationService_Send _ _ _ _) as [[n|err] w']; cbn [fst snd mret ST_ret]; [by eauto|].
  intros Hs. exfalso. assert (400 ≤ resp_Status (classify [(ErrNotFound, StatusNotFound, "channel config not found");
    (ErrValidationFailed, StatusBadRequest, "validation failed"); (ErrChannelNotInPlan, StatusForbidden, "CHANNEL_NOT_IN_PLAN")] err))%Z
    as Hge by (apply classify_status; by repeat constructor). rewrite Hs in Hge. by unfold StatusAccepted in Hge.
Qed.
End server.

(** The route [POST /notifications/send], with everything around it. *)
Definition send_route `{E : Env} (d : Deps) : Route :=
  mkRoute _ "POST" "/notifications/send" (quotaMW d (NotificationHandler_Send (dp_maxRetries d))).
Definition send_served `{E : Env} {J : Jwt} (d : Deps) : Route :=
  with_mw (maxBodySize bodyLimit) (with_mw (auth_Middleware (dp_jwtMgr d)) (send_route d)).

Lemma send_served_routed `{E : Env} {J : Jwt} d send_multi : send_served d ∈ router_New d send_multi.
Proof.
  unfold send_served, router_New. apply list_elem_of_fmap_2, elem_of_app. right. apply elem_of_app. left. apply list_elem_of_fmap_2.
  do 12 apply list_elem_of_further. apply list_elem_of_here.
Qed.

Lemma route_accepted `{E : Env} {J : Jwt} {L : JwtLaws J} d r input w :
  HasSuffix (r_Path r) "/send-multi" = false → MaxBytesReader bodyLimit (r_Body r) = r_Body r →
  decode_body (dec_SendNotificationInput zero_SendNotificationInput) r = Ok input →
  resp_Status (rt_serve (send_served d) r w).1 = StatusAccepted →
  ∃ token claims n c t u, bearer_token r = Some token ∧ token_valid (dp_jwtMgr d) (env_now (w_tick w)) token claims ∧
    n_TenantID n = tc_TenantID claims ∧ n_ChannelConfigID n = cr_ID c ∧ n_RetryCount n = 0%Z ∧ in_int4 (n_MaxRetries n) = true ∧
    channel_configs (w_db w) !! sni_ChannelConfigID input = Some c ∧ cr_TenantID c = tc_TenantID claims ∧
    (n_Subject n, n_Body n, n_Metadata n) = (sni_Subject input, sni_Body input, sni_Metadata input) ∧
    (rt_serve (send_served d) r w).1 = response_data StatusAccepted (json_Notification n) ∧
    w_db (rt_serve (send_served d) r w).2 = stored n t u (w_db w) ∧
    w_tasks (rt_serve (send_served d) r w).2 = w_tasks w ++ [send_task n c].
Proof.
  intros Hp Hm Hd.
  assert (rt_serve (send_served d) r w = auth_Middleware (dp_jwtMgr d) (rt_serve (send_route d)) r w) as ->.
  { unfold send_served. cbn [rt_serve with_mw]. unfold maxBodySize. rewrite Hm. by destruct r. }
  destruct (auth_Middleware_cases (dp_jwtMgr d) (rt_serve (send_route d)) r w) as [[Hs _]|(token & claims & Hb & Hv & ->)];
    [by rewrite Hs|].
  set (r1 := with_Claims claims r). cbn [send_route rt_serve]. unfold quotaMW. rewrite (quota_charges _ _ _ _ r1 claims);
    [|done|intros H; change (r_Path r1) with (r_Path r) in H; congruence].
  change (r_Path r1) with (r_Path r). rewrite Hp. intros Hst.
  destruct (charge_accepted _ _ _ _ _ _ _ Hst) as (w1 & Hdb & Ht & Hch). rewrite Hch in *.
  destruct (handler_accepted _ r1 claims input w1 eq_refl Hd Hst) as (n & w2 & Hsend & ->).
  destruct (Send_outcome (dp_maxRetries d) (tc_TenantID claims) input w1) as (res & w2' & Hr & Ho). rewrite Hsend in Hr.
  injection Hr as <- <-. destruct Ho as [(? & _)|(c & ent & id & now & Hsd & Hsto & (t & u & Hw) & Hlast)]; [done|].
  destruct Hlast as [(? & _)|([= ->] & Htasks)]; [done|]. cbn [w_db w_tasks next_tick] in *.
  exists token, claims, (new_notification (dp_maxRetries d) (tc_TenantID claims) input c id now), c, t, u. split; [done|]. split; [done|]. split; [done|]. split; [done|]. split; [done|].
  split; [apply Hsto|]. split; [rewrite <- Hdb; apply (sd_channel _ _ _ _ _ Hsd)|]. split; [apply (sd_tenant _ _ _ _ _ Hsd)|].
  split; [done|]. split; [done|]. split; [by rewrite <- Hdb|by rewrite <- Ht].
Qed.

(** ** The client's side *)

(** The map survives the wire. *)
Lemma metadata_map_anymap (m : gmap string json) : forallb (λ kv, any_fits kv.2) (map_to_list m) = true →
  metadata_map (Some (json_anymap m)) = Some (Some m).
Proof.
  intros Hf. set (l := merge_sort key_le (map_to_list m)). change (json_anymap m) with (JObj l). unfold metadata_map.
  assert (l ≡ₚ map_to_list m) as Hp by apply merge_sort_Permutation.
  assert (forallb (λ kv, any_fits kv.2) l = true) as ->.
  { apply forallb_forall. intros kv Hin. rewrite forallb_forall in Hf. apply Hf. rewrite <- list_elem_of_In in *. by rewrite <- Hp. }
  do 2 f_equal. apply map_eq. intros k. destruct (m !! k) as [v|] eqn:Hk.
  - transitivity (Some v); [|by symmetry]. apply members_map_lookup; [rewrite Hp; apply NoDup_fst_map_to_list|]. by rewrite Hp, elem_of_map_to_list.
  - transitivity (@None json); [|by symmetry]. rewrite members_map_other; [done|]. rewrite Hp. intros Hin. apply list_elem_of_fmap in Hin as ([k' v] & -> & Hin).
    apply elem_of_map_to_list in Hin. cbn [fst] in Hk. congruence.
Qed.

Definition send_options (i : sdk_SendInput) : requestOptions := with_payload "POST" "/notifications/send" (json_sdk_SendInput i).

(** A call with a fresh token whose answer is not 401 is that answer. *)
Lemma sdk_Send_fresh `{E : Env} c i w resp :
  c_cachedToken c ≠ "" → (env_now (w_tick w) + expiryMargin < c_expiresAt c)%Z →
  url_parses (rq_URL (api_request c (c_cachedToken c) (send_options i))) = true →
  env_http (S (w_tick w)) (api_request c (c_cachedToken c) (send_options i)) = Ok resp → rs_StatusCode resp ≠ 401%Z →
  ∃ w', sdk_Send c i w =
    ((finish (send_options i) (Some (dec_sdk_Notification zero_sdk_Notification)) resp, c), w').
Proof.
  intros Hc Hf Hu Hr Hs. unfold sdk_Send, doRequest. fold (send_options i). rewrite ST_bind_run.
  rewrite authenticated_fresh by done. cbn [fst snd].
  rewrite ST_bind_run, send_run by done. cbn [fst snd w_tick next_tick]. rewrite Hr.
  rewrite (proj2 (Z.eqb_neq _ _)) by done. by eexists.
Qed.

(** ** Both *)

(** The metadata a caller gets back. *)
Definition kept_metadata (i : sdk_SendInput) : option anymap :=
  if bool_decide (default ∅ (si_Metadata i) = ∅) then None else si_Metadata i.

Lemma sent_metadata_read i id :
  forallb (λ kv, any_fits kv.2) (map_to_list (default ∅ (si_Metadata i))) = true →
  metadata_map (sni_Metadata (sent_input i id)) = Some (kept_metadata i).
Proof.
  unfold sent_input, kept_metadata. cbn [sni_Metadata]. case_bool_decide; [done|].
  destruct (si_Metadata i) as [m|]; [|done]. cbn [default fmap option_fmap option_map]. apply metadata_map_anymap.
Qed.


(** ** The theorem at work *)

Section witness.
#[local] Existing Instance healthy.

Definition tenant_client : Client :=
  mkClient "key" "secret" DefaultBaseURL (sample_sign "signing-key" sample_claims) (sample_now + Hour).
Definition hello : sdk_SendInput := mkSdkSendInput (uuid_String id_channel) "hi" "text" (Some {["user" := JInt 7]}).
Definition hello_call : HttpRequest := api_request tenant_client (c_cachedToken tenant_client) (send_options hello).
Definition hello_request : Request :=
  mkRequest "POST" "/notifications/send" "/api/notifications/send" (bearer (c_cachedToken tenant_client)) ∅ ∅
    (NewReader (rq_Body hello_call)) None.
Definition hello_served : Response * World :=
  rt_serve (send_served (J := sample_jwt) sample_deps) hello_request (healthy_world sample_db).
Definition hello_answer : json := default JNull (resp_Body hello_served.1).

Lemma hello_accepted : resp_Status hello_served.1 = StatusAccepted ∧ resp_Body hello_served.1 = Some hello_answer.
Proof. split; vm_compute; reflexivity. Qed.

Definition hello_env : Env :=
  sample_env (λ _, Fine) (λ _, Ok (mkHttpResponse (resp_Status hello_served.1) (Encode hello_answer)))
    (λ t, Ok (mkTaskInfo (task_Type t))).
Definition hello_world : @World hello_env := @world_of hello_env empty_db (∅ : gmap string Z).

Lemma hello_token : c_cachedToken tenant_client ≠ "".
Proof. refine (bool_decide_unpack _ _). vm_compute. exact I. Qed.

Lemma hello_header : rq_Header hello_call !! "Authorization" = Some (Header_Get hello_request "Authorization").
Proof. unfold hello_call, hello_request. generalize (c_cachedToken tenant_client). intros tok. reflexivity. Qed.

End witness.
