(* ===== verification/BotFacts.v ===== *)
(** * BotFacts: what an update can make the bot do

    Who sent it, what strangers are told, and that a relation on worlds which
    holds across reads and across the three writing services holds across every
    update. *)
From S2P Require Import Prelude GoTime Utf8 Json Domain World Repository Integrity Provider Services Markdown ChatProviders.
From S2P Require Import Application ApiFacts BotFormat Bot.

(** ** Who asks *)

Definition update_chat (u : Update) : option Z :=
  match up_Message u, up_CallbackQuery u with
  | Some msg, _ => Some (mg_Chat msg)
  | None, Some query => Some (cq_Chat query)
  | None, None => None
  end.

Definition stranger (admin : Z) (u : Update) : Prop := ∀ chat, update_chat u = Some chat → isAuthorized admin chat = false.

(** What a stranger is told, and the admin of him. *)
Definition stranger_calls (admin : Z) (u : Update) : list Call :=
  match up_Message u, up_CallbackQuery u with
  | Some msg, _ =>
      let chat := mg_Chat msg in
      let user := mg_From msg in
      let name := if bool_decide (u_LastName user = "") then u_FirstName user
                  else u_FirstName user +:+ " " +:+ u_LastName user in
      if mg_IsCommand msg && bool_decide (mg_Command msg = "start") then
        [SendMessage chat ("Welcome, <b>" +:+ name +:+ "</b>!" +:+ nl +:+ nl +:+ "Your chat ID is: <code>" +:+ pretty chat +:+
           "</code>" +:+ nl +:+ nl +:+ "Share this ID with your admin to receive notifications.") [];
         SendMessage admin ("New user started the bot:" +:+ nl +:+ "Name: <b>" +:+ name +:+ "</b>" +:+ nl +:+ "Username: @" +:+
           u_UserName user +:+ nl +:+ "Chat ID: <code>" +:+ pretty chat +:+ "</code>") []]
      else [SendMessage chat unauthorized []]
  | None, Some query => [AnswerCallback (cq_ID query) "Unauthorized"]
  | None, None => []
  end.

(** The tenant whose deletion is confirmed, by a press of the button in the
    admin chat. *)
Definition confirmed `{E : Env} (admin : Z) (u : Update) : option uuid :=
  match up_Message u, up_CallbackQuery u with
  | None, Some query =>
      if isAuthorized admin (cq_Chat query) && HasPrefix (cq_Data query) callbackDeleteConfirm
      then uuid_Parse (TrimPrefix (cq_Data query) callbackDeleteConfirm) else None
  | _, _ => None
  end.

Section bot.
Context `{E : Env} {T : Telegram} (admin : Z).

Definition db_of (s : BotState) : DB := w_db (bs_world s).

(** Calls are made and nothing else happens. *)
Definition says (cs : list Call) (s s' : BotState) : Prop :=
  bs_calls s' = bs_calls s ++ cs ∧ w_db (bs_world s') = w_db (bs_world s) ∧ w_redis (bs_world s') = w_redis (bs_world s) ∧
  w_tasks (bs_world s') = w_tasks (bs_world s) ∧ w_http (bs_world s') = w_http (bs_world s) ∧
  w_smtp (bs_world s') = w_smtp (bs_world s).

Lemma says_nil s : says [] s s.
Proof. unfold says. by rewrite app_nil_r. Qed.

Lemma says_app a b s s1 s2 : says a s s1 → says b s1 s2 → says (a ++ b) s s2.
Proof. unfold says. intros (H1 & ?) (H2 & ?). rewrite H2, H1, app_assoc. split; [done|]. intuition congruence. Qed.

Lemma says_log msg s : says [] s (svc (log msg) s).2.
Proof. unfold says. simpl. by rewrite app_nil_r. Qed.

Lemma says_call c msg s : says [c] s (call_logged c msg s).2.
Proof. unfold call_logged. rewrite ST_bind_run. cbn [fst snd api_Call]. by destruct (tg_answer _ c). Qed.

Lemma says_bind {A C} a b (m : BM A) (f : A → BM C) s :
  says a s (m s).2 → (∀ x s1, says b s1 (f x s1).2) → says (a ++ b) s ((m ≫= f) s).2.
Proof. intros Hm Hf. rewrite ST_bind_run. eapply says_app; [done|apply Hf]. Qed.

Lemma stranger_says u s : stranger admin u → says (stranger_calls admin u) s (dispatchUpdate admin u s).2.
Proof.
  unfold stranger, update_chat, stranger_calls, dispatchUpdate. intros Hs.
  destruct (up_Message u) as [msg|]; [|destruct (up_CallbackQuery u) as [query|]; [|apply says_nil]].
  - specialize (Hs _ eq_refl). unfold dispatchMessage. rewrite Hs. cbv zeta.
    destruct (mg_IsCommand msg); cbn [negb andb]; [|apply says_call].
    apply (says_bind []); [apply says_log|]. intros _ s1. case_bool_decide; [|apply says_call].
    unfold handlePublicStart, bold, code. cbv zeta. rewrite !string_app_assoc.
    apply (says_bind [_] [_]); [apply says_call|]. intros _ s2. apply says_call.
  - specialize (Hs _ eq_refl). unfold dispatchCallback. rewrite Hs. apply says_call.
Qed.

Lemma strangers_say updates s :
  Forall (stranger admin) updates → says (concat (map (stranger_calls admin) updates)) s (Start admin updates s).2.
Proof.
  intros Hu. revert s. induction Hu as [|u updates Hu _ IH]; intros s; [apply says_log|].
  apply says_bind; [by apply stranger_says|]. intros _ s1. apply IH.
Qed.

(** ** Relations on worlds carry over to the bot *)

Definition on_world (R : relation World) : relation BotState := λ s s', R (bs_world s) (bs_world s').
Definition on_db (R : relation DB) : relation BotState := on_world (λ w w', R (w_db w) (w_db w')).

#[export] Instance on_world_preorder R : PreOrder R → PreOrder (on_world R).
Proof. intros HR. split; [intros s; unfold on_world; reflexivity|]. intros s1 s2 s3. unfold on_world. by etrans. Qed.

(** Reading: the tables and the queue stay as they are. *)
Definition tables_and_queue (w : World) := (w_db w, w_tasks w).
Definition reads {A} (m : M A) : Prop := keeps (same tables_and_queue) m.

Lemma reads_both {A} (m : M A) : keeps (same w_db) m → keeps (same w_tasks) m → reads m.
Proof. intros H1 H2 w. unfold same, tables_and_queue. by rewrite (H1 w), (H2 w). Qed.

Section frames.
Context (R : relation World) `{!PreOrder R} (HR : ∀ w w', tables_and_queue w' = tables_and_queue w → R w w').

Lemma svc_on_world {A} (m : M A) : keeps R m → keeps (on_world R) (svc m).
Proof. intros Hm s. specialize (Hm (bs_world s)). unfold on_world, svc. by destruct (m (bs_world s)). Qed.

Lemma svc_reads {A} (m : M A) : reads m → keeps (on_world R) (svc m).
Proof. intros Hm. apply svc_on_world. intros w. apply HR, Hm. Qed.

Lemma svc_log msg : keeps (on_world R) (svc (log msg)).
Proof. apply svc_reads, reads_both; [apply log_db|apply log_tasks]. Qed.

Lemma api_Call_on c : keeps (on_world R) (api_Call c).
Proof. intros s. unfold on_world. simpl. reflexivity. Qed.

#[local] Hint Resolve svc_log api_Call_on : keeps.

Lemma call_logged_on c msg : keeps (on_world R) (call_logged c msg).
Proof. unfold call_logged. keeps_auto. Qed.
#[local] Hint Resolve call_logged_on : keeps.

Lemma sendHTML_on chat text : keeps (on_world R) (sendHTML chat text).
Proof. apply call_logged_on. Qed.
Lemma sendError_on chat d err : keeps (on_world R) (sendError chat d err).
Proof. unfold sendError, sendHTML, sendMessage. keeps_auto. Qed.
Lemma parseUUID_on chat raw hint : keeps (on_world R) (parseUUID chat raw hint).
Proof. unfold parseUUID, sendHTML, sendMessage. keeps_auto. Qed.
#[local] Hint Resolve sendHTML_on sendError_on parseUUID_on : keeps.

Lemma or_error_on {A} chat d (m : M (result A)) k :
  keeps (on_world R) (svc m) → (∀ a, keeps (on_world R) (k a)) → keeps (on_world R) (or_error chat d m k).
Proof. intros Hm Hk. unfold or_error. apply keeps_bind; [apply _|done|]. intros [a|e]; [apply Hk|apply sendError_on]. Qed.

Lemma with_uuid_on chat args hint k :
  (∀ id, keeps (on_world R) (k id)) → keeps (on_world R) (with_uuid chat args hint k).
Proof. intros Hk. unfold with_uuid. keeps_auto. Qed.

Lemma query_reads {A} (f : DB → result A) : reads (db_query f).
Proof. apply reads_both; [apply db_query_db|apply db_query_tasks]. Qed.
Lemma List_reads f : reads (NotificationService_List f).
Proof.
  apply reads_both; [apply NotificationService_List_db|]. unfold NotificationService_List, PgNotificationRepo_List. keeps_auto.
Qed.
Lemma TenantList_reads limit offset : reads (PgTenantRepo_List limit offset).
Proof. apply reads_both; [apply PgTenantRepo_List_db|]. unfold PgTenantRepo_List. keeps_auto. Qed.

(** What a whole update can do, given what the three services that write do. *)
Lemma dispatch_on u :
  (∀ i, keeps (on_world R) (svc (TenantService_Create i))) →
  (∀ id i, keeps (on_world R) (svc (TenantService_Update id i))) →
  (∀ id, confirmed admin u = Some id → keeps (on_world R) (svc (TenantService_Delete id))) →
  keeps (on_world R) (dispatchUpdate admin u).
Proof.
  intros Hc Hu Hd. unfold dispatchUpdate. destruct (up_Message u) as [msg|] eqn:Hm.
  - unfold dispatchMessage, handlePublicStart, handleStart, handleTenants, handleTenant, handleCreateTenant, handleToggleTenant,
      handleDeleteTenant, handleNotifications, handleNotification, handleStats.
    cbv zeta. repeat first
      [ apply with_uuid_on; intros ? | apply or_error_on; [first [apply Hc|apply Hu|apply svc_reads]|intros ?]
      | solve [eauto 3 with keeps typeclass_instances] | keeps_step ];
      try (apply query_reads || apply List_reads || apply TenantList_reads).
  - destruct (up_CallbackQuery u) as [query|] eqn:Hq; [|apply keeps_ret, _]. unfold dispatchCallback.
    destruct (isAuthorized admin (cq_Chat query)) eqn:Ha; cbn [negb]; [|apply call_logged_on].
    destruct (HasPrefix (cq_Data query) callbackDeleteConfirm) eqn:Hp.
    + unfold handleDeleteConfirm, answerCallback, editMessageText. cbv zeta.
      destruct (uuid_Parse (TrimPrefix _ _)) as [id|] eqn:Hid; [|keeps_auto].
      apply keeps_bind; [apply _|apply Hd; unfold confirmed; by rewrite Hm, Hq, Ha, Hp|]. intros r. keeps_auto.
    + unfold handleDeleteCancel, answerCallback, editMessageText. keeps_auto.
Qed.
End frames.

(** A property of the tables the three writing services keep is kept by the bot. *)
Definition implies (P : DB → Prop) : relation DB := λ db db', P db → P db'.

Lemma bot_preserves (P : DB → Prop) updates :
  (∀ i, preserves P (TenantService_Create i)) → (∀ id i, preserves P (TenantService_Update id i)) →
  (∀ u id, u ∈ updates → confirmed admin u = Some id → preserves P (TenantService_Delete id)) →
  keeps (on_db (implies P)) (Start admin updates).
Proof.
  intros Hc Hu. pose proof (preserves_preorder P) as HP.
  assert (∀ w w', tables_and_queue w' = tables_and_queue w → P (w_db w) → P (w_db w')) as HR.
  { intros w w' [= -> _]. done. }
  unfold on_db, implies. induction updates as [|u updates IH]; intros Hd; cbn [Start].
  - by apply svc_log.
  - apply keeps_bind; [apply _| |intros _; apply IH; intros; eapply Hd; [by right|done]].
    apply dispatch_on; [apply _|done|intros; apply svc_on_world, Hc|intros; apply svc_on_world, Hu|].
    intros id Hid. apply svc_on_world. eapply Hd; [by left|done].
Qed.
End bot.
