(* ===== verification/BotProps.v ===== *)
(** * BotProps: what the admin bot does and says

    Strangers get fixed answers and change nothing; tenants are deleted only
    after a confirmation from the admin chat; what is shown is the rows' text;
    the token does not reach the log. *)
From Stdlib Require Import Ascii.
From S2P Require Import Prelude GoTime Utf8 Json Domain World Repository Integrity Provider Services Markdown ChatProviders.
From S2P Require Import Application ApiFacts BotFormat Bot BotHtml BotFacts SampleEnv Samples.

Section tenants.
Context `{E : Env}.

(** A tenant that is there stays there. *)
Definition has_tenant (id : uuid) (db : DB) : Prop := is_Some (tenants db !! id).

Lemma Create_has_tenant id i : preserves (has_tenant id) (TenantService_Create i).
Proof.
  assert (∀ t, preserves (has_tenant id) (PgTenantRepo_Create t)) as H1.
  { intros t. apply preserves_exec. intros db. apply insert_checked_keeps. intros H _. unfold has_tenant. simpl.
    by apply lookup_insert_is_Some', or_intror. }
  assert (∀ k, preserves (has_tenant id) (PgAPIKeyRepo_Create k)) as H2.
  { intros k. apply preserves_exec. intros db. by apply insert_checked_keeps. }
  unfold TenantService_Create, preserves.
  repeat first [apply H1|apply H2|solve [apply preserves_same; eauto 3 with keeps]|keeps_step].
Qed.

Lemma Update_has_tenant id id' i : preserves (has_tenant id) (TenantService_Update id' i).
Proof.
  apply preserves_exec_at. intros t db H. destruct (tenants db !! id'); [|done]. unfold has_tenant. simpl.
  by apply lookup_insert_is_Some', or_intror.
Qed.

Lemma Delete_has_tenant id id' : id' ≠ id → preserves (has_tenant id) (TenantService_Delete id').
Proof.
  intros Hne. apply preserves_exec. intros db H. destruct (tenants db !! id'); [|done].
  unfold has_tenant, del_tenant. simpl. by rewrite lookup_delete_ne.
Qed.
End tenants.

(** ** Redaction *)

Definition occurs (t s : string) : Prop := ∃ a b, s = a +:+ t +:+ b.

(** No end of [t] starts [r] or is started by it. *)
Fixpoint clash_free (t r : string) : bool :=
  match t with
  | EmptyString => true
  | String _ t' => negb (HasPrefix r t) && negb (HasPrefix t r) && clash_free t' r
  end.

Fixpoint has_byte (c : ascii) (s : string) : bool :=
  match s with
  | EmptyString => false
  | String d s' => bool_decide (c = d) || has_byte c s'
  end.

Lemma HasPrefix_split v r x : HasPrefix (r +:+ x) v = true → HasPrefix r v = true ∨ HasPrefix v r = true.
Proof.
  unfold HasPrefix. revert v. induction r as [|c r IH]; intros v; [intros _; right; by destruct v|].
  destruct v as [|d v]; [by left|]. rewrite string_app_cons. simpl. destruct (ascii_dec d c) as [->|]; [|done].
  intros H. destruct (ascii_dec c c); [|done]. by apply IH.
Qed.

Lemma HasPrefix_cons c s d p : HasPrefix (String c s) (String d p) = bool_decide (d = c) && HasPrefix s p.
Proof. unfold HasPrefix. simpl. destruct (ascii_dec d c); [by rewrite bool_decide_eq_true_2|by rewrite bool_decide_eq_false_2]. Qed.

Section replacing.
Context (t0 : ascii) (t' r : string).
Notation t := (String t0 t').
Context (Hclash : clash_free t r = true) (Hhead : has_byte t0 r = false).

Definition hit : matcher unit := λ s, pair () <$> lit t s.

Lemma hit_Some s u rest : hit s = Some (u, rest) → s = t +:+ rest.
Proof.
  unfold hit, lit. destruct (HasPrefix s t) eqn:Hp; [|done]. apply HasPrefix_inv in Hp as [x ->].
  intros [= _ <-]. by rewrite string_drop_app.
Qed.

Lemma hit_None s : hit s = None → HasPrefix s t = false.
Proof. unfold hit, lit. by destruct (HasPrefix s t). Qed.

(** An end of [t] at the start of the result was at the start of the text. *)
Lemma replaced_end fuel v s : clash_free v r = true →
  HasPrefix (replace_all fuel hit (λ _, r) s) v = true → HasPrefix s v = true.
Proof.
  revert v s. induction fuel as [|fuel IH]; intros v s Hv; cbn [replace_all]; [destruct v; [by destruct s|done]|].
  destruct v as [|c v]; [by destruct s|]. cbn [clash_free] in Hv. apply andb_true_iff in Hv as [[H1 H2]%andb_true_iff H3].
  destruct (hit s) as [[u rest]|].
  - intros H. apply HasPrefix_split in H as [H|H]; [by rewrite H in H1|by rewrite H in H2].
  - destruct s as [|d s]; [done|]. rewrite !HasPrefix_cons. intros [Hc H]%andb_true_iff. rewrite Hc. simpl. by eapply IH.
Qed.

Lemma occurs_cons x c s : occurs x (String c s) → HasPrefix (String c s) x = true ∨ occurs x s.
Proof.
  intros ([|d a] & b & H); [left; rewrite H; exact (HasPrefix_app x b)|]. rewrite string_app_cons in H. injection H as -> ->.
  right. by exists a, b.
Qed.

(** An occurrence cannot start inside the replacement. *)
Lemma occurs_skip x s : has_byte t0 x = false → occurs t (x +:+ s) → occurs t s.
Proof.
  induction x as [|c x IH]; [done|]. cbn [has_byte]. intros [Hc Hx]%orb_false_iff. rewrite string_app_cons.
  intros [H|H]%occurs_cons; [|by apply IH]. rewrite HasPrefix_cons in H. by rewrite Hc in H.
Qed.

Lemma replaced_gone fuel s : ¬ occurs t (replace_all fuel hit (λ _, r) s).
Proof.
  revert s. induction fuel as [|fuel IH]; intros s; cbn [replace_all]; [by intros ([] & b & H)|].
  destruct (hit s) as [[u rest]|] eqn:Hm.
  - intros H%occurs_skip; [|done]. by apply IH in H.
  - destruct s as [|c s]; [by intros ([] & b & H)|]. intros [H|H]%occurs_cons; [|by apply IH in H].
    apply hit_None in Hm. rewrite HasPrefix_cons in H, Hm. apply andb_true_iff in H as [Hc H]. rewrite Hc in Hm. simpl in Hm.
    rewrite (replaced_end fuel t' s) in Hm; [done| |done]. cbn [clash_free] in Hclash.
    by apply andb_true_iff in Hclash as [_ ?].
Qed.
End replacing.

(** A message in which a piece of the token comes right before it. *)
Example redaction_reassembles : redactToken "5:xR" "5:x5:xR" = "5:xREDACTED".
Proof. vm_compute. reflexivity. Qed.

(** ** Rows as the admin reads them *)

Lemma plain_app a b : plain (a +:+ b) = plain a && plain b.
Proof. induction a as [|c a IH]; [done|]. rewrite string_app_cons. cbn [plain]. by rewrite IH, andb_assoc. Qed.

Lemma pad_plain w n : (0 ≤ n < 10 ^ Z.of_nat w)%Z → plain (pad w n) = true.
Proof.
  revert n. induction w as [|w IH]; intros n Hn; [done|]. cbn [pad plain].
  assert (0 < 10 ^ Z.of_nat w)%Z by (apply Z.pow_pos_nonneg; lia).
  rewrite Nat2Z.inj_succ, Z.pow_succ_r in Hn by lia.
  assert (0 ≤ n / 10 ^ Z.of_nat w < 10)%Z as Hd by (split; [apply Z.div_pos; lia|apply Z.div_lt_upper_bound; lia]).
  rewrite IH by (apply Z.mod_pos_bound; lia). rewrite andb_true_r. revert Hd. generalize (n / 10 ^ Z.of_nat w)%Z. intros d Hd.
  assert (d ∈ [0; 1; 2; 3; 4; 5; 6; 7; 8; 9]%Z) as Hin by set_solver by lia.
  rewrite !elem_of_cons, elem_of_nil in Hin. by repeat destruct Hin as [->|Hin].
Qed.

(** A time of a year with four digits. *)
Definition dated (t : Time) : Prop := (0 ≤ time_Year t < 10000)%Z.

Lemma formatTime_plain t : dated t → plain (formatTime t) = true.
Proof.
  intros Ht. unfold formatTime. cbv zeta. pose proof (time_Month_range t). pose proof (time_Day_range t).
  assert (0 ≤ time_clock t < nsPerDay)%Z as Hc by (apply Z.mod_pos_bound; vm_compute; done).
  assert (0 ≤ time_clock t / Hour < 24)%Z.
  { split; [apply Z.div_pos; [lia|done]|apply Z.div_lt_upper_bound; [done|]]. unfold nsPerDay in Hc. lia. }
  pose proof (Z.mod_pos_bound (time_clock t / Minute) 60 ltac:(done)).
  rewrite !plain_app, !pad_plain; [done|..]; simpl; try lia. exact Ht.
Qed.

Definition message_update (msg : Message) : Update := mkUpdate (Some msg) None.
Definition press (query : CallbackQuery) : Update := mkUpdate None (Some query).

(** Whatever the bot is asked, the invariant of the application holds. *)
Lemma bot_keeps_application_ok `{E : Env} {T : Telegram} admin updates : keeps (on_db (implies app_ok)) (Start admin updates).
Proof. apply bot_preserves; intros; [apply app_TenantService_Create|apply app_TenantUpdate|apply app_TenantDelete]. Qed.

(** Telegram refuses the usage hints: they contain a tag it does not know. *)
Lemma usage_hint_refused : html_text ("Invalid UUID." +:+ nl +:+ "<i>Usage: /tenant <id></i>") = None.
Proof. reflexivity. Qed.

(** So it does the welcome of a user whose name has a tag in it. *)
Lemma welcome_refused : html_text ("Welcome, " +:+ bold "a<b" +:+ "!") = None.
Proof. reflexivity. Qed.

(** * Claims *)

(** C39: Whatever messages and button presses arrive from chats other than the configured admin chat (or from
    any chat when none is configured), the bot sends only fixed answers (the welcome with the note of it to the
    admin chat, or a refusal); the database, Redis, the queue and other servers are not touched. *)
Theorem bot_ignores_strangers {E : Env} {T : Telegram} admin updates s :
  Forall (λ u, ∀ chat, update_chat u = Some chat → admin = 0%Z ∨ chat ≠ admin) updates →
  let s' := (Start admin updates s).2 in
  bs_calls s' = bs_calls s ++ concat (map (stranger_calls admin) updates) ∧
  w_db (bs_world s') = w_db (bs_world s) ∧ w_redis (bs_world s') = w_redis (bs_world s) ∧
  w_tasks (bs_world s') = w_tasks (bs_world s) ∧ w_http (bs_world s') = w_http (bs_world s) ∧
  w_smtp (bs_world s') = w_smtp (bs_world s).
Proof.
  intros Hu. apply strangers_say. eapply Forall_impl; [exact Hu|]. intros u H chat Hc. unfold isAuthorized.
  destruct (H chat Hc) as [->|Hne]; [done|]. apply andb_false_iff. right. by apply Z.eqb_neq.
Qed.

(** C22: Whatever updates the bot processes, a tenant that was there before and is gone afterwards was named in
    the data of a confirmation button pressed in the admin chat: no command alone deletes a tenant. *)
Theorem bot_deletes_only_confirmed {E : Env} {T : Telegram} admin updates s id :
  is_Some (tenants (w_db (bs_world s)) !! id) →
  tenants (w_db (bs_world (Start admin updates s).2)) !! id = None →
  ∃ u query str, u ∈ updates ∧ up_Message u = None ∧ up_CallbackQuery u = Some query ∧ cq_Chat query = admin ∧ admin ≠ 0%Z ∧
    cq_Data query = "delete_confirm:" +:+ str ∧ uuid_Parse str = Some id.
Proof.
  intros Hs Hn. destruct (decide (Exists (λ u, confirmed admin u = Some id) updates)) as [Hex|Hno].
  - apply Exists_exists in Hex as (u & Hu & Hc). unfold confirmed in Hc. destruct (up_Message u) eqn:Hm; [done|].
    destruct (up_CallbackQuery u) as [query|] eqn:Hq; [|done]. destruct (isAuthorized admin (cq_Chat query)) eqn:Ha; [|done].
    destruct (HasPrefix (cq_Data query) callbackDeleteConfirm) eqn:Hp; [|done]. apply HasPrefix_inv in Hp as [str Hp].
    rewrite Hp, TrimPrefix_app in Hc. exists u, query, str. unfold isAuthorized in Ha. split_and!; try done; lia.
  - pose proof (bot_preserves admin (has_tenant id) updates (Create_has_tenant id) (Update_has_tenant id)) as H.
    destruct (H (λ u id' Hu Hc, Delete_has_tenant id id'
      (λ He, Hno (proj2 (Exists_exists _ _) (ex_intro _ u (conj Hu (eq_trans Hc (f_equal Some He))))))) s Hs) as [x Hx].
    unfold db_of in Hx. congruence.
Qed.

(** With the database up, /delete_tenant of a tenant id in the admin chat changes nothing and offers two
    buttons; pressing the first removes exactly that tenant with the rows that belong to it, pressing the second
    changes nothing. *)
Theorem delete_dialogue_deletes {E : Env} {T : Telegram} {UL : UuidLaws E} admin msg id s :
  no_faults → admin ≠ 0%Z → mg_Chat msg = admin → mg_IsCommand msg = true → mg_Command msg = "delete_tenant" →
  uuid_Parse (strings_TrimSpace (strings_TrimSpace (mg_CommandArguments msg))) = Some id →
  let s1 := (dispatchUpdate admin (message_update msg) s).2 in
  ∃ text yes no,
    bs_calls s1 = bs_calls s ++ [SendMessage admin text [("Yes, delete it", yes); ("Cancel", no)]] ∧
    w_db (bs_world s1) = w_db (bs_world s) ∧
    ∀ query s2, cq_Chat query = admin →
      (cq_Data query = yes → w_db (bs_world (dispatchUpdate admin (press query) s2).2) =
         match tenants (w_db (bs_world s2)) !! id with
         | Some _ => del_tenant id (w_db (bs_world s2))
         | None => w_db (bs_world s2)
         end) ∧
      (cq_Data query = no → w_db (bs_world (dispatchUpdate admin (press query) s2).2) = w_db (bs_world s2)).
Proof.
  intros Hf Ha Hchat Hcmd Hc Hid s1. set (text := "Are you sure you want to delete tenant " +:+ code (uuid_String id) +:+ "?").
  exists text, ("delete_confirm:" +:+ uuid_String id), "delete_cancel".
  assert (isAuthorized admin admin = true) as Hauth.
  { unfold isAuthorized. rewrite Z.eqb_refl. by apply Z.eqb_neq in Ha as ->. }
  assert (says [SendMessage admin text [("Yes, delete it", "delete_confirm:" +:+ uuid_String id); ("Cancel", "delete_cancel")]]
            s s1) as (H1 & H2 & _).
  { unfold s1, dispatchUpdate, message_update. cbn [up_Message]. unfold dispatchMessage. rewrite Hchat, Hcmd, Hc, Hauth. cbv zeta.
    cbn [negb]. apply (says_bind [] [_]); [apply says_log|]. intros _ s3. cbn -[handleDeleteTenant]. unfold handleDeleteTenant, with_uuid, parseUUID.
    rewrite Hid. apply says_call. }
  split; [exact H1|]. split; [exact H2|]. intros query s2 Hq. unfold dispatchUpdate, press. cbn [up_Message up_CallbackQuery].
  unfold dispatchCallback. rewrite Hq, Hauth. cbn [negb].
  assert (∀ (m : BM unit) s3, keeps (on_world (same tables_and_queue)) m → w_db (bs_world (m s3).2) = w_db (bs_world s3)) as Hk.
  { intros m s3 Hm. specialize (Hm s3). unfold on_world, same, tables_and_queue in Hm. by injection Hm. }
  split; intros ->.
  - rewrite (HasPrefix_app "delete_confirm:" (uuid_String id) : HasPrefix _ callbackDeleteConfirm = true).
    rewrite (TrimPrefix_app "delete_confirm:" (uuid_String id) : TrimPrefix _ callbackDeleteConfirm = _).
    unfold handleDeleteConfirm. cbv zeta. rewrite uuid_Parse_String, ST_bind_run.
    rewrite Hk.
    2:{ destruct (svc _ s2).1; (apply keeps_bind; [apply _|apply call_logged_on; [apply _|done]|intros _]);
          [apply call_logged_on|apply sendError_on]; try apply _; done. }
    unfold svc, TenantService_Delete, PgTenantRepo_Delete, db_exec. rewrite Hf. simpl. by destruct (tenants _ !! id).
  - change (HasPrefix "delete_cancel" callbackDeleteConfirm) with false. cbv iota.
    rewrite bool_decide_eq_true_2 by done. unfold handleDeleteCancel.
    apply Hk, keeps_bind; [apply _|apply call_logged_on; [apply _|done]|intros _; apply call_logged_on; [apply _|done]].
Qed.

(** A log line passed through the redacting logger does not contain the bot token, when the token begins with a
    digit and does not overlap the replacement text, and the redacted line is what is logged. *)
Theorem bot_token_redacted {E : Env} token msg s :
  clash_free token "REDACTED" = true → match token with String c _ => digit_byte c = true | EmptyString => False end →
  ¬ occurs token (redactToken token msg) ∧
  w_log (bs_world (redactingLogger_Printf token msg s).2) = w_log (bs_world s) ++ [redactToken token msg].
Proof.
  intros Hc Hd. split; [|done]. unfold redactToken. destruct token as [|c t]; [done|].
  rewrite bool_decide_eq_false_2 by done. apply replaced_gone; [done|].
  unfold digit_byte in Hd. cbn [has_byte]. repeat (rewrite bool_decide_eq_false_2; [|by intros ->]). done.
Qed.

(** The HTML the bot sends for a tenant, a new tenant and a toggled tenant is well formed and, read by
    Telegram's rules, shows exactly the fields of the row, whatever markup characters the tenant's name and slug
    contain. *)
Theorem bot_shows_rows {E : Env} (t : Tenant) (r : CreateTenantResult) :
  plain (uuid_String (t_ID t)) = true → plain (uuid_String (t_ID (ctr_Tenant r))) = true → dated (t_CreatedAt t) → dated (t_UpdatedAt t) →
  html_text (formatTenantDetail t) = Some
    ("Tenant: " +:+ t_Name t +:+ nl +:+ nl +:+ "ID:      " +:+ uuid_String (t_ID t) +:+ nl +:+ "Slug:    " +:+ t_Slug t +:+ nl +:+
     "Active:  " +:+ activeLabel (t_IsActive t) +:+ nl +:+ "API Key: " +:+ t_APIKey t +:+ nl +:+
     "Created: " +:+ formatTime (t_CreatedAt t) +:+ nl +:+ "Updated: " +:+ formatTime (t_UpdatedAt t)) ∧
  html_text (formatNewTenant r) = Some
    ("Tenant created successfully." +:+ nl +:+ nl +:+ "ID:         " +:+ uuid_String (t_ID (ctr_Tenant r)) +:+ nl +:+
     "Name:       " +:+ t_Name (ctr_Tenant r) +:+ nl +:+ "Slug:       " +:+ t_Slug (ctr_Tenant r) +:+ nl +:+
     "API Key:    " +:+ ctr_APIKey r +:+ nl +:+ "API Secret: " +:+ ctr_APISecret r +:+ nl +:+ nl +:+
     "Store the API secret now — it will not be shown again.") ∧
  html_text (formatToggleResult t) = Some
    ("Tenant " +:+ t_Name t +:+ " is now " +:+ activeWord (t_IsActive t) +:+ ".").
Proof.
  intros Hid Hid' Hc Hu. apply formatTime_plain in Hc, Hu.
  assert (plain (activeLabel (t_IsActive t)) = true ∧ plain (activeWord (t_IsActive t)) = true) as [Hl Hw] by by destruct (t_IsActive t).
  split_and!; apply renders_text.
  - eapply renders_eq.
    + eapply (renders_app _ ["b"]); [eapply (renders_app _ ["b"] _ "<b>"); [apply renders_open; by intros []|by apply renders_plain]|].
      eapply (renders_app _ ["b"]); [apply renders_escape|].
      eapply (renders_app _ []); [apply renders_close; by intros []|]. rend.
    + reflexivity.
  - unfold formatNewTenant. apply (renders_app _ []); [by apply (renders_bold [] "Tenant created successfully."), renders_plain|].
    rend. by apply (renders_italic [] "Store the API secret now — it will not be shown again."), renders_plain.
  - unfold formatToggleResult. rend.
Qed.

(** * Witnesses *)

Section witnesses.
#[local] Existing Instance healthy.
#[local] Instance answering : Telegram := {| tg_answer := λ _ _, Ok tt |}.

Definition bot_state : BotState := mkBotState _ (healthy_world sample_db) [].
Definition guest : User := mkUser "Eve" "" "eve".

Lemma bot_ignores_strangers_witness :
  let s' := (Start 42 [message_update (mkMessage 7 guest true "tenants" "")] bot_state).2 in
  bs_calls s' = [SendMessage 7 unauthorized []] ∧ w_db (bs_world s') = sample_db.
Proof.
  destruct (bot_ignores_strangers 42 [message_update (mkMessage 7 guest true "tenants" "")] bot_state) as (H1 & H2 & _).
  - constructor; [|constructor]. intros chat [= <-]. by right.
  - split; [exact H1|exact H2].
Defined.

Definition confirm_query : CallbackQuery := mkCallbackQuery "q" 42 3 ("delete_confirm:" +:+ uuid_String id_tenant).

Lemma bot_deletes_only_confirmed_witness :
  tenants (w_db (bs_world (Start 42 [press confirm_query] bot_state).2)) !! id_tenant = None ∧
  ∃ u query str, u ∈ [press confirm_query] ∧ up_Message u = None ∧ up_CallbackQuery u = Some query ∧ cq_Chat query = 42%Z ∧
    (42 ≠ 0)%Z ∧ cq_Data query = "delete_confirm:" +:+ str ∧ uuid_Parse str = Some id_tenant.
Proof.
  assert (tenants (w_db (bs_world (Start 42 [press confirm_query] bot_state).2)) !! id_tenant = None) as Hn
    by (vm_compute; reflexivity).
  split; [exact Hn|].
  apply (bot_deletes_only_confirmed 42 [press confirm_query] bot_state id_tenant); [|exact Hn].
  exists sample_tenant. vm_compute. reflexivity.
Defined.

Definition delete_message : Message := mkMessage 42 guest true "delete_tenant" (" " +:+ uuid_String id_tenant +:+ " ").

Lemma delete_dialogue_deletes_witness :
  ∃ text yes no,
    bs_calls (dispatchUpdate 42 (message_update delete_message) bot_state).2 =
      [SendMessage 42 text [("Yes, delete it", yes); ("Cancel", no)]] ∧
    (cq_Data confirm_query = yes →
       w_db (bs_world (dispatchUpdate 42 (press confirm_query) bot_state).2) = del_tenant id_tenant sample_db).
Proof.
  destruct (delete_dialogue_deletes 42 delete_message id_tenant bot_state) as (text & yes & no & H1 & _ & H2);
    [intros n; reflexivity|discriminate|reflexivity|reflexivity|reflexivity|vm_compute; reflexivity|].
  exists text, yes, no. split; [exact H1|]. exact (proj1 (H2 confirm_query bot_state eq_refl)).
Defined.

Lemma bot_token_redacted_witness :
  ¬ occurs "123:AA-x_9" (redactToken "123:AA-x_9" "Post https://api.telegram.org/bot123:AA-x_9/getMe") ∧
  redactToken "123:AA-x_9" "Post https://api.telegram.org/bot123:AA-x_9/getMe" =
    "Post https://api.telegram.org/bot123:REDACTED/getMe".
Proof.
  split; [|vm_compute; reflexivity].
  apply (bot_token_redacted "123:AA-x_9" "Post https://api.telegram.org/bot123:AA-x_9/getMe" bot_state); reflexivity.
Defined.

Definition markup_tenant : Tenant := mkTenant id_tenant "<Acme & co>" "acme" "k" "h" false 0 0.

Lemma bot_shows_rows_witness :
  html_text (formatToggleResult markup_tenant) = Some "Tenant <Acme & co> is now inactive.".
Proof.
  destruct (bot_shows_rows markup_tenant (mkCreateTenantResult sample_tenant "k" "s")) as (_ & _ & H);
    [vm_compute; reflexivity|vm_compute; reflexivity|vm_compute; split; congruence|vm_compute; split; congruence|].
  exact H.
Defined.
End witnesses.
