(* ===== verification/System.v ===== *)
(** * System: the three processes around one database and one queue

    internal/config and the wiring of cmd/api, cmd/worker and cmd/admin-bot: how a
    configuration becomes the API's dependencies, the queues and handlers of the
    worker, its schedule, and the bot.  [sstep] lets the processes take turns:
    the API serves a request, the worker runs a task of a queue it serves, the
    scheduler enqueues one of its tasks, the bot answers an update.  Each such
    call is one step; what Redis and asynq do with a task between two runs of it
    (wait, retry, archive) is [queue]. *)
From S2P Require Import Prelude GoTime Json Domain World Repository Integrity Tasks Emitter Provider Dispatcher Lifecycle.
From S2P Require Import Email EventDelivery Services Http Quota Maintenance Auth Handlers Router Bot.

(** ** internal/config/config.go *)

Record Config := mkConfig {
  cfg_APIPort : Z;
  cfg_ShutdownTimeout : Duration;
  cfg_DatabaseURL : string;
  cfg_DBMaxConns : Z;
  cfg_DBMinConns : Z;
  cfg_DBMaxConnLifetime : Duration;
  cfg_DBMaxConnIdleTime : Duration;
  cfg_DBHealthCheckPeriod : Duration;
  cfg_RedisAddr : string;
  cfg_RedisPassword : string;
  cfg_RedisDB : Z;
  cfg_JWTSigningKey : string;
  cfg_JWTExpiration : Duration;
  cfg_JWTIssuer : string;
  cfg_WorkerConcurrency : Z;
  cfg_MaxRetries : Z;
  cfg_MinRetryDelay : Duration;
  cfg_MaxRetryDelay : Duration;
  cfg_LogLevel : string;
  cfg_TelegramBotToken : string;
  cfg_TelegramAdminChat : Z;
  cfg_AdminAPIKey : string;
  cfg_AdminAPISecret : string;
  cfg_ServiceHMACSecret : string;
  cfg_BillingWebhookURL : string;
  cfg_UpgradeURL : string
}.

(** ** cmd/api/main.go *)

Definition api_deps `{E : Env} {ML : Mail} (cfg : Config) : Deps :=
  mkDeps _ (mkJWTManager (cfg_JWTSigningKey cfg) (cfg_JWTIssuer cfg) (cfg_JWTExpiration cfg)) worker_registry
    (cfg_MaxRetries cfg) (cfg_AdminAPIKey cfg) (cfg_AdminAPISecret cfg) (cfg_ServiceHMACSecret cfg)
    (cfg_BillingWebhookURL cfg) (cfg_UpgradeURL cfg).

(** ** cmd/worker/main.go *)

(** The queues the worker takes tasks from, with their weights. *)
Definition worker_Queues : list (string * Z) :=
  [("critical", 6%Z); ("notifications", 3%Z); ("low", 1%Z); ("webhooks", 1%Z)].

Definition worker_RetryDelayFunc `{E : Env} (cfg : Config) : Z → Task → M (option Duration) :=
  RetryDelayForTask (worker_retryDelay (cfg_MinRetryDelay cfg) (cfg_MaxRetryDelay cfg)).

(** A maintenance handler runs with as many pages as there are tenants and one
    more, which is always enough (SystemFacts.purge_total, reconcile_total). *)
Definition maintain `{E : Env} (job : nat → M (option (result unit))) : M (result unit) := λ w,
  let '(r, w') := job (S (size (tenants (w_db w)))) w in (default (Ok tt) r, w').

(** The patterns of the mux; asynq matches a pattern with the types it is a
    prefix of, and no pattern here is a prefix of another. *)
Definition worker_mux `{E : Env} {ML : Mail} (ctx : TaskCtx) (t : Task) : M (result unit) :=
  if HasPrefix (task_Type t) TypeNotificationDeliver then HandleNotificationDeliver worker_registry worker_Emit ctx t
  else if HasPrefix (task_Type t) TypeRetentionPurge then maintain HandleRetentionPurge
  else if HasPrefix (task_Type t) TypeUsageReconcile then maintain HandleUsageReconcile
  else if HasPrefix (task_Type t) TypeWebhookEvent then HandleWebhookEvent t
  else mret (Err (errors_New "handler not found for task")).

(** What the scheduler registers: the cron expression and the task. *)
Definition worker_schedule : list (string * Task) :=
  [("0 3 * * *", NewTask TypeRetentionPurge JNull []);
   ("30 3 * * *", NewTask TypeUsageReconcile JNull [])].

(** ** Starting a process *)

Record PoolConfig := mkPoolConfig {
  pc_ConnString : string;
  pc_MaxConns : Z;
  pc_MinConns : Z;
  pc_MaxConnLifetime : Duration;
  pc_MaxConnIdleTime : Duration;
  pc_HealthCheckPeriod : Duration
}.

(** The libraries called at start: env.Parse of caarlos0/env, which fills a
    [Config] from the environment, pgxpool, the Telegram client, whose
    [NewBotAPI] answers the bot's user name, and the scheduler of asynq. *)
Class Libraries := {
  env_Parse : result Config;
  pgxpool_ParseConfig : string → result PoolConfig;
  pgxpool_NewWithConfig : PoolConfig → result unit;
  tgbotapi_SetLogger : result unit;
  tgbotapi_NewBotAPI : string → result string;
  (** [Scheduler.Register] of asynq *)
  scheduler_Register : string → Task → result unit
}.

Section startup.
Context `{E : Env} {T : Telegram} {L : Libraries}.

Definition Load : result Config := env_Parse.

(** The parsed configuration with the limits of [cfg]. *)
Definition pool_limits (cfg : Config) (pc : PoolConfig) : PoolConfig :=
  mkPoolConfig (pc_ConnString pc) (cfg_DBMaxConns cfg) (cfg_DBMinConns cfg) (cfg_DBMaxConnLifetime cfg)
    (cfg_DBMaxConnIdleTime cfg) (cfg_DBHealthCheckPeriod cfg).

Definition buildDBPool (cfg : Config) : result unit :=
  pc <-? pgxpool_ParseConfig (cfg_DatabaseURL cfg);
  pgxpool_NewWithConfig (pool_limits cfg pc).

Definition Ping : M (result unit) := db_query (λ _, Ok tt).

(** [logger.Fatal] logs and ends the process. *)
Definition fatal {A} (msg : string) : M (string + A) := _ ← log msg; mret (inl msg).

(** How cmd/api and cmd/worker begin. *)
Definition start_process : M (string + Config) :=
  match Load with
  | Err _ => fatal "failed to load config"
  | Ok cfg =>
      match pgxpool_ParseConfig (cfg_DatabaseURL cfg) with
      | Err _ => fatal "failed to parse database config"
      | Ok poolCfg =>
          match pgxpool_NewWithConfig (pool_limits cfg poolCfg) with
          | Err _ => fatal "failed to connect to database"
          | Ok _ =>
              ping ← Ping;
              match ping with
              | Err _ => fatal "failed to ping database"
              | Ok _ => _ ← log "connected to PostgreSQL"; mret (inr cfg)
              end
          end
      end
  end.

(** cmd/worker and cmd/api after that; the argument is what their server does until
    it is stopped ([asynq.Server.Run]; [ListenAndServe], which ends with an error or
    at a signal, and [Shutdown]).  The result is [None], or the fatal message. *)
Definition schedule_names : list string := ["retention purge"; "usage reconcile"].

Fixpoint register (l : list (string * (string * Task))) : result unit :=
  match l with
  | [] => Ok tt
  | (name, (cron, t)) :: l =>
      match scheduler_Register cron t with
      | Err _ => Err (errors_New ("failed to register " +:+ name +:+ " schedule"))
      | Ok _ => register l
      end
  end.

Definition worker_main (srv_Run : Config → M (result unit)) : M (option string) :=
  start ← start_process;
  match start with
  | inl msg => mret (Some msg)
  | inr cfg =>
      match register (zip schedule_names worker_schedule) with
      | Err err => _ ← log (err_Error err); mret (Some (err_Error err))
      | Ok _ =>
          _ ← log "worker starting";
          r ← srv_Run cfg;
          match r with
          | Err _ => _ ← log "failed to run worker"; mret (Some "failed to run worker")
          | Ok _ => mret None
          end
      end
  end.

Definition api_main (ListenAndServe : Config → M (result unit)) (Shutdown : Config → M (result unit)) : M (option string) :=
  start ← start_process;
  match start with
  | inl msg => mret (Some msg)
  | inr cfg =>
      _ ← log "API server starting";
      served ← ListenAndServe cfg;
      match served with
      | Err _ => _ ← log "server failed to start"; mret None
      | Ok _ =>
          _ ← log "shutting down server...";
          r ← Shutdown cfg;
          match r with
          | Err _ => _ ← log "server forced to shutdown"; mret (Some "server forced to shutdown")
          | Ok _ => _ ← log "server stopped"; mret None
          end
      end
  end.

(** [bot.New]: the redacting logger first, then the connection. *)
Definition bot_New (token : string) : M (result unit) :=
  match tgbotapi_SetLogger with
  | Err err => mret (Err (errorf_w "install telegram logger" err))
  | Ok _ =>
      match tgbotapi_NewBotAPI token with
      | Err err => mret (Err (errorf_w "connect to telegram api" err))
      | Ok _ => _ ← log "telegram bot authenticated"; mret (Ok tt)
      end
  end.

(** cmd/admin-bot: [None] when the process ran until its updates ended, the
    fatal message otherwise. *)
Definition bot_starts (cfg : Config) : bool :=
  negb (bool_decide (cfg_TelegramBotToken cfg = "")) && negb (cfg_TelegramAdminChat cfg =? 0)%Z.

Definition die (msg : string) : BM (option string) := _ ← svc (log msg); mret (Some msg).

Definition admin_bot_main (updates : list Update) : BM (option string) :=
  match Load with
  | Err _ => die "failed to load config"
  | Ok cfg =>
      if bool_decide (cfg_TelegramBotToken cfg = "") then die "TELEGRAM_BOT_TOKEN is required"
      else if (cfg_TelegramAdminChat cfg =? 0)%Z then die "TELEGRAM_ADMIN_CHAT is required"
      else match buildDBPool cfg with
      | Err _ => die "failed to connect to database"
      | Ok _ =>
          ping ← svc Ping;
          match ping with
          | Err _ => die "failed to ping database"
          | Ok _ =>
              _ ← svc (log "connected to PostgreSQL");
              bot ← svc (bot_New (cfg_TelegramBotToken cfg));
              match bot with
              | Err _ => die "failed to create bot"
              | Ok _ =>
                  _ ← svc (log "admin bot starting");
                  _ ← Start (cfg_TelegramAdminChat cfg) updates;
                  _ ← svc (log "admin bot stopped");
                  mret None
              end
          end
      end
  end.

(** Updates are served only with a token and an admin chat. *)
Lemma admin_bot_configured updates s :
  (admin_bot_main updates s).1 = None → ∃ cfg, Load = Ok cfg ∧ bot_starts cfg = true.
Proof.
  unfold admin_bot_main. destruct Load as [cfg|]; [|done]. intros H. exists cfg. split; [done|]. revert H. unfold bot_starts.
  case_bool_decide; [done|]. by destruct (cfg_TelegramAdminChat cfg =? 0)%Z.
Qed.

(** A process that starts has a pool with the configured limits. *)
Lemma start_process_pool w cfg :
  (start_process w).1 = inr cfg →
  ∃ pc, Load = Ok cfg ∧ pgxpool_ParseConfig (cfg_DatabaseURL cfg) = Ok pc ∧
        pgxpool_NewWithConfig (pool_limits cfg pc) = Ok tt ∧ buildDBPool cfg = Ok tt.
Proof.
  unfold start_process, buildDBPool. destruct Load as [cfg'|]; [|done].
  destruct (pgxpool_ParseConfig _) as [pc|] eqn:Hpc; [|done].
  destruct (pgxpool_NewWithConfig _) as [[]|] eqn:Hn; [|done]. rewrite ST_bind_run.
  destruct (Ping w) as [[[]|e] w1]; [|done]. simpl. intros [= <-]. exists pc. by rewrite Hpc.
Qed.

(** Starting only pings the database, and a process that does not come up does no
    more than that. *)
Definition silent (w w' : World) : Prop :=
  w_db w' = w_db w ∧ w_redis w' = w_redis w ∧ w_tasks w' = w_tasks w ∧ w_http w' = w_http w.

Lemma start_process_silent w : silent w (start_process w).2.
Proof.
  unfold start_process. destruct Load as [cfg|]; [|done]. destruct (pgxpool_ParseConfig _) as [pc|]; [|done].
  destruct (pgxpool_NewWithConfig _) as [[]|]; [|done]. rewrite ST_bind_run.
  unfold Ping, db_query, db_exec, db_exec_at. rewrite ?ST_bind_run. unfold silent.
  destruct (env_fault (w_tick w)); done.
Qed.

Lemma worker_fails_silently run w :
  (∀ cfg, (start_process w).1 = inr cfg → is_Ok (register (zip schedule_names worker_schedule)) = false) →
  (worker_main run w).1 ≠ None ∧ silent w (worker_main run w).2.
Proof.
  intros H. pose proof (start_process_silent w) as Hs. unfold worker_main. rewrite ST_bind_run.
  destruct (start_process w) as [[msg|cfg] w1]; [done|]. cbn [fst snd] in *.
  specialize (H cfg eq_refl). destruct (register _) as [[]|err]; [done|]. split; [done|exact Hs].
Qed.

Lemma api_fails_silently serve shutdown w msg :
  (start_process w).1 = inl msg →
  (api_main serve shutdown w).1 = Some msg ∧ silent w (api_main serve shutdown w).2.
Proof.
  intros H. pose proof (start_process_silent w) as Hs. unfold api_main. rewrite ST_bind_run.
  destruct (start_process w) as [[m|cfg] w1]; [|done]. simpl in *. split; congruence.
Qed.
End startup.

(** ** The queue *)

(** A task in the queue and how often it was retried. *)
Record job := mkJob { j_Task : Task; j_Retried : Z }.

(** The options in force, with asynq's defaults. *)
Definition j_Queue (j : job) : string := default "default" (opt_Queue (task_Opts (j_Task j))).
Definition j_MaxRetry (j : job) : Z := Z.max 0 (default 25%Z (opt_MaxRetry (task_Opts (j_Task j)))).
Definition j_TaskID (j : job) : option string := opt_TaskID (task_Opts (j_Task j)).
Definition j_ctx (j : job) : TaskCtx := mkTaskCtx (j_Retried j) (j_MaxRetry j).

Definition new_job (t : Task) : job := mkJob t 0.
Definition again (j : job) : job := mkJob (j_Task j) (j_Retried j + 1).

Definition served (j : job) : bool := bool_decide (j_Queue j ∈ worker_Queues.*1).

Record queue := mkQueue { q_pending : list job; q_archived : list job }.

(** Task ids are unique in the queue, archived tasks included; tasks without the
    option get an id of their own. *)
Definition held (q : queue) (t : Task) : bool :=
  match opt_TaskID (task_Opts t) with
  | None => false
  | Some id => bool_decide (Some id ∈ j_TaskID <$> (q_pending q ++ q_archived q))
  end.

Definition put (q : queue) (t : Task) : queue :=
  if held q t then q else mkQueue (q_pending q ++ [new_job t]) (q_archived q).
Definition puts : queue → list Task → queue := foldl put.

(** The tasks handed to asynq between two worlds. *)
Definition new_tasks `{E : Env} (w w' : World) : list Task := drop (length (w_tasks w)) (w_tasks w').

(** ** One run of a task *)

Inductive fate := Done | Retry | Archive | Crash.

Section worker.
Context `{E : Env} {ML : Mail} (cfg : Config).

(** A panic of the delay function is outside the handler and ends the process. *)
Definition run_job (j : job) : M fate :=
  r ← worker_mux (j_ctx j) (j_Task j);
  match r with
  | Ok _ => mret Done
  | Err e =>
      _ ← HandleError worker_Emit (j_ctx j) (j_Task j) e;
      if errors_Is e SkipRetry || (j_MaxRetry j <=? j_Retried j)%Z then mret Archive
      else
        delay ← worker_RetryDelayFunc cfg (j_Retried j) (j_Task j);
        mret (match delay with Some _ => Retry | None => Crash end)
  end.

(** What becomes of the task; one whose process died is run again. *)
Definition settle (f : fate) (pre post : list job) (j : job) (archived : list job) : queue :=
  match f with
  | Done => mkQueue (pre ++ post) archived
  | Retry => mkQueue (pre ++ again j :: post) archived
  | Archive => mkQueue (pre ++ post) (archived ++ [j])
  | Crash => mkQueue (pre ++ j :: post) archived
  end.

Definition system : Type := World * queue.

(** The worker takes any task of its queues. *)
Inductive work : system → system → Prop :=
| work_run w q pre j post :
    q_pending q = pre ++ j :: post → served j = true →
    let run := run_job j w in
    work (w, q) (run.2, puts (settle run.1 pre post j (q_archived q)) (new_tasks w run.2)).
End worker.

(** ** The processes together *)

Section system.
Context `{E : Env} {ML : Mail} {J : Jwt} {T : Telegram} (cfg : Config).

(** The API's tasks are those of new notifications, whose UUIDs are not drawn
    twice: their task ids are not in the queue, which would refuse them, and
    were not used before. *)
Inductive sstep : system → system → Prop :=
| sys_serve w q send_multi rt r :
    multi_runs (api_deps cfg) send_multi → rt ∈ router_New (api_deps cfg) send_multi →
    let w' := (rt_serve rt r w).2 in
    NoDup (opt_TaskID ∘ task_Opts <$> new_tasks w w') → Forall (λ t, held q t = false) (new_tasks w w') →
    Forall (λ t, opt_TaskID (task_Opts t) ∉ opt_TaskID ∘ task_Opts <$> w_tasks w) (new_tasks w w') →
    sstep (w, q) (w', puts q (new_tasks w w'))
| sys_work s s' : work cfg s s' → sstep s s'
| sys_schedule w q cron t : (cron, t) ∈ worker_schedule → sstep (w, q) (w, put q t)
| sys_bot w q update calls :
    bot_starts cfg = true →
    sstep (w, q) (bs_world (dispatchUpdate (cfg_TelegramAdminChat cfg) update (mkBotState _ w calls)).2, q)
| sys_idle w q : sstep (w, q) (next_tick w, q).

(** A new installation. *)
Definition installed (s : system) : Prop :=
  w_db s.1 = empty_db ∧ w_tasks s.1 = [] ∧ s.2 = mkQueue [] [].

Definition reachable (s : system) : Prop := ∃ s0, installed s0 ∧ rtc sstep s0 s.
End system.
