(* ===== verification/SystemFacts.v ===== *)
(** * SystemFacts: what a step of the system can change

    [evolves] is what requests and bot updates do to tables and queue: a sequence
    of changes that create no notification, and of accepted messages, each of
    which stores a row and enqueues its task.  Every route of the API and every
    update of the bot evolves the world.  Runs of tasks only add event tasks and
    keep the identity of every row. *)
From S2P Require Import Prelude GoTime Json Hex Domain World Repository Integrity RepositoryProps.
From S2P Require Import Tasks Emitter Provider Dispatcher DispatcherFacts Lifecycle Net Ssrf Services ServicesFacts.
From S2P Require Import Email ProviderFacts EventDelivery Http Quota QuotaProps Maintenance Application Auth Handlers Router.
From S2P Require Import ApiFacts Bot BotFacts System.

Section evolution.
Context `{E : Env}.

(** A message accepted by [Send]: row and task, or the row alone when a service
    failed. *)
Definition accepted (n : Notification) (c : ChannelRow) (w w' : World) : Prop :=
  channel_configs (w_db w) !! n_ChannelConfigID n = Some c ∧ n_Status n = StatusPending ∧ storable n (w_db w) ∧
  (∃ t u, w_db w' = stored n t u (w_db w)) ∧
  (w_tasks w' = w_tasks w ++ [send_task n c] ∨ w_tasks w' = w_tasks w ∧ ¬ services_up).

Inductive change (w w' : World) : Prop :=
| change_quiet :
    w_tasks w' = w_tasks w → (app_ok (w_db w) → app_ok (w_db w')) →
    notifications (w_db w') ⊆ notifications (w_db w) → change w w'
| change_send n c : (app_ok (w_db w) → app_ok (w_db w')) → accepted n c w w' → change w w'.

(** From tables that satisfy the invariant. *)
Definition evolves : relation World := λ w w', app_ok (w_db w) → app_ok (w_db w') ∧ rtc change w w'.

#[export] Instance evolves_preorder : PreOrder evolves.
Proof.
  split; [intros w H; by split|]. intros w1 w2 w3 H12 H23 H1. destruct (H12 H1) as [H2 R12].
  destruct (H23 H2) as [H3 R23]. split; [done|by etrans].
Qed.

Lemma evolves_reads w w' : tables_and_queue w' = tables_and_queue w → evolves w w'.
Proof.
  unfold tables_and_queue. intros [= Hdb Ht] H. split; [by rewrite Hdb|]. apply rtc_once, change_quiet; [done|by rewrite Hdb..].
Qed.

Lemma evolve_reads {A} (m : M A) : reads m → keeps evolves m.
Proof. intros H w. apply evolves_reads, H. Qed.

(** A write that makes no notification. *)
Lemma evolve_write {A} (m : M A) :
  preserves app_ok m → keeps (same w_tasks) m →
  (∀ w, notifications (w_db (m w).2) ⊆ notifications (w_db w)) → keeps evolves m.
Proof. intros Ha Ht Hn w H. specialize (Ha w H). split; [done|]. by apply rtc_once, change_quiet; [apply Ht|..]. Qed.

Lemma exec_notifications {A} (f : DB → result A * DB) w :
  (∀ db, notifications (f db).2 ⊆ notifications db) →
  notifications (w_db (db_exec f w).2) ⊆ notifications (w_db w).
Proof. intros Hf. unfold db_exec. destruct (env_fault _); simpl; done. Qed.

Lemma evolve_exec {A} (f : DB → result A * DB) :
  preserves app_ok (db_exec f) → (∀ db, notifications (f db).2 ⊆ notifications db) → keeps evolves (db_exec f).
Proof. intros. apply evolve_write; [done|apply db_exec_tasks|]. intros w. by apply exec_notifications. Qed.

Lemma evolve_exec_at {A} (f : nat → DB → result A * DB) :
  preserves app_ok (db_exec_at f) → (∀ t db, notifications (f t db).2 ⊆ notifications db) → keeps evolves (db_exec_at f).
Proof. intros. apply evolve_write; [done|apply db_exec_at_tasks|]. intros w. by apply exec_notifications. Qed.

Lemma insert_checked_notifications h checks ins db :
  notifications (ins db) ⊆ notifications db → notifications (insert_checked h checks ins db).2 ⊆ notifications db.
Proof. intros H. unfold insert_checked. by destruct (first_violation _). Qed.
Hint Resolve insert_checked_notifications : app.

(** ** The writing methods of the repositories *)

Lemma evolve_TenantCreate t : keeps evolves (PgTenantRepo_Create t).
Proof. apply evolve_exec; [apply app_TenantCreate|]. intros. by apply insert_checked_notifications. Qed.
Lemma evolve_TenantUpdate id i : keeps evolves (PgTenantRepo_Update id i).
Proof. apply evolve_exec_at; [apply app_TenantUpdate|]. intros. case_match; simpl; reflexivity. Qed.
Lemma evolve_TenantDelete id : keeps evolves (PgTenantRepo_Delete id).
Proof.
  apply evolve_exec; [apply app_TenantDelete|]. intros db. case_match; [|done]. apply (del_tenant_shrinks id db).
Qed.
Lemma evolve_KeyCreate k : keeps evolves (PgAPIKeyRepo_Create k).
Proof. apply evolve_exec; [apply app_KeyCreate|]. intros. by apply insert_checked_notifications. Qed.
Lemma evolve_KeyRevoke id tid : keeps evolves (PgAPIKeyRepo_Revoke id tid).
Proof. apply evolve_exec_at; [apply app_KeyRevoke|]. intros. repeat case_match; simpl; reflexivity. Qed.
Lemma evolve_EntitlementUpsert e : keeps evolves (PgEntitlementRepo_Upsert e).
Proof. apply evolve_exec_at; [apply app_EntitlementUpsert|]. intros. by apply insert_checked_notifications. Qed.
Lemma evolve_ChannelCreate cfg : cc_Channel cfg ∈ ValidChannelTypes → keeps evolves (PgChannelConfigRepo_Create cfg).
Proof. intros. apply evolve_exec; [by apply app_ChannelCreate|]. intros. by apply insert_checked_notifications. Qed.
Lemma evolve_ChannelUpdate id tid i : keeps evolves (PgChannelConfigRepo_Update id tid i).
Proof. apply evolve_exec_at; [apply app_ChannelUpdate|]. intros. cbv zeta. repeat case_match; simpl; reflexivity. Qed.
Lemma evolve_ChannelDelete id tid : keeps evolves (PgChannelConfigRepo_Delete id tid).
Proof.
  apply evolve_exec; [apply app_ChannelDelete|]. intros db. cbv zeta. destruct (_ =? _)%Z; [done|].
  apply del_channel_configs_shrinks.
Qed.
Lemma evolve_EndpointUpdate id tid i :
  (∀ url, uwi_URL i = Some url → is_Ok (ValidateHTTPSDestinationURL url) = true) →
  (∀ evs, uwi_Events i = Some evs → ValidateWebhookEvents evs = Ok tt) →
  keeps evolves (PgWebhookEndpointRepo_Update id tid i).
Proof. intros. apply evolve_exec; [by apply app_EndpointUpdate|]. intros. repeat case_match; simpl; reflexivity. Qed.
Lemma evolve_EndpointDelete id tid : keeps evolves (PgWebhookEndpointRepo_Delete id tid).
Proof. apply evolve_exec; [apply app_EndpointDelete|]. intros. repeat case_match; simpl; reflexivity. Qed.

Lemma evolve_within_limit {A} (m : M A) tid count limit lim ins :
  preserves app_ok m → keeps (same w_tasks) m →
  (∀ w, w_db (m w).2 = w_db (within_limit tid count limit lim ins w).2) →
  (∀ db, notifications (ins db).2 ⊆ notifications db) → keeps evolves m.
Proof.
  intros Ha Ht Hm Hi. apply evolve_write; [done..|]. intros w. rewrite Hm.
  by destruct (within_limit_outcome tid count limit lim ins w) as [[-> _]|(_ & _ & _ & ->)].
Qed.

Lemma within_limit_tasks tid count limit lim ins : keeps (same w_tasks) (within_limit tid count limit lim ins).
Proof.
  unfold within_limit, tx_commit, tx_begin, tx_stmt. repeat first
    [ solve [eauto 3 with keeps] | keeps_step | intros w; by unfold same ].
Qed.

Lemma evolve_KeyCreateWithinLimit k limit : keeps evolves (PgAPIKeyRepo_CreateWithinLimit k limit).
Proof.
  eapply evolve_within_limit; [apply app_KeyCreateWithinLimit|apply within_limit_tasks|done|].
  intros. by apply insert_checked_notifications.
Qed.
Lemma evolve_EndpointCreate e :
  endpoint_valid e → keeps evolves (PgWebhookEndpointRepo_CreateWithinLimit e maxWebhookEndpointsPerTenant).
Proof.
  intros. eapply evolve_within_limit; [by apply app_EndpointCreate|apply within_limit_tasks|done|].
  intros. by apply insert_checked_notifications.
Qed.

Lemma evolve_Send maxRetries tid input : keeps evolves (NotificationService_Send maxRetries tid input).
Proof.
  intros w H. pose proof (app_Send maxRetries tid input w H) as Happ. split; [done|].
  destruct (Send_run maxRetries tid input w) as (r & w' & Hr & Ho). rewrite Hr in *. cbn [fst snd] in *. apply rtc_once.
  destruct Ho as [(_ & Hdb & Ht)|(c & ent & id & now & Hs & Hst & Hdb & Hq)].
  - apply change_quiet; [done..|by rewrite Hdb].
  - apply (change_send _ _ (new_notification maxRetries tid input c id now) c); [done|].
    pose proof (sd_channel _ _ _ _ _ Hs) as Hc.
    split_and!; [|done..|destruct Hq as [(_ & ? & ?)|[_ ?]]; [by right|by left]].
    cbn [n_ChannelConfigID new_notification]. by rewrite (ok_channel_key _ (app_db _ H) _ _ Hc).
Qed.
End evolution.

Create HintDb evolve.
#[export] Hint Resolve evolve_TenantCreate evolve_TenantUpdate evolve_TenantDelete evolve_KeyCreate evolve_KeyRevoke
  evolve_EntitlementUpsert evolve_ChannelCreate evolve_ChannelUpdate evolve_ChannelDelete evolve_EndpointUpdate
  evolve_EndpointDelete evolve_KeyCreateWithinLimit evolve_EndpointCreate evolve_Send : evolve.

(** Splits a call into its steps, casing on every test. *)
Ltac evolve_op :=
  lazymatch goal with
  | |- keeps _ (mret _) => apply keeps_ret, _
  | |- keeps _ (mbind _ _) => apply keeps_bind; [apply _| |intros ?]
  | |- keeps _ (try_bind _ _) => apply keeps_try; [apply _| |intros ?]
  | |- keeps _ (on_err _ _) => apply keeps_on_err
  | |- keeps _ (match ?x with _ => _ end) => destruct x eqn:?
  | |- keeps _ _ => solve [eauto 3 with evolve | apply evolve_reads, reads_both; eauto 3 with keeps]
  end.

(** ** The services *)

Section services.
Context `{E : Env} (tid : uuid).

Lemma evolve_TenantService_Create i : keeps evolves (TenantService_Create i).
Proof. unfold TenantService_Create. repeat evolve_op. Qed.
Lemma evolve_APIKeyService_Create t label : keeps evolves (APIKeyService_Create t label).
Proof. unfold APIKeyService_Create. cbv zeta. repeat evolve_op. Qed.

Lemma evolve_ChannelService_Create registry input : keeps evolves (ChannelService_Create registry tid input).
Proof.
  unfold ChannelService_Create. repeat evolve_op. all: try (apply evolve_ChannelCreate; simpl).
  all: apply IsValidChannelType_spec; by destruct (IsValidChannelType _).
Qed.
Lemma evolve_ChannelService_Update registry id input : keeps evolves (ChannelService_Update registry id tid input).
Proof. unfold ChannelService_Update. repeat evolve_op. Qed.

Lemma evolve_WebhookEndpointService_Create input : keeps evolves (WebhookEndpointService_Create tid input).
Proof.
  unfold WebhookEndpointService_Create. cbv zeta.
  destruct (validateWebhookEndpointURL _) as [[]|] eqn:Hu; [|evolve_op].
  destruct (ValidateWebhookEvents _) as [[]|] eqn:He; [|evolve_op]. apply validate_url_ok in Hu.
  repeat evolve_op. apply evolve_EndpointCreate. by split.
Qed.
Lemma evolve_WebhookEndpointService_Update id input : keeps evolves (WebhookEndpointService_Update id tid input).
Proof.
  unfold WebhookEndpointService_Update.
  destruct (from_option validateWebhookEndpointURL _ _) as [[]|] eqn:Hu; [|evolve_op].
  destruct (from_option ValidateWebhookEvents _ _) as [[]|] eqn:He; [|evolve_op].
  apply evolve_EndpointUpdate; [intros url Heq|intros evs Heq]; rewrite Heq in *; [by apply validate_url_ok|done].
Qed.

Lemma evolve_SendMulti maxRetries input w results errs w' :
  NotificationService_SendMulti maxRetries tid input w results errs w' → evolves w w'.
Proof.
  unfold NotificationService_SendMulti. intros Hrun.
  assert (∀ s s', rtc (SendMulti_step maxRetries tid) s s' → evolves s.2 s'.2) as H; [|by apply (H _ _ Hrun)].
  clear. intros s s'. induction 1 as [s|s1 s2 s3 Hs _ IH]; [reflexivity|]. etrans; [|exact IH].
  destruct Hs as [? ch ??? w1 w2 n Hs|? ch ??? w1 w2 e Hs]; simpl;
    pose proof (evolve_Send maxRetries tid ch w1) as H; by rewrite Hs in H.
Qed.
End services.

#[export] Hint Resolve evolve_TenantService_Create evolve_APIKeyService_Create evolve_ChannelService_Create
  evolve_ChannelService_Update evolve_WebhookEndpointService_Create evolve_WebhookEndpointService_Update : evolve.

(** ** The routes *)

Section routes.
Context `{E : Env} {J : Jwt} (d : Deps) (send_multi : Request → M Response) (Hmulti : multi_runs d send_multi).

(** A handler that evolves the world, whatever the request. *)
Definition evolving (h : Request → M Response) : Prop := ∀ r, keeps evolves (h r).

Lemma quotaMW_evolving h : evolving h → evolving (quotaMW d h).
Proof.
  intros Hh r. unfold quotaMW, quota_Middleware. destruct (r_Claims r) as [claims|]; [|evolve_op]. cbv zeta.
  repeat first [apply Hh | evolve_op].
Qed.

Lemma auth_evolving m h : evolving h → evolving (auth_Middleware m h).
Proof. intros Hh r. unfold auth_Middleware, ValidateToken. cbv zeta. repeat first [apply Hh | evolve_op]. Qed.

Lemma admin_evolving h : evolving h → evolving (AdminMiddleware h).
Proof. intros Hh r. unfold AdminMiddleware. repeat first [apply Hh | evolve_op]. Qed.

Lemma hmac_evolving secret h : evolving h → evolving (HMACMiddleware secret h).
Proof. intros Hh r. unfold HMACMiddleware. cbv zeta. repeat first [apply Hh | evolve_op]. Qed.

Lemma send_multi_evolving : evolving send_multi.
Proof.
  intros r w. destruct (Hmulti r w) as [Hn|c e Hn He|c i Hn He Hl|c i rs es w' Hn He Hl Hrun]; [reflexivity..|].
  by eapply evolve_SendMulti.
Qed.

Lemma public_evolving : Forall (λ rt, evolving (rt_serve rt)) (public_routes d).
Proof.
  repeat (apply Forall_cons; split); [..|by apply Forall_nil]; intros r; simpl.
  - unfold HealthHandler_Health. repeat evolve_op.
  - unfold IssueToken, issueAdminToken, issueTenantToken, GenerateToken. repeat evolve_op.
Qed.

Lemma tenant_evolving : Forall (λ rt, evolving (rt_serve rt)) (tenant_routes d send_multi).
Proof.
  repeat (apply Forall_cons; split); [..|by apply Forall_nil]; simpl.
  13, 14: apply quotaMW_evolving.
  14: exact send_multi_evolving.
  all: intros r.
  all: unfold APIKeyHandler_List, APIKeyHandler_Create, APIKeyHandler_Revoke, ChannelHandler_List, ChannelHandler_Create,
    ChannelHandler_GetByID, ChannelHandler_Update, ChannelHandler_Delete, WebhookEndpointHandler_List,
    WebhookEndpointHandler_Create, WebhookEndpointHandler_Update, WebhookEndpointHandler_Delete,
    NotificationHandler_Send, NotificationHandler_List, NotificationHandler_GetByID, NotificationHandler_ListAttempts,
    NotificationHandler_GetMetrics, own_notification, with_claims, with_id, with_body.
  all: repeat evolve_op.
Qed.

Lemma admin_routes_evolving : Forall (λ rt, evolving (rt_serve rt)) admin_routes.
Proof.
  repeat (apply Forall_cons; split); [..|by apply Forall_nil]; intros r; simpl.
  all: unfold TenantHandler_List, TenantHandler_Create, TenantHandler_GetBySlug, TenantHandler_GetByID, TenantHandler_Update,
    TenantHandler_Delete, with_id, with_body.
  all: repeat evolve_op.
Qed.

Lemma service_evolving : Forall (λ rt, evolving (rt_serve rt)) service_routes.
Proof.
  repeat (apply Forall_cons; split); [..|by apply Forall_nil]; intros r; simpl.
  all: unfold EntitlementHandler_Put, EntitlementHandler_Usage, with_id, with_body; cbv zeta.
  all: repeat evolve_op.
  all: apply evolve_reads, reads_both; unfold PgNotificationRepo_UsageByTenant; keeps_auto.
Qed.

Lemma with_mw_evolving mw (rts : list Route) :
  (∀ h, evolving h → evolving (mw h)) → Forall (λ rt, evolving (rt_serve rt)) rts →
  Forall (λ rt, evolving (rt_serve rt)) (with_mw mw <$> rts).
Proof. intros Hmw H. apply Forall_fmap. eapply Forall_impl; [exact H|]. intros rt. apply Hmw. Qed.

(** Serving any request of the API. *)
Lemma router_evolving : Forall (λ rt, evolving (rt_serve rt)) (router_New d send_multi).
Proof.
  apply with_mw_evolving; [intros h Hh r; apply Hh|]. rewrite !Forall_app. split_and!.
  - apply public_evolving.
  - apply with_mw_evolving; [intros; by apply auth_evolving|apply tenant_evolving].
  - apply with_mw_evolving; [intros; by apply auth_evolving, admin_evolving|apply admin_routes_evolving].
  - apply with_mw_evolving; [intros; by apply hmac_evolving|apply service_evolving].
Qed.
End routes.

(** An update of the bot. *)
Lemma bot_evolves `{E : Env} {T : Telegram} admin u s :
  evolves (bs_world s) (bs_world (dispatchUpdate admin u s).2).
Proof.
  apply (dispatch_on admin evolves); [apply evolves_reads|..].
  - intros i. apply svc_on_world, evolve_TenantService_Create.
  - intros id i. apply svc_on_world, evolve_TenantUpdate.
  - intros id _. apply svc_on_world, evolve_TenantDelete.
Qed.

(** ** Runs of tasks *)

(** The columns of a notification that never change. *)
Definition fixed_columns (n : Notification) := (n_TenantID n, n_ChannelConfigID n, n_Channel n, n_MaxRetries n).
Definition identities (db : DB) := fixed_columns <$> notifications db.

(** The task of a status event. *)
Definition is_event (t : Task) : Prop :=
  task_Type t = TypeWebhookEvent ∧ opt_Queue (task_Opts t) = Some queueWebhooks ∧
  opt_MaxRetry (task_Opts t) = Some webhookEventMaxRetry.

Section runs.
Context `{E : Env}.

(** What delivering does: rows keep their identity, only events are enqueued. *)
Definition delivers : relation World := λ w w', app_ok (w_db w) →
  app_ok (w_db w') ∧ identities (w_db w') = identities (w_db w) ∧
  ∃ ts, w_tasks w' = w_tasks w ++ ts ∧ Forall is_event ts.

#[export] Instance delivers_preorder : PreOrder delivers.
Proof.
  split.
  - intros w H. split_and!; [done..|]. exists []. by rewrite app_nil_r.
  - intros w1 w2 w3 H12 H23 H1. destruct (H12 H1) as (H2 & I12 & ts & T12 & F12).
    destruct (H23 H2) as (H3 & I23 & ts' & T23 & F23). split_and!; [done|congruence|].
    exists (ts ++ ts'). rewrite T23, T12, app_assoc. split; [done|]. by apply Forall_app.
Qed.

Lemma deliver_reads {A} (m : M A) : reads m → keeps delivers m.
Proof.
  intros Hm w H. specialize (Hm w). unfold same, tables_and_queue in Hm. injection Hm as Hdb Ht. rewrite Hdb.
  split_and!; [done..|]. exists []. by rewrite Ht, app_nil_r.
Qed.

Lemma deliver_write {A} (m : M A) :
  preserves app_ok m → keeps (same w_tasks) m → keeps (same (identities ∘ w_db)) m → keeps delivers m.
Proof.
  intros Ha Ht Hi w H. split_and!; [by apply Ha|apply Hi|]. exists []. split; [|done]. by rewrite (Ht w), app_nil_r.
Qed.

Lemma event_task_is_event params eid t : event_task params eid t → is_event t.
Proof.
  intros [now Ht]. unfold NewWebhookEventTask in Ht. destruct (json_WebhookEventTaskPayload _); [|done].
  by injection Ht as <-.
Qed.

Lemma deliver_Emit (Emit : EmitParams → M (result unit)) `{!TerminalEventEmitter Emit} p : keeps delivers (Emit p).
Proof.
  intros w H. rewrite (Emit_keeps_db p w). split_and!; [done..|].
  destruct (Emit_adds p w (app_db _ H)) as (eids & ts & Ht & Hf & _). exists ts. split; [done|].
  clear Ht. induction Hf; constructor; [by eapply event_task_is_event|done].
Qed.

Lemma update_notification_identities id g db :
  (∀ n, fixed_columns (g n) = fixed_columns n) → identities (update_notification id g db).2 = identities db.
Proof.
  intros Hg. unfold update_notification. destruct (notifications db !! id) as [n|] eqn:Hn; [|done].
  unfold identities; simpl. rewrite fmap_insert. apply insert_id. by rewrite lookup_fmap, Hn, Hg.
Qed.

Lemma deliver_now_exec {A} (f : Time → DB → result A * DB) :
  preserves app_ok (now ← time_Now; db_exec (f now)) → (∀ t db, identities (f t db).2 = identities db) →
  keeps delivers (now ← time_Now; db_exec (f now)).
Proof.
  intros Ha Hi. apply deliver_write; [done| |].
  - apply keeps_bind; [apply _|apply Now_tasks|intros; apply db_exec_tasks].
  - apply (now_exec_same identities). done.
Qed.

Lemma deliver_UpdateStatus id st e : keeps delivers (PgNotificationRepo_UpdateStatus id st e).
Proof. apply deliver_now_exec; [apply app_UpdateStatus|]. intros. by apply update_notification_identities. Qed.
Lemma deliver_SetProviderMsgID id m : keeps delivers (PgNotificationRepo_SetProviderMsgID id m).
Proof. apply deliver_now_exec; [apply app_SetProviderMsgID|]. intros. by apply update_notification_identities. Qed.
Lemma deliver_MarkDelivered id : keeps delivers (PgNotificationRepo_MarkDelivered id).
Proof. apply deliver_now_exec; [apply app_MarkDelivered|]. intros. by apply update_notification_identities. Qed.
Lemma deliver_IncrementRetry id e : keeps delivers (PgNotificationRepo_IncrementRetry id e).
Proof.
  apply deliver_now_exec; [apply app_IncrementRetry|]. intros.
  destruct (from_option _ _ _); [by apply update_notification_identities|done].
Qed.

Lemma insert_checked_identities h checks ins db :
  identities (ins db) = identities db → identities (insert_checked h checks ins db).2 = identities db.
Proof. intros H. unfold insert_checked. by destruct (first_violation _). Qed.

Lemma deliver_AttemptCreate a : keeps delivers (PgDeliveryAttemptRepo_Create a).
Proof.
  apply deliver_write; [apply app_AttemptCreate|apply db_exec_tasks|].
  apply (exec_same identities). intros. by apply insert_checked_identities.
Qed.
Lemma deliver_MetricUpsert m : keeps delivers (PgDeliveryMetricRepo_Upsert m).
Proof.
  apply deliver_write; [apply app_MetricUpsert|apply keeps_on_err, db_exec_tasks|].
  apply keeps_on_err, (exec_same identities). intros. by apply insert_checked_identities.
Qed.
Hint Resolve deliver_UpdateStatus deliver_SetProviderMsgID deliver_MarkDelivered deliver_IncrementRetry
  deliver_AttemptCreate deliver_MetricUpsert deliver_Emit : deliver.

Ltac deliver_op :=
  lazymatch goal with
  | |- keeps _ (mret _) => apply keeps_ret, _
  | |- keeps _ (mbind _ _) => apply keeps_bind; [apply _| |intros ?]
  | |- keeps _ (log_err _ _) => apply keeps_log_err; [apply _| |apply deliver_reads, reads_both; eauto 3 with keeps]
  | |- keeps _ (match ?x with _ => _ end) => destruct x eqn:?
  | |- keeps _ _ => solve [eauto 3 with deliver | apply deliver_reads, reads_both; eauto 3 with keeps]
  end.

Context (registry : Registry) (Emit : EmitParams → M (result unit)) `{!TerminalEventEmitter Emit}.

Lemma deliver_HandleNotificationDeliver ctx t :
  registry_ok registry → keeps delivers (HandleNotificationDeliver registry Emit ctx t).
Proof.
  intros Hr. unfold HandleNotificationDeliver, Registry_Get.
  destruct (dec_NotificationDeliverPayload _) as [p|]; [|deliver_op]. cbv zeta.
  destruct (registry !! p_ChannelType p) as [prov|] eqn:Hpr; [destruct (Hr _ _ Hpr) as [_ HL]|].
  all: unfold handleDeliveryError, handleProviderFailure, handlePermanentProviderFailure, recordSuccessfulDelivery,
    emitTerminalEvent, createInitialDeliveryMetric, PgChannelConfigRepo_GetByID; cbv zeta.
  all: repeat deliver_op.
Qed.

Lemma deliver_HandleError ctx t e : keeps delivers (HandleError Emit ctx t e).
Proof.
  unfold HandleError, handleNotificationRetriesExhausted, handleWebhookEventRetriesExhausted. cbv zeta.
  repeat deliver_op.
Qed.
End runs.

(** ** Maintenance *)

Section maintenance.
Context `{E : Env}.

Definition tenants_of (w : World) := tenants (w_db w).

Lemma same_db_tenants {A} (m : M A) : keeps (same w_db) m → keeps (same tenants_of) m.
Proof. apply same_db. unfold tenants_of. congruence. Qed.

Lemma visit_page_tenants fn ts :
  (∀ t ent, keeps (same tenants_of) (fn t ent)) → keeps (same tenants_of) (visit_page fn ts).
Proof.
  intros Hfn. induction ts as [|t ts IH]; simpl; [apply keeps_ret, _|]. apply keeps_bind; [apply _| |done].
  unfold visit_tenant. apply keeps_bind; [apply _|apply same_db_tenants, EntitlementsOrFree_db|].
  intros [ent|e]; [apply Hfn|apply same_db_tenants, log_db].
Qed.

Lemma tenant_total w offset total :
  (PgTenantRepo_List pageSize offset w).1 = Ok total → total.2 = Z.of_nat (size (tenants (w_db w))).
Proof.
  unfold PgTenantRepo_List. rewrite try_bind_run. unfold db_query, db_exec. destruct (env_fault _); simpl; [|done..].
  rewrite try_bind_run. destruct (db_query_at _ _) as [[rows|e] w2]; simpl; [|done]. intros [= <-]. simpl.
  apply sql_count_all.
Qed.

(** The pages end, whatever fails on the way. *)
Lemma pages_end fn fuel offset w :
  (∀ t ent, keeps (same tenants_of) (fn t ent)) → (0 < fuel)%nat →
  (Z.of_nat (size (tenants_of w)) ≤ offset + pageSize * Z.of_nat fuel)%Z →
  is_Some (forEachTenant_loop fuel offset fn w).1.
Proof.
  intros Hfn. revert offset w. induction fuel as [|fuel IH]; intros offset w Hpos Hs; [lia|]. cbn [forEachTenant_loop].
  rewrite ST_bind_run. pose proof (same_db_tenants _ (PgTenantRepo_List_db pageSize offset) w) as Hk.
  pose proof (tenant_total w offset) as Ht. destruct (PgTenantRepo_List pageSize offset w) as [[[ts total]|e] w1]; simpl in *.
  2: by eexists.
  specialize (Ht _ eq_refl). simpl in Ht. rewrite ST_bind_run. pose proof (visit_page_tenants fn ts Hfn w1) as Hk2.
  destruct (visit_page fn ts w1) as [[] w2]. cbn [fst snd] in *. unfold same in *.
  destruct ((total <=? offset + pageSize)%Z || _) eqn:Hend; [by eexists|]. apply orb_false_iff in Hend as [Hlt%Z.leb_gt _].
  unfold tenants_of in *. apply IH; unfold pageSize in *; [lia|]. rewrite Hk2, Hk. lia.
Qed.

(** A maintenance handler always comes to an end. *)
Lemma maintain_total job fn w :
  (∀ fuel, job fuel = forEachTenant fuel fn) → (∀ t ent, keeps (same tenants_of) (fn t ent)) →
  is_Some (job (S (size (tenants (w_db w)))) w).1.
Proof. intros -> Hfn. apply pages_end; [done|lia|]. unfold tenants_of, pageSize. lia. Qed.

Lemma purge_total w : is_Some (HandleRetentionPurge (S (size (tenants (w_db w)))) w).1.
Proof.
  apply (maintain_total _ purge_tenant); [done|]. intros t ent. unfold purge_tenant. cbv zeta.
  apply keeps_bind; [apply _|apply same_db_tenants, Now_db|]. intros now. apply keeps_bind; [apply _| |].
  - intros w1. unfold same, tenants_of. by destruct (DeleteOlderThan_outcome (t_ID t) (AddDate now 0 0 (- ent_RetentionDays ent)) w1) as [[-> _]|[-> _]].
  - intros r. apply same_db_tenants. keeps_auto.
Qed.

Lemma reconcile_total w : is_Some (HandleUsageReconcile (S (size (tenants (w_db w)))) w).1.
Proof.
  apply (maintain_total _ reconcile_tenant); [done|]. intros t ent. apply same_db_tenants.
  unfold reconcile_tenant, PgNotificationRepo_UsageByTenant, rdb_Set, log_err. keeps_auto.
Qed.
End maintenance.

(** ** The queue *)

(** Tasks appended at the end. *)
Definition append (q : queue) (ts : list Task) : queue :=
  mkQueue (q_pending q ++ (new_job <$> ts)) (q_archived q).

Lemma append_nil q : append q [] = q.
Proof. destruct q. unfold append. simpl. by rewrite app_nil_r. Qed.

Lemma append_app q ts ts' : append q (ts ++ ts') = append (append q ts) ts'.
Proof. unfold append. simpl. by rewrite fmap_app, app_assoc. Qed.

(** Tasks that are refused are left out. *)
Lemma puts_sub q ts : ∃ ts', ts' `sublist_of` ts ∧ puts q ts = append q ts'.
Proof.
  revert q. induction ts as [|t ts IH]; intros q; [exists []; by rewrite append_nil|]. unfold puts in *. simpl.
  unfold put at 2. destruct (held q t).
  - destruct (IH q) as (ts' & Hs & ->). exists ts'. split; [by constructor|done].
  - destruct (IH (append q [t])) as (ts' & Hs & Hq). exists (t :: ts'). split; [by constructor|].
    change (mkQueue (q_pending q ++ [new_job t]) (q_archived q)) with (append q [t]). rewrite Hq.
    by rewrite <- (append_app q [t] ts').
Qed.

(** Tasks with new ids are all taken. *)
Lemma puts_fresh q ts :
  NoDup (opt_TaskID ∘ task_Opts <$> ts) → Forall (λ t, held q t = false) ts → puts q ts = append q ts.
Proof.
  revert q. induction ts as [|t ts IH]; intros q; [by rewrite append_nil|]. csimpl.
  intros [Hnin Hnd]%NoDup_cons [Ht Hts]%Forall_cons. unfold puts in *. simpl. unfold put at 2. rewrite Ht.
  change (mkQueue (q_pending q ++ [new_job t]) (q_archived q)) with (append q [t]).
  rewrite IH; [by rewrite <- (append_app q [t] ts)|done|].
  apply Forall_forall. intros t' Ht'. rewrite Forall_forall in Hts. specialize (Hts t' Ht').
  unfold held in *. destruct (opt_TaskID (task_Opts t')) as [id|] eqn:Hid; [|done].
  apply bool_decide_eq_false in Hts. apply bool_decide_eq_false. unfold append. simpl.
  rewrite !fmap_app, !elem_of_app in *. simpl. rewrite list_elem_of_singleton.
  intros [[?|Heq]|?]; [tauto| |tauto]. apply Hnin. apply list_elem_of_fmap. exists t'. split; [|done].
  unfold compose. rewrite Hid. symmetry. exact Heq.
Qed.

Lemma new_tasks_app `{E : Env} (w w' : World) ts : w_tasks w' = w_tasks w ++ ts → new_tasks w w' = ts.
Proof. intros H. unfold new_tasks. by rewrite H, drop_app_length. Qed.

(** ** What is in the queue *)

Section jobs.
Context {E : Env} {UL : UuidLaws E} {PL : PgLaws E} {ML : Mail}.

(** The notification a task delivers. *)
Definition task_notification (t : Task) : option uuid :=
  if bool_decide (task_Type t = TypeNotificationDeliver)
  then match dec_NotificationDeliverPayload (task_Payload t) with Ok p => Some (p_NotificationID p) | Err _ => None end
  else None.
Definition job_notification (j : job) : option uuid := task_notification (j_Task j).

(** Tasks come from [Send], from an emission or from the scheduler. *)
Inductive task_kind (t : Task) : Prop :=
| kind_sent n c : t = send_task n c → task_kind t
| kind_event : is_event t → task_kind t
| kind_scheduled cron : (cron, t) ∈ worker_schedule → task_kind t.

Definition job_ok (j : job) : Prop := task_kind (j_Task j) ∧ (0 ≤ j_Retried j ≤ j_MaxRetry j)%Z.

(** The invariant of tables and queue that no failure breaks. *)
Record sound (s : system) : Prop := mkSound {
  sound_app : app_ok (w_db s.1);
  sound_jobs : Forall job_ok (q_pending s.2);
  sound_ids : NoDup (omap job_notification (q_pending s.2))
}.

Definition finished (n : Notification) : Prop := n_Status n = StatusDelivered ∨ n_Status n = StatusFailed.

(** A task that delivers the row [r] with key [nid]. *)
Definition carries (nid : uuid) (r : Notification) (j : job) : Prop :=
  ∃ n c, j_Task j = send_task n c ∧ n_ID n = nid ∧ fixed_columns n = fixed_columns r.

(** Every notification is finished, or a task for it is in the queue; not both. *)
Definition covered (s : system) : Prop := ∀ nid r, notifications (w_db s.1) !! nid = Some r →
  (finished r ∧ nid ∉ omap job_notification (q_pending s.2)) ∨
  (¬ finished r ∧ ∃ j, j ∈ q_pending s.2 ∧ carries nid r j).

Lemma send_task_dec n c :
  dec_NotificationDeliverPayload (task_Payload (send_task n c)) = Ok (received (send_payload n c)).
Proof. apply dec_json_NotificationDeliverPayload. intros d Hd. exact (config_prefs_range c d Hd). Qed.

Lemma send_task_notification n c : task_notification (send_task n c) = Some (n_ID n).
Proof. unfold task_notification. rewrite bool_decide_eq_true_2 by done. by rewrite send_task_dec. Qed.

Lemma send_task_id n c : opt_TaskID (task_Opts (send_task n c)) = Some (notif_task_id (n_ID n)).
Proof. done. Qed.

Lemma send_task_retries n c : opt_MaxRetry (task_Opts (send_task n c)) = Some (n_MaxRetries n).
Proof. done. Qed.

Lemma send_task_served n c k : served (mkJob (send_task n c) k) = true.
Proof.
  unfold served, j_Queue, send_task, NewNotificationDeliverTask. generalize (send_payload n c). intros p.
  destruct p as [? ? ? ? ? ? ? [d|]]; [|done]. simpl. apply bool_decide_eq_true.
  unfold queueForPriority. repeat case_bool_decide; simpl; set_solver.
Qed.

Lemma event_served t k : is_event t → served (mkJob t k) = true.
Proof. intros (_ & Hq & _). unfold served, j_Queue. simpl. by rewrite Hq. Qed.

Lemma scheduled_unserved cron t k : (cron, t) ∈ worker_schedule → served (mkJob t k) = false.
Proof. unfold worker_schedule. rewrite !elem_of_cons, elem_of_nil. by intros [[= _ ->]|[[= _ ->]|[]]]. Qed.

Lemma event_no_notification t : is_event t → task_notification t = None.
Proof. intros (Ht & _). unfold task_notification. by rewrite bool_decide_eq_false_2; [|rewrite Ht]. Qed.

Lemma scheduled_no_notification cron t : (cron, t) ∈ worker_schedule → task_notification t = None.
Proof. unfold worker_schedule. rewrite !elem_of_cons, elem_of_nil. by intros [[= _ ->]|[[= _ ->]|[]]]. Qed.

Lemma kind_notification t nid :
  task_kind t → task_notification t = Some nid → ∃ n c, t = send_task n c ∧ n_ID n = nid.
Proof.
  intros [n c ->|He|cron Hs] Ht.
  - rewrite send_task_notification in Ht. injection Ht as <-. by eauto.
  - by rewrite event_no_notification in Ht.
  - by erewrite scheduled_no_notification in Ht.
Qed.

(** What the worker can take. *)
Lemma served_kind j :
  job_ok j → served j = true → (∃ n c, j_Task j = send_task n c) ∨ is_event (j_Task j).
Proof.
  intros [[n c Ht|He|cron Hs] _] Hj; [eauto..|]. destruct j as [t k]. by rewrite (scheduled_unserved cron t k Hs) in Hj.
Qed.

Lemma new_job_ok t : task_kind t → job_ok (new_job t).
Proof. intros Hk. split; [done|]. unfold j_MaxRetry. simpl. lia. Qed.

(** A job is the only one for its notification. *)
Lemma carried_unique l j j' nid :
  NoDup (omap job_notification l) → j ∈ l → j' ∈ l → job_notification j = Some nid → job_notification j' = Some nid → j' = j.
Proof.
  induction l as [|x l IH]; [set_solver|]. simpl. intros Hnd Hj Hj' H H'.
  rewrite !elem_of_cons in Hj, Hj'.
  assert (∀ y, y ∈ l → job_notification y = Some nid → nid ∈ omap job_notification l) as Hin.
  { intros y Hy Hn. apply list_elem_of_omap. eauto. }
  destruct Hj as [->|Hj], Hj' as [->|Hj']; [done|..].
  1, 2: exfalso; destruct (job_notification x) eqn:Hx; [|done]; simplify_eq/=;
    apply NoDup_cons in Hnd as [Hnin _]; naive_solver.
  apply IH; [|done..]. destruct (job_notification x); [by apply NoDup_cons in Hnd as [_ ?]|done].
Qed.
End jobs.
