(* ===== verification/SystemSteps.v ===== *)
(** * SystemSteps: the steps of the system keep its invariants

    [sound] holds whatever fails; [covered], that an unfinished notification has
    its task in the queue, while the services are up. *)
From S2P Require Import Prelude GoTime Json Hex Domain World Repository Integrity RepositoryProps.
From S2P Require Import Tasks Emitter Provider Dispatcher DispatcherFacts Lifecycle LifecycleProps Net Ssrf Services ServicesFacts.
From S2P Require Import Email ProviderFacts EventDelivery Http Quota Maintenance Application Auth Handlers Router.
From S2P Require Import Bot BotFacts System SystemFacts.

Section serve.
Context {E : Env} {UL : UuidLaws E} {PL : PgLaws E} {ML : Mail}.

Definition is_sent (t : Task) : Prop := ∃ n c, t = send_task n c.

Lemma changes_tasks w w' : rtc change w w' → ∃ ts, w_tasks w' = w_tasks w ++ ts ∧ Forall is_sent ts.
Proof.
  induction 1 as [w|w1 w2 w3 Hc _ (ts & Hts & Hf)]; [exists []; by rewrite app_nil_r|].
  destruct Hc as [Ht _ _|n c _ (_ & _ & _ & _ & [Ht|[Ht _]])].
  - exists ts. by rewrite Hts, Ht.
  - exists (send_task n c :: ts). rewrite Hts, Ht, <- app_assoc. split; [done|]. constructor; [by eexists _, _|done].
  - exists ts. by rewrite Hts, Ht.
Qed.

Lemma sent_notifications ts :
  Forall is_sent ts → NoDup (opt_TaskID ∘ task_Opts <$> ts) → NoDup (omap job_notification (new_job <$> ts)).
Proof.
  induction 1 as [|t ts (n & c & ->) Hf IH]; csimpl; [constructor|]. intros [Hnin Hnd]%NoDup_cons.
  change (job_notification (new_job (send_task n c))) with (task_notification (send_task n c)).
  rewrite send_task_notification. constructor; [|by apply IH].
  intros (j & Hj & Hid)%list_elem_of_omap. apply list_elem_of_fmap in Hj as (t & -> & Ht).
  rewrite Forall_forall in Hf. destruct (Hf t Ht) as (n' & c' & ->).
  change (task_notification (send_task n' c') = Some (n_ID n)) in Hid. rewrite send_task_notification in Hid. injection Hid as Hid.
  apply Hnin, list_elem_of_fmap. exists (send_task n' c'). split; [|done]. unfold compose.
  by rewrite !send_task_id, Hid.
Qed.

(** A notification in the queue holds its task id. *)
Lemma notification_held q n c :
  Forall job_ok (q_pending q) → n_ID n ∈ omap job_notification (q_pending q) → held q (send_task n c) = true.
Proof.
  intros Hok (j & Hj & Hn)%list_elem_of_omap. rewrite Forall_forall in Hok. destruct (Hok j Hj) as [Hk _].
  destruct (kind_notification _ _ Hk Hn) as (n' & c' & Ht & Hid). unfold held. rewrite send_task_id.
  apply bool_decide_eq_true, list_elem_of_fmap. exists j. split; [|set_solver].
  unfold j_TaskID. by rewrite Ht, send_task_id, Hid.
Qed.

Lemma serve_sound w w' q :
  evolves w w' → sound (w, q) → NoDup (opt_TaskID ∘ task_Opts <$> new_tasks w w') →
  Forall (λ t, held q t = false) (new_tasks w w') → sound (w', puts q (new_tasks w w')).
Proof.
  intros Hev [Happ Hjobs Hids] Hnd Hheld. simpl in *. destruct (Hev Happ) as [Happ' Hrun].
  destruct (changes_tasks _ _ Hrun) as (ts & Hts & Hf). rewrite (new_tasks_app _ _ _ Hts) in *.
  rewrite puts_fresh by done. split; simpl; [done| |].
  - apply Forall_app. split; [done|]. apply Forall_fmap. eapply Forall_impl; [exact Hf|].
    intros t (n & c & ->). by eapply new_job_ok, kind_sent.
  - rewrite omap_app. apply NoDup_app. split_and!; [done| |by apply sent_notifications].
    intros nid Hin (j & Hj & Hn)%list_elem_of_omap. apply list_elem_of_fmap in Hj as (t & -> & Ht).
    rewrite Forall_forall in Hf, Hheld. destruct (Hf t Ht) as (n & c & ->). specialize (Hheld _ Ht).
    change (task_notification (send_task n c) = Some nid) in Hn. rewrite send_task_notification in Hn. injection Hn as <-.
    by rewrite notification_held in Hheld.
Qed.

Lemma pending_unfinished n t u : n_Status n = StatusPending → ¬ finished (notification_row n t u).
Proof. intros H. unfold finished. simpl. rewrite H. by intros [|]. Qed.

(** An accepted message comes with its task. *)
Lemma change_covered w w' q :
  services_up → change w w' → covered (w, q) → covered (w', append q (new_tasks w w')).
Proof.
  intros Hup Hc Hcov. destruct Hc as [Ht _ Hsub|n c _ (Hch & Hst & Hstor & (t & u & Hdb) & [Ht|[_ []]])]; [| |done].
  - rewrite (new_tasks_app w w' []), append_nil by (by rewrite app_nil_r). intros nid r Hr. apply Hcov. by eapply lookup_weaken.
  - rewrite (new_tasks_app w w' _ Ht). intros nid r Hr. simpl in Hr. rewrite Hdb in Hr. simpl in *.
    apply lookup_insert_Some in Hr as [[<- <-]|[Hne Hr]].
    + right. split; [by apply pending_unfinished|]. exists (new_job (send_task n c)). split; [set_solver|]. by exists n, c.
    + destruct (Hcov nid r Hr) as [[Hfin Hnin]|[Hfin (j & Hj & Hcar)]]; [left|right; split; [done|]; exists j; set_solver].
      split; [done|]. rewrite omap_app, elem_of_app. intros [?|Hin]; [done|]. simpl in Hin.
      change (job_notification (new_job (send_task n c))) with (task_notification (send_task n c)) in Hin.
      rewrite send_task_notification in Hin. apply list_elem_of_singleton in Hin. done.
Qed.

Lemma serve_covered w w' q :
  services_up → rtc change w w' → covered (w, q) → covered (w', append q (new_tasks w w')).
Proof.
  intros Hup Hrun. revert q. induction Hrun as [w|w1 w2 w3 Hc Hr IH]; intros q Hcov.
  - rewrite (new_tasks_app w w []), append_nil by (by rewrite app_nil_r). done.
  - destruct (changes_tasks w1 w2 (rtc_once _ _ Hc)) as (ts & Hts & _).
    destruct (changes_tasks _ _ Hr) as (ts' & Hts' & _).
    rewrite (new_tasks_app w1 w3 (ts ++ ts')) by (by rewrite Hts', Hts, app_assoc).
    rewrite append_app, <- (new_tasks_app _ _ _ Hts), <- (new_tasks_app _ _ _ Hts'). by apply IH, change_covered.
Qed.
End serve.

Section run.
Context {E : Env} {UL : UuidLaws E} {PL : PgLaws E} {ML : Mail} (cfg : Config).

Lemma retry_delay_reads n t : reads (worker_RetryDelayFunc cfg n t).
Proof.
  unfold worker_RetryDelayFunc, RetryDelayForTask, WebhookEventRetryDelay, worker_retryDelay, jitter, rand_Int64N_checked.
  apply reads_both; cbv zeta; repeat first [keeps_step | done].
Qed.

(** Delivering an event changes neither tables nor queue. *)
Lemma run_event_reads j : is_event (j_Task j) → reads (run_job cfg j).
Proof.
  destruct j as [[ty pl opts] k]. intros (Ht & _). simpl in Ht. subst ty. unfold run_job, worker_mux. simpl.
  unfold HandleWebhookEvent, webhook_event_deliver, HandleError, handleWebhookEventRetriesExhausted, PgWebhookEndpointRepo_GetByID.
  cbv zeta. simpl. unfold reads.
  repeat first [apply retry_delay_reads | solve [apply reads_both; eauto 3 with keeps] | keeps_step | done].
Qed.

Lemma sent_mux n c k :
  worker_mux (j_ctx (mkJob (send_task n c) k)) (send_task n c) =
  HandleNotificationDeliver worker_registry worker_Emit (mkTaskCtx k (Z.max 0 (n_MaxRetries n))) (send_task n c).
Proof. done. Qed.

(** Running a task of the worker's queues. *)
Lemma run_delivers j : job_ok j → served j = true → keeps delivers (run_job cfg j).
Proof.
  intros Hj Hs. destruct (served_kind j Hj Hs) as [(n & c & Ht)|He]; [|by apply deliver_reads, run_event_reads].
  destruct j as [t k]. simpl in Ht. subst t. unfold run_job. simpl j_Task. rewrite sent_mux.
  apply keeps_bind; [apply _|apply deliver_HandleNotificationDeliver; [apply _|apply worker_registry_ok]|].
  intros [?|e]; [apply keeps_ret, _|]. apply keeps_bind; [apply _|apply deliver_HandleError; apply _|]. intros _.
  destruct (errors_Is _ _ || _); [apply keeps_ret, _|].
  apply keeps_bind; [apply _|apply deliver_reads, retry_delay_reads|]. intros d. apply keeps_ret, _.
Qed.

(** A task that stays in the queue has retries left. *)
Lemma run_stays j w :
  (run_job cfg j w).1 = Retry ∨ (run_job cfg j w).1 = Crash → (j_Retried j < j_MaxRetry j)%Z.
Proof.
  unfold run_job. rewrite ST_bind_run. destruct (worker_mux _ _ w) as [[?|e] w1]; [by intros [|]|]. cbn [fst snd].
  rewrite ST_bind_run. destruct (Z.leb_spec (j_MaxRetry j) (j_Retried j)); [|lia].
  rewrite orb_true_r. by intros [|].
Qed.

(** The row after a run of its task. *)
Definition fate_status (f : fate) : NotificationStatus :=
  match f with Done => StatusDelivered | Archive => StatusFailed | Retry | Crash => StatusRetrying end.

Lemma view_status nid (w : World) st cnt e :
  view nid w = Some (st, cnt, e) → n_Status <$> notifications (w_db w) !! nid = Some st.
Proof. unfold view. destruct (notifications (w_db w) !! nid); [|done]. simpl. intros [= <- _ _]. done. Qed.

Lemma run_status n c k w prov ch :
  services_up → db_ok (w_db w) → worker_registry !! n_Channel n = Some prov →
  channel_configs (w_db w) !! n_ChannelConfigID n = Some ch →
  is_Some (notifications (w_db w) !! n_ID n) →
  let run := run_job cfg (mkJob (send_task n c) k) w in
  n_Status <$> notifications (w_db run.2) !! n_ID n = Some (fate_status run.1).
Proof.
  intros Hup Hok Hprov Hch [r Hr]. cbv zeta. unfold run_job. simpl j_Task. rewrite sent_mux.
  set (ctx := mkTaskCtx k _). set (p := received (send_payload n c)).
  assert (view (p_NotificationID p) w = Some (n_Status r, n_RetryCount r, n_LastError r)) as Hv.
  { unfold view. simpl. by rewrite Hr. }
  pose proof (attempt_cases worker_registry worker_Emit Hup (send_task n c) p prov ch worker_registry_ok eq_refl
    (send_task_dec n c) Hprov ctx w _ (conj Hok Hch) Hv) as Hcases. cbv zeta in Hcases.
  rewrite ST_bind_run. destruct (HandleNotificationDeliver _ _ _ _ w) as [[[]|e] w1]; cbn [fst snd] in *.
  - destruct Hcases as (_ & _ & Hv' & _). by apply view_status in Hv'.
  - rewrite ST_bind_run. rewrite Z.ltb_antisym, negb_involutive in Hcases.
    change (j_MaxRetry (mkJob (send_task n c) k) <=? j_Retried (mkJob (send_task n c) k))%Z with
      (ctx_MaxRetry ctx <=? ctx_RetryCount ctx)%Z.
    change (j_ctx (mkJob (send_task n c) k)) with ctx.
    destruct (errors_Is e SkipRetry || _); destruct Hcases as (msg & _ & _ & Hv' & _); apply view_status in Hv'; cbn [fst snd mret ST_ret].
    + exact Hv'.
    + rewrite ST_bind_run. cbn [fst snd mret ST_ret j_Retried j_Task].
      match goal with |- context [worker_RetryDelayFunc cfg ?a ?b ?w0] => pose proof (retry_delay_reads a b w0) as Hd end.
      unfold same, tables_and_queue in Hd. injection Hd as Hd _. rewrite Hd.
      by destruct (worker_RetryDelayFunc _ _ _ _).1.
Qed.

(** The other rows. *)
Lemma run_other_rows n c k w nid :
  nid ≠ n_ID n →
  notifications (w_db (run_job cfg (mkJob (send_task n c) k) w).2) !! nid = notifications (w_db w) !! nid.
Proof.
  intros Hne.
  assert (keeps (same (elsewhere_of (n_ID n))) (run_job cfg (mkJob (send_task n c) k))) as Hk.
  { unfold run_job. simpl j_Task. rewrite sent_mux. apply keeps_bind; [apply _| |].
    { eapply HandleNotificationDeliver_elsewhere; [apply _|apply worker_registry_ok|apply send_task_dec|done]. }
    intros [?|e]; [apply keeps_ret, _|]. apply keeps_bind; [apply _| |].
    { eapply HandleError_elsewhere; [apply _|apply send_task_dec|done]. }
    intros _. destruct (errors_Is _ _ || _); [apply keeps_ret, _|]. apply keeps_bind; [apply _| |intros; apply keeps_ret, _].
    apply same_db_elsewhere. intros w1. pose proof (retry_delay_reads k (send_task n c) w1) as Hd.
    unfold same, tables_and_queue in *. by injection Hd. }
  specialize (Hk w). unfold same, elsewhere_of, elsewhere in Hk. apply (f_equal (λ x, x.1.1.2)) in Hk. simpl in Hk.
  rewrite <- (lookup_delete_ne (notifications (w_db w)) (n_ID n) nid), <- Hk by done. by rewrite lookup_delete_ne.
Qed.

(** ** A turn of the worker *)

(** What stays of a task in the queue. *)
Definition left_over (f : fate) (j : job) : list job :=
  match f with Done | Archive => [] | Retry => [again j] | Crash => [j] end.

Lemma settle_pending f pre post j arch : q_pending (settle f pre post j arch) = pre ++ left_over f j ++ post.
Proof. by destruct f. Qed.

Lemma left_over_notification f j : omap job_notification (left_over f j) `sublist_of` omap job_notification [j].
Proof. destruct f; simpl; [apply sublist_nil_l|done|apply sublist_nil_l|done]. Qed.

Lemma left_over_ok j w :
  job_ok j → Forall job_ok (left_over (run_job cfg j w).1 j).
Proof.
  intros [Hk Hr]. pose proof (run_stays j w) as Hs. destruct (run_job cfg j w).1; simpl; [by constructor| |by constructor|].
  - apply Forall_singleton. split; [done|]. specialize (Hs (or_introl eq_refl)).
    change (j_MaxRetry (again j)) with (j_MaxRetry j). simpl. lia.
  - by apply Forall_singleton.
Qed.

(** The queue after a turn: what is left of the task, and new events. *)
Lemma work_queue w q pre j post :
  sound (w, q) → q_pending q = pre ++ j :: post → served j = true →
  let run := run_job cfg j w in
  ∃ ts, Forall is_event ts ∧
    q_pending (puts (settle run.1 pre post j (q_archived q)) (new_tasks w run.2)) =
    (pre ++ left_over run.1 j ++ post) ++ (new_job <$> ts).
Proof.
  intros [Happ Hjobs _] Hq Hs. simpl in *. cbv zeta. rewrite Hq in Hjobs.
  assert (job_ok j) as Hj by (apply Forall_app in Hjobs as [_ [? _]%Forall_cons]; done).
  destruct (run_delivers j Hj Hs w Happ) as (_ & _ & ts & Hts & Hev). rewrite (new_tasks_app _ _ _ Hts).
  destruct (puts_sub (settle (run_job cfg j w).1 pre post j (q_archived q)) ts) as (ts' & Hsub & ->).
  exists ts'. split; [|unfold append; simpl; by rewrite settle_pending].
  apply Forall_forall. intros t Ht. rewrite Forall_forall in Hev. apply Hev. by eapply elem_of_sublist.
Qed.

Lemma events_no_notification ts : Forall is_event ts → omap job_notification (new_job <$> ts) = [].
Proof.
  induction 1 as [|t ts Ht _ IH]; [done|]. csimpl. unfold job_notification at 1. simpl.
  by rewrite (event_no_notification t Ht), IH.
Qed.

Lemma work_sound s s' : sound s → work cfg s s' → sound s'.
Proof.
  intros Hsound Hw. destruct Hw as [w q pre j post Hq Hs run].
  destruct (work_queue w q pre j post Hsound Hq Hs) as (ts & Hev & Hpend). fold run in Hpend.
  destruct Hsound as [Happ Hjobs Hids]. simpl in *. rewrite Hq in Hjobs, Hids.
  apply Forall_app in Hjobs as [Hpre [Hj Hpost]%Forall_cons].
  split; simpl; rewrite ?Hpend.
  - by apply (run_delivers j Hj Hs w Happ).
  - rewrite !Forall_app. split_and!; [done|by apply left_over_ok|done|]. apply Forall_fmap.
    eapply Forall_impl; [exact Hev|]. intros t Ht. by apply new_job_ok, kind_event.
  - rewrite !omap_app, events_no_notification, app_nil_r by done.
    eapply sublist_NoDup; [exact Hids|]. rewrite (omap_app _ pre (j :: post)). apply sublist_app; [done|].
    change (j :: post) with ([j] ++ post). rewrite omap_app. apply sublist_app; [apply left_over_notification|done].
Qed.

(** Jobs other than the one taken stay. *)
Lemma other_jobs_stay {A} (x j : A) pre mid post ts :
  x ∈ pre ++ j :: post → x ≠ j → x ∈ (pre ++ mid ++ post) ++ ts.
Proof. intros Hx Hne. set_solver. Qed.

Lemma not_in_left f pre j post ts nid :
  Forall is_event ts → nid ∉ omap job_notification (pre ++ j :: post) →
  nid ∉ omap job_notification ((pre ++ left_over f j ++ post) ++ (new_job <$> ts)).
Proof.
  intros Hev Hnin. rewrite !omap_app, events_no_notification, app_nil_r by done.
  rewrite omap_app in Hnin. change (j :: post) with ([j] ++ post) in Hnin. rewrite omap_app in Hnin.
  rewrite !elem_of_app in *. intros [?|[H|?]]; [tauto| |tauto]. apply Hnin. right. left.
  eapply elem_of_sublist; [exact H|apply left_over_notification].
Qed.

Lemma identities_row db db' nid r :
  identities db' = identities db → notifications db' !! nid = Some r →
  ∃ r0, notifications db !! nid = Some r0 ∧ fixed_columns r0 = fixed_columns r.
Proof.
  intros Hi Hr. apply (f_equal (.!! nid)) in Hi. unfold identities in Hi. rewrite !lookup_fmap, Hr in Hi.
  destruct (notifications db !! nid) as [r0|]; [|done]. exists r0. split; [done|]. symmetry. exact (inj Some _ _ Hi).
Qed.

(** The backend and the channel of a stored notification. *)
Lemma row_backend db nid r :
  app_ok db → notifications db !! nid = Some r →
  ∃ ch prov, channel_configs db !! n_ChannelConfigID r = Some ch ∧ worker_registry !! n_Channel r = Some prov.
Proof.
  intros Happ Hr. destruct (ok_notification_channel _ (app_db _ Happ) _ _ Hr) as [ch Hch]. simpl in Hch.
  destruct (app_consistent _ Happ _ _ _ Hr Hch) as [_ Hty].
  destruct (worker_registry_complete (cr_Channel ch) (app_channels _ Happ _ _ Hch)) as (prov & Hprov & _).
  exists ch, prov. by rewrite Hty.
Qed.

(** The row of the task that ran. *)
Lemma ran_row w q pre j post nid r :
  services_up → sound (w, q) → covered (w, q) → q_pending q = pre ++ j :: post → served j = true →
  job_notification j = Some nid → notifications (w_db (run_job cfg j w).2) !! nid = Some r →
  n_Status r = fate_status (run_job cfg j w).1 ∧ carries nid r j.
Proof.
  intros Hup [Happ Hjobs Hids] Hcov Hq Hs Hn Hr. simpl in *.
  assert (j ∈ q_pending q) as Hin by (rewrite Hq; set_solver).
  assert (job_ok j) as Hj by (rewrite Forall_forall in Hjobs; by apply Hjobs).
  destruct (run_delivers j Hj Hs w Happ) as (_ & Hident & _).
  destruct (identities_row _ _ _ _ Hident Hr) as (r0 & Hr0 & Hcols).
  destruct (Hcov nid r0 Hr0) as [[_ []]|[_ (j0 & Hj0 & n & c & Ht & Hid & Hfix)]]; simpl in *.
  { apply list_elem_of_omap. eauto. }
  assert (j0 = j) as ->.
  { eapply carried_unique; [exact Hids|done|done|done|]. unfold job_notification. by rewrite Ht, send_task_notification, Hid. }
  split; [|exists n, c; split_and!; congruence].
  destruct (row_backend _ _ _ Happ Hr0) as (ch & prov & Hch & Hprov). unfold fixed_columns in Hfix.
  injection Hfix as _ Hcc Hty _. rewrite <- Hcc in Hch. rewrite <- Hty in Hprov. destruct j as [t k]. simpl in Ht. subst t nid.
  pose proof (run_status n c k w prov ch Hup (app_db _ Happ) Hprov Hch (mk_is_Some _ _ Hr0)) as Hst. cbv zeta in Hst.
  rewrite Hr in Hst. by injection Hst.
Qed.

(** The rows of tasks that did not run. *)
Lemma other_row w j nid :
  job_ok j → served j = true → job_notification j ≠ Some nid →
  notifications (w_db (run_job cfg j w).2) !! nid = notifications (w_db w) !! nid.
Proof.
  intros Hj Hs Hn. destruct (served_kind j Hj Hs) as [(n & c & Ht)|He].
  - destruct j as [t k]. simpl in Ht. subst t. apply run_other_rows. intros ->. apply Hn.
    apply send_task_notification.
  - pose proof (run_event_reads j He w) as H. unfold same, tables_and_queue in H. by injection H as -> _.
Qed.

Lemma work_covered s s' : services_up → sound s → covered s → work cfg s s' → covered s'.
Proof.
  intros Hup Hsound Hcov Hw. destruct Hw as [w q pre j post Hq Hs run].
  destruct (work_queue w q pre j post Hsound Hq Hs) as (ts & Hev & Hpend). fold run in Hpend.
  pose proof (sound_jobs _ Hsound) as Hjobs. pose proof (sound_ids _ Hsound) as Hids. simpl in *.
  assert (job_ok j) as Hj by (rewrite Forall_forall in Hjobs; apply Hjobs; rewrite Hq; set_solver).
  intros nid r Hr. simpl in *. rewrite Hpend.
  destruct (decide (job_notification j = Some nid)) as [Hn|Hn].
  - destruct (ran_row w q pre j post nid r Hup Hsound Hcov Hq Hs Hn Hr) as [Hst Hcar]. fold run in Hst.
    assert (nid ∉ omap job_notification (pre ++ post)) as Hnin.
    { rewrite Hq, omap_app in Hids. simpl in Hids. rewrite Hn in Hids. rewrite omap_app, elem_of_app.
      apply NoDup_app in Hids as (_ & Hd & [Hc _]%NoDup_cons). set_solver. }
    destruct run.1 eqn:Hf; simpl in Hst.
    1, 3: left; split; [first [by left|by right]|]; rewrite omap_app, events_no_notification, app_nil_r by done; exact Hnin.
    all: right; (split; [unfold finished; rewrite Hst; by intros [|]|]).
    + exists (again j). split; [simpl; set_solver|]. exact Hcar.
    + exists j. split; [simpl; set_solver|done].
  - unfold run in Hr. rewrite (other_row w j nid Hj Hs Hn) in Hr.
    destruct (Hcov nid r Hr) as [[Hfin Hnin]|[Hfin (j0 & Hj0 & Hcar)]]; [left|right]; (split; [done|]).
    + apply not_in_left; [done|]. by rewrite <- Hq.
    + exists j0. split; [|done]. apply (other_jobs_stay j0 j); [by rewrite <- Hq|]. intros ->.
      destruct Hcar as (n & c & Ht & Hid & _). apply Hn. unfold job_notification. by rewrite Ht, send_task_notification, Hid.
Qed.
End run.

(** ** Every step *)

Section steps.
Context {E : Env} {UL : UuidLaws E} {PL : PgLaws E} {ML : Mail} {J : Jwt} {T : Telegram} (cfg : Config).

Lemma put_scheduled q cron t : (cron, t) ∈ worker_schedule → put q t = append q [t].
Proof.
  unfold worker_schedule. rewrite !elem_of_cons, elem_of_nil. by intros [[= _ ->]|[[= _ ->]|[]]].
Qed.

(** An evolution without new tasks. *)
Lemma bot_step_queue admin u w calls :
  w_tasks (bs_world (dispatchUpdate admin u (mkBotState _ w calls)).2) = w_tasks w.
Proof.
  apply (dispatch_on admin (same w_tasks)); [intros w1 w2; unfold tables_and_queue, same; congruence|..].
  - intros i. apply svc_on_world. unfold TenantService_Create, PgTenantRepo_Create, PgAPIKeyRepo_Create. keeps_auto.
  - intros id i. apply svc_on_world, db_exec_at_tasks.
  - intros id _. apply svc_on_world, db_exec_tasks.
Qed.

Lemma sstep_sound s s' : sstep cfg s s' → sound s → sound s'.
Proof.
  intros Hstep Hsound. destruct Hstep as [w q sm rt r Hm Hrt w' Hnd Hh Hnew|s s' Hw|w q cron t Ht|w q u calls Hb|w q].
  - apply serve_sound; [|done..]. pose proof (router_evolving (api_deps cfg) sm Hm) as Hev.
    rewrite Forall_forall in Hev. apply Hev, Hrt.
  - by eapply work_sound.
  - destruct Hsound as [Happ Hjobs Hids]. simpl in *. rewrite (put_scheduled q cron t Ht).
    split; simpl; [done| |].
    + apply Forall_app. split; [done|]. apply Forall_singleton. by eapply new_job_ok, kind_scheduled.
    + rewrite omap_app. simpl. unfold job_notification at 2. simpl. rewrite (scheduled_no_notification cron t Ht).
      by rewrite app_nil_r.
  - destruct Hsound as [Happ Hjobs Hids]. split; simpl in *; [|done..]. by apply bot_evolves.
  - by destruct Hsound.
Qed.

Lemma sstep_covered s s' : services_up → sstep cfg s s' → sound s → covered s → covered s'.
Proof.
  intros Hup Hstep Hsound Hcov. destruct Hstep as [w q sm rt r Hm Hrt w' Hnd Hh Hnew|s s' Hw|w q cron t Ht|w q u calls Hb|w q].
  - rewrite puts_fresh by done. apply serve_covered; [done| |done].
    pose proof (router_evolving (api_deps cfg) sm Hm) as Hev. rewrite Forall_forall in Hev.
    by apply (Hev rt Hrt r w), Hsound.
  - by eapply work_covered.
  - rewrite (put_scheduled q cron t Ht). intros nid r Hr.
    destruct (Hcov nid r Hr) as [[Hfin Hnin]|[Hfin (j & Hj & Hc)]]; [left|right]; (split; [done|]); simpl in *.
    + rewrite omap_app. simpl. unfold job_notification at 2. simpl. rewrite (scheduled_no_notification cron t Ht).
      by rewrite app_nil_r.
    + exists j. split; [set_solver|done].
  - set (s2 := (dispatchUpdate _ _ _).2).
    assert (rtc change w (bs_world s2)) as Hrun by (apply (bot_evolves (cfg_TelegramAdminChat cfg) u (mkBotState _ w calls)), Hsound).
    pose proof (serve_covered w (bs_world s2) q Hup Hrun Hcov) as H.
    rewrite (new_tasks_app w (bs_world s2) []), append_nil in H; [done|]. rewrite app_nil_r. apply bot_step_queue.
  - done.
Qed.

Lemma installed_sound s : installed s → sound s ∧ covered s.
Proof.
  destruct s as [w q]. intros (Hdb & _ & Hq). simpl in *. subst q. split.
  - split; simpl; [rewrite Hdb; apply empty_db_app_ok|constructor..].
  - intros nid r Hr. simpl in Hr. rewrite Hdb in Hr. simpl in Hr. by apply lookup_empty_Some in Hr.
Qed.

Lemma reachable_sound s : reachable cfg s → sound s.
Proof.
  intros (s0 & H0 & Hrun). apply installed_sound in H0 as [H0 _].
  induction Hrun as [|s1 s2 s3 Hs _ IH]; [done|]. apply IH. by eapply sstep_sound.
Qed.

Lemma reachable_covered s : services_up → reachable cfg s → covered s.
Proof.
  intros Hup (s0 & H0 & Hrun). apply installed_sound in H0 as [H0 Hc].
  induction Hrun as [|s1 s2 s3 Hs _ IH]; [done|]. apply IH; [by eapply sstep_sound|by eapply sstep_covered].
Qed.
End steps.
