(* ===== verification/SystemEvents.v ===== *)
(** * SystemEvents: at most one outcome is announced

    Running a delivery task announces its outcome at most once, and only when the
    task then leaves the queue; so over the whole history of the system an
    endpoint is told the outcome of a notification once, whatever fails. *)
From S2P Require Import Prelude GoTime Json Hex Domain World Repository Integrity RepositoryProps.
From S2P Require Import Tasks Emitter Provider Dispatcher DispatcherFacts Lifecycle Services ServicesFacts.
From S2P Require Import Email ProviderFacts EventDelivery Http Application Auth Handlers Router.
From S2P Require Import Bot BotFacts System SystemFacts SystemSteps.

(** The notification an event task reports on, and the endpoint it goes to. *)
Definition event_target `{E : Env} (t : Task) : option (uuid * uuid) :=
  if bool_decide (task_Type t = TypeWebhookEvent) then
    match task_Payload t with
    | JObj [("endpoint_id", JStr eid); ("event", JObj [_; _; _; ("data", JObj (("notification_id", JStr nid) :: _))])] =>
        nid ← uuid_Parse nid; eid ← uuid_Parse eid; Some (nid, eid)
    | _ => None
    end
  else None.

Section emission.
Context {E : Env} {UL : UuidLaws E} {PL : PgLaws E} {ML : Mail}.

Lemma event_task_target params eid t : event_task params eid t → event_target t = Some (ep_NotificationID params, eid).
Proof.
  intros [now Ht]. unfold NewWebhookEventTask, json_WebhookEventTaskPayload, json_WebhookEventPayload in Ht.
  destruct (json_time _) as [created|]; [|done]. simpl in Ht. injection Ht as <-. unfold event_target. simpl.
  by rewrite !uuid_Parse_String.
Qed.

Lemma send_task_target n c : event_target (send_task n c) = None.
Proof. done. Qed.

(** The task of an event of [nid]. *)
Definition about (nid : uuid) (t : Task) : Prop := ∃ params eid, event_task params eid t ∧ ep_NotificationID params = nid.

(** The tasks report on [nid], to different endpoints. *)
Definition announces (nid : uuid) (ts : list Task) : Prop :=
  ∃ eids, NoDup eids ∧ omap event_target ts = pair nid <$> eids ∧ Forall (about nid) ts.

Lemma announces_nil nid : announces nid [].
Proof. exists []. split_and!; [constructor|done|constructor]. Qed.

(** [m] makes at most one announcement, and only when its result is in [Q]. *)
Definition emits {A} (Q : A → Prop) (nid : uuid) (m : M A) : Prop := ∀ w, app_ok (w_db w) →
  app_ok (w_db (m w).2) ∧ ∃ ts, w_tasks (m w).2 = w_tasks w ++ ts ∧ announces nid ts ∧ (ts = [] ∨ Q (m w).1).

Definition quiet : relation World := λ w w', (app_ok (w_db w) → app_ok (w_db w')) ∧ w_tasks w' = w_tasks w.

#[local] Instance quiet_preorder : PreOrder quiet.
Proof. split; [by intros w|]. intros x y z [H1 H2] [H3 H4]. split; [auto|congruence]. Qed.

Lemma quiet_both {A} (m : M A) : preserves app_ok m → keeps (same w_tasks) m → keeps quiet m.
Proof. intros H1 H2 w. split; [apply H1|apply H2]. Qed.

Lemma emits_quiet {A} (Q : A → Prop) nid (m : M A) : keeps quiet m → emits Q nid m.
Proof.
  intros Hm w H. destruct (Hm w) as [Ha Ht]. split; [by apply Ha|]. exists []. rewrite app_nil_r.
  split_and!; [done|apply announces_nil|by left].
Qed.

Lemma emits_after {A B} (Q : B → Prop) nid (m : M A) (f : A → M B) :
  keeps quiet m → (∀ a, emits Q nid (f a)) → emits Q nid (m ≫= f).
Proof.
  intros Hm Hf w H. rewrite ST_bind_run. destruct (Hm w) as [Ha Ht]. specialize (Ha H).
  destruct (Hf (m w).1 _ Ha) as (Ha' & ts & Hts & Hann & HQ). split; [done|]. exists ts. by rewrite Hts, Ht.
Qed.

Lemma emits_before {A B} (P : A → Prop) (Q : B → Prop) nid (m : M A) (f : A → M B) :
  emits P nid m → (∀ a, keeps quiet (f a)) → (∀ a w, P a → Q (f a w).1) → emits Q nid (m ≫= f).
Proof.
  intros Hm Hf HQ w H. rewrite ST_bind_run. destruct (Hm w H) as (Ha & ts & Hts & Hann & HP).
  destruct (Hf (m w).1 (m w).2) as [Ha' Ht']. split; [by apply Ha'|]. exists ts. rewrite Ht', Hts.
  split_and!; [done..|]. destruct HP as [?|HP]; [by left|right]. by apply HQ.
Qed.

Lemma emits_Emit (Emit : EmitParams → M (result unit)) `{!TerminalEventEmitter Emit} p :
  emits (λ _, True) (ep_NotificationID p) (Emit p).
Proof.
  intros w H. rewrite (Emit_keeps_db p w). split; [done|].
  destruct (Emit_adds p w (app_db _ H)) as (eids & ts & Ht & Hf & Hnd & _). exists ts. split_and!; [done| |by right].
  exists eids. split; [done|]. clear -Hf UL. induction Hf as [|eid t eids ts He _ [IH1 IH2]]; [done|]. split.
  - csimpl. by rewrite (event_task_target _ _ _ He), IH1.
  - constructor; [by exists p, eid|done].
Qed.

Lemma log_quiet msg : keeps quiet (log msg).
Proof. apply quiet_both; [apply app_reads, log_db|apply log_tasks]. Qed.
End emission.

Section handlers.
Context {E : Env} {UL : UuidLaws E} {PL : PgLaws E} {ML : Mail}.
Context (registry : Registry) (Emit : EmitParams → M (result unit)) `{!TerminalEventEmitter Emit}.

#[local] Existing Instance quiet_preorder.

(** Everything but an emission is quiet. *)
Ltac quiet_op :=
  lazymatch goal with
  | |- keeps _ (mret _) => apply keeps_ret, _
  | |- keeps _ (mbind _ _) => apply keeps_bind; [apply _| |intros ?]
  | |- keeps _ (log_err _ _) => apply keeps_log_err; [apply _| |apply log_quiet]
  | |- keeps _ (match ?x with _ => _ end) => destruct x eqn:?
  | |- keeps _ _ => apply quiet_both;
      [ solve [eauto 3 with app | apply app_reads; eauto 3 with keeps]
      | solve [eauto 3 with keeps
              | unfold PgNotificationRepo_UpdateStatus, PgNotificationRepo_IncrementRetry, PgNotificationRepo_MarkDelivered,
                  PgNotificationRepo_SetProviderMsgID, PgDeliveryAttemptRepo_Create, PgDeliveryMetricRepo_Upsert,
                  PgChannelConfigRepo_GetByID; keeps_auto] ]
  end.
Ltac quietly := solve [repeat quiet_op].

(** Results after which the task leaves the queue whatever retries are left. *)
Definition settled (r : result unit) : Prop :=
  match r with Ok _ => True | Err e => errors_Is e SkipRetry = true end.

Lemma emits_event p ty n : emits (λ _, True) (p_NotificationID p) (emitTerminalEvent Emit p ty n).
Proof.
  unfold emitTerminalEvent, log_err. eapply emits_before; [apply (emits_Emit Emit)| |done]. intros [?|e]; [quietly|apply log_quiet].
Qed.

Lemma emits_permanent p resp n : emits settled (p_NotificationID p) (handlePermanentProviderFailure Emit p resp n).
Proof.
  unfold handlePermanentProviderFailure. do 2 (apply emits_after; [quietly|intros _]).
  eapply emits_before; [apply emits_event|intros; quietly|]. done.
Qed.

Lemma emits_success a p resp n : emits (λ _, True) (p_NotificationID p) (recordSuccessfulDelivery Emit a p resp n).
Proof.
  unfold recordSuccessfulDelivery, createInitialDeliveryMetric. cbv zeta. do 3 (apply emits_after; [quietly|intros _]).
  eapply emits_before; [apply emits_event|intros; apply log_quiet|done].
Qed.

Lemma emits_HandleNotificationDeliver ctx t p :
  registry_ok registry → dec_NotificationDeliverPayload (task_Payload t) = Ok p →
  emits settled (p_NotificationID p) (HandleNotificationDeliver registry Emit ctx t).
Proof.
  intros Hr Hp. unfold HandleNotificationDeliver, Registry_Get. rewrite Hp. cbv zeta.
  apply emits_after; [quietly|intros _]. apply emits_after; [quietly|]. intros [ch|e]; [|apply emits_quiet; quietly].
  destruct (registry !! p_ChannelType p) as [prov|] eqn:Hpr; [destruct (Hr _ _ Hpr) as [_ HL]|apply emits_quiet; quietly].
  apply emits_after; [quietly|]. intros start. apply emits_after; [quietly|]. intros r.
  do 3 (apply emits_after; [quietly|intros ?]). destruct r as [resp|e].
  - destruct (sr_Success resp); simpl.
    + eapply emits_before; [apply emits_success|intros; quietly|done].
    + unfold handleProviderFailure. cbv zeta. apply emits_after; [quietly|intros _].
      destruct (sr_Permanent resp); [apply emits_permanent|apply emits_quiet; quietly].
  - apply emits_quiet. unfold handleDeliveryError. cbv zeta. quietly.
Qed.

(** The error handler speaks only for an exhausted task that nobody spoke for. *)
Lemma emits_HandleError ctx t e p :
  dec_NotificationDeliverPayload (task_Payload t) = Ok p →
  emits (λ _, (ctx_MaxRetry ctx ≤ ctx_RetryCount ctx)%Z ∧ errors_Is e SkipRetry = false) (p_NotificationID p)
    (HandleError Emit ctx t e).
Proof.
  intros Hp. unfold HandleError. cbv zeta. apply emits_after; [apply log_quiet|intros _].
  destruct (Z.ltb_spec (ctx_RetryCount ctx) (ctx_MaxRetry ctx)); [apply emits_quiet; quietly|].
  case_bool_decide; [|apply emits_quiet; case_bool_decide; [unfold handleWebhookEventRetriesExhausted|]; quietly].
  unfold handleNotificationRetriesExhausted. rewrite Hp. cbv zeta. apply emits_after; [quietly|intros _].
  apply emits_after; [apply log_quiet|intros _]. destruct (errors_Is e SkipRetry); [apply emits_quiet; quietly|].
  unfold log_err. eapply emits_before; [apply (emits_Emit Emit)| |done]. intros [?|e']; [quietly|apply log_quiet].
Qed.
End handlers.

Section history.
Context {E : Env} {UL : UuidLaws E} {PL : PgLaws E} {ML : Mail} (cfg : Config).

(** A run announces the outcome at most once, and the task is then done. *)
Lemma run_announces n c k w :
  app_ok (w_db w) →
  let run := run_job cfg (mkJob (send_task n c) k) w in
  ∃ ts, w_tasks run.2 = w_tasks w ++ ts ∧ announces (n_ID n) ts ∧ (ts = [] ∨ left_over run.1 (mkJob (send_task n c) k) = []).
Proof.
  intros Happ. cbv zeta. unfold run_job. simpl j_Task. rewrite sent_mux. set (ctx := mkTaskCtx k _). rewrite ST_bind_run.
  pose proof (emits_HandleNotificationDeliver worker_registry worker_Emit ctx (send_task n c) _ worker_registry_ok
    (send_task_dec n c) w Happ) as (Happ1 & ts & Hts & Hann & Hset).
  destruct (HandleNotificationDeliver _ _ _ _ w) as [[u|e] w1]; cbn [fst snd] in *.
  { exists ts. split_and!; [done|done|by right]. }
  rewrite ST_bind_run. change (j_ctx (mkJob (send_task n c) k)) with ctx.
  pose proof (emits_HandleError worker_Emit ctx (send_task n c) e _ (send_task_dec n c) w1 Happ1) as (_ & ts2 & Hts2 & Hann2 & Hex).
  set (w2 := (HandleError worker_Emit ctx (send_task n c) e w1).2) in *. cbn [fst snd].
  change (j_MaxRetry (mkJob (send_task n c) k)) with (ctx_MaxRetry ctx). change (j_Retried (mkJob (send_task n c) k)) with (ctx_RetryCount ctx).
  destruct (errors_Is e SkipRetry) eqn:He; cbn [orb].
  - destruct Hex as [->|[_ [=]]]. exists ts. rewrite app_nil_r in Hts2. split_and!; [|done|by right]. cbn [fst snd mret ST_ret].
    by rewrite Hts2.
  - destruct Hset as [->|Hset]; [|simpl in Hset; congruence]. rewrite app_nil_r in Hts.
    destruct (Z.leb_spec (ctx_MaxRetry ctx) (ctx_RetryCount ctx)) as [Hle|Hlt].
    + exists ts2. split_and!; [|done|by right]. cbn [fst snd mret ST_ret]. by rewrite Hts2, Hts.
    + destruct Hex as [->|[? _]]; [|lia]. exists []. split_and!; [|apply announces_nil|by left].
      rewrite ST_bind_run. cbn [fst snd mret ST_ret].
      match goal with |- context [worker_RetryDelayFunc cfg ?a ?b ?w0] => pose proof (retry_delay_reads cfg a b w0) as Hd end.
      unfold same, tables_and_queue in Hd. apply (f_equal snd) in Hd. cbn [snd] in Hd. by rewrite Hd, Hts2, Hts, !app_nil_r.
Qed.

Definition task_ids (w : World) : list (option string) := opt_TaskID ∘ task_Opts <$> w_tasks w.
Definition targets (w : World) : list (uuid * uuid) := omap event_target (w_tasks w).

(** Outcomes are announced once, for notifications that were sent, and when their
    tasks are gone. *)
Record announced (s : system) : Prop := mkAnnounced {
  ann_once : NoDup (targets s.1);
  ann_gone nid eid : (nid, eid) ∈ targets s.1 → nid ∉ omap job_notification (q_pending s.2);
  ann_sent nid eid : (nid, eid) ∈ targets s.1 → Some (notif_task_id nid) ∈ task_ids s.1;
  ann_jobs nid : nid ∈ omap job_notification (q_pending s.2) → Some (notif_task_id nid) ∈ task_ids s.1
}.

(** No event among the new tasks. *)
Lemma announced_quiet w w' q q' ts :
  w_tasks w' = w_tasks w ++ ts → omap event_target ts = [] →
  (∀ nid, nid ∈ omap job_notification (q_pending q') →
    nid ∈ omap job_notification (q_pending q) ∨
    Some (notif_task_id nid) ∉ task_ids w ∧ Some (notif_task_id nid) ∈ opt_TaskID ∘ task_Opts <$> ts) →
  announced (w, q) → announced (w', q').
Proof.
  intros Hts Hev Hq [H1 H2 H3 H4]. simpl in *.
  assert (targets w' = targets w) as Ht by (unfold targets; by rewrite Hts, omap_app, Hev, app_nil_r).
  assert (∀ x, x ∈ task_ids w → x ∈ task_ids w') as Hids by (intros x Hx; unfold task_ids in *; rewrite Hts, fmap_app; set_solver).
  split; simpl; rewrite ?Ht; [done| | |].
  - intros nid eid Hin Hj. destruct (Hq nid Hj) as [Hj'|[Hn _]]; [by eapply H2|]. by eapply Hn, H3.
  - intros nid eid Hin. by eapply Hids, H3.
  - intros nid Hj. destruct (Hq nid Hj) as [Hj'|[_ Hn]]; [by apply Hids, H4|]. unfold task_ids. rewrite Hts, fmap_app. set_solver.
Qed.

Lemma sent_targets ts : Forall is_sent ts → omap event_target ts = [].
Proof. induction 1 as [|t ts (n & c & ->) _ IH]; [done|]. exact IH. Qed.

Lemma sent_job_ids ts nid :
  Forall is_sent ts → nid ∈ omap job_notification (new_job <$> ts) → ∃ t, t ∈ ts ∧ opt_TaskID (task_Opts t) = Some (notif_task_id nid).
Proof.
  intros Hf (j & Hj & Hn)%list_elem_of_omap. apply list_elem_of_fmap in Hj as (t & -> & Ht). exists t. split; [done|].
  rewrite Forall_forall in Hf. destruct (Hf t Ht) as (n & c & ->).
  change (task_notification (send_task n c) = Some nid) in Hn. rewrite send_task_notification in Hn. by injection Hn as <-.
Qed.

Lemma serve_announced w w' q :
  rtc change w w' → Forall (λ t, opt_TaskID (task_Opts t) ∉ opt_TaskID ∘ task_Opts <$> w_tasks w) (new_tasks w w') →
  announced (w, q) → announced (w', append q (new_tasks w w')).
Proof.
  intros Hrun Hnew Hann. destruct (changes_tasks _ _ Hrun) as (ts & Hts & Hf). rewrite (new_tasks_app _ _ _ Hts) in *.
  eapply announced_quiet; [done|by apply sent_targets| |exact Hann].
  intros nid. simpl. rewrite omap_app, elem_of_app. intros [?|Hin]; [by left|right].
  destruct (sent_job_ids ts nid Hf Hin) as (t & Ht & Hid). rewrite Forall_forall in Hnew. specialize (Hnew t Ht).
  rewrite Hid in Hnew. split; [exact Hnew|]. apply list_elem_of_fmap. by exists t.
Qed.

(** A run that takes its task off the queue. *)
Lemma work_announced s s' : sound s → announced s → work cfg s s' → announced s'.
Proof.
  intros Hsound Hann Hw. destruct Hw as [w q pre j post Hq Hs run].
  destruct (work_queue cfg w q pre j post Hsound Hq Hs) as (evs & Hev & Hpend). fold run in Hpend.
  assert (∀ nid, nid ∈ omap job_notification
    (q_pending (puts (settle run.1 pre post j (q_archived q)) (new_tasks w run.2))) →
    nid ∈ omap job_notification (q_pending q)) as Hsub.
  { intros nid. rewrite Hpend, Hq. intros Hin. destruct (decide (nid ∈ omap job_notification (pre ++ j :: post))); [done|].
    by apply (not_in_left run.1 pre j post evs nid Hev) in Hin. }
  pose proof (sound_app _ Hsound) as Happ. pose proof (sound_ids _ Hsound) as Hids. pose proof (sound_jobs _ Hsound) as Hjobs.
  simpl in *. assert (job_ok j) as Hj by (rewrite Forall_forall in Hjobs; apply Hjobs; rewrite Hq; set_solver).
  destruct (served_kind j Hj Hs) as [(n & c & Ht)|He].
  - destruct j as [t k]. simpl in Ht. subst t.
    destruct (run_announces n c k w Happ) as (ts & Hts & (eids & Hnd & Htg & _) & Hgone). fold run in Hts, Hgone.
    destruct Hgone as [->|Hgone].
    { eapply announced_quiet; [exact Hts|done| |exact Hann]. intros nid Hin. left. by apply Hsub. }
    destruct Hann as [H1 H2 H3 H4]. simpl in *.
    assert (n_ID n ∈ omap job_notification (q_pending q)) as Hin.
    { apply list_elem_of_omap. exists (mkJob (send_task n c) k). split; [|apply send_task_notification].
      rewrite Hq. apply elem_of_app. right. by left. }
    assert (targets run.2 = targets w ++ (pair (n_ID n) <$> eids)) as Htar by (unfold targets; by rewrite Hts, omap_app, Htg).
    assert (∀ x, x ∈ task_ids w → x ∈ task_ids run.2) as Hmono.
    { intros x Hx. unfold task_ids in *. rewrite Hts, fmap_app, elem_of_app. by left. }
    split; simpl; rewrite ?Htar.
    + apply NoDup_app. split_and!; [done| |by apply NoDup_fmap_2; [intros ?? [=]|]].
      intros [nid eid] Hold (eid' & [= -> ->] & _)%list_elem_of_fmap. by eapply H2.
    + intros nid eid [Hold|(eid' & [= -> ->] & _)%list_elem_of_fmap]%elem_of_app; [intros Hp; by eapply H2; [|apply Hsub]|].
      rewrite Hpend, Hgone. simpl. rewrite omap_app, events_no_notification, app_nil_r by done.
      rewrite Hq, omap_app in Hids. simpl in Hids.
      change (job_notification (mkJob (send_task n c) k)) with (task_notification (send_task n c)) in Hids.
      rewrite send_task_notification in Hids. apply NoDup_app in Hids as (_ & Hd & [Hc _]%NoDup_cons).
      rewrite omap_app, elem_of_app. intros [Hp|Hp]; [|done]. apply (Hd _ Hp). by left.
    + intros nid eid [Hold|(eid' & [= -> ->] & _)%list_elem_of_fmap]%elem_of_app; [by eapply Hmono, H3|]. by apply Hmono, H4.
    + intros nid Hp. apply Hmono, H4, Hsub, Hp.
  - pose proof (run_event_reads cfg j He w) as H. unfold same, tables_and_queue in H. apply (f_equal snd) in H. cbn [snd] in H.
    eapply (announced_quiet w run.2 q _ []); [by rewrite app_nil_r|done| |exact Hann]. intros nid Hin. left. by apply Hsub.
Qed.
End history.

Section steps.
Context {E : Env} {UL : UuidLaws E} {PL : PgLaws E} {ML : Mail} {J : Jwt} {T : Telegram} (cfg : Config).

Lemma sstep_announced s s' : sstep cfg s s' → sound s → announced s → announced s'.
Proof.
  intros Hstep Hsound Hann. destruct Hstep as [w q sm rt r Hm Hrt w' Hnd Hh Hnew|s s' Hw|w q cron t Ht|w q u calls Hb|w q].
  - rewrite puts_fresh by done. apply serve_announced; [|done..].
    pose proof (router_evolving (api_deps cfg) sm Hm) as Hev. rewrite Forall_forall in Hev. by apply (Hev rt Hrt r w), Hsound.
  - by eapply work_announced.
  - rewrite (put_scheduled q cron t Ht). apply (announced_quiet w w q _ []); [by rewrite app_nil_r|done| |done].
    intros nid. simpl. rewrite omap_app. simpl. unfold job_notification at 2. simpl.
    rewrite (scheduled_no_notification cron t Ht), app_nil_r. by left.
  - apply (announced_quiet w _ q q []); [rewrite app_nil_r; apply bot_step_queue|done|by left|done].
  - apply (announced_quiet w _ q q []); [by rewrite app_nil_r|done|by left|done].
Qed.

Lemma reachable_announced s :
  reachable cfg s → announced s.
Proof.
  intros (s0 & H0 & Hrun). assert (announced s0) as Ha.
  { destruct s0 as [w q]. destruct H0 as (_ & Hnil & Hq). simpl in *. subst q. split; unfold targets, task_ids; simpl; rewrite ?Hnil; simpl; [constructor|..]; intros *; by rewrite elem_of_nil. }
  apply installed_sound in H0 as [H0 _]. induction Hrun as [|s1 s2 s3 Hs _ IH]; [done|].
  apply IH; [by eapply sstep_sound|by eapply sstep_announced].
Qed.
End steps.
