(* ===== verification/SampleRun.v ===== *)
(** * SampleRun: a run of the whole system

    From an empty installation the operator creates a tenant, the tenant a
    channel and a webhook endpoint, and sends a message; the scheduler enqueues its purge task and the
    worker delivers the message.  The states of this run are those at which the
    theorems on reachable states are applied. *)
From S2P Require Import Prelude GoTime Utf8 Json JsonText Hex Domain World Repository Integrity SampleEnv Samples.
From S2P Require Import Tasks Emitter Provider Dispatcher Lifecycle Services Email SampleMail EventDelivery Http Application.
From S2P Require Import Auth SampleJwt Handlers Router ApiFacts Bot System.

#[export] Instance quiet_telegram : Telegram := {| tg_answer := λ _ _, Ok tt |}.

Section run.
#[local] Existing Instance healthy.

Definition run_cfg : Config :=
  mkConfig 8080 (15 * Second) "postgres://db" 25 5 (30 * Minute) (5 * Minute) (30 * Second) "127.0.0.1:6379" "" 0
    "signing-key" Hour "notifyd" 10 5 default_MinRetryDelay default_MaxRetryDelay "info" "" 0 "admin" "admin-secret" "" ""
    "https://portal.fluxintek.com/billing".

Definition run_deps : Deps := api_deps run_cfg.
Definition run_routes : list Route := router_New run_deps (sequential_multi 5).

(** A request with a token for [claims]. *)
Definition run_request (claims : TenantClaims) (path : string) (body : json) : Request :=
  mkRequest "POST" path path {["Authorization" := "Bearer " +:+ sample_sign "signing-key" claims]} ∅ ∅
    (NewReader (Marshal body)) None.
Definition run_claims (tid : uuid) (admin : bool) : TenantClaims :=
  mkTenantClaims "notifyd" "" (time_Date 2026 3 15) (time_Date 2026 3 14) (time_Date 2026 3 14) "" tid "acme" admin.

Definition serve (i : nat) (r : Request) (w : World) : World :=
  match run_routes !! i with Some rt => (rt_serve rt r w).2 | None => w end.

Definition run0 : World := healthy_world empty_db.
Definition run1 : World :=
  serve 21 (run_request (run_claims uuid_Nil true) "/admin/tenants/" (JObj [("name", JStr "Acme"); ("slug", JStr "acme")])) run0.

(** The only row of a table. *)
Definition only_key {A} (m : gmap uuid A) : uuid := default uuid_Nil (head (map_to_list m).*1).
Definition run_tenant : uuid := only_key (tenants (w_db run1)).

Definition run2 : World :=
  serve 6 (run_request (run_claims run_tenant false) "/channels/"
    (JObj [("channel", JStr ChannelDiscord); ("name", JStr "ops");
           ("config", JObj [("webhook_url", JStr "https://discord.test/hook")])])) run1.
Definition run_channel : uuid := only_key (channel_configs (w_db run2)).

Definition run2' : World :=
  serve 11 (run_request (run_claims run_tenant false) "/webhooks/"
    (JObj [("url", JStr "https://hooks.example.com/notifyd"); ("events", JArr [JStr WebhookEventDelivered])])) run2.
Definition run_endpoint : uuid := only_key (webhook_endpoints (w_db run2')).

Definition run3 : World :=
  serve 14 (run_request (run_claims run_tenant false) "/notifications/send"
    (JObj [("channel_config_id", JStr (uuid_String run_channel)); ("body", JStr "hello")])) run2'.
Definition run_notification : uuid := only_key (notifications (w_db run3)).

Definition run_task : Task := default (NewTask "" JNull []) (head (w_tasks run3)).
Definition purge_task : Task := NewTask TypeRetentionPurge JNull [].

(** The message is accepted, then the purge task is due, then the worker runs. *)
Definition run_sent : system := (run3, mkQueue [new_job run_task] []).
Definition run_due : system := (run3, mkQueue [new_job run_task; new_job purge_task] []).
Definition run4 : World := (run_job run_cfg (new_job run_task) run3).2.
Definition event_job : job := new_job (default (NewTask "" JNull []) (last (w_tasks run4))).
Definition run_done : system := (run4, mkQueue [new_job purge_task; event_job] []).

Lemma serve_step i r w q :
  is_Some (run_routes !! i) →
  bool_decide (NoDup (opt_TaskID ∘ task_Opts <$> new_tasks w (serve i r w))) &&
    forallb (λ t, negb (held q t) && bool_decide (opt_TaskID (task_Opts t) ∉ opt_TaskID ∘ task_Opts <$> w_tasks w))
      (new_tasks w (serve i r w)) = true →
  sstep run_cfg (w, q) (serve i r w, puts q (new_tasks w (serve i r w))).
Proof.
  intros [rt Hrt] [Hnd%bool_decide_eq_true Hh]%andb_true_iff. unfold serve in *. rewrite Hrt in *.
  assert (∀ t, t ∈ new_tasks w (rt_serve rt r w).2 →
    held q t = false ∧ opt_TaskID (task_Opts t) ∉ opt_TaskID ∘ task_Opts <$> w_tasks w) as Hfresh.
  { intros t Ht. rewrite forallb_forall in Hh. specialize (Hh t). rewrite <- list_elem_of_In in Hh.
    apply Hh, andb_true_iff in Ht as [Hq%negb_true_iff Hn%bool_decide_eq_true]. done. }
  apply (sys_serve run_cfg w q (sequential_multi 5) rt r); [by apply sequential_multi_runs|by eapply list_elem_of_lookup_2|done|..].
  all: apply Forall_forall; intros t Ht; by apply Hfresh.
Qed.

Lemma run_sent_reachable : reachable run_cfg run_sent.
Proof.
  exists (run0, mkQueue [] []). split; [by split|].
  apply (rtc_l _ _ (run1, mkQueue [] [])).
  { assert (puts (mkQueue [] []) (new_tasks run0 run1) = mkQueue [] []) as <- by (vm_compute; reflexivity).
    apply serve_step; [by eexists|vm_compute; reflexivity]. }
  apply (rtc_l _ _ (run2, mkQueue [] [])).
  { assert (puts (mkQueue [] []) (new_tasks run1 run2) = mkQueue [] []) as <- by (vm_compute; reflexivity).
    apply serve_step; [by eexists|vm_compute; reflexivity]. }
  apply (rtc_l _ _ (run2', mkQueue [] [])).
  { assert (puts (mkQueue [] []) (new_tasks run2 run2') = mkQueue [] []) as <- by (vm_compute; reflexivity).
    apply serve_step; [by eexists|vm_compute; reflexivity]. }
  apply rtc_once. unfold run_sent.
  assert (puts (mkQueue [] []) (new_tasks run2' run3) = mkQueue [new_job run_task] []) as <- by (vm_compute; reflexivity).
  apply serve_step; [by eexists|vm_compute; reflexivity].
Qed.

Lemma run_due_reachable : reachable run_cfg run_due.
Proof.
  destruct run_sent_reachable as (s0 & H0 & Hrun). exists s0. split; [done|]. eapply rtc_r; [exact Hrun|].
  unfold run_due, run_sent.
  assert (mkQueue [new_job run_task; new_job purge_task] [] = put (mkQueue [new_job run_task] []) purge_task) as -> by reflexivity.
  apply (sys_schedule run_cfg run3 _ "0 3 * * *"). by left.
Qed.

(** The worker delivers the message and tells the endpoint; the purge task stays. *)
Lemma run_done_step : sstep run_cfg run_due run_done.
Proof.
  apply sys_work. unfold run_due, run_done. set (q := mkQueue [new_job run_task; new_job purge_task] []).
  assert (mkQueue [new_job purge_task; event_job] [] =
    puts (settle (run_job run_cfg (new_job run_task) run3).1 [] [new_job purge_task] (new_job run_task) (q_archived q))
      (new_tasks run3 (run_job run_cfg (new_job run_task) run3).2)) as -> by (vm_compute; reflexivity).
  assert (served (new_job run_task) = true) as Hs by (vm_compute; reflexivity).
  exact (work_run run_cfg run3 q [] (new_job run_task) [new_job purge_task] eq_refl Hs).
Qed.

Lemma run_done_reachable : reachable run_cfg run_done.
Proof.
  destruct run_due_reachable as (s0 & H0 & Hrun). exists s0. split; [done|]. eapply rtc_r; [exact Hrun|apply run_done_step].
Qed.
End run.
