(* ===== verification/Killed.v ===== *)
(** * Killed: a worker that dies in the middle of a task

    A process can be killed between any two of its interactions with the outside.
    [cut] is an environment in which, from a tick on, nothing reaches the outside
    any more: what a run does there is what a run that is killed at that tick has
    done.  asynq keeps the task of a dead worker and runs it again; so nothing is
    lost, and the events announced before and after bear the same ids. *)
From S2P Require Import Prelude GoTime Json Hex Domain World SampleEnv Samples Repository Integrity RepositoryProps.
From S2P Require Import Tasks Emitter Provider Dispatcher DispatcherFacts Lifecycle LifecycleProps Services ServicesFacts.
From S2P Require Import Email ProviderFacts SampleMail Application System SystemFacts SystemSteps SystemEvents SampleRun.

(** ** Dying *)

Section cut.
Context (E : Env) (dead : nat).

Definition alive (tick : nat) : bool := (tick <? dead)%nat.
Definition gone : string := "process killed".

(** Nothing arrives from tick [dead] on; the rest is as it was. *)
Definition cut : Env := {|
  env_now := @env_now E;
  env_uuid := @env_uuid E;
  env_Int64N := @env_Int64N E;
  env_rand_bytes := @env_rand_bytes E;
  env_fault := λ t, if alive t then @env_fault E t else Lost gone;
  pg_jsonb := @pg_jsonb E;
  jsonb := @jsonb E;
  heap_order := @heap_order E;
  env_enqueue := λ t task, if alive t then @env_enqueue E t task else Err (errors_New gone);
  env_http := λ t q, if alive t then @env_http E t q else Err (errors_New gone);
  env_smtp := λ t e, if alive t then @env_smtp E t e else Broken gone;
  map_order := @map_order E;
  url_Hostname := @url_Hostname E;
  uuid_String := @uuid_String E;
  uuid_Parse := @uuid_Parse E;
  uuid_NewSHA1 := @uuid_NewSHA1 E;
  hmac_sha256 := @hmac_sha256 E;
  sha256 := @sha256 E;
  bcrypt_Generate := @bcrypt_Generate E;
  bcrypt_Compare := @bcrypt_Compare E;
  redis := @redis E;
  redis_value := @redis_value E;
  redis_IncrBy := @redis_IncrBy E;
  redis_Expire := @redis_Expire E;
  redis_Set := @redis_Set E;
  redis_SetNX := @redis_SetNX E
|}.

Definition into (w : @World E) : @World cut :=
  mkWorld cut (w_db w) (w_redis w) (w_tasks w) (w_http w) (w_smtp w) (w_log w) (w_tick w).

(** The tables, Redis and the queue are what the run had made of them when it
    died. *)
Definition killed {A} (run : ∀ E' : Env, @World E' → A * @World E') (w w' : @World E) : Prop :=
  let d := (run cut (into w)).2 in
  w_db w' = w_db d ∧ w_redis w' = w_redis d ∧ w_tasks w' = w_tasks d.

#[export] Instance cut_uuid {UL : UuidLaws E} : UuidLaws cut.
Proof. split; [exact (@uuid_String_length E UL)|exact (@uuid_Parse_String E UL)]. Qed.
#[export] Instance cut_pg {PL : PgLaws E} : PgLaws cut.
Proof. split; [exact (@heap_order_perm E PL)|exact (@jsonb_scalar E PL)|exact (@jsonb_object E PL)]. Qed.

Lemma cut_app db : @app_ok cut db ↔ @app_ok E db.
Proof. split; intros [H1 H2 H3 H4 H5]; by split. Qed.
Lemma cut_about nid t : @about cut nid t ↔ @about E nid t.
Proof. done. Qed.
End cut.

(** ** Before and after *)

(** Before it dies a process sees the outside as it is; afterwards whatever it
    tries has no effect on the tables, Redis or the queue. *)
Section dead.
Context (E : Env) (dead : nat).

Definition outside {E : Env} (w : World) := (w_db w, w_redis w, w_tasks w).

Lemma alive_exec {A} (f : DB → result A * DB) (w : @World E) : alive dead (w_tick w) = true →
  (db_exec f (into E dead w)).1 = (db_exec f w).1 ∧ w_db (db_exec f (into E dead w)).2 = w_db (db_exec f w).2.
Proof. intros H. unfold db_exec. simpl. rewrite H. by destruct (env_fault _). Qed.

Lemma dead_exec {A} (f : DB → result A * DB) (w : @World (cut E dead)) : alive dead (w_tick w) = false →
  is_Ok (db_exec f w).1 = false ∧ outside (db_exec f w).2 = outside w.
Proof. intros H. unfold db_exec. simpl. by rewrite H. Qed.

Lemma alive_enqueue t (w : @World E) : alive dead (w_tick w) = true →
  (EnqueueContext t (into E dead w)).1 = (EnqueueContext t w).1 ∧
  w_tasks (EnqueueContext t (into E dead w)).2 = w_tasks (EnqueueContext t w).2.
Proof. intros H. unfold EnqueueContext. simpl. rewrite H. by destruct (env_enqueue _ _). Qed.

Lemma dead_enqueue t (w : @World (cut E dead)) : alive dead (w_tick w) = false →
  is_Ok (EnqueueContext t w).1 = false ∧ outside (EnqueueContext t w).2 = outside w.
Proof. intros H. unfold EnqueueContext. simpl. by rewrite H. Qed.

Lemma dead_redis {A} (f : @redis (cut E dead) → A * @redis (cut E dead)) (w : @World (cut E dead)) : alive dead (w_tick w) = false →
  is_Ok (redis_do f w).1 = false ∧ outside (redis_do f w).2 = outside w.
Proof. intros H. unfold redis_do. simpl. by rewrite H. Qed.
End dead.

(** ** One run of a delivery task, and its repetition *)

Definition deliver_once {ML : Mail} (t : Task) (ctx : TaskCtx) (E : Env) : M unit :=
  r ← HandleNotificationDeliver worker_registry worker_Emit ctx t;
  match r with Ok _ => mret tt | Err e => HandleError worker_Emit ctx t e end.

(** A worker dies somewhere in a run of the task. *)
Definition dies {E : Env} {ML : Mail} (t : Task) (w w' : World) : Prop :=
  ∃ dead ctx, killed E dead (deliver_once t ctx) w w'.

Section recovery.
Context {E : Env} {UL : UuidLaws E} {PL : PgLaws E} {ML : Mail}.

(** What runs that died have left. *)
Record left_by (nid : uuid) (w w' : World) : Prop := mkLeftBy {
  left_app : app_ok (w_db w) → app_ok (w_db w');
  left_rows : app_ok (w_db w) → identities (w_db w') = identities (w_db w);
  left_config : config_tables (w_db w') = config_tables (w_db w);
  left_tasks : app_ok (w_db w) → ∃ ts, w_tasks w' = w_tasks w ++ ts ∧ Forall (about nid) ts
}.

#[export] Instance left_by_preorder nid : PreOrder (left_by nid).
Proof.
  split.
  - intros w. split; [done..|]. intros _. exists []. by rewrite app_nil_r.
  - intros w1 w2 w3 [a1 r1 c1 t1] [a2 r2 c2 t2]. split; [auto| |congruence|].
    + intros H. by rewrite r2, r1 by auto.
    + intros H. destruct (t1 H) as (ts1 & H1 & F1). destruct (t2 (a1 H)) as (ts2 & H2 & F2).
      exists (ts1 ++ ts2). rewrite H2, H1, app_assoc. split; [done|]. by apply Forall_app.
Qed.
End recovery.

Section once.
Context {E : Env} {UL : UuidLaws E} {PL : PgLaws E} {ML : Mail}.

Lemma once_left t p ctx : dec_NotificationDeliverPayload (task_Payload t) = Ok p →
  keeps (left_by (p_NotificationID p)) (deliver_once t ctx E).
Proof.
  intros Hp. unfold deliver_once. apply keeps_bind; [apply _| |intros [u|e]; [apply keeps_ret, _|]].
  - intros w. pose proof (deliver_HandleNotificationDeliver worker_registry worker_Emit ctx t worker_registry_ok w) as Hd.
    pose proof (HandleNotificationDeliver_ok worker_registry worker_Emit ctx t worker_registry_ok) as [_ Hc].
    split; [intros H; by apply Hd|intros H; by apply Hd|apply Hc|].
    intros H. destruct (emits_HandleNotificationDeliver worker_registry worker_Emit ctx t p worker_registry_ok Hp w H)
      as (_ & ts & Hts & (_ & _ & _ & Ha) & _). by exists ts.
  - intros w. pose proof (deliver_HandleError worker_Emit ctx t e w) as Hd.
    pose proof (HandleError_ok worker_Emit ctx t e) as [_ Hc].
    split; [intros H; by apply Hd|intros H; by apply Hd|apply Hc|].
    intros H. destruct (emits_HandleError worker_Emit ctx t e p Hp w H) as (_ & ts & Hts & (_ & _ & _ & Ha) & _). by exists ts.
Qed.
End once.

Section recovery.
Context {E : Env} {UL : UuidLaws E} {PL : PgLaws E} {ML : Mail}.

Lemma dies_left t p w w' : dec_NotificationDeliverPayload (task_Payload t) = Ok p → dies t w w' → left_by (p_NotificationID p) w w'.
Proof.
  intros Hp (dead & ctx & Hdb & _ & Hts).
  destruct (once_left (E := cut E dead) t p ctx Hp (into E dead w)) as [H1 H2 H3 H4].
  rewrite !cut_app in *. split; rewrite ?Hdb, ?Hts; auto.
Qed.

Lemma deaths_left t p w w' : dec_NotificationDeliverPayload (task_Payload t) = Ok p → rtc (dies t) w w' →
  left_by (p_NotificationID p) w w'.
Proof. intros Hp. induction 1 as [w|w1 w2 w3 H1 _ IH]; [done|]. etrans; [by apply (dies_left t)|exact IH]. Qed.

Lemma fanout_about params db ts : fanout params db ts → Forall (about (ep_NotificationID params)) ts.
Proof.
  intros (eids & Hf & _). induction Hf as [|eid t eids ts He _ IH]; [constructor|]. constructor; [by exists params, eid|done].
Qed.

(** The ids of an event are made of the notification, the outcome and the endpoint. *)
Definition stable_id (nid : uuid) (t : Task) : Prop := ∃ params eid,
  event_task params eid t ∧ ep_NotificationID params = nid ∧
  task_id_of t = Some (webhook_task_id (webhookEventID nid (ep_EventType params)) eid).

Lemma about_stable nid t : about nid t → stable_id nid t.
Proof. intros (params & eid & Ht & <-). exists params, eid. split_and!; [done..|]. by apply event_task_id. Qed.
End recovery.

(** * Claims *)


(** * Witnesses *)

Section witnesses.
#[local] Existing Instance healthy.

(** The message of the sample run: its worker dies when all is done, before it can
    tell the queue. *)
Definition killed_payload : NotificationDeliverPayload :=
  mkNotificationDeliverPayload run_notification run_tenant ChannelDiscord run_channel "" "hello" None None.
Definition killed_task : Task := NewNotificationDeliverTask killed_payload [MaxRetry 5].
Definition killed_ctx : TaskCtx := mkTaskCtx 0 5.

(** What the rest of the system finds. *)
Definition survive (d : @World (cut healthy 1000)) : World :=
  mkWorld healthy (w_db d) (w_redis d) (w_tasks d) [] [] [] (w_tick d).
Definition killed_world : World :=
  survive (deliver_once killed_task killed_ctx (cut healthy 1000) (into healthy 1000 run3)).2.

Lemma survive_killed {A} (run : ∀ E : Env, @World E → A * @World E) w :
  killed healthy 1000 run w (survive (run (cut healthy 1000) (into healthy 1000 w)).2).
Proof. unfold killed. cbv zeta. by generalize (run (cut healthy 1000) (into healthy 1000 w)).2. Qed.

Lemma killed_world_dies : dies killed_task run3 killed_world.
Proof. exists 1000%nat, killed_ctx. unfold killed_world. exact (survive_killed (deliver_once killed_task killed_ctx) run3). Qed.

Definition row_of (w : World) : option string := n_Status <$> notifications (w_db w) !! run_notification.

Definition rerun : task_end * World :=
  Lifecycle.run_task (HandleNotificationDeliver worker_registry worker_Emit) (HandleError worker_Emit) 5 0 5 killed_task killed_world.

(** The row already says delivered, and the message goes out again. *)
Lemma redelivery_sends_again :
  row_of killed_world = Some StatusDelivered ∧ length (w_http killed_world) = 0%nat ∧
  length (w_http rerun.2) = 1%nat ∧ row_of rerun.2 = Some StatusDelivered.
Proof. vm_compute. done. Qed.

End witnesses.
