(* ===== verification/SystemProps.v ===== *)
(** * SystemProps: the properties of the whole system

    What holds of tables and queue in every state the processes can reach, that
    no notification is lost, that the worker drains its queues, and which tasks
    it never gets to see. *)
From S2P Require Import Prelude GoTime Json Hex Domain World Repository Integrity SampleEnv Samples.
From S2P Require Import Tasks TasksProps Emitter Provider Dispatcher Lifecycle Services ServicesFacts Email SampleMail.
From S2P Require Import EventDelivery Http Application Auth SampleJwt Handlers Router ApiFacts Bot BotFacts System SystemFacts.
From S2P Require Import SystemSteps SystemEvents SampleRun.

(** ** Draining *)

(** Steps that decrease a pair of numbers lexicographically come to an end. *)
Lemma lex_sn {A} (R : relation A) (I : A → Prop) (a b : A → nat) :
  (∀ x y, I x → R x y → I y ∧ (a y < a x ∨ a y = a x ∧ b y < b x)) → ∀ x, I x → sn R x.
Proof.
  intros Hdec x. remember (a x) as m eqn:Hm. revert x Hm. induction (lt_wf m) as [m _ IHm]. intros x Hm.
  remember (b x) as k eqn:Hk. revert x Hm Hk. induction (lt_wf k) as [k _ IHk]. intros x Hm Hk Hx.
  constructor. intros y Hy. destruct (Hdec x y Hx Hy) as [HIy [Hlt|[Heq Hlt]]].
  - by apply (IHm (a y)); [lia|..].
  - by apply (IHk (b y)); [lia|lia|..].
Qed.

Section draining.
Context {E : Env} {UL : UuidLaws E} {PL : PgLaws E} {ML : Mail} (cfg : Config).

(** The runs a job can still have. *)
Definition budget (j : job) : nat := Z.to_nat (j_MaxRetry j - j_Retried j + 1).

Definition is_delivery (j : job) : bool := bool_decide (task_Type (j_Task j) = TypeNotificationDeliver).
Definition delivery_budget (s : system) : nat := sum_list_with (λ j, if is_delivery j then budget j else 0) (q_pending s.2).
Definition event_budget (s : system) : nat := sum_list_with (λ j, if is_delivery j then 0 else budget j) (q_pending s.2).

(** The delays of the retries a job has left can be computed. *)
Definition paced (j : job) : Prop :=
  ∀ k w, (j_Retried j ≤ k < j_MaxRetry j)%Z → is_Some (worker_RetryDelayFunc cfg k (j_Task j) w).1.

Lemma event_paced t : is_event t → paced (new_job t).
Proof.
  intros (Ht & _) k w _. unfold worker_RetryDelayFunc, RetryDelayForTask. simpl.
  rewrite bool_decide_eq_true_2 by done. unfold fmap, ST_fmap. destruct (WebhookEventRetryDelay k w). by eexists.
Qed.

Lemma crash_unpaced j w : (run_job cfg j w).1 = Crash → (0 ≤ j_Retried j)%Z → ¬ paced j.
Proof.
  intros Hc H0 Hp. pose proof (run_stays cfg j w (or_intror Hc)) as Hlt. revert Hc.
  unfold run_job. rewrite ST_bind_run. destruct (worker_mux _ _ w) as [[?|e] w1]; [done|]. cbn [fst snd].
  rewrite ST_bind_run. destruct (errors_Is _ _ || _); [done|]. rewrite ST_bind_run. cbn [fst snd mret ST_ret].
  destruct (Hp (j_Retried j) (HandleError worker_Emit (j_ctx j) (j_Task j) e w1).2) as [d Hd]; [lia|].
  by rewrite Hd.
Qed.

Lemma left_over_budget j w :
  job_ok j → paced j → (sum_list_with budget (left_over (run_job cfg j w).1 j) < budget j)%nat.
Proof.
  intros [_ Hr] Hp. pose proof (run_stays cfg j w) as Hs. pose proof (crash_unpaced j w) as Hc. unfold budget in *.
  destruct (run_job cfg j w).1; simpl; [lia| |lia|].
  - specialize (Hs (or_introl eq_refl)). change (j_MaxRetry (again j)) with (j_MaxRetry j). lia.
  - destruct Hc; [done|lia|done].
Qed.

Lemma left_over_sum (g : job → bool) f j (h : job → nat) :
  (∀ j', j_Task j' = j_Task j → g j' = g j) →
  sum_list_with (λ j', if g j' then h j' else 0) (left_over f j) =
  if g j then sum_list_with h (left_over f j) else 0.
Proof. intros Hg. destruct f; simpl; rewrite ?(Hg (again j)) by done; by destruct (g j). Qed.

Lemma left_over_paced f j : paced j → Forall paced (left_over f j).
Proof.
  intros Hp. destruct f; simpl; [by constructor| |by constructor|by apply Forall_singleton].
  apply Forall_singleton. intros k w Hk. apply Hp. change (j_MaxRetry (again j)) with (j_MaxRetry j) in Hk. simpl in Hk. lia.
Qed.

Lemma events_budget ts : Forall is_event ts → sum_list_with (λ j, if is_delivery j then budget j else 0) (new_job <$> ts) = 0.
Proof.
  induction 1 as [|t ts (Ht & _) _ IH]; [done|]. csimpl. unfold is_delivery at 1. simpl. rewrite Ht.
  by rewrite bool_decide_eq_false_2.
Qed.

(** With the default delays up to 25 retries can be waited for. *)
Lemma default_paced {RL : RandLaws E} j :
  cfg_MinRetryDelay cfg = default_MinRetryDelay → cfg_MaxRetryDelay cfg = default_MaxRetryDelay →
  (0 ≤ j_Retried j)%Z → (j_MaxRetry j ≤ 25)%Z → paced j.
Proof.
  intros Hlo Hhi H0 H25 k w Hk. unfold worker_RetryDelayFunc, RetryDelayForTask. rewrite Hlo, Hhi.
  case_bool_decide; [unfold fmap, ST_fmap; destruct (WebhookEventRetryDelay k w); by eexists|].
  destruct (worker_retryDelay_range default_MinRetryDelay default_MaxRetryDelay k w) as (d & -> & _); [done|done|lia| |done|by eexists].
  unfold in_int64, int64_min, int64_max, default_MinRetryDelay, Second.
  assert (1 ≤ 2 ^ k ≤ 2 ^ 25)%Z by (split; [apply (Z.pow_le_mono_r 2 0 k); lia|apply Z.pow_le_mono_r; lia]). lia.
Qed.

(** A turn of the worker uses up a run. *)
Lemma work_decreases s s' :
  sound s → Forall paced (q_pending s.2) → work cfg s s' →
  Forall paced (q_pending s'.2) ∧
  (delivery_budget s' < delivery_budget s ∨
   delivery_budget s' = delivery_budget s ∧ event_budget s' < event_budget s)%nat.
Proof.
  intros Hsound Hpaced Hw. destruct Hw as [w q pre j post Hq Hs run].
  destruct (work_queue cfg w q pre j post Hsound Hq Hs) as (ts & Hev & Hpend). fold run in Hpend.
  pose proof (sound_jobs _ Hsound) as Hjobs. simpl in *. rewrite Hq in Hjobs, Hpaced.
  apply Forall_app in Hjobs as [_ [Hj _]%Forall_cons]. apply Forall_app in Hpaced as [Hpre [Hpj Hpost]%Forall_cons].
  pose proof (left_over_budget j w Hj Hpj) as Hlt. fold run in Hlt. split.
  - rewrite Hpend, !Forall_app. split_and!; [done|by apply left_over_paced|done|].
    apply Forall_fmap. eapply Forall_impl; [exact Hev|]. apply event_paced.
  - unfold delivery_budget, event_budget. simpl. destruct (is_delivery j) eqn:Hd.
    + left. rewrite Hpend, Hq, !sum_list_with_app, events_budget by done.
      rewrite (left_over_sum is_delivery) by (unfold is_delivery; by intros ? ->). simpl. rewrite Hd. lia.
    + right. destruct (served_kind j Hj Hs) as [(n & c & Ht)|He].
      { unfold is_delivery in Hd. by rewrite Ht in Hd. }
      assert (w_tasks run.2 = w_tasks w ++ []) as Htasks.
      { pose proof (run_event_reads cfg j He w) as H. unfold same, tables_and_queue in H. rewrite app_nil_r. by injection H. }
      rewrite (new_tasks_app _ _ _ Htasks). simpl. rewrite settle_pending, Hq, !sum_list_with_app.
      rewrite (left_over_sum is_delivery) by (unfold is_delivery; by intros ? ->).
      pose proof (left_over_sum (negb ∘ is_delivery) run.1 j budget ltac:(unfold is_delivery; simpl; by intros ? ->)) as He'.
      simpl in He'. rewrite Hd in He'. simpl in *. rewrite Hd.
      assert (sum_list_with (λ j', if is_delivery j' then 0 else budget j') (left_over run.1 j) =
              sum_list_with (λ j', if negb (is_delivery j') then budget j' else 0) (left_over run.1 j)) as ->.
      { clear. induction (left_over run.1 j) as [|x l IH]; [done|]. simpl. rewrite IH. by destruct (is_delivery x). }
      rewrite He'. lia.
Qed.

(** With the default delays, a task that fails at its 31st run for another reason
    than a permanent one ends the process, and is still there afterwards. *)
Lemma overflow_crashes_worker j w e w1 :
  cfg_MinRetryDelay cfg = default_MinRetryDelay → cfg_MaxRetryDelay cfg = default_MaxRetryDelay →
  task_Type (j_Task j) ≠ TypeWebhookEvent → j_Retried j = 30%Z → (30 < j_MaxRetry j)%Z →
  worker_mux (j_ctx j) (j_Task j) w = (Err e, w1) → errors_Is e SkipRetry = false →
  (run_job cfg j w).1 = Crash ∧ left_over Crash j = [j].
Proof.
  intros Hlo Hhi Ht H30 Hmax Hrun He. split; [|done]. unfold run_job. rewrite ST_bind_run, Hrun. cbn [fst snd].
  rewrite ST_bind_run, He. rewrite (proj2 (Z.leb_gt _ _)) by lia. cbn [orb]. rewrite ST_bind_run.
  unfold worker_RetryDelayFunc, RetryDelayForTask. rewrite bool_decide_eq_false_2 by done. rewrite Hlo, Hhi, H30. reflexivity.
Qed.

(** Idle: nothing is left in the queues it serves. *)
Lemma work_idle s : nf (work cfg) s → Forall (λ j, served j = false) (q_pending s.2).
Proof.
  intros Hnf. apply Forall_forall. intros j Hj. destruct (served j) eqn:Hs; [|done]. destruct Hnf.
  destruct s as [w q]. simpl in Hj. apply list_elem_of_split in Hj as (pre & post & Hq).
  eexists. by eapply (work_run cfg w q pre j post).
Qed.
End draining.

(** ** The scheduled tasks *)

Section scheduled.
Context {E : Env} {UL : UuidLaws E} {PL : PgLaws E} {ML : Mail} {J : Jwt} {T : Telegram} (cfg : Config).

Definition maintenance (j : job) : bool := bool_decide (task_Type (j_Task j) ∈ [TypeRetentionPurge; TypeUsageReconcile]).

(** The maintenance tasks in the queue, with how often they were retried. *)
Definition waiting (s : system) : list job := filter (λ j, maintenance j = true) (q_pending s.2).

Lemma sent_not_maintenance ts : Forall is_sent ts → filter (λ j, maintenance j = true) (new_job <$> ts) = [].
Proof. induction 1 as [|t ts (n & c & ->) _ IH]; [done|]. csimpl. by rewrite filter_cons_False. Qed.

Lemma events_not_maintenance ts : Forall is_event ts → filter (λ j, maintenance j = true) (new_job <$> ts) = [].
Proof.
  induction 1 as [|t ts (Ht & _) _ IH]; [done|]. csimpl. rewrite filter_cons_False; [done|].
  unfold maintenance. simpl. by rewrite Ht.
Qed.

Lemma served_not_maintenance j : job_ok j → served j = true → maintenance j = false.
Proof.
  intros Hj Hs. unfold maintenance. destruct (served_kind j Hj Hs) as [(n & c & ->)|(-> & _)]; done.
Qed.

Lemma left_over_not_maintenance f j : maintenance j = false → filter (λ j, maintenance j = true) (left_over f j) = [].
Proof.
  intros Hm. destruct f; simpl; [done| |done|]; (rewrite filter_cons_False; [done|]).
  - change (maintenance (again j)) with (maintenance j). by rewrite Hm.
  - by rewrite Hm.
Qed.

(** No step starts a waiting task. *)
Lemma sstep_waiting s s' : sound s → sstep cfg s s' → waiting s `prefix_of` waiting s'.
Proof.
  intros Hsound Hstep. unfold waiting.
  destruct Hstep as [w q sm rt r Hm Hrt w' Hnd Hh Hnew|s s' Hw|w q cron t Ht|w q u calls Hb|w q]; simpl; [| | |done..].
  - rewrite puts_fresh by done. pose proof (router_evolving (api_deps cfg) sm Hm) as Hev. rewrite Forall_forall in Hev.
    destruct (Hev rt Hrt r w (sound_app _ Hsound)) as [_ Hrun].
    destruct (changes_tasks _ _ Hrun) as (ts & Hts & Hf). unfold w'. rewrite (new_tasks_app _ _ _ Hts).
    unfold append. simpl. rewrite filter_app, sent_not_maintenance, app_nil_r; done.
  - destruct Hw as [w q pre j post Hq Hs run].
    destruct (work_queue cfg w q pre j post Hsound Hq Hs) as (ts & Hev & Hpend). fold run in Hpend.
    pose proof (sound_jobs _ Hsound) as Hjobs. simpl in *. rewrite Hpend, Hq in *.
    apply Forall_app in Hjobs as [_ [Hj _]%Forall_cons]. pose proof (served_not_maintenance j Hj Hs) as Hm.
    rewrite !filter_app, left_over_not_maintenance, events_not_maintenance, app_nil_r by done.
    by rewrite filter_cons_False; [|rewrite Hm].
  - rewrite (put_scheduled q cron t Ht). unfold append. simpl. rewrite filter_app. by eexists.
Qed.
End scheduled.

(** * Claims *)

(** C4: In every state the processes can reach from a new installation, whatever round trips and peers fail, the
    tables satisfy the application's invariant (keys and references, notifications on channels of their own
    tenant and type, known channel types, validated webhook endpoints, at most three per tenant), every task in
    the queue was made by Send, by an emission or by the scheduler and was retried at most as often as its
    limit, and no two tasks deliver the same notification. *)
Theorem system_invariant {E : Env} {UL : UuidLaws E} {PL : PgLaws E} {ML : Mail} {J : Jwt} {T : Telegram} cfg s :
  reachable cfg s →
  app_ok (w_db s.1) ∧ NoDup (omap job_notification (q_pending s.2)) ∧
  Forall (λ j, task_kind (j_Task j) ∧ (0 ≤ j_Retried j ≤ j_MaxRetry j)%Z) (q_pending s.2).
Proof. intros H. destruct (reachable_sound cfg s H) as [H1 H2 H3]. done. Qed.



(** C5: The retention and usage tasks the scheduler enqueues are in no queue the worker serves: from any
    reachable state and after any further steps, every such task that was waiting is still waiting, in the same
    order and never having been run. *)
Theorem scheduled_tasks_never_run {E : Env} {UL : UuidLaws E} {PL : PgLaws E} {ML : Mail} {J : Jwt} {T : Telegram} cfg s s' :
  reachable cfg s → rtc (sstep cfg) s s' → waiting s `prefix_of` waiting s' ∧ Forall (λ j, served j = false) (waiting s').
Proof.
  intros Hreach Hrun.
  assert (sound s) as Hs by (by eapply reachable_sound).
  assert (sound s' ∧ waiting s `prefix_of` waiting s') as [Hs' Hpre].
  { clear Hreach. induction Hrun as [|s1 s2 s3 Hstep _ IH]; [done|].
    destruct (IH (sstep_sound cfg s1 s2 Hstep Hs)) as [? ?]. split; [done|]. etrans; [by eapply sstep_waiting|done]. }
  split; [done|]. apply Forall_forall. intros j [Hm Hj]%list_elem_of_filter.
  destruct (served j) eqn:Hj'; [|done]. pose proof (sound_jobs _ Hs') as Hjobs. rewrite Forall_forall in Hjobs.
  by rewrite (served_not_maintenance j (Hjobs j Hj) Hj') in Hm.
Qed.


(** * Witnesses *)

Section witnesses.
#[local] Existing Instance healthy.

Lemma system_invariant_witness :
  app_ok (w_db run_due.1) ∧ NoDup (omap job_notification (q_pending run_due.2)) ∧
  Forall (λ j, task_kind (j_Task j) ∧ (0 ≤ j_Retried j ≤ j_MaxRetry j)%Z) (q_pending run_due.2).
Proof. apply (system_invariant run_cfg run_due run_due_reachable). Defined.


(** The notification of the run. *)
Definition run_row : Notification := default (mkNotification uuid_Nil uuid_Nil uuid_Nil "" None "" None "" None 0 0 None None None 0 0)
  (notifications (w_db run3) !! run_notification).

Lemma run_row_stored : notifications (w_db run_due.1) !! run_notification = Some run_row.
Proof. vm_compute. reflexivity. Qed.


Lemma run_paced : Forall (paced run_cfg) (q_pending run_due.2).
Proof.
  assert (Forall (λ j, bool_decide (0 ≤ j_Retried j ∧ j_MaxRetry j ≤ 25)%Z = true) (q_pending run_due.2)) as H.
  { repeat constructor. }
  eapply Forall_impl; [exact H|]. intros j [H0 H25]%bool_decide_eq_true. apply default_paced; [apply sample_rand_laws|reflexivity|reflexivity|done|done].
Qed.


Lemma scheduled_tasks_witness : [new_job purge_task] `prefix_of` waiting run_done ∧ Forall (λ j, served j = false) (waiting run_done).
Proof.
  assert (waiting run_due = [new_job purge_task]) as <- by (vm_compute; reflexivity).
  apply (scheduled_tasks_never_run run_cfg run_due run_done run_due_reachable (rtc_once _ _ run_done_step)).
Defined.
End witnesses.
